(* ===== verification/_CoqProject ===== *)
-Q . S2P
Prelude.v
Abi.v
SysCallAbi.v
Server.v
ServerSpec.v
Irq.v
Epoch.v
Machine.v
Paging.v
MemoryManager.v
MemoryFacts.v
Memory.v
TableWords.v
PageTableSpec.v
PageSafety.v
ArchProcess.v
Scheduler.v
SchedulerFacts.v
SchedulerInv.v
ContextSwitch.v
Transfer.v
TransferFacts.v
Services.v
ServicesFacts.v
ConnectionInv.v
Waiting.v
Syscall.v
SyscallInv.v
Trap.v
TrapInv.v
ImageWriter.v
ImageFacts.v
BootArgs.v
BootArgsFacts.v
Boot.v
BootFacts.v
Port.v
Ticktimer.v
TicktimerFacts.v
TicktimerInv.v
TicktimerSteps.v
TicktimerTurns.v
TicktimerSafe.v
Names.v
NamesFacts.v
NamesSafe.v
NamesClient.v
NamesKernel.v
