(* ===== verification/Prelude.v ===== *)
(** * Xous: a verified model of the kernel, of its start and of two of its servers

    Xous is a microkernel for 32-bit RISC-V.  Processes talk to each other by
    messages to servers; a message can carry memory, which moves to the receiver
    or is lent to it until the reply.  This library models the kernel
    (src/kernel), the ABI that processes use to call it (src/xous-rs), and the
    path from the tool that writes a boot image (src/tools) to the first
    scheduling decision, and the user-space servers that keep time
    (src/services/xous-ticktimer) and names (src/services/xous-names), and proves
    that the parts do what they promise.

    ** The parts and the files that model them

    - The ABI.  [Abi.v] has the types of src/xous-rs/src/definitions.rs and
      src/xous-rs/src/definitions/ with the encoding of results into registers;
      [SysCallAbi.v] has the encoder and the decoder of system calls of
      src/xous-rs/src/syscall.rs.
    - Servers.  [Server.v] is the message queue of src/kernel/src/server.rs: 128
      slots whose order is given by 8-bit generation numbers.  [ServerSpec.v] is
      the FIFO queue with owed replies that it implements.
    - Interrupts.  [Irq.v] is the table of handlers of src/kernel/src/irq.rs with
      the mask register of src/kernel/src/arch/riscv/irq.rs.
    - Memory.  [Machine.v] has the state of the machine (the register [satp], the
      page of each process, the interface [MemOps] of the memory); [Paging.v] the
      page tables of src/kernel/src/arch/riscv/mem.rs; [MemoryManager.v] the
      operations of src/kernel/src/mem.rs on address spaces; [Memory.v] the words
      of memory, the translation of addresses and the owners of pages, an
      instance of [MemOps] that satisfies the laws [MemLaws] of [MemoryFacts.v].
      [TableWords.v] reads address spaces out of the words of memory,
      [PageTableSpec.v] specifies them as functions from virtual pages to entries,
      and [PageSafety.v] has what follows for the pages of memory.
      [Epoch.v] has the ages of pages for the swapper of src/kernel/src/swap.rs.
    - Processes.  [ArchProcess.v] has the thread contexts of
      src/kernel/src/arch/riscv/process.rs; [Scheduler.v] the process table of
      src/kernel/src/services.rs and the choice of the next thread;
      [Transfer.v] the memory of messages; [Services.v] the creation and the end
      of processes, servers and connections.
    - Entry.  [Syscall.v] is the dispatcher of src/kernel/src/syscall.rs with
      every handler; [Trap.v] the trap handler of src/kernel/src/arch/riscv/irq.rs
      with the decoding of its cause.
    - Start.  [ImageWriter.v] is the writer of boot images of src/tools/src;
      [BootArgs.v] the readers of src/kernel/src/args.rs and
      src/loader/src/args.rs; [Boot.v] the start of the kernel and its main loop.
    - Time.  [Ticktimer.v] is the server of src/services/xous-ticktimer, with its
      timer for the Precursor platform and the interrupt handler of the alarm.
    - Names.  [Names.v] is the server of src/services/xous-names, which connects
      processes to servers by name, with the client library of
      src/api/xous-api-names that talks to it.

    A trap enters through [Trap.v], which calls the dispatcher of [Syscall.v] or
    the interrupt handler; these work on the kernel state [Kernel] of
    [Scheduler.v], a record of the machine, the process table, the servers and the
    interrupt handlers, through the operations of [Services.v], [Transfer.v] and
    [Scheduler.v], and those on the memory through the interface [MemOps].  The
    two servers see the kernel through [Port.v]: their own queue, as
    [ServerSpec.v] specifies it, and the processes that have ended.  What the name
    server asks of the kernel besides, a connection on behalf of a client, is the
    class [Broker] of [Names.v] with the laws [BrokerLaws] of [NamesFacts.v];
    [NamesKernel.v] proves the laws of the kernel of [Services.v].

    ** How the code is modelled

    A function that changes state is a function from the state to an [outcome]: a
    result or an error, each with the new state, so that what was changed before
    an early return stays changed; a panic; or [RStuck], a loop without fuel.  The
    predicate [sat] of this file says that a run ends without [RStuck] and what
    holds of its result or its error; a panic stops the machine and satisfies it,
    so theorems in terms of [sat] do not exclude panics, and the theorems that do
    name the result.  A machine word is a [Z] with the wrap-around written out,
    as the release build computes it.

    The build is the baremetal riscv32 one in release mode, without gdb-stub, and
    without swap except in [Epoch.v].

    ** What the theorems show

    - [ServerSpec.v]: the queue refines the FIFO specification for every sequence
      of operations; messages arrive in order, and a reply works once.
    - [SchedulerInv.v], [SyscallInv.v], [TrapInv.v]: the scheduler's invariant and
      the well-formedness of the queues survive the scheduler operations, the
      system calls and the traps within the named conditions, and all loops end;
      [ContextSwitch.v] shows that a message to a full queue breaks it, and
      [TrapInv.v] that a fault in an interrupt handler can.
    - [ContextSwitch.v]: the exact effect of a context switch, and that the choice
      of threads is fair.
    - [ServicesFacts.v], [ConnectionInv.v]: connection numbers lead to the server
      they were given for, and none survives its server.
    - [PageTableSpec.v]: every sequence of operations on the page tables does what
      the specification does, and nothing else to any address space;
      [PageSafety.v]: so no page of memory is accessible twice, and a loan and its
      return leave every entry as it was; lending ignores the user flag.
    - [Memory.v]: an allocation takes a free page, and mapping a page ends.
    - [TransferFacts.v]: a transfer returns to the address space of its caller and
      picks unused addresses; the ways in which it differs from its documentation.
    - [Abi.v], [SysCallAbi.v]: decoding inverts encoding, and what decoding does on
      arbitrary words.
    - [Irq.v]: an interrupt is unmasked exactly while it is claimed.
    - [Epoch.v]: ages order the pages by their last use, across renormalizations.
    - [ImageFacts.v], [BootArgsFacts.v], [BootFacts.v]: payloads are where the tags
      say, the readers return what was written, the kernel starts from a written
      image and a table of the loader in a state that satisfies its invariant, and
      the main loop gives every process its turn.
    - [TicktimerFacts.v] has the timer, [TicktimerInv.v] the invariant of the
      server, [TicktimerSteps.v] and [TicktimerTurns.v] that every handler keeps
      it; [TicktimerSafe.v]: outside of the named cases the server does not panic,
      every reply that it owes is for the message in hand or for a thread in its
      heap or tables, no sleeper wakes early, and none is due much later than it
      asked for.
    - [NamesFacts.v] has the invariant of the name server; [NamesSafe.v]: every
      request keeps it and is answered, the limit on the connections of a name
      holds, and registering a name answers everyone who waits for it;
      [NamesClient.v]: what the client library does with the answers, and the
      requests that stop the name server; [NamesKernel.v]: the connection a client
      is given, at once, after waiting or by a lookup, leads, in the kernel, to the
      server registered under the name.

    ** Bounds and fuel

    A loop over the 128 slots of a queue has fuel for one round, one over the 32
    threads of a process has fuel 33; [map_page] nests at most three times, since
    a missing leaf table is mapped through the window, whose own table can be
    missing; the readers of boot arguments have one turn for each word, since a tag
    has two at least; a renormalization has fuel for one pass more than there
    are pages;
    the search for a free key of the heap of the ticktimer makes one turn more than
    the heap has entries; the name server tries a connection again as often as the
    schedule of the other processes has steps.
    The theorems show that the fuel is never used up.

    ** Not modelled

    - The ARM, hosted and x86-64 ports, the gdb stub, the console and the platform
      drivers: other targets, or device access and printing.
    - The protocol with the swapper process, and the system calls of the optional
      features v2p, swap, raw-trng and bao1x, other than their encoding.
    - The translation cache, and the caches of the processor.
    - The boot loaders other than their use of the boot arguments, the conversion
      of ELF files, user-space services other than the ticktimer and the name
      server, applications and libraries, generated register definitions and fonts.
    - Of the ticktimer: the platforms other than Precursor, the start of the
      hardware, the watchdog and the serialization of the version string.
    - Of the name server: the time that passes in its busy wait, the serialization
      of names in a buffer, and the log. *)

From Stdlib Require Import ZArith Lia Bool.
From stdpp Require Import base numbers list option.

#[global] Set Default Goal Selector "!".
#[local] Open Scope Z_scope.

(** ** Machine integers

    The modelled target is the 32-bit RISC-V build.  A [usize] (or a [u8],
    [u16], [u32]) is a [Z]; the width is written out where an operation can
    leave its range.  The kernel is built in release mode, so plain [+], [-],
    [*] wrap and the amount of a shift is taken modulo 32. *)

Declare Scope kernel_scope.
Delimit Scope kernel_scope with kernel.

Definition modulus (bits : Z) : Z := 2 ^ bits.

Definition wrap (bits x : Z) : Z := x mod modulus bits.

Definition in_width (bits x : Z) : Prop := 0 <= x < modulus bits.

Definition u8 (x : Z) : Z := wrap 8 x.
Definition u16 (x : Z) : Z := wrap 16 x.
Definition u32 (x : Z) : Z := wrap 32 x.

Definition usize_MAX : Z := 4294967295.

Definition add32 (a b : Z) : Z := u32 (a + b).
Definition sub32 (a b : Z) : Z := u32 (a - b).
Definition mul32 (a b : Z) : Z := u32 (a * b).
Definition shl32 (a n : Z) : Z := u32 (Z.shiftl a (n mod 32)).
Definition shr32 (a n : Z) : Z := Z.shiftr a (n mod 32).
Definition not32 (a : Z) : Z := usize_MAX - a.

(** [1 << tid] on a [usize]. *)
Definition bit (tid : Z) : Z := shl32 1 tid.

(** [mask & (1 << tid) != 0]. *)
Definition has_bit (mask tid : Z) : bool := negb (Z.land mask (bit tid) =? 0)%Z.

(** [mask | (1 << tid)] and [mask & !(1 << tid)]. *)
Definition set_bit (mask tid : Z) : Z := Z.lor mask (bit tid).
Definition clear_bit (mask tid : Z) : Z := Z.land mask (not32 (bit tid)).

(** [NonZeroU8::new] and [NonZeroUsize::new]; [get_or_0] is
    [x.map(|x| x.get()).unwrap_or(0)]. *)
Definition NonZero_new (x : Z) : option Z := if (x =? 0)%Z then None else Some x.

Definition get_or_0 (x : option Z) : Z := default 0%Z x.

(** ** Outcomes of fallible code

    A Rust function that takes [&mut self] and returns a [Result] is a function
    from the state to an [outcome].  [RErr] keeps the state, because an early
    return through [?] keeps every mutation made before it.  [RPanic] is a
    kernel panic and [RStuck] marks a loop whose fuel ran out; the theorems
    about loops show that [RStuck] is never reached. *)

Inductive outcome (E S A : Type) : Type :=
| ROk (s : S) (a : A)
| RErr (s : S) (e : E)
| RPanic
| RStuck.

Arguments ROk {E S A} s a.
Arguments RErr {E S A} s e.
Arguments RPanic {E S A}.
Arguments RStuck {E S A}.

Section Monad.
Context {E S : Type}.

Definition ret {A} (a : A) : S -> outcome E S A := fun s => ROk s a.

Definition fail {A} (e : E) : S -> outcome E S A := fun s => RErr s e.

Definition panic {A} : S -> outcome E S A := fun _ => RPanic.

Definition bind {A B} (m : S -> outcome E S A) (k : A -> S -> outcome E S B)
  : S -> outcome E S B :=
  fun s => match m s with
           | ROk s' a => k a s'
           | RErr s' e => RErr s' e
           | RPanic => RPanic
           | RStuck => RStuck
           end.

Definition gets {A} (f : S -> A) : S -> outcome E S A := fun s => ROk s (f s).

Definition modify (f : S -> S) : S -> outcome E S unit := fun s => ROk (f s) tt.

(** [x.ok_or(e)?] *)
Definition ok_or {A} (o : option A) (e : E) : S -> outcome E S A :=
  fun s => match o with Some a => ROk s a | None => RErr s e end.

(** [x.unwrap()] on an [Option] and [assert!(b)]. *)
Definition unwrap {A} (o : option A) : S -> outcome E S A :=
  fun s => match o with Some a => ROk s a | None => RPanic end.

Definition assert_ (b : bool) : S -> outcome E S unit :=
  fun s => if b then ROk s tt else RPanic.

(** [m.unwrap()] on a [Result]: an error is a panic. *)
Definition unwrap_result {A} (m : S -> outcome E S A) : S -> outcome E S A :=
  fun s => match m s with RErr _ _ => RPanic | r => r end.

(** [m.ok()]: an error becomes [None] and the state it left is kept. *)
Definition ok {A} (m : S -> outcome E S A) : S -> outcome E S (option A) :=
  fun s => match m s with
           | ROk s' a => ROk s' (Some a)
           | RErr s' _ => ROk s' None
           | RPanic => RPanic
           | RStuck => RStuck
           end.

(** [m] as a value: the error, or the result. *)
Definition attempt {A} (m : S -> outcome E S A) : S -> outcome E S (E + A) :=
  fun s => match m s with
           | ROk s' a => ROk s' (inr a)
           | RErr s' e => ROk s' (inl e)
           | RPanic => RPanic
           | RStuck => RStuck
           end.

(** [m.map_err(f)] for an [f] without effects. *)
Definition map_err {A} (f : E -> E) (m : S -> outcome E S A) : S -> outcome E S A :=
  fun s => match m s with RErr s' e => RErr s' (f e) | r => r end.
End Monad.

Notation "x <- m ;; k" := (bind m (fun x => k))
  (at level 20, m at level 99, k at level 200) : kernel_scope.
Notation "' p <- m ;; k" := (bind m (fun x => let 'p := x in k))
  (at level 20, p pattern, m at level 99, k at level 200) : kernel_scope.
Notation "m ;;; k" := (bind m (fun _ => k))
  (at level 100, right associativity) : kernel_scope.

(** Run an operation of a component on the part of a larger state that the
    component owns. *)
Definition zoom {E S T A} (get : T -> S) (put : S -> T -> T)
    (m : S -> outcome E S A) : T -> outcome E T A :=
  fun t => match m (get t) with
           | ROk s a => ROk (put s t) a
           | RErr s e => RErr (put s t) e
           | RPanic => RPanic
           | RStuck => RStuck
           end.

(** A [for] loop over a list of values, each iteration fallible. *)
Fixpoint for_each {E S A} (l : list A) (f : A -> S -> outcome E S unit)
    : S -> outcome E S unit :=
  match l with
  | [] => ret tt
  | x :: l' => bind (f x) (fun _ => for_each l' f)
  end.

(** [(from..to).step_by(step)] as the list of the values the iterator yields. *)
Definition step_by (from to step : Z) : list Z :=
  map (fun k => from + Z.of_nat k * step)%Z
      (seq 0 (Z.to_nat ((to - from + step - 1) / step))).

(** The index of the first element that satisfies [f]. *)
Fixpoint find_index {A} (f : A -> bool) (l : list A) : option nat :=
  match l with
  | [] => None
  | x :: l => if f x then Some 0%nat else S <$> find_index f l
  end.

(** The run [r] returns, and its result and final state satisfy [post]. *)
Definition returns {E S A} (r : outcome E S A) (post : S -> A -> Prop) : Prop :=
  match r with ROk s a => post s a | _ => False end.

(** The run [r] returns the error [e]. *)
Definition fails_with {E S A} (r : outcome E S A) (e : E) : Prop :=
  match r with RErr _ e' => e' = e | _ => False end.

(** ** Automation *)

Create HintDb xous.

(** Split every boolean comparison of the goal and the hypotheses into the
    inequality it decides. *)
Ltac zbool :=
  repeat match goal with
  | H : (_ =? _)%Z = true |- _ => apply Z.eqb_eq in H
  | H : (_ =? _)%Z = false |- _ => apply Z.eqb_neq in H
  | H : (_ <? _)%Z = true |- _ => apply Z.ltb_lt in H
  | H : (_ <? _)%Z = false |- _ => apply Z.ltb_ge in H
  | H : (_ <=? _)%Z = true |- _ => apply Z.leb_le in H
  | H : (_ <=? _)%Z = false |- _ => apply Z.leb_gt in H
  | H : (_ && _)%bool = true |- _ => apply andb_prop in H; destruct H
  | H : (_ || _)%bool = false |- _ => apply orb_false_elim in H; destruct H
  | H : negb _ = true |- _ => apply negb_true_iff in H
  | H : negb _ = false |- _ => apply negb_false_iff in H
  end.

(** Split a goal that is a boolean conjunction into its conjuncts. *)
Ltac andb_split :=
  repeat match goal with |- (_ && _)%bool = true => apply andb_true_intro; split end.

(** Case on the scrutinee of the outermost [if] or [match] of the goal. *)
Ltac case_if :=
  match goal with
  | |- context [if ?b then _ else _] => destruct b eqn:?
  | |- context [match ?x with _ => _ end] => destruct x eqn:?
  end.

(** ** Lemmas on machine integers *)

Lemma modulus_pos (w : Z) : (0 <= w -> 0 < modulus w)%Z.
Proof. intros. unfold modulus. lia. Qed.

Lemma wrap_in_width (w x : Z) : (0 <= w)%Z -> in_width w (wrap w x).
Proof. intros. unfold in_width, wrap. apply Z.mod_pos_bound, modulus_pos, H. Qed.

Lemma wrap_id (w x : Z) : in_width w x -> wrap w x = x.
Proof. intros. unfold wrap. apply Z.mod_small, H. Qed.

Lemma u8_id (x : Z) : (0 <= x < 256)%Z -> u8 x = x.
Proof. intros. apply Z.mod_small. exact H. Qed.

Lemma u32_id (x : Z) : (0 <= x < 4294967296)%Z -> u32 x = x.
Proof. intros. apply Z.mod_small. exact H. Qed.

Lemma u8_range (x : Z) : (0 <= u8 x < 256)%Z.
Proof. apply (wrap_in_width 8). lia. Qed.

Lemma u32_range (x : Z) : (0 <= u32 x < 4294967296)%Z.
Proof. apply (wrap_in_width 32). lia. Qed.

(** The disjoint fields of a packed word add up. *)
Lemma lor_shiftl_add (a b n : Z) :
  (0 <= n -> 0 <= b < 2 ^ n -> Z.lor (Z.shiftl a n) b = a * 2 ^ n + b)%Z.
Proof.
  intros Hn Hb. rewrite Z.shiftl_mul_pow2 by lia.
  rewrite Z.add_nocarry_lxor.
  - apply Z.bits_inj'. intros i Hi.
    rewrite Z.lxor_spec, Z.lor_spec.
    destruct (Z.lt_ge_cases i n) as [Hlt | Hge].
    + rewrite Z.mul_pow2_bits_low by lia. by destruct (Z.testbit b i).
    + rewrite <- (Z.mod_small b (2 ^ n)) by lia.
      rewrite Z.mod_pow2_bits_high by lia.
      by destruct (Z.testbit (a * 2 ^ n) i).
  - apply Z.bits_inj'. intros i Hi. rewrite Z.land_spec, Z.bits_0.
    destruct (Z.lt_ge_cases i n) as [Hlt | Hge].
    + by rewrite Z.mul_pow2_bits_low by lia.
    + rewrite <- (Z.mod_small b (2 ^ n)) by lia.
      rewrite Z.mod_pow2_bits_high by lia. by rewrite andb_false_r.
Qed.

(** [x & (2^n - 1)] and [x >> n] as arithmetic. *)
Lemma land_mask (x n m : Z) : (0 <= n -> m = Z.ones n -> Z.land x m = x mod 2 ^ n)%Z.
Proof. intros ? ->. by apply Z.land_ones. Qed.

Lemma shiftr_div (x n : Z) : (0 <= n -> Z.shiftr x n = x / 2 ^ n)%Z.
Proof. apply Z.shiftr_div_pow2. Qed.

Lemma testbit_above (x n i : Z) :
  (0 <= x < 2 ^ n -> 0 <= n <= i -> Z.testbit x i = false)%Z.
Proof.
  intros Hx Hi. rewrite <- (Z.mod_small x (2 ^ n)) by lia.
  apply Z.mod_pow2_bits_high. lia.
Qed.

Lemma bit_pow (tid : Z) : (0 <= tid < 32 -> bit tid = 2 ^ tid)%Z.
Proof.
  intros H. unfold bit, shl32. rewrite (Z.mod_small tid 32) by lia.
  rewrite Z.shiftl_1_l. apply u32_id. split; [lia |].
  apply (Z.pow_lt_mono_r 2 tid 32); lia.
Qed.

Lemma bit_spec (tid i : Z) :
  (0 <= tid < 32 -> 0 <= i -> Z.testbit (bit tid) i = (i =? tid))%Z.
Proof.
  intros H Hi. rewrite bit_pow by lia. rewrite Z.pow2_bits_eqb by lia.
  apply Z.eqb_sym.
Qed.

Lemma not32_spec (a i : Z) :
  (0 <= a < 4294967296 -> 0 <= i ->
   Z.testbit (not32 a) i = negb (Z.testbit a i) && (i <? 32))%Z.
Proof.
  intros Ha Hi. unfold not32, usize_MAX.
  replace (4294967295 - a)%Z with (Z.lxor (Z.ones 32) a).
  - rewrite Z.lxor_spec. destruct (Z.ltb_spec i 32).
    + rewrite Z.ones_spec_low by lia. by destruct (Z.testbit a i).
    + rewrite Z.ones_spec_high by lia. rewrite (testbit_above a 32) by lia. done.
  - change 4294967295%Z with (Z.ones 32).
    rewrite Z.sub_nocarry_ldiff.
    + apply Z.bits_inj'. intros j Hj. rewrite Z.lxor_spec, Z.ldiff_spec.
      destruct (Z.lt_ge_cases j 32).
      * rewrite Z.ones_spec_low by lia. by destruct (Z.testbit a j).
      * rewrite Z.ones_spec_high by lia. by rewrite (testbit_above a 32) by lia.
    + apply Z.bits_inj'. intros j Hj. rewrite Z.ldiff_spec, Z.bits_0.
      destruct (Z.lt_ge_cases j 32).
      * rewrite Z.ones_spec_low by lia. by rewrite andb_false_r.
      * by rewrite (testbit_above a 32) by lia.
Qed.

Lemma has_bit_testbit (m tid : Z) : (0 <= tid < 32 -> has_bit m tid = Z.testbit m tid)%Z.
Proof.
  intros H. unfold has_bit. destruct (Z.testbit m tid) eqn:E.
  - apply negb_true_iff, Z.eqb_neq. intros H0.
    assert (Z.testbit (Z.land m (bit tid)) tid = true) as Ht.
    { rewrite Z.land_spec, bit_spec, E, Z.eqb_refl by lia. done. }
    rewrite H0, Z.bits_0 in Ht. done.
  - apply negb_false_iff, Z.eqb_eq. apply Z.bits_inj'. intros i Hi.
    rewrite Z.land_spec, bit_spec, Z.bits_0 by lia.
    destruct (Z.eqb_spec i tid) as [-> | ]; [by rewrite E | by rewrite andb_false_r].
Qed.

Lemma set_bit_spec (m tid i : Z) :
  (0 <= tid < 32 -> 0 <= i ->
   Z.testbit (set_bit m tid) i = Z.testbit m i || (i =? tid))%Z.
Proof. intros. unfold set_bit. by rewrite Z.lor_spec, bit_spec. Qed.

Lemma clear_bit_spec (m tid i : Z) :
  (0 <= m < 4294967296 -> 0 <= tid < 32 -> 0 <= i ->
   Z.testbit (clear_bit m tid) i = Z.testbit m i && negb (i =? tid))%Z.
Proof.
  intros Hm Ht Hi. unfold clear_bit. rewrite Z.land_spec, not32_spec, bit_spec.
  - destruct (Z.ltb_spec i 32); [by rewrite andb_true_r |].
    by rewrite (testbit_above m 32) by lia.
  - done.
  - done.
  - rewrite bit_pow by lia. pose proof (Z.pow_lt_mono_r 2 tid 32). lia.
  - done.
Qed.

(** A value whose bits at and above [n] are clear is below [2^n]. *)
Lemma bits_bounded (x n : Z) :
  (0 <= n -> 0 <= x -> (forall i, n <= i -> Z.testbit x i = false) -> x < 2 ^ n)%Z.
Proof.
  intros Hn Hx Hb. destruct (Z.eq_dec x 0) as [-> | Hne]; [lia |].
  apply Z.log2_lt_pow2; [lia |]. destruct (Z.lt_ge_cases (Z.log2 x) n) as [|Hge]; [done |].
  specialize (Hb _ Hge). rewrite Z.bit_log2 in Hb by lia. done.
Qed.

Lemma set_bit_range (m tid : Z) :
  (0 <= m < 4294967296 -> 0 <= tid < 32 -> 0 <= set_bit m tid < 4294967296)%Z.
Proof.
  intros Hm Ht. assert (0 <= bit tid)%Z by (rewrite bit_pow; lia).
  assert (0 <= set_bit m tid)%Z by (unfold set_bit; apply Z.lor_nonneg; lia).
  split; [done |]. apply (bits_bounded _ 32); [lia | done |].
  intros i Hi. rewrite set_bit_spec by lia. rewrite (testbit_above m 32) by lia.
  apply Z.eqb_neq. lia.
Qed.

Lemma clear_bit_range (m tid : Z) :
  (0 <= m < 4294967296 -> 0 <= tid < 32 -> 0 <= clear_bit m tid < 4294967296)%Z.
Proof.
  intros Hm Ht. assert (0 <= clear_bit m tid)%Z
    by (unfold clear_bit; apply Z.land_nonneg; lia).
  split; [done |]. apply (bits_bounded _ 32); [lia | done |].
  intros i Hi. rewrite clear_bit_spec by lia. by rewrite (testbit_above m 32) by lia.
Qed.

Lemma NonZero_new_Some (x : Z) : x <> 0%Z -> NonZero_new x = Some x.
Proof. intros. unfold NonZero_new. case_if; [by zbool | done]. Qed.

Lemma NonZero_roundtrip (o : option Z) : o <> Some 0%Z -> NonZero_new (get_or_0 o) = o.
Proof.
  intros H. destruct o as [x |]; [| done]. cbn. apply NonZero_new_Some.
  intros ->. by apply H.
Qed.

(** ** Lemmas on outcomes *)

Section MonadLemmas.
Context {E S : Type}.

Lemma bind_ROk {A B} (f : S -> outcome E S A) (k : A -> S -> outcome E S B) s s' v :
  f s = ROk s' v -> bind f k s = k v s'.
Proof. unfold bind. by intros ->. Qed.

Lemma bind_RErr {A B} (f : S -> outcome E S A) (k : A -> S -> outcome E S B) s s' e :
  f s = RErr s' e -> bind f k s = RErr s' e.
Proof. unfold bind. by intros ->. Qed.

Lemma bind_assoc {A B C} (m : S -> outcome E S A) (k : A -> S -> outcome E S B)
    (l : B -> S -> outcome E S C) s :
  bind (bind m k) l s = bind m (fun a => bind (k a) l) s.
Proof. unfold bind. by destruct (m s). Qed.

Lemma returns_inv {A} (r : outcome E S A) post :
  returns r post -> exists s a, r = ROk s a /\ post s a.
Proof. destruct r; [eauto | done ..]. Qed.

Lemma returns_bind {A B} (m : S -> outcome E S A) (k : A -> S -> outcome E S B) s Q :
  returns (m s) (fun s' a => returns (k a s') Q) -> returns (bind m k s) Q.
Proof. unfold bind. by destruct (m s). Qed.

Lemma returns_mono {A} (r : outcome E S A) (Q Q' : S -> A -> Prop) :
  returns r Q -> (forall s a, Q s a -> Q' s a) -> returns r Q'.
Proof. destruct r; cbn; auto. Qed.

Lemma returns_assert (b : bool) s (Q : S -> unit -> Prop) : b = true -> Q s tt -> returns (assert_ (E := E) b s) Q.
Proof. by intros ->. Qed.

Lemma returns_unwrap_result {A} (m : S -> outcome E S A) s Q : returns (m s) Q -> returns (unwrap_result m s) Q.
Proof. unfold unwrap_result. by destruct (m s). Qed.

Lemma returns_zoom {T A} (get : T -> S) (put : S -> T -> T) (m : S -> outcome E S A) t Q :
  returns (m (get t)) (fun s a => Q (put s t) a) -> returns (zoom get put m t) Q.
Proof. unfold zoom. by destruct (m (get t)). Qed.
End MonadLemmas.

(** One step of a proof that a run returns. *)
Ltac returns_step :=
  lazymatch goal with
  | |- returns (bind _ _ _) _ => apply returns_bind
  | |- returns (assert_ _ _) _ => apply returns_assert
  | |- returns (unwrap_result _ _) _ => apply returns_unwrap_result
  | |- returns (zoom _ _ _ _) _ => apply returns_zoom
  | |- returns (ret ?a ?s) ?Q => change (Q s a); cbv beta
  | |- returns (gets ?f ?s) ?Q => change (Q s (f s)); cbv beta
  | |- returns (modify ?f ?s) ?Q => change (Q (f s) tt); cbv beta
  | |- returns (ROk ?s ?a) ?Q => change (Q s a); cbv beta
  | |- returns ((let x := _ in _) _) _ => cbv zeta
  end.

(** ** Postconditions of outcomes

    [sat r Q X]: the run [r] ends, and unless it panics it returns a result that
    satisfies [Q] or an error that satisfies [X]. *)
Definition sat {E S A} (r : outcome E S A) (Q : S -> A -> Prop) (X : S -> E -> Prop) : Prop :=
  match r with
  | ROk s a => Q s a
  | RErr s e => X s e
  | RPanic => True
  | RStuck => False
  end.

Section Sat.
Context {E S : Type}.

Lemma sat_bind {A B} (m : S -> outcome E S A) (k : A -> S -> outcome E S B) s Q X :
  sat (m s) (fun s' a => sat (k a s') Q X) X -> sat (bind m k s) Q X.
Proof. unfold bind. by destruct (m s). Qed.

Lemma sat_mono {A} (r : outcome E S A) (Q Q' : S -> A -> Prop) (X X' : S -> E -> Prop) :
  sat r Q X -> (forall s a, Q s a -> Q' s a) -> (forall s e, X s e -> X' s e) -> sat r Q' X'.
Proof. destruct r; cbn; auto. Qed.

(** Two facts about the same run. *)
Lemma sat_and {A} (r : outcome E S A) (Q Q' : S -> A -> Prop) (X X' : S -> E -> Prop) :
  sat r Q X -> sat r Q' X' -> sat r (fun s a => Q s a /\ Q' s a) (fun s e => X s e /\ X' s e).
Proof. destruct r; cbn; auto. Qed.

Lemma sat_unwrap {A} (o : option A) s (Q : S -> A -> Prop) (X : S -> E -> Prop) :
  (forall a, o = Some a -> Q s a) -> sat (unwrap o s) Q X.
Proof. destruct o; cbn; auto. Qed.

Lemma sat_ok_or {A} (o : option A) e s (Q : S -> A -> Prop) (X : S -> E -> Prop) :
  (forall a, o = Some a -> Q s a) -> (o = None -> X s e) -> sat (ok_or o e s) Q X.
Proof. destruct o; cbn; auto. Qed.

Lemma sat_assert (b : bool) s (Q : S -> unit -> Prop) (X : S -> E -> Prop) :
  (b = true -> Q s tt) -> sat (assert_ b s) Q X.
Proof. destruct b; cbn; auto. Qed.

Lemma sat_unwrap_result {A} (m : S -> outcome E S A) s Q X :
  sat (m s) Q (fun _ _ => True) -> sat (unwrap_result m s) Q X.
Proof. unfold unwrap_result. by destruct (m s). Qed.

Lemma sat_ok {A} (m : S -> outcome E S A) s (Q : S -> option A -> Prop) (X : S -> E -> Prop) :
  sat (m s) (fun s' a => Q s' (Some a)) (fun s' _ => Q s' None) -> sat (ok m s) Q X.
Proof. unfold ok. by destruct (m s). Qed.

Lemma sat_attempt {A} (m : S -> outcome E S A) s (Q : S -> E + A -> Prop) (X : S -> E -> Prop) :
  sat (m s) (fun s' a => Q s' (inr a)) (fun s' e => Q s' (inl e)) -> sat (attempt m s) Q X.
Proof. unfold attempt. by destruct (m s). Qed.

Lemma sat_map_err {A} (f : E -> E) (m : S -> outcome E S A) s Q X :
  sat (m s) Q (fun s' e => X s' (f e)) -> sat (map_err f m s) Q X.
Proof. unfold map_err. by destruct (m s). Qed.

Lemma sat_zoom {T A} (get : T -> S) (put : S -> T -> T) (m : S -> outcome E S A) t Q X :
  sat (m (get t)) (fun s a => Q (put s t) a) (fun s e => X (put s t) e) ->
  sat (zoom get put m t) Q X.
Proof. unfold zoom. by destruct (m (get t)). Qed.

Lemma sat_for_each {A} (l : list A) (f : A -> S -> outcome E S unit) (I : S -> Prop) X s :
  (forall x s, x ∈ l -> I s -> sat (f x s) (fun s' _ => I s') X) ->
  I s -> sat (for_each l f s) (fun s' _ => I s') X.
Proof.
  revert s. induction l as [| x l IH]; intros s Hf Hs; [done |]. cbn. apply sat_bind.
  eapply sat_mono; [apply Hf; [left | done] | | done].
  intros s' a Hs'. apply IH; [| done]. intros. apply Hf; [by right | done].
Qed.

Lemma sat_returns {A} (r : outcome E S A) s a Q X : r = ROk s a -> sat r Q X -> Q s a.
Proof. by intros ->. Qed.
End Sat.

(** One step of a proof about a run: the bind, the test or the primitive at its
    head. *)
Ltac sat_step :=
  lazymatch goal with
  | |- sat (bind _ _ _) _ _ => apply sat_bind
  | |- sat (unwrap _ _) _ _ => apply sat_unwrap; intros ? ?
  | |- sat (assert_ _ _) _ _ => apply sat_assert; intros ?
  | |- sat (unwrap_result _ _) _ _ => apply sat_unwrap_result
  | |- sat (ok _ _) _ _ => apply sat_ok
  | |- sat (attempt _ _) _ _ => apply sat_attempt
  | |- sat (map_err _ _ _) _ _ => apply sat_map_err
  | |- sat (ok_or _ _ _) _ _ => apply sat_ok_or; [intros ? ? | intros ?]
  | |- sat (ret ?a ?s) ?Q _ => change (Q s a); cbv beta
  | |- sat (fail ?e ?s) _ ?X => change (X s e); cbv beta
  | |- sat (panic _) _ _ => exact I
  | |- sat (gets ?f ?s) ?Q _ => change (Q s (f s)); cbv beta
  | |- sat (modify ?f ?s) ?Q _ => change (Q (f s) tt); cbv beta
  | |- sat (ROk _ _) _ _ => cbn [sat]
  | |- sat (RErr _ _) _ _ => cbn [sat]
  | |- sat ((if ?b then _ else _) _) _ _ => destruct b eqn:?
  | |- sat ((let x := _ in _) _) _ _ => cbv zeta
  end.

(** ** Lemmas on lists *)

Lemma lookup_insert_list {A} (l : list A) (i j : nat) (x : A) :
  (i < length l)%nat ->
  <[i := x]> l !! j = if decide (j = i) then Some x else l !! j.
Proof.
  intros H. case_decide as Hd.
  - subst. by apply list_lookup_insert_eq.
  - by apply list_lookup_insert_ne.
Qed.

Lemma find_index_Some {A} (f : A -> bool) l i :
  find_index f l = Some i <->
  (exists x, l !! i = Some x /\ f x = true) /\ forall j x, (j < i)%nat -> l !! j = Some x -> f x = false.
Proof.
  revert i. induction l as [| y l IH]; intros i; cbn; [split; [done | by intros [(x & ? & _) _]] |].
  destruct (f y) eqn:Hy.
  - split; [intros [= <-]; split; [eauto | lia] |]. intros [_ Hmin].
    destruct i as [| i]; [done |]. specialize (Hmin 0%nat y ltac:(lia) eq_refl). congruence.
  - rewrite fmap_Some. split.
    + intros (j & [Hj Hmin]%IH & ->). split; [done |].
      intros [| j'] x Hlt Hx; [injection Hx as <-; done |]. eapply Hmin; [| exact Hx]. lia.
    + intros [(x & Hx & Hf) Hmin]. destruct i as [| i]; [injection Hx as <-; congruence |].
      exists i. split; [| done]. apply IH. split; [eauto |].
      intros j z Hj Hz. apply (Hmin (S j)); [lia | done].
Qed.

Lemma find_index_None {A} (f : A -> bool) l :
  find_index f l = None <-> forall i x, l !! i = Some x -> f x = false.
Proof.
  induction l as [| y l IH]; cbn; [done |]. destruct (f y) eqn:Hy.
  - split; [done |]. intros H. specialize (H 0%nat y eq_refl). congruence.
  - rewrite fmap_None, IH. split.
    + intros H [| i] x Hx; [injection Hx as <-; done | by eapply H].
    + intros H i x Hx. by apply (H (S i)).
Qed.

Lemma step_by_In (from to step x : Z) :
  (0 < step)%Z ->
  In x (step_by from to step) <-> (from <= x < to /\ (x - from) mod step = 0)%Z.
Proof.
  intros Hs. unfold step_by. rewrite in_map_iff. split.
  - intros (k & <- & Hk%in_seq).
    replace (from + Z.of_nat k * step - from)%Z with (Z.of_nat k * step)%Z by lia.
    rewrite Z.mod_mul by lia. split; [| done].
    assert (Z.of_nat k < (to - from + step - 1) / step)%Z by lia.
    assert (step * ((to - from + step - 1) / step) <= to - from + step - 1)%Z
      by (apply Z.mul_div_le; lia).
    nia.
  - intros [Hx Hm]. apply Z.mod_divide in Hm as [q Hq]; [| lia].
    exists (Z.to_nat q). assert (0 <= q)%Z by nia. rewrite in_seq. split; [lia |].
    assert (q < (to - from + step - 1) / step)%Z; [| lia].
    apply Z.lt_le_trans with (q + 1)%Z; [lia |]. apply Z.div_le_lower_bound; nia.
Qed.

#[export] Hint Resolve u8_range u32_range set_bit_range clear_bit_range : xous.
