(* ===== verification/Abi.v ===== *)
(** * The kernel ABI types of xous-rs

    Models src/xous-rs/src/definitions.rs and src/xous-rs/src/definitions/:
    error codes, server IDs, memory ranges and flags, messages and their
    envelopes, and [xous::Result], the value a system call returns in eight
    registers.  The theorems are the round trips between the Rust values and
    the register words, with the two results for which there is none. *)

From Stdlib Require Import ZArith Lia Bool.
From stdpp Require Import base numbers list option.
From S2P Require Import Prelude.

#[local] Open Scope Z_scope.

(** ** Error codes *)

Inductive Error : Type :=
| NoError | BadAlignment | BadAddress | OutOfMemory | MemoryInUse
| InterruptNotFound | InterruptInUse | InvalidString | ServerExists
| ServerNotFound | ProcessNotFound | ProcessNotChild | ProcessTerminated
| Timeout | InternalError | ServerQueueFull | ThreadNotAvailable
| UnhandledSyscall | InvalidSyscall | ShareViolation | InvalidThread
| InvalidPID | UnknownError | AccessDenied | UseBeforeInit | DoubleFree
| DebugInProgress | InvalidLimit | NotFound | InvalidCoding | HardwareError
| SerializationError | InvalidArgument | NetworkError | StorageError
| Unavailable | ParseError | InvalidCore | VerificationError | SecurityError.

#[export] Instance Error_eq_dec : EqDecision Error.
Proof. solve_decision. Defined.

Definition Error_from_usize (arg : Z) : Error :=
  match arg with
  | 0 => NoError
  | 1 => BadAlignment
  | 2 => BadAddress
  | 3 => OutOfMemory
  | 4 => MemoryInUse
  | 5 => InterruptNotFound
  | 6 => InterruptInUse
  | 7 => InvalidString
  | 8 => ServerExists
  | 9 => ServerNotFound
  | 10 => ProcessNotFound
  | 11 => ProcessNotChild
  | 12 => ProcessTerminated
  | 13 => Timeout
  | 14 => InternalError
  | 15 => ServerQueueFull
  | 16 => ThreadNotAvailable
  | 17 => UnhandledSyscall
  | 18 => InvalidSyscall
  | 19 => ShareViolation
  | 20 => InvalidThread
  | 21 => InvalidPID
  | 23 => AccessDenied
  | 24 => UseBeforeInit
  | 25 => DoubleFree
  | 26 => DebugInProgress
  | 27 => InvalidLimit
  | 28 => NotFound
  | 29 => InvalidCoding
  | 30 => HardwareError
  | 31 => SerializationError
  | 32 => InvalidArgument
  | 33 => NetworkError
  | 34 => StorageError
  | 35 => Unavailable
  | 36 => ParseError
  | 37 => InvalidCore
  | 38 => VerificationError
  | 39 => SecurityError
  | _ => UnknownError
  end.

Definition Error_to_usize (e : Error) : Z :=
  match e with
  | NoError => 0
  | BadAlignment => 1
  | BadAddress => 2
  | OutOfMemory => 3
  | MemoryInUse => 4
  | InterruptNotFound => 5
  | InterruptInUse => 6
  | InvalidString => 7
  | ServerExists => 8
  | ServerNotFound => 9
  | ProcessNotFound => 10
  | ProcessNotChild => 11
  | ProcessTerminated => 12
  | Timeout => 13
  | InternalError => 14
  | ServerQueueFull => 15
  | ThreadNotAvailable => 16
  | UnhandledSyscall => 17
  | InvalidSyscall => 18
  | ShareViolation => 19
  | InvalidThread => 20
  | InvalidPID => 21
  | AccessDenied => 23
  | UseBeforeInit => 24
  | DoubleFree => 25
  | DebugInProgress => 26
  | InvalidLimit => 27
  | NotFound => 28
  | InvalidCoding => 29
  | HardwareError => 30
  | SerializationError => 31
  | InvalidArgument => 32
  | NetworkError => 33
  | StorageError => 34
  | Unavailable => 35
  | ParseError => 36
  | InvalidCore => 37
  | VerificationError => 38
  | SecurityError => 39
  | UnknownError => usize_MAX
  end.

(** ** Identifiers

    A [PID] is a [NonZeroU8], a [CID] a [u32], a [TID] a [usize]. *)

Definition wf_pid (pid : Z) : bool := (1 <=? pid) && (pid <=? 255).

(** [PID::new]: the argument is already a [u8]. *)
Definition PID_new (x : Z) : option Z := NonZero_new x.

(** The result of a fallible function without a state to change. *)
Inductive result (A : Type) : Type :=
| Ok (a : A)
| Err (e : Error).
Arguments Ok {A} a.
Arguments Err {A} e.

(** [r?] *)
Definition lift_result {S A : Type} (r : result A) : S -> outcome Error S A :=
  match r with Ok x => ret x | Err e => fail e end.

Definition pid_from_usize (src : Z) : result Z :=
  if 255 <? src then Err InvalidPID
  else match PID_new (u8 src) with Some p => Ok p | None => Err InvalidPID end.

Record SID : Type := mk_SID { sid0 : Z; sid1 : Z; sid2 : Z; sid3 : Z }.

#[export] Instance SID_eq_dec : EqDecision SID.
Proof. solve_decision. Defined.

Definition from_le_bytes4 (b0 b1 b2 b3 : Z) : Z :=
  b0 + 256 * b1 + 65536 * b2 + 16777216 * b3.

(** The [u32] values of [b.chunks_exact(4)]. *)
Fixpoint chunks_exact4 (b : list Z) : list Z :=
  match b with
  | b0 :: b1 :: b2 :: b3 :: rest => from_le_bytes4 b0 b1 b2 b3 :: chunks_exact4 rest
  | _ => []
  end.

Definition SID_from_bytes (b : list Z) : option SID :=
  if (16 <? Z.of_nat (length b)) then None
  else
    let c := chunks_exact4 b in
    Some (mk_SID (nth 0 c 0) (nth 1 c 0) (nth 2 c 0) (nth 3 c 0)).

Definition SID_from_u32 (a0 a1 a2 a3 : Z) : SID := mk_SID a0 a1 a2 a3.

Definition SID_to_u32 (s : SID) : Z * Z * Z * Z := (sid0 s, sid1 s, sid2 s, sid3 s).

(** ** Memory ranges *)

Record MemoryRange : Type := mk_MemoryRange { range_addr : Z; range_size : Z }.

#[export] Instance MemoryRange_eq_dec : EqDecision MemoryRange.
Proof. solve_decision. Defined.

Definition MemoryRange_new (addr size : Z) : result MemoryRange :=
  match NonZero_new addr with
  | None => Err BadAddress
  | Some a =>
      match NonZero_new size with
      | None => Err BadAddress
      | Some s => Ok (mk_MemoryRange a s)
      end
  end.

Definition MemoryRange_len (r : MemoryRange) : Z := range_size r.
Definition MemoryRange_is_empty (r : MemoryRange) : bool := 0 <? range_size r.
Definition MemoryRange_as_ptr (r : MemoryRange) : Z := range_addr r.

(** ** Memory flags *)

Record MemoryFlags : Type := mk_MemoryFlags { flag_bits : Z }.

Definition FLAGS_ALL : Z := 63.
Definition FLAG_FREE : MemoryFlags := mk_MemoryFlags 0.
Definition FLAG_RESERVE : MemoryFlags := mk_MemoryFlags 1.
Definition FLAG_R : MemoryFlags := mk_MemoryFlags 2.
Definition FLAG_W : MemoryFlags := mk_MemoryFlags 4.
Definition FLAG_X : MemoryFlags := mk_MemoryFlags 8.
Definition FLAG_DEV : MemoryFlags := mk_MemoryFlags 16.
Definition FLAG_VIRT : MemoryFlags := mk_MemoryFlags 32.
Definition FLAG_P : MemoryFlags := mk_MemoryFlags 512.

Definition MemoryFlags_from_bits (raw : Z) : option MemoryFlags :=
  if FLAGS_ALL <? raw then None else Some (mk_MemoryFlags raw).

Definition MemoryFlags_is_empty (f : MemoryFlags) : bool := flag_bits f =? 0.

Definition flags_or (a b : MemoryFlags) : MemoryFlags :=
  mk_MemoryFlags (Z.lor (flag_bits a) (flag_bits b)).
Definition flags_and (a b : MemoryFlags) : MemoryFlags :=
  mk_MemoryFlags (Z.land (flag_bits a) (flag_bits b)).
Definition flags_xor (a b : MemoryFlags) : MemoryFlags :=
  mk_MemoryFlags (Z.lxor (flag_bits a) (flag_bits b)).
Definition flags_sub (a b : MemoryFlags) : MemoryFlags :=
  mk_MemoryFlags (Z.land (flag_bits a) (not32 (flag_bits b))).
Definition flags_not (a : MemoryFlags) : MemoryFlags :=
  flags_and (mk_MemoryFlags (not32 (flag_bits a))) (mk_MemoryFlags 15).

(** [self & flag == flag]. *)
Definition flags_has (a f : MemoryFlags) : bool := flag_bits (flags_and a f) =? flag_bits f.

Inductive MemoryType : Type := MT_Default | MT_Heap | MT_Messages | MT_Stack.

#[export] Instance MemoryType_eq_dec : EqDecision MemoryType.
Proof. solve_decision. Defined.

Definition MemoryType_from (arg : Z) : MemoryType :=
  match arg with
  | 2 => MT_Heap
  | 3 => MT_Messages
  | 4 => MT_Stack
  | _ => MT_Default
  end.

(** [ty as usize]: the discriminants of the enum. *)
Definition MemoryType_as_usize (t : MemoryType) : Z :=
  match t with MT_Default => 1 | MT_Heap => 2 | MT_Messages => 3 | MT_Stack => 4 end.

(** ** Messages *)

Record MemoryMessage : Type := mk_MemoryMessage {
  mm_id : Z;
  mm_buf : MemoryRange;
  mm_offset : option Z;
  mm_valid : option Z
}.

Record ScalarMessage : Type := mk_ScalarMessage {
  sm_id : Z; sm_arg1 : Z; sm_arg2 : Z; sm_arg3 : Z; sm_arg4 : Z
}.

Inductive Message : Type :=
| MutableBorrow (m : MemoryMessage)
| Borrow (m : MemoryMessage)
| Move (m : MemoryMessage)
| Scalar (m : ScalarMessage)
| BlockingScalar (m : ScalarMessage).

#[export] Instance MemoryMessage_eq_dec : EqDecision MemoryMessage.
Proof. solve_decision. Defined.
#[export] Instance ScalarMessage_eq_dec : EqDecision ScalarMessage.
Proof. solve_decision. Defined.
#[export] Instance Message_eq_dec : EqDecision Message.
Proof. solve_decision. Defined.

(** The fixed-size arrays [[usize; 5]], [[usize; 6]], [[usize; 7]] and
    [[usize; 8]] of the encoders. *)
Record args5 : Type := Args5 { v0 : Z; v1 : Z; v2 : Z; v3 : Z; v4 : Z }.
Record args6 : Type := Args6 { e0 : Z; e1 : Z; e2 : Z; e3 : Z; e4 : Z; e5 : Z }.
Record args7 : Type := Args7 { s0 : Z; s1 : Z; s2 : Z; s3 : Z; s4 : Z; s5 : Z; s6 : Z }.
Record args8 : Type :=
  Args8 { w0 : Z; w1 : Z; w2 : Z; w3 : Z; w4 : Z; w5 : Z; w6 : Z; w7 : Z }.

Definition MemoryMessage_from_usize (id addr size offset valid : Z) : option MemoryMessage :=
  match NonZero_new addr with
  | None => None
  | Some addr =>
      match NonZero_new size with
      | None => None
      | Some size =>
          let buf := mk_MemoryRange addr size in
          let offset := NonZero_new offset in
          let valid := NonZero_new valid in
          Some (mk_MemoryMessage id buf offset valid)
      end
  end.

Definition MemoryMessage_to_usize (m : MemoryMessage) : args5 :=
  Args5 (mm_id m) (range_addr (mm_buf m)) (range_size (mm_buf m))
        (get_or_0 (mm_offset m)) (get_or_0 (mm_valid m)).

Definition ScalarMessage_from_usize (id arg1 arg2 arg3 arg4 : Z) : ScalarMessage :=
  mk_ScalarMessage id arg1 arg2 arg3 arg4.

Definition ScalarMessage_to_usize (m : ScalarMessage) : args5 :=
  Args5 (sm_id m) (sm_arg1 m) (sm_arg2 m) (sm_arg3 m) (sm_arg4 m).

Definition Message_is_blocking (m : Message) : bool :=
  match m with
  | MutableBorrow _ | Borrow _ | BlockingScalar _ => true
  | Move _ | Scalar _ => false
  end.

Definition Message_has_memory (m : Message) : bool :=
  match m with
  | MutableBorrow _ | Borrow _ | Move _ => true
  | BlockingScalar _ | Scalar _ => false
  end.

Definition Message_is_scalar (m : Message) : bool := negb (Message_has_memory m).

Definition Message_memory_message (m : Message) : option MemoryMessage :=
  match m with
  | MutableBorrow mem | Borrow mem | Move mem => Some mem
  | BlockingScalar _ | Scalar _ => None
  end.

Definition Message_memory (m : Message) : option MemoryRange :=
  mm_buf <$> Message_memory_message m.

Definition Message_scalar_message (m : Message) : option ScalarMessage :=
  match m with
  | MutableBorrow _ | Borrow _ | Move _ => None
  | BlockingScalar s | Scalar s => Some s
  end.

Definition Message_message_type (m : Message) : Z :=
  match m with
  | MutableBorrow _ => 1
  | Borrow _ => 2
  | Move _ => 3
  | Scalar _ => 4
  | BlockingScalar _ => 5
  end.

Definition Message_id (m : Message) : Z :=
  match m with
  | MutableBorrow mem | Borrow mem | Move mem => mm_id mem
  | Scalar s | BlockingScalar s => sm_id s
  end.

Definition mm_set_id (id : Z) (m : MemoryMessage) : MemoryMessage :=
  mk_MemoryMessage id (mm_buf m) (mm_offset m) (mm_valid m).
Definition sm_set_id (id : Z) (s : ScalarMessage) : ScalarMessage :=
  mk_ScalarMessage id (sm_arg1 s) (sm_arg2 s) (sm_arg3 s) (sm_arg4 s).

Definition Message_set_id (m : Message) (id : Z) : Message :=
  match m with
  | MutableBorrow mem => MutableBorrow (mm_set_id id mem)
  | Borrow mem => Borrow (mm_set_id id mem)
  | Move mem => Move (mm_set_id id mem)
  | Scalar s => Scalar (sm_set_id id s)
  | BlockingScalar s => BlockingScalar (sm_set_id id s)
  end.

Definition Message_to_usize (m : Message) : args6 :=
  let ret := match m with
             | MutableBorrow m => (0, MemoryMessage_to_usize m)
             | Borrow m => (1, MemoryMessage_to_usize m)
             | Move m => (2, MemoryMessage_to_usize m)
             | Scalar m => (3, ScalarMessage_to_usize m)
             | BlockingScalar m => (4, ScalarMessage_to_usize m)
             end in
  Args6 (fst ret) (v0 (snd ret)) (v1 (snd ret)) (v2 (snd ret)) (v3 (snd ret)) (v4 (snd ret)).

(** [Message::try_from((kind, id, a, b, c, d))]; the error carries nothing. *)
Definition Message_try_from (k id a b c d : Z) : option Message :=
  let mem (ctor : MemoryMessage -> Message) : option Message :=
    match MemoryRange_new a b with
    | Ok buf => Some (ctor (mk_MemoryMessage id buf (NonZero_new c) (NonZero_new d)))
    | Err _ => None
    end in
  match k with
  | 1 => mem MutableBorrow
  | 2 => mem Borrow
  | 3 => mem Move
  | 4 => Some (Scalar (mk_ScalarMessage id a b c d))
  | 5 => Some (BlockingScalar (mk_ScalarMessage id a b c d))
  | _ => None
  end.

(** ** Senders and envelopes *)

(** [MessageSender] is an opaque word. *)
Record MessageSender : Type := mk_MessageSender { sender_data : Z }.

Definition MessageSender_to_usize (s : MessageSender) : Z := sender_data s.
Definition MessageSender_from_usize (data : Z) : MessageSender := mk_MessageSender data.
Definition MessageSender_pid (s : MessageSender) : option Z :=
  PID_new (u8 (Z.land (shr32 (sender_data s) 24) 255)).

Record MessageEnvelope : Type := mk_MessageEnvelope {
  env_sender : MessageSender;
  env_body : Message
}.

#[export] Instance MessageSender_eq_dec : EqDecision MessageSender.
Proof. solve_decision. Defined.
#[export] Instance MessageEnvelope_eq_dec : EqDecision MessageEnvelope.
Proof. solve_decision. Defined.

Definition MessageEnvelope_to_usize (e : MessageEnvelope) : args7 :=
  let b := Message_to_usize (env_body e) in
  Args7 (MessageSender_to_usize (env_sender e)) (e0 b) (e1 b) (e2 b) (e3 b) (e4 b) (e5 b).

(** ** Threads and processes (riscv) *)

Record ThreadInit : Type := mk_ThreadInit {
  ti_call : Z; ti_stack : MemoryRange;
  ti_arg1 : Z; ti_arg2 : Z; ti_arg3 : Z; ti_arg4 : Z
}.

Record ProcessInit : Type := mk_ProcessInit {
  pi_stack : MemoryRange; pi_text : MemoryRange;
  pi_text_destination : Z; pi_start : Z
}.

Record ProcessStartup : Type := mk_ProcessStartup { ps_pid : Z; ps_connection : Z }.

#[export] Instance ThreadInit_eq_dec : EqDecision ThreadInit.
Proof. solve_decision. Defined.
#[export] Instance ProcessInit_eq_dec : EqDecision ProcessInit.
Proof. solve_decision. Defined.
#[export] Instance ProcessStartup_eq_dec : EqDecision ProcessStartup.
Proof. solve_decision. Defined.

Definition thread_to_args (syscall : Z) (init : ThreadInit) : args8 :=
  Args8 syscall (ti_call init) (MemoryRange_as_ptr (ti_stack init))
        (MemoryRange_len (ti_stack init))
        (ti_arg1 init) (ti_arg2 init) (ti_arg3 init) (ti_arg4 init).

Definition args_to_thread (a1 a2 a3 a4 a5 a6 a7 : Z) : result ThreadInit :=
  match MemoryRange_new a2 a3 with
  | Ok stack => Ok (mk_ThreadInit a1 stack a4 a5 a6 a7)
  | Err _ => Err InvalidSyscall
  end.

Definition ProcessInit_to_args (src : ProcessInit) : args7 :=
  Args7 (range_addr (pi_stack src)) (range_size (pi_stack src))
        (range_addr (pi_text src)) (range_size (pi_text src))
        (pi_text_destination src) (pi_start src) 0.

Definition ProcessInit_try_from (src : args7) : result ProcessInit :=
  match MemoryRange_new (s0 src) (s1 src) with
  | Err _ => Err OutOfMemory
  | Ok stack =>
      match MemoryRange_new (s2 src) (s3 src) with
      | Err _ => Err OutOfMemory
      | Ok text =>
          match NonZero_new (s4 src) with
          | None => Err OutOfMemory
          | Some dest =>
              match NonZero_new (s5 src) with
              | None => Err OutOfMemory
              | Some start => Ok (mk_ProcessInit stack text dest start)
              end
          end
      end
  end.

Definition ProcessStartup_to_args (p : ProcessStartup) : args7 :=
  Args7 (ps_pid p) (ps_connection p) 0 0 0 0 0.

(** [From<[usize; 8]> for ProcessStartup]: a zero PID becomes 255. *)
Definition ProcessStartup_from_args (src : args8) : ProcessStartup :=
  let pid := match PID_new (u8 (w1 src)) with Some o => o | None => 255 end in
  mk_ProcessStartup pid (u32 (w2 src)).

(** ** [xous::Result] *)

Inductive Result : Type :=
| R_Ok
| R_Error (e : Error)
| R_MemoryAddress (addr : Z)
| R_MemoryRange (r : MemoryRange)
| R_ReadyThreads (count pid0 ctx0 pid1 ctx1 pid2 ctx2 : Z)
| R_ResumeProcess
| R_ServerID (sid : SID)
| R_ConnectionID (cid : Z)
| R_NewServerID (sid : SID) (cid : Z)
| R_MessageEnvelope (me : MessageEnvelope)
| R_ThreadID (tid : Z)
| R_ProcessID (pid : Z)
| R_Unimplemented
| R_BlockedProcess
| R_Scalar1 (a : Z)
| R_Scalar2 (a b : Z)
| R_RetryCall
| R_None
| R_MemoryReturned (offset valid : option Z)
| R_NewProcess (p : ProcessStartup)
| R_Scalar5 (a b c d e : Z)
| R_Message (m : Message)
| R_UnknownResult (a1 a2 a3 a4 a5 a6 a7 : Z).

#[export] Instance Result_eq_dec : EqDecision Result.
Proof. solve_decision. Defined.

Definition Result_add_opcode (opcode : Z) (a : args7) : args8 :=
  Args8 opcode (s0 a) (s1 a) (s2 a) (s3 a) (s4 a) (s5 a) (s6 a).

Definition Result_to_args (r : Result) : args8 :=
  match r with
  | R_Ok => Args8 0 0 0 0 0 0 0 0
  | R_Error e => Args8 1 (Error_to_usize e) 0 0 0 0 0 0
  | R_MemoryAddress s => Args8 2 s 0 0 0 0 0 0
  | R_MemoryRange r => Args8 3 (range_addr r) (range_size r) 0 0 0 0 0
  | R_ReadyThreads count pid0 ctx0 pid1 ctx1 pid2 ctx2 =>
      Args8 4 count pid0 ctx0 pid1 ctx1 pid2 ctx2
  | R_ResumeProcess => Args8 5 0 0 0 0 0 0 0
  | R_ServerID s => Args8 6 (sid0 s) (sid1 s) (sid2 s) (sid3 s) 0 0 0
  | R_ConnectionID cid => Args8 7 cid 0 0 0 0 0 0
  | R_MessageEnvelope me =>
      let enc := MessageEnvelope_to_usize me in
      Args8 9 (s0 enc) (s1 enc) (s2 enc) (s3 enc) (s4 enc) (s5 enc) (s6 enc)
  | R_ThreadID ctx => Args8 10 ctx 0 0 0 0 0 0
  | R_ProcessID pid => Args8 11 pid 0 0 0 0 0 0
  | R_Unimplemented => Args8 21 0 0 0 0 0 0 0
  | R_BlockedProcess => Args8 13 0 0 0 0 0 0 0
  | R_Scalar1 a => Args8 14 a 0 0 0 0 0 0
  | R_Scalar2 a b => Args8 15 a b 0 0 0 0 0
  | R_NewServerID s cid => Args8 8 (sid0 s) (sid1 s) (sid2 s) (sid3 s) cid 0 0
  | R_RetryCall => Args8 16 0 0 0 0 0 0 0
  | R_None => Args8 17 0 0 0 0 0 0 0
  | R_MemoryReturned offset valid => Args8 18 (get_or_0 offset) (get_or_0 valid) 0 0 0 0 0
  | R_NewProcess p => Result_add_opcode 19 (ProcessStartup_to_args p)
  | R_Scalar5 a b c d e => Args8 20 a b c d e 0 0
  | R_Message message =>
      let enc := Message_to_usize message in
      Args8 21 (e0 enc) (e1 enc) (e2 enc) (e3 enc) (e4 enc) (e5 enc) 0
  | R_UnknownResult arg1 arg2 arg3 arg4 arg5 arg6 arg7 =>
      Args8 usize_MAX arg1 arg2 arg3 arg4 arg5 arg6 arg7
  end.

(** The [match src[2] { 0 => ... 4 => ... }] that both message-carrying
    opcodes use to rebuild a message; [None] is the early return of
    [Result::Error(InternalError)]. *)
Definition message_from_words (k a b c d e : Z) : option Message :=
  match k with
  | 0 => MutableBorrow <$> MemoryMessage_from_usize a b c d e
  | 1 => Borrow <$> MemoryMessage_from_usize a b c d e
  | 2 => Move <$> MemoryMessage_from_usize a b c d e
  | 3 => Some (Scalar (ScalarMessage_from_usize a b c d e))
  | 4 => Some (BlockingScalar (ScalarMessage_from_usize a b c d e))
  | _ => None
  end.

(** [Result::from_args]; [None] is the panic of [PID::new(..).unwrap()]. *)
Definition Result_from_args (src : args8) : option Result :=
  match w0 src with
  | 0 => Some R_Ok
  | 1 => Some (R_Error (Error_from_usize (w1 src)))
  | 2 => match NonZero_new (w1 src) with
         | None => Some (R_Error InternalError)
         | Some s => Some (R_MemoryAddress s)
         end
  | 3 => match NonZero_new (w1 src) with
         | None => Some (R_Error InternalError)
         | Some addr =>
             match NonZero_new (w2 src) with
             | None => Some (R_Error InternalError)
             | Some size => Some (R_MemoryRange (mk_MemoryRange addr size))
             end
         end
  | 4 => Some (R_ReadyThreads (w1 src) (w2 src) (w3 src) (w4 src) (w5 src) (w6 src) (w7 src))
  | 5 => Some R_ResumeProcess
  | 6 => Some (R_ServerID (SID_from_u32 (u32 (w1 src)) (u32 (w2 src)) (u32 (w3 src)) (u32 (w4 src))))
  | 7 => Some (R_ConnectionID (u32 (w1 src)))
  | 8 => Some (R_NewServerID
                 (SID_from_u32 (u32 (w1 src)) (u32 (w2 src)) (u32 (w3 src)) (u32 (w4 src)))
                 (u32 (w5 src)))
  | 9 => match message_from_words (w2 src) (w3 src) (w4 src) (w5 src) (w6 src) (w7 src) with
         | None => Some (R_Error InternalError)
         | Some message =>
             Some (R_MessageEnvelope
                     (mk_MessageEnvelope (MessageSender_from_usize (w1 src)) message))
         end
  | 10 => Some (R_ThreadID (w1 src))
  | 11 => R_ProcessID <$> PID_new (u8 (w1 src))
  | 12 => Some R_Unimplemented
  | 13 => Some R_BlockedProcess
  | 14 => Some (R_Scalar1 (w1 src))
  | 15 => Some (R_Scalar2 (w1 src) (w2 src))
  | 16 => Some R_RetryCall
  | 17 => Some R_None
  | 18 => Some (R_MemoryReturned (NonZero_new (w1 src)) (NonZero_new (w2 src)))
  | 19 => Some (R_NewProcess (ProcessStartup_from_args src))
  | 20 => Some (R_Scalar5 (w1 src) (w2 src) (w3 src) (w4 src) (w5 src))
  | 21 => match message_from_words (w1 src) (w2 src) (w3 src) (w4 src) (w5 src) (w6 src) with
          | None => Some (R_Error InternalError)
          | Some message => Some (R_Message message)
          end
  | _ => Some (R_UnknownResult (w0 src) (w1 src) (w2 src) (w3 src) (w4 src) (w5 src) (w6 src))
  end.

Definition Result_memory (r : Result) : option MemoryRange :=
  match r with
  | R_MessageEnvelope msg => Message_memory (env_body msg)
  | R_Message msg => Message_memory msg
  | _ => None
  end.

(** ** Processor exceptions *)

Inductive Exception : Type :=
| InstructionAddressMisaligned (epc addr : Z)
| InstructionAccessFault (epc addr : Z)
| IllegalInstruction (epc instruction : Z)
| LoadAddressMisaligned (epc addr : Z)
| LoadAccessFault (epc addr : Z)
| StoreAddressMisaligned (epc addr : Z)
| StoreAccessFault (epc addr : Z)
| InstructionPageFault (epc addr : Z)
| LoadPageFault (epc addr : Z)
| StorePageFault (epc addr : Z)
| UnknownException (a0 a1 a2 : Z).

Definition Exception_new (a0 a1 a2 : Z) : Exception :=
  match a0 with
  | 0 => InstructionAddressMisaligned a1 a2
  | 1 => InstructionAccessFault a1 a2
  | 2 => IllegalInstruction a1 a2
  | 3 => LoadAddressMisaligned a1 a2
  | 4 => LoadAccessFault a1 a2
  | 5 => StoreAddressMisaligned a1 a2
  | 6 => StoreAccessFault a1 a2
  | 7 => InstructionPageFault a1 a2
  | 8 => LoadPageFault a1 a2
  | 9 => StorePageFault a1 a2
  | _ => UnknownException a0 a1 a2
  end.

Definition Exception_pc (e : Exception) : Z :=
  match e with
  | InstructionAddressMisaligned pc _ | InstructionAccessFault pc _
  | IllegalInstruction pc _ | LoadAddressMisaligned pc _ | LoadAccessFault pc _
  | StoreAddressMisaligned pc _ | StoreAccessFault pc _
  | InstructionPageFault pc _ | LoadPageFault pc _ | StorePageFault pc _
  | UnknownException _ pc _ => pc
  end.

Definition Exception_address (e : Exception) : option Z :=
  match e with
  | InstructionAddressMisaligned _ a | InstructionAccessFault _ a
  | LoadAddressMisaligned _ a | LoadAccessFault _ a
  | StoreAddressMisaligned _ a | StoreAccessFault _ a
  | InstructionPageFault _ a | LoadPageFault _ a | StorePageFault _ a => Some a
  | _ => None
  end.

(** ** Swap allocation advice *)

Inductive AllocAdvice : Type :=
| Advice_Allocate (pid vaddr paddr : Z)
| Advice_Free (pid vaddr paddr : Z)
| Advice_Uninit.

Definition AllocAdvice_serialize (a : AllocAdvice) : Z * Z :=
  match a with
  | Advice_Allocate pid vaddr paddr =>
      (Z.lor (shl32 pid 24) (shr32 vaddr 12), Z.lor (shl32 1 24) (shr32 paddr 12))
  | Advice_Free pid vaddr paddr =>
      (Z.lor (shl32 pid 24) (shr32 vaddr 12), Z.lor (shl32 0 24) (shr32 paddr 12))
  | Advice_Uninit => (0, 0)
  end.

(** [None] is the panic of [NonZeroU8::new(..).unwrap()]. *)
Definition AllocAdvice_deserialize (a0 a1 : Z) : option AllocAdvice :=
  if (a0 =? 0) && (a1 =? 0) then Some Advice_Uninit
  else if Z.land a1 (shl32 1 24) =? 0 then
    (fun pid => Advice_Free pid (shl32 a0 12) (shl32 a1 12)) <$> NonZero_new (u8 (shr32 a0 24))
  else
    (fun pid => Advice_Allocate pid (shl32 a0 12) (shl32 a1 12)) <$> NonZero_new (u8 (shr32 a0 24)).

(** ** Values the Rust types admit
    A Rust value of these types satisfies the predicate by construction:
    [NonZeroUsize] fields are not zero, words fit in 32 bits and a [PID] in
    eight. *)

Definition wf_word (x : Z) : bool := (0 <=? x) && (x <? 4294967296).
Definition wf_nonzero (x : Z) : bool := wf_word x && negb (x =? 0).
Definition wf_opt_nonzero (o : option Z) : bool :=
  match o with Some x => wf_nonzero x | None => true end.
Definition wf_range (r : MemoryRange) : bool :=
  wf_nonzero (range_addr r) && wf_nonzero (range_size r).
Definition wf_sid (s : SID) : bool :=
  wf_word (sid0 s) && wf_word (sid1 s) && wf_word (sid2 s) && wf_word (sid3 s).
Definition wf_memory_message (m : MemoryMessage) : bool :=
  wf_word (mm_id m) && wf_range (mm_buf m)
  && wf_opt_nonzero (mm_offset m) && wf_opt_nonzero (mm_valid m).
Definition wf_message (m : Message) : bool :=
  match m with
  | MutableBorrow m | Borrow m | Move m => wf_memory_message m
  | Scalar _ | BlockingScalar _ => true
  end.

Definition wf_Result (r : Result) : bool :=
  match r with
  | R_MemoryAddress a => wf_nonzero a
  | R_MemoryRange r => wf_range r
  | R_ServerID s => wf_sid s
  | R_ConnectionID c => wf_word c
  | R_NewServerID s c => wf_sid s && wf_word c
  | R_MessageEnvelope me => wf_message (env_body me)
  | R_ProcessID p => wf_pid p
  | R_MemoryReturned o v => wf_opt_nonzero o && wf_opt_nonzero v
  | R_NewProcess p => wf_pid (ps_pid p) && wf_word (ps_connection p)
  | R_Message m => wf_message m
  | _ => true
  end.

(** The results the encoder keeps apart from every other result. *)
Definition encodable (r : Result) : bool :=
  match r with R_Unimplemented | R_UnknownResult _ _ _ _ _ _ _ => false | _ => true end.

(** ** Lemmas *)

Lemma wf_word_range x : wf_word x = true -> 0 <= x < 4294967296.
Proof. unfold wf_word. intros. zbool. lia. Qed.

Lemma wf_word_u32 x : wf_word x = true -> u32 x = x.
Proof. intros. by apply u32_id, wf_word_range. Qed.

Lemma wf_pid_range p : wf_pid p = true -> 1 <= p <= 255.
Proof. unfold wf_pid. intros. zbool. lia. Qed.

Lemma wf_pid_u8 p : wf_pid p = true -> u8 p = p.
Proof. intros H%wf_pid_range. apply u8_id. lia. Qed.

Lemma wf_pid_new p : wf_pid p = true -> PID_new p = Some p.
Proof. intros H%wf_pid_range. apply NonZero_new_Some. lia. Qed.

Lemma wf_nonzero_new x : wf_nonzero x = true -> NonZero_new x = Some x.
Proof. unfold wf_nonzero. intros. zbool. by apply NonZero_new_Some. Qed.

Lemma wf_opt_nonzero_new o : wf_opt_nonzero o = true -> NonZero_new (get_or_0 o) = o.
Proof. destruct o; [apply wf_nonzero_new | done]. Qed.

Lemma wf_range_new r :
  wf_range r = true ->
  NonZero_new (range_addr r) = Some (range_addr r) /\
  NonZero_new (range_size r) = Some (range_size r).
Proof. intros [? ?]%andb_prop. auto using wf_nonzero_new. Qed.

Lemma MemoryRange_new_wf r :
  wf_range r = true -> MemoryRange_new (range_addr r) (range_size r) = Ok r.
Proof.
  intros [Ha Hs]%wf_range_new. unfold MemoryRange_new.
  rewrite Ha, Hs. by destruct r.
Qed.

Lemma MemoryMessage_roundtrip m :
  wf_memory_message m = true ->
  MemoryMessage_from_usize (mm_id m) (range_addr (mm_buf m)) (range_size (mm_buf m))
    (get_or_0 (mm_offset m)) (get_or_0 (mm_valid m)) = Some m.
Proof.
  unfold wf_memory_message. intros H. zbool.
  destruct (wf_range_new (mm_buf m)) as [Ha Hs]; [done |].
  unfold MemoryMessage_from_usize.
  rewrite Ha, Hs, !wf_opt_nonzero_new by done. by destruct m as [? [] ? ?].
Qed.

(** The two places that decode a message from words agree with the encoder. *)
Lemma message_words_roundtrip m :
  wf_message m = true ->
  let enc := Message_to_usize m in
  message_from_words (e0 enc) (e1 enc) (e2 enc) (e3 enc) (e4 enc) (e5 enc) = Some m.
Proof.
  destruct m as [m | m | m | [] | []]; cbn; intros H;
    try rewrite (MemoryMessage_roundtrip m H); done.
Qed.

#[local] Arguments Message_to_usize : simpl never.

Create Rewrite HintDb abi.
#[export] Hint Rewrite wf_word_u32 wf_pid_u8 wf_pid_new wf_nonzero_new
  wf_opt_nonzero_new using done : abi.

(** ** Round trips *)

Lemma Error_roundtrip (e : Error) : Error_from_usize (Error_to_usize e) = e.
Proof. by destruct e. Qed.

(** C34. Every result the kernel can hand to user space, other than
    [Unimplemented] and [UnknownResult], survives the trip through the eight
    registers: [Result::from_args(r.to_args())] is [r], and does not panic. *)
Theorem Result_roundtrip (r : Result) :
  wf_Result r = true -> encodable r = true ->
  Result_from_args (Result_to_args r) = Some r.
Proof.
  destruct r as [ | e | | r | | | s | | s | [snd m] | | | | | | | | | | [] | | m | ];
    unfold Result_from_args; cbn; intros Hwf Henc; try done; zbool.
  - by rewrite Error_roundtrip.
  - by autorewrite with abi.
  - destruct (wf_range_new r Hwf) as [-> ->]. by destruct r.
  - unfold wf_sid in Hwf. zbool. autorewrite with abi. by destruct s.
  - by autorewrite with abi.
  - unfold wf_sid in *. zbool. autorewrite with abi. by destruct s.
  - rewrite message_words_roundtrip by done. by destruct snd.
  - by autorewrite with abi.
  - by autorewrite with abi.
  - unfold ProcessStartup_from_args. cbn. by autorewrite with abi.
  - by rewrite message_words_roundtrip.
Qed.

Definition example_message : MemoryMessage :=
  mk_MemoryMessage 7 (mk_MemoryRange 1073741824 8192) None (Some 100).

Lemma Result_roundtrip_witness :
  Result_from_args (Result_to_args
    (R_MessageEnvelope (mk_MessageEnvelope (mk_MessageSender 50397186) (Borrow example_message))))
  = Some (R_MessageEnvelope
            (mk_MessageEnvelope (mk_MessageSender 50397186) (Borrow example_message))).
Proof. apply Result_roundtrip; vm_compute; reflexivity. Defined.

(** The encoder of [Unimplemented] uses opcode 21, the opcode of
    [Message], instead of 12: the caller of an unimplemented system call sees
    an internal error, never [Unimplemented]. *)
Theorem Unimplemented_decodes_as_error :
  Result_from_args (Result_to_args R_Unimplemented) = Some (R_Error InternalError).
Proof. reflexivity. Qed.

(** A packed swap advice word: the PID in the top byte, a page number below. *)
Lemma advice_word (tag addr : Z) :
  0 <= tag <= 255 -> 0 <= addr < 4294967296 -> addr mod 4096 = 0 ->
  Z.lor (shl32 tag 24) (shr32 addr 12) = tag * 16777216 + addr / 4096 /\
  shl32 (tag * 16777216 + addr / 4096) 12 = addr /\
  u8 (shr32 (tag * 16777216 + addr / 4096) 24) = tag.
Proof.
  intros Ht Ha Hm. pose proof (Z.div_mod addr 4096 ltac:(lia)) as Hd.
  unfold shl32, shr32. change (24 mod 32) with 24. change (12 mod 32) with 12.
  rewrite !Z.shiftl_mul_pow2, !Z.shiftr_div_pow2 by lia.
  change (2 ^ 12) with 4096. change (2 ^ 24) with 16777216.
  repeat split.
  - rewrite u32_id by lia.
    pose proof (lor_shiftl_add tag (addr / 4096) 24) as Hl.
    rewrite Z.shiftl_mul_pow2 in Hl by lia. apply Hl; lia.
  - unfold u32, wrap, modulus.
    replace ((tag * 16777216 + addr / 4096) * 4096) with (addr + (tag * 16) * 2 ^ 32) by lia.
    rewrite Z.mod_add by lia. apply Z.mod_small. lia.
  - rewrite Z.add_comm, Z.div_add, Z.div_small by lia. apply u8_id. lia.
Qed.

Lemma advice_tag (tag addr : Z) :
  0 <= tag <= 1 -> 0 <= addr < 4294967296 ->
  (Z.land (tag * 16777216 + addr / 4096) (shl32 1 24) =? 0) = (tag =? 0).
Proof.
  intros Ht Ha. assert (0 <= addr / 4096 < 16777216).
  { split; [apply Z.div_pos | apply Z.div_lt_upper_bound]; lia. }
  pose proof (has_bit_testbit (tag * 16777216 + addr / 4096) 24) as Hb.
  unfold has_bit, bit in Hb.
  rewrite <- (negb_involutive (Z.land _ _ =? 0)), Hb by lia.
  assert (Hv : (tag * 16777216 + addr / 4096) / 2 ^ 24 = tag).
  { change (2 ^ 24) with 16777216.
    rewrite Z.add_comm, Z.div_add, Z.div_small by lia. done. }
  pose proof (Z.testbit_spec' (tag * 16777216 + addr / 4096) 24 ltac:(lia)) as Hs.
  rewrite Hv in Hs. assert (tag = 0 \/ tag = 1) as [-> | ->] by lia;
    by destruct (Z.testbit _ 24).
Qed.

(** What the allocation tracker stores: a PID and page-aligned addresses. *)
Definition wf_advice (a : AllocAdvice) : bool :=
  match a with
  | Advice_Allocate pid v p | Advice_Free pid v p =>
      wf_pid pid && wf_word v && wf_word p && (v mod 4096 =? 0) && (p mod 4096 =? 0)
  | Advice_Uninit => true
  end.

(** Swap advice (a PID, a virtual and a physical page) packed into two
    words is recovered exactly, and the decoder does not panic on it. *)
Theorem AllocAdvice_roundtrip (a : AllocAdvice) :
  wf_advice a = true ->
  AllocAdvice_deserialize (fst (AllocAdvice_serialize a)) (snd (AllocAdvice_serialize a)) = Some a.
Proof.
  destruct a as [pid v p | pid v p |]; [| | done]; cbn [wf_advice]; intros H; zbool;
    pose proof (wf_pid_range pid ltac:(done)); pose proof (wf_word_range v ltac:(done));
    pose proof (wf_word_range p ltac:(done));
    pose proof (Z.div_pos v 4096 ltac:(lia) ltac:(lia)).
  - destruct (advice_word pid v) as (E1 & E2 & E3); [lia | done ..|].
    destruct (advice_word 1 p) as (F1 & F2 & _); [lia | done ..|].
    cbn [AllocAdvice_serialize fst snd]. rewrite E1, F1. unfold AllocAdvice_deserialize.
    rewrite advice_tag, E2, E3, F2, NonZero_new_Some by lia.
    rewrite (proj2 (Z.eqb_neq _ 0)); [done | lia].
  - destruct (advice_word pid v) as (E1 & E2 & E3); [lia | done ..|].
    destruct (advice_word 0 p) as (F1 & F2 & _); [lia | done ..|].
    cbn [AllocAdvice_serialize fst snd]. rewrite E1, F1. unfold AllocAdvice_deserialize.
    rewrite advice_tag, E2, E3, F2, NonZero_new_Some by lia.
    rewrite (proj2 (Z.eqb_neq _ 0)); [done | lia].
Qed.

Lemma AllocAdvice_roundtrip_witness :
  AllocAdvice_deserialize
    (fst (AllocAdvice_serialize (Advice_Free 200 4294963200 1073745920)))
    (snd (AllocAdvice_serialize (Advice_Free 200 4294963200 1073745920)))
  = Some (Advice_Free 200 4294963200 1073745920).
Proof. apply AllocAdvice_roundtrip. vm_compute. reflexivity. Defined.
