(* ===== verification/SysCallAbi.v ===== *)
(** * The system call ABI

    Models the encoder, decoder and classifiers of src/xous-rs/src/syscall.rs:
    [SysCall::as_args], [SysCall::from_args], [SysCallNumber::from] and the
    memory accessors.  The calls guarded by the features v2p, swap and raw-trng
    are present, so this is the widest ABI the code can be built with.  A call
    is encoded into eight words by the caller and decoded by the kernel; the
    theorems show that decoding inverts encoding for every value of the Rust
    types, and what decoding does on words no encoder produced. *)

From Stdlib Require Import ZArith Lia Bool.
From stdpp Require Import base numbers list option.
From S2P Require Import Prelude.
From S2P Require Import Abi.

#[local] Open Scope Z_scope.

Inductive SysCall : Type :=
| Sys_MapMemory (phys virt : option Z) (size : Z) (flags : MemoryFlags)
| Sys_UnmapMemory (range : MemoryRange)
| Sys_SetMemRegion (pid : Z) (ty : MemoryType) (addr : Z) (size : Z)
| Sys_IncreaseHeap (bytes : Z) (flags : MemoryFlags)
| Sys_DecreaseHeap (size : Z)
| Sys_UpdateMemoryFlags (range : MemoryRange) (flags : MemoryFlags) (pid : option Z)
| Sys_Yield
| Sys_WaitEvent
| Sys_ReceiveMessage (sid : SID)
| Sys_TryReceiveMessage (sid : SID)
| Sys_ReturnToParent (pid cpu : Z)
| Sys_ClaimInterrupt (irq callback : Z) (arg : option Z)
| Sys_FreeInterrupt (irq : Z)
| Sys_SwitchTo (pid tid : Z)
| Sys_ReadyThreads (pid : Z)
| Sys_CreateServerWithAddress (sid : SID)
| Sys_Connect (sid : SID)
| Sys_TryConnect (sid : SID)
| Sys_SendMessage (cid : Z) (m : Message)
| Sys_TrySendMessage (cid : Z) (m : Message)
| Sys_ReturnMemory (sender : MessageSender) (buf : MemoryRange) (offset valid : option Z)
| Sys_ReturnScalar1 (sender : MessageSender) (arg1 : Z)
| Sys_ReturnScalar2 (sender : MessageSender) (arg1 arg2 : Z)
| Sys_CreateThread (init : ThreadInit)
| Sys_CreateProcess (init : ProcessInit)
| Sys_TerminateProcess (exit_code : Z)
| Sys_Shutdown
| Sys_CreateServer
| Sys_CreateServerId
| Sys_ConnectForProcess (pid : Z) (sid : SID)
| Sys_GetThreadId
| Sys_GetProcessId
| Sys_DestroyServer (sid : SID)
| Sys_Disconnect (cid : Z)
| Sys_JoinThread (tid : Z)
| Sys_SetExceptionHandler (pc sp : Z)
| Sys_AdjustProcessLimit (index current new : Z)
| Sys_VirtToPhys (vaddr : Z)
| Sys_ReturnScalar5 (sender : MessageSender) (arg1 arg2 arg3 arg4 arg5 : Z)
| Sys_ReplyAndReceiveNext (sender : MessageSender) (arg0 arg1 arg2 arg3 arg4 return_type : Z)
| Sys_VirtToPhysPid (pid vaddr : Z)
| Sys_RegisterSwapper (a0 a1 a2 a3 handler state : Z)
| Sys_SwapOp (a1 a2 a3 a4 a5 a6 a7 : Z)
| Sys_RawTrng (a1 a2 a3 a4 a5 a6 a7 : Z)
| Sys_PlatformSpecific (a1 a2 a3 a4 a5 a6 a7 : Z)
| Sys_Invalid (a1 a2 a3 a4 a5 a6 a7 : Z).

#[export] Instance MemoryFlags_eq_dec : EqDecision MemoryFlags.
Proof. solve_decision. Defined.

Inductive SysCallNumber : Type :=
| Num_Invalid | Num_MapMemory | Num_Yield | Num_ReturnToParent | Num_ClaimInterrupt
| Num_FreeInterrupt | Num_SwitchTo | Num_ReadyThreads | Num_WaitEvent | Num_IncreaseHeap
| Num_DecreaseHeap | Num_UpdateMemoryFlags | Num_SetMemRegion | Num_CreateServerWithAddress
| Num_ReceiveMessage | Num_SendMessage | Num_Connect | Num_CreateThread | Num_UnmapMemory
| Num_ReturnMemory | Num_CreateProcess | Num_TerminateProcess | Num_Shutdown
| Num_TrySendMessage | Num_TryConnect | Num_ReturnScalar1 | Num_ReturnScalar2
| Num_TryReceiveMessage | Num_CreateServer | Num_ConnectForProcess | Num_CreateServerId
| Num_GetThreadId | Num_GetProcessId | Num_DestroyServer | Num_Disconnect | Num_JoinThread
| Num_SetExceptionHandler | Num_AdjustProcessLimit | Num_VirtToPhys | Num_ReturnScalar5
| Num_ReplyAndReceiveNext | Num_VirtToPhysPid | Num_RegisterSwapper | Num_SwapOp
| Num_RawTrng | Num_PlatformSpecific.

(** [n as usize]: the discriminants of the enum. *)
Definition SysCallNumber_as_usize (n : SysCallNumber) : Z :=
  match n with
  | Num_Invalid => 0 | Num_MapMemory => 2 | Num_Yield => 3 | Num_ReturnToParent => 4
  | Num_ClaimInterrupt => 5 | Num_FreeInterrupt => 6 | Num_SwitchTo => 7
  | Num_ReadyThreads => 8 | Num_WaitEvent => 9 | Num_IncreaseHeap => 10
  | Num_DecreaseHeap => 11 | Num_UpdateMemoryFlags => 12 | Num_SetMemRegion => 13
  | Num_CreateServerWithAddress => 14 | Num_ReceiveMessage => 15 | Num_SendMessage => 16
  | Num_Connect => 17 | Num_CreateThread => 18 | Num_UnmapMemory => 19
  | Num_ReturnMemory => 20 | Num_CreateProcess => 21 | Num_TerminateProcess => 22
  | Num_Shutdown => 23 | Num_TrySendMessage => 24 | Num_TryConnect => 25
  | Num_ReturnScalar1 => 26 | Num_ReturnScalar2 => 27 | Num_TryReceiveMessage => 28
  | Num_CreateServer => 29 | Num_ConnectForProcess => 30 | Num_CreateServerId => 31
  | Num_GetThreadId => 32 | Num_GetProcessId => 33 | Num_DestroyServer => 34
  | Num_Disconnect => 35 | Num_JoinThread => 36 | Num_SetExceptionHandler => 37
  | Num_AdjustProcessLimit => 38 | Num_VirtToPhys => 39 | Num_ReturnScalar5 => 40
  | Num_ReplyAndReceiveNext => 41 | Num_VirtToPhysPid => 42 | Num_RegisterSwapper => 43
  | Num_SwapOp => 44 | Num_RawTrng => 45 | Num_PlatformSpecific => 46
  end.

Definition SysCallNumber_from (val : Z) : SysCallNumber :=
  match val with
  | 2 => Num_MapMemory | 3 => Num_Yield | 4 => Num_ReturnToParent
  | 5 => Num_ClaimInterrupt | 6 => Num_FreeInterrupt | 7 => Num_SwitchTo
  | 8 => Num_ReadyThreads | 9 => Num_WaitEvent | 10 => Num_IncreaseHeap
  | 11 => Num_DecreaseHeap | 12 => Num_UpdateMemoryFlags | 13 => Num_SetMemRegion
  | 14 => Num_CreateServerWithAddress | 15 => Num_ReceiveMessage | 16 => Num_SendMessage
  | 17 => Num_Connect | 18 => Num_CreateThread | 19 => Num_UnmapMemory
  | 20 => Num_ReturnMemory | 21 => Num_CreateProcess | 22 => Num_TerminateProcess
  | 23 => Num_Shutdown | 24 => Num_TrySendMessage | 25 => Num_TryConnect
  | 26 => Num_ReturnScalar1 | 27 => Num_ReturnScalar2 | 28 => Num_TryReceiveMessage
  | 29 => Num_CreateServer | 30 => Num_ConnectForProcess | 31 => Num_CreateServerId
  | 32 => Num_GetThreadId | 33 => Num_GetProcessId | 34 => Num_DestroyServer
  | 35 => Num_Disconnect | 36 => Num_JoinThread | 37 => Num_SetExceptionHandler
  | 38 => Num_AdjustProcessLimit | 39 => Num_VirtToPhys | 40 => Num_ReturnScalar5
  | 41 => Num_ReplyAndReceiveNext | 42 => Num_VirtToPhysPid | 43 => Num_RegisterSwapper
  | 44 => Num_SwapOp | 45 => Num_RawTrng | 46 => Num_PlatformSpecific
  | _ => Num_Invalid
  end.

(** ** Encoding *)

Definition SysCall_add_opcode (opcode : SysCallNumber) (a : args7) : args8 :=
  Args8 (SysCallNumber_as_usize opcode) (s0 a) (s1 a) (s2 a) (s3 a) (s4 a) (s5 a) (s6 a).

(** The arms of [SendMessage] and [TrySendMessage], which differ in the number. *)
Definition message_as_args (n : SysCallNumber) (cid : Z) (m : Message) : args8 :=
  match m with
  | MutableBorrow mm | Borrow mm | Move mm =>
      Args8 (SysCallNumber_as_usize n) cid (Message_message_type m) (mm_id mm)
            (MemoryRange_as_ptr (mm_buf mm)) (MemoryRange_len (mm_buf mm))
            (get_or_0 (mm_offset mm)) (get_or_0 (mm_valid mm))
  | Scalar sc | BlockingScalar sc =>
      Args8 (SysCallNumber_as_usize n) cid (Message_message_type m) (sm_id sc)
            (sm_arg1 sc) (sm_arg2 sc) (sm_arg3 sc) (sm_arg4 sc)
  end.

(** The arms that carry one server ID. *)
Definition sid_as_args (n : SysCallNumber) (s : SID) : args8 :=
  Args8 (SysCallNumber_as_usize n) (sid0 s) (sid1 s) (sid2 s) (sid3 s) 0 0 0.

Definition SysCall_as_args (call : SysCall) : args8 :=
  let num := SysCallNumber_as_usize in
  match call with
  | Sys_MapMemory a1 a2 a3 a4 =>
      Args8 (num Num_MapMemory) (get_or_0 a1) (get_or_0 a2) a3 (flag_bits a4) 0 0 0
  | Sys_UnmapMemory range =>
      Args8 (num Num_UnmapMemory) (MemoryRange_as_ptr range) (MemoryRange_len range) 0 0 0 0 0
  | Sys_Yield => Args8 (num Num_Yield) 0 0 0 0 0 0 0
  | Sys_WaitEvent => Args8 (num Num_WaitEvent) 0 0 0 0 0 0 0
  | Sys_ReceiveMessage sid => sid_as_args Num_ReceiveMessage sid
  | Sys_TryReceiveMessage sid => sid_as_args Num_TryReceiveMessage sid
  | Sys_ConnectForProcess pid s =>
      Args8 (num Num_ConnectForProcess) pid (sid0 s) (sid1 s) (sid2 s) (sid3 s) 0 0
  | Sys_CreateServerId => Args8 (num Num_CreateServerId) 0 0 0 0 0 0 0
  | Sys_ReturnToParent a1 a2 => Args8 (num Num_ReturnToParent) a1 a2 0 0 0 0 0
  | Sys_ClaimInterrupt a1 a2 a3 =>
      Args8 (num Num_ClaimInterrupt) a1 a2 (get_or_0 a3) 0 0 0 0
  | Sys_FreeInterrupt a1 => Args8 (num Num_FreeInterrupt) a1 0 0 0 0 0 0
  | Sys_SwitchTo a1 a2 => Args8 (num Num_SwitchTo) a1 a2 0 0 0 0 0
  | Sys_ReadyThreads a1 => Args8 (num Num_ReadyThreads) a1 0 0 0 0 0 0
  | Sys_IncreaseHeap a1 a2 => Args8 (num Num_IncreaseHeap) a1 (flag_bits a2) 0 0 0 0 0
  | Sys_DecreaseHeap a1 => Args8 (num Num_DecreaseHeap) a1 0 0 0 0 0 0
  | Sys_UpdateMemoryFlags a1 a2 a3 =>
      Args8 (num Num_UpdateMemoryFlags) (MemoryRange_as_ptr a1) (MemoryRange_len a1)
            (flag_bits a2) (get_or_0 a3) 0 0 0
  | Sys_SetMemRegion a1 a2 a3 a4 =>
      Args8 (num Num_SetMemRegion) a1 (MemoryType_as_usize a2) a3 a4 0 0 0
  | Sys_CreateServerWithAddress sid => sid_as_args Num_CreateServerWithAddress sid
  | Sys_CreateServer => Args8 (num Num_CreateServer) 0 0 0 0 0 0 0
  | Sys_Connect sid => sid_as_args Num_Connect sid
  | Sys_SendMessage a1 a2 => message_as_args Num_SendMessage a1 a2
  | Sys_ReturnMemory sender buf offset valid =>
      Args8 (num Num_ReturnMemory) (MessageSender_to_usize sender) (MemoryRange_as_ptr buf)
            (MemoryRange_len buf) (get_or_0 offset) (get_or_0 valid) 0 0
  | Sys_ReplyAndReceiveNext sender arg0 arg1 arg2 arg3 arg4 return_type =>
      Args8 (num Num_ReplyAndReceiveNext) (MessageSender_to_usize sender)
            arg0 arg1 arg2 arg3 arg4 return_type
  | Sys_CreateThread init => thread_to_args (num Num_CreateThread) init
  | Sys_CreateProcess init => SysCall_add_opcode Num_CreateProcess (ProcessInit_to_args init)
  | Sys_TerminateProcess exit_code => Args8 (num Num_TerminateProcess) exit_code 0 0 0 0 0 0
  | Sys_Shutdown => Args8 (num Num_Shutdown) 0 0 0 0 0 0 0
  | Sys_TryConnect sid => sid_as_args Num_TryConnect sid
  | Sys_TrySendMessage a1 a2 => message_as_args Num_TrySendMessage a1 a2
  | Sys_ReturnScalar1 sender arg1 =>
      Args8 (num Num_ReturnScalar1) (MessageSender_to_usize sender) arg1 0 0 0 0 0
  | Sys_ReturnScalar2 sender arg1 arg2 =>
      Args8 (num Num_ReturnScalar2) (MessageSender_to_usize sender) arg1 arg2 0 0 0 0
  | Sys_GetThreadId => Args8 (num Num_GetThreadId) 0 0 0 0 0 0 0
  | Sys_GetProcessId => Args8 (num Num_GetProcessId) 0 0 0 0 0 0 0
  | Sys_DestroyServer sid => sid_as_args Num_DestroyServer sid
  | Sys_Disconnect cid => Args8 (num Num_Disconnect) cid 0 0 0 0 0 0
  | Sys_JoinThread tid => Args8 (num Num_JoinThread) tid 0 0 0 0 0 0
  | Sys_SetExceptionHandler pc sp => Args8 (num Num_SetExceptionHandler) pc sp 0 0 0 0 0
  | Sys_AdjustProcessLimit index current new =>
      Args8 (num Num_AdjustProcessLimit) index current new 0 0 0 0
  | Sys_VirtToPhys vaddr => Args8 (num Num_VirtToPhys) vaddr 0 0 0 0 0 0
  | Sys_ReturnScalar5 sender arg1 arg2 arg3 arg4 arg5 =>
      Args8 (num Num_ReturnScalar5) (MessageSender_to_usize sender) arg1 arg2 arg3 arg4 arg5 0
  | Sys_VirtToPhysPid pid vaddr => Args8 (num Num_VirtToPhysPid) pid vaddr 0 0 0 0 0
  | Sys_RegisterSwapper a0 a1 a2 a3 handler state =>
      Args8 (num Num_RegisterSwapper) a0 a1 a2 a3 handler state 0
  | Sys_SwapOp a1 a2 a3 a4 a5 a6 a7 => Args8 (num Num_SwapOp) a1 a2 a3 a4 a5 a6 a7
  | Sys_RawTrng a1 a2 a3 a4 a5 a6 a7 => Args8 (num Num_RawTrng) a1 a2 a3 a4 a5 a6 a7
  | Sys_PlatformSpecific a1 a2 a3 a4 a5 a6 a7 =>
      Args8 (num Num_PlatformSpecific) a1 a2 a3 a4 a5 a6 a7
  | Sys_Invalid a1 a2 a3 a4 a5 a6 a7 => Args8 (num Num_Invalid) a1 a2 a3 a4 a5 a6 a7
  end.

(** ** Decoding *)

(** [m?] and [o.ok_or(e)?] in a function that returns a [Result]. *)
Definition try_ {A B} (m : result A) (k : A -> result B) : result B :=
  match m with Ok a => k a | Err e => Err e end.
Definition require {A B} (o : option A) (e : Error) (k : A -> result B) : result B :=
  match o with Some a => k a | None => Err e end.

(** [SID::from_u32(a as _, b as _, c as _, d as _)]. *)
Definition sid_from_words (a b c d : Z) : SID := SID_from_u32 (u32 a) (u32 b) (u32 c) (u32 d).

(** The [TrySendMessage] arm, which builds the message itself and returns
    [BadAddress] for a null buffer where [SendMessage] yields [Invalid]. *)
Definition try_send_from_args (a1 a2 a3 a4 a5 a6 a7 : Z) : result SysCall :=
  let mem (ctor : MemoryMessage -> Message) :=
    try_ (MemoryRange_new a4 a5) (fun buf =>
      Ok (Sys_TrySendMessage (u32 a1)
            (ctor (mk_MemoryMessage a3 buf (NonZero_new a6) (NonZero_new a7))))) in
  match a2 with
  | 1 => mem MutableBorrow
  | 2 => mem Borrow
  | 3 => mem Move
  | 4 => Ok (Sys_TrySendMessage (u32 a1) (Scalar (mk_ScalarMessage a3 a4 a5 a6 a7)))
  | 5 => Ok (Sys_TrySendMessage (u32 a1) (BlockingScalar (mk_ScalarMessage a3 a4 a5 a6 a7)))
  | _ => Ok (Sys_Invalid a1 a2 a3 a4 a5 a6 a7)
  end.

(** [SysCall::from_args].  On the 32-bit target [a1.try_into().unwrap()] from
    [usize] to [u32] always succeeds. *)
Definition SysCall_from_args (a0 a1 a2 a3 a4 a5 a6 a7 : Z) : result SysCall :=
  match SysCallNumber_from a0 with
  | Num_MapMemory =>
      require (NonZero_new a3) InvalidSyscall (fun size =>
      require (MemoryFlags_from_bits a4) InvalidSyscall (fun flags =>
      Ok (Sys_MapMemory (NonZero_new a1) (NonZero_new a2) size flags)))
  | Num_UnmapMemory =>
      match MemoryRange_new a1 a2 with
      | Ok range => Ok (Sys_UnmapMemory range)
      | Err _ => Err InvalidSyscall
      end
  | Num_Yield => Ok Sys_Yield
  | Num_WaitEvent => Ok Sys_WaitEvent
  | Num_ReceiveMessage => Ok (Sys_ReceiveMessage (sid_from_words a1 a2 a3 a4))
  | Num_TryReceiveMessage => Ok (Sys_TryReceiveMessage (sid_from_words a1 a2 a3 a4))
  | Num_ReturnToParent =>
      try_ (pid_from_usize a1) (fun pid => Ok (Sys_ReturnToParent pid a2))
  | Num_ClaimInterrupt =>
      require (NonZero_new a2) InvalidSyscall (fun callback =>
      Ok (Sys_ClaimInterrupt a1 callback (NonZero_new a3)))
  | Num_FreeInterrupt => Ok (Sys_FreeInterrupt a1)
  | Num_SwitchTo => try_ (pid_from_usize a1) (fun pid => Ok (Sys_SwitchTo pid a2))
  | Num_ReadyThreads => try_ (pid_from_usize a1) (fun pid => Ok (Sys_ReadyThreads pid))
  | Num_IncreaseHeap =>
      require (MemoryFlags_from_bits a2) InvalidSyscall (fun flags =>
      Ok (Sys_IncreaseHeap a1 flags))
  | Num_DecreaseHeap => Ok (Sys_DecreaseHeap a1)
  | Num_UpdateMemoryFlags =>
      try_ (MemoryRange_new a1 a2) (fun range =>
      require (MemoryFlags_from_bits a3) InvalidSyscall (fun flags =>
      Ok (Sys_UpdateMemoryFlags range flags (PID_new (u8 a4)))))
  | Num_SetMemRegion =>
      try_ (pid_from_usize a1) (fun pid =>
      require (NonZero_new a3) InvalidSyscall (fun addr =>
      Ok (Sys_SetMemRegion pid (MemoryType_from a2) addr a4)))
  | Num_CreateServerWithAddress => Ok (Sys_CreateServerWithAddress (sid_from_words a1 a2 a3 a4))
  | Num_CreateServer => Ok Sys_CreateServer
  | Num_Connect => Ok (Sys_Connect (sid_from_words a1 a2 a3 a4))
  | Num_SendMessage =>
      match Message_try_from a2 a3 a4 a5 a6 a7 with
      | Some m => Ok (Sys_SendMessage (u32 a1) m)
      | None => Ok (Sys_Invalid a1 a2 a3 a4 a5 a6 a7)
      end
  | Num_ReturnMemory =>
      try_ (MemoryRange_new a2 a3) (fun buf =>
      Ok (Sys_ReturnMemory (MessageSender_from_usize a1) buf (NonZero_new a4) (NonZero_new a5)))
  | Num_ReplyAndReceiveNext =>
      Ok (Sys_ReplyAndReceiveNext (MessageSender_from_usize a1) a2 a3 a4 a5 a6 a7)
  | Num_CreateThread =>
      try_ (args_to_thread a1 a2 a3 a4 a5 a6 a7) (fun init => Ok (Sys_CreateThread init))
  | Num_CreateProcess =>
      try_ (ProcessInit_try_from (Args7 a1 a2 a3 a4 a5 a6 a7)) (fun init =>
      Ok (Sys_CreateProcess init))
  | Num_TerminateProcess => Ok (Sys_TerminateProcess (u32 a1))
  | Num_Shutdown => Ok Sys_Shutdown
  | Num_TryConnect => Ok (Sys_TryConnect (sid_from_words a1 a2 a3 a4))
  | Num_TrySendMessage => try_send_from_args a1 a2 a3 a4 a5 a6 a7
  | Num_ReturnScalar1 => Ok (Sys_ReturnScalar1 (MessageSender_from_usize a1) a2)
  | Num_ReturnScalar2 => Ok (Sys_ReturnScalar2 (MessageSender_from_usize a1) a2 a3)
  | Num_ConnectForProcess =>
      require (PID_new (u8 a1)) InvalidSyscall (fun pid =>
      Ok (Sys_ConnectForProcess pid (sid_from_words a2 a3 a4 a5)))
  | Num_CreateServerId => Ok Sys_CreateServerId
  | Num_GetThreadId => Ok Sys_GetThreadId
  | Num_GetProcessId => Ok Sys_GetProcessId
  | Num_DestroyServer => Ok (Sys_DestroyServer (sid_from_words a1 a2 a3 a4))
  | Num_Disconnect => Ok (Sys_Disconnect (u32 a1))
  | Num_JoinThread => Ok (Sys_JoinThread a1)
  | Num_SetExceptionHandler => Ok (Sys_SetExceptionHandler a1 a2)
  | Num_AdjustProcessLimit => Ok (Sys_AdjustProcessLimit a1 a2 a3)
  | Num_VirtToPhys => Ok (Sys_VirtToPhys a1)
  | Num_VirtToPhysPid => try_ (pid_from_usize a1) (fun pid => Ok (Sys_VirtToPhysPid pid a2))
  | Num_ReturnScalar5 => Ok (Sys_ReturnScalar5 (MessageSender_from_usize a1) a2 a3 a4 a5 a6)
  | Num_RegisterSwapper => Ok (Sys_RegisterSwapper (u32 a1) (u32 a2) (u32 a3) (u32 a4) a5 a6)
  | Num_SwapOp => Ok (Sys_SwapOp a1 a2 a3 a4 a5 a6 a7)
  | Num_RawTrng => Ok (Sys_RawTrng a1 a2 a3 a4 a5 a6 a7)
  | Num_PlatformSpecific => Ok (Sys_PlatformSpecific a1 a2 a3 a4 a5 a6 a7)
  | Num_Invalid => Ok (Sys_Invalid a1 a2 a3 a4 a5 a6 a7)
  end.

(** [from_args] applied to the array the encoder produced. *)
Definition SysCall_decode (w : args8) : result SysCall :=
  SysCall_from_args (w0 w) (w1 w) (w2 w) (w3 w) (w4 w) (w5 w) (w6 w) (w7 w).

(** ** Classifiers *)

Definition SysCall_has_memory (c : SysCall) : bool :=
  match c with
  | Sys_TrySendMessage _ msg | Sys_SendMessage _ msg =>
      match msg with Move _ | Borrow _ | MutableBorrow _ => true | _ => false end
  | Sys_ReturnMemory _ _ _ _ => true
  | Sys_ReplyAndReceiveNext _ _ _ _ _ _ t => t =? usize_MAX
  | _ => false
  end.

Definition SysCall_is_move (c : SysCall) : bool :=
  match c with
  | Sys_TrySendMessage _ (Move _) | Sys_SendMessage _ (Move _) => true
  | _ => false
  end.

Definition SysCall_is_borrow (c : SysCall) : bool :=
  match c with
  | Sys_TrySendMessage _ (Borrow _) | Sys_SendMessage _ (Borrow _) => true
  | _ => false
  end.

Definition SysCall_is_mutableborrow (c : SysCall) : bool :=
  match c with
  | Sys_TrySendMessage _ (MutableBorrow _) | Sys_SendMessage _ (MutableBorrow _) => true
  | _ => false
  end.

Definition SysCall_is_return_memory (c : SysCall) : bool :=
  match c with
  | Sys_ReturnMemory _ _ _ _ => true
  | Sys_ReplyAndReceiveNext _ _ _ _ _ _ t => t =? usize_MAX
  | _ => false
  end.

Definition SysCall_memory (c : SysCall) : option MemoryRange :=
  match c with
  | Sys_TrySendMessage _ msg | Sys_SendMessage _ msg =>
      match msg with
      | Move mm | Borrow mm | MutableBorrow mm => Some (mm_buf mm)
      | _ => None
      end
  | Sys_ReturnMemory _ range _ _ => Some range
  | Sys_ReplyAndReceiveNext _ _ a1 a2 _ _ t =>
      if t =? usize_MAX then
        match MemoryRange_new a1 a2 with Ok r => Some r | Err _ => None end
      else None
  | _ => None
  end.

Definition mm_set_buf (new : MemoryRange) (m : MemoryMessage) : MemoryMessage :=
  mk_MemoryMessage (mm_id m) new (mm_offset m) (mm_valid m).

Definition Message_replace_memory (new : MemoryRange) (m : Message) : Message :=
  match m with
  | Move mm => Move (mm_set_buf new mm)
  | Borrow mm => Borrow (mm_set_buf new mm)
  | MutableBorrow mm => MutableBorrow (mm_set_buf new mm)
  | m => m
  end.

Definition SysCall_replace_memory (c : SysCall) (new : MemoryRange) : SysCall :=
  match c with
  | Sys_TrySendMessage cid msg => Sys_TrySendMessage cid (Message_replace_memory new msg)
  | Sys_SendMessage cid msg => Sys_SendMessage cid (Message_replace_memory new msg)
  | Sys_ReturnMemory s _ o v => Sys_ReturnMemory s new o v
  | Sys_ReplyAndReceiveNext s a0 a1 a2 a3 a4 t =>
      if t =? usize_MAX
      then Sys_ReplyAndReceiveNext s a0 (range_addr new) (range_size new) a3 a4 t
      else Sys_ReplyAndReceiveNext s a0 a1 a2 a3 a4 t
  | c => c
  end.

(** [can_call_from_interrupt], without the case of the swap feature. *)
Definition SysCall_can_call_from_interrupt (c : SysCall) : bool :=
  match c with
  | Sys_TrySendMessage _ msg => negb (Message_is_blocking msg)
  | Sys_TryConnect _ | Sys_FreeInterrupt _ | Sys_ClaimInterrupt _ _ _
  | Sys_TryReceiveMessage _ | Sys_ReturnToParent _ _ | Sys_ReturnScalar5 _ _ _ _ _ _
  | Sys_ReturnScalar2 _ _ _ | Sys_ReturnScalar1 _ _ | Sys_ReturnMemory _ _ _ _ => true
  | _ => false
  end.

(** ** Well-formed calls

    The values of the Rust types, except that flags are those that
    [MemoryFlags::from_bits] accepts: it refuses [MemoryFlags::P], which is outside
    [FLAGS_ALL]. *)

Definition wf_flags (f : MemoryFlags) : bool := (0 <=? flag_bits f) && (flag_bits f <=? FLAGS_ALL).
Definition wf_opt_pid (o : option Z) : bool :=
  match o with Some p => wf_pid p | None => true end.
Definition wf_scalar (s : ScalarMessage) : bool :=
  forallb wf_word [sm_id s; sm_arg1 s; sm_arg2 s; sm_arg3 s; sm_arg4 s].
Definition wf_call_message (m : Message) : bool :=
  match m with
  | MutableBorrow m | Borrow m | Move m => wf_memory_message m
  | Scalar s | BlockingScalar s => wf_scalar s
  end.
Definition wf_sender (s : MessageSender) : bool := wf_word (sender_data s).
Definition wf_thread_init (i : ThreadInit) : bool :=
  wf_range (ti_stack i)
  && forallb wf_word [ti_call i; ti_arg1 i; ti_arg2 i; ti_arg3 i; ti_arg4 i].
Definition wf_process_init (i : ProcessInit) : bool :=
  wf_range (pi_stack i) && wf_range (pi_text i)
  && wf_nonzero (pi_text_destination i) && wf_nonzero (pi_start i).

Definition wf_SysCall (c : SysCall) : bool :=
  match c with
  | Sys_MapMemory p v s f =>
      wf_opt_nonzero p && wf_opt_nonzero v && wf_nonzero s && wf_flags f
  | Sys_UnmapMemory r => wf_range r
  | Sys_SetMemRegion p _ a s => wf_pid p && wf_nonzero a && wf_word s
  | Sys_IncreaseHeap n f => wf_word n && wf_flags f
  | Sys_UpdateMemoryFlags r f p => wf_range r && wf_flags f && wf_opt_pid p
  | Sys_Yield | Sys_WaitEvent | Sys_Shutdown | Sys_CreateServer | Sys_CreateServerId
  | Sys_GetThreadId | Sys_GetProcessId => true
  | Sys_ReceiveMessage s | Sys_TryReceiveMessage s | Sys_CreateServerWithAddress s
  | Sys_Connect s | Sys_TryConnect s | Sys_DestroyServer s => wf_sid s
  | Sys_ReturnToParent p n | Sys_SwitchTo p n | Sys_VirtToPhysPid p n => wf_pid p && wf_word n
  | Sys_ClaimInterrupt n a o => wf_word n && wf_nonzero a && wf_opt_nonzero o
  | Sys_FreeInterrupt n | Sys_DecreaseHeap n | Sys_TerminateProcess n | Sys_Disconnect n
  | Sys_JoinThread n | Sys_VirtToPhys n => wf_word n
  | Sys_ReadyThreads p => wf_pid p
  | Sys_SendMessage c m | Sys_TrySendMessage c m => wf_word c && wf_call_message m
  | Sys_ReturnMemory s r o v =>
      wf_sender s && wf_range r && wf_opt_nonzero o && wf_opt_nonzero v
  | Sys_ReturnScalar1 s a => wf_sender s && wf_word a
  | Sys_ReturnScalar2 s a b => wf_sender s && forallb wf_word [a; b]
  | Sys_CreateThread i => wf_thread_init i
  | Sys_CreateProcess i => wf_process_init i
  | Sys_ConnectForProcess p s => wf_pid p && wf_sid s
  | Sys_SetExceptionHandler a b => forallb wf_word [a; b]
  | Sys_AdjustProcessLimit a b c => forallb wf_word [a; b; c]
  | Sys_ReturnScalar5 s a b c d e => wf_sender s && forallb wf_word [a; b; c; d; e]
  | Sys_ReplyAndReceiveNext s a b c d e f => wf_sender s && forallb wf_word [a; b; c; d; e; f]
  | Sys_RegisterSwapper a b c d e f => forallb wf_word [a; b; c; d; e; f]
  | Sys_SwapOp a b c d e f g | Sys_RawTrng a b c d e f g
  | Sys_PlatformSpecific a b c d e f g | Sys_Invalid a b c d e f g =>
      forallb wf_word [a; b; c; d; e; f; g]
  end.

(** ** Lemmas *)

Lemma MemoryFlags_from_bits_wf f :
  wf_flags f = true -> MemoryFlags_from_bits (flag_bits f) = Some f.
Proof.
  unfold wf_flags, MemoryFlags_from_bits. intros H. zbool.
  destruct (Z.ltb_spec FLAGS_ALL (flag_bits f)); [lia | by destruct f].
Qed.

Lemma pid_from_usize_wf p : wf_pid p = true -> pid_from_usize p = Ok p.
Proof.
  intros H. pose proof (wf_pid_range p H). unfold pid_from_usize.
  destruct (Z.ltb_spec 255 p); [lia |]. by rewrite wf_pid_u8, wf_pid_new.
Qed.

Lemma opt_pid_wf o : wf_opt_pid o = true -> PID_new (u8 (get_or_0 o)) = o.
Proof. destruct o; [| done]. cbn. intros. by rewrite wf_pid_u8, wf_pid_new. Qed.

Lemma sid_from_words_wf s :
  wf_sid s = true -> sid_from_words (sid0 s) (sid1 s) (sid2 s) (sid3 s) = s.
Proof.
  unfold wf_sid, sid_from_words. intros. zbool. autorewrite with abi. by destruct s.
Qed.

Lemma MemoryType_roundtrip t : MemoryType_from (MemoryType_as_usize t) = t.
Proof. by destruct t. Qed.

Lemma SysCallNumber_roundtrip n : SysCallNumber_from (SysCallNumber_as_usize n) = n.
Proof. by destruct n. Qed.

Lemma thread_roundtrip n i :
  wf_thread_init i = true ->
  let w := thread_to_args n i in
  args_to_thread (w1 w) (w2 w) (w3 w) (w4 w) (w5 w) (w6 w) (w7 w) = Ok i.
Proof.
  unfold wf_thread_init. intros [Hr _]%andb_prop. cbn. unfold args_to_thread, MemoryRange_as_ptr, MemoryRange_len.
  rewrite MemoryRange_new_wf by done. by destruct i.
Qed.

Lemma process_init_roundtrip i :
  wf_process_init i = true -> ProcessInit_try_from (ProcessInit_to_args i) = Ok i.
Proof.
  unfold wf_process_init. intros H. zbool. unfold ProcessInit_try_from. cbn.
  rewrite (MemoryRange_new_wf (pi_stack i)), (MemoryRange_new_wf (pi_text i)) by done.
  autorewrite with abi. by destruct i.
Qed.

Lemma memory_message_parts m :
  wf_memory_message m = true ->
  MemoryRange_new (range_addr (mm_buf m)) (range_size (mm_buf m)) = Ok (mm_buf m) /\
  NonZero_new (get_or_0 (mm_offset m)) = mm_offset m /\
  NonZero_new (get_or_0 (mm_valid m)) = mm_valid m.
Proof.
  unfold wf_memory_message. intros H. zbool. rewrite MemoryRange_new_wf by done.
  by autorewrite with abi.
Qed.

#[export] Hint Rewrite MemoryRange_new_wf MemoryFlags_from_bits_wf pid_from_usize_wf
  opt_pid_wf sid_from_words_wf MemoryType_roundtrip using done : abi.

(** Both message calls decode to what was encoded. *)
Lemma send_message_roundtrip cid m :
  wf_word cid = true -> wf_call_message m = true ->
  SysCall_decode (message_as_args Num_SendMessage cid m) = Ok (Sys_SendMessage cid m).
Proof.
  intros Hc Hm. destruct m as [m | m | m | s | s]; cbn in Hm;
    [apply memory_message_parts in Hm as (H1 & H2 & H3) .. | |];
    unfold SysCall_decode, SysCall_from_args, Message_try_from; cbn; unfold MemoryRange_as_ptr, MemoryRange_len;
    rewrite ?H1, ?H2, ?H3, wf_word_u32 by done; by destruct m || by destruct s.
Qed.

Lemma try_send_message_roundtrip cid m :
  wf_word cid = true -> wf_call_message m = true ->
  SysCall_decode (message_as_args Num_TrySendMessage cid m) = Ok (Sys_TrySendMessage cid m).
Proof.
  intros Hc Hm. destruct m as [m | m | m | s | s]; cbn in Hm;
    [apply memory_message_parts in Hm as (H1 & H2 & H3) .. | |];
    unfold SysCall_decode, SysCall_from_args, try_send_from_args; cbn; unfold MemoryRange_as_ptr, MemoryRange_len;
    rewrite ?H1, ?H2, ?H3, wf_word_u32 by done; by destruct m || by destruct s.
Qed.

(** Reduce the decoder on a word array whose number is known. *)
Ltac decode_step :=
  unfold SysCall_decode, SysCall_from_args, sid_as_args; cbn;
  unfold try_, require, MemoryRange_as_ptr, MemoryRange_len; autorewrite with abi.

(** C12. The kernel decodes a system call to the call that user space encoded:
    [SysCall::from_args] inverts [SysCall::as_args] for all 46 calls, on every value
    of the Rust types whose memory flags are within [FLAGS_ALL], that is without
    [MemoryFlags::P]. *)
Theorem SysCall_roundtrip (c : SysCall) :
  wf_SysCall c = true -> SysCall_decode (SysCall_as_args c) = Ok c.
Proof.
  destruct c; cbn [wf_SysCall SysCall_as_args]; intros H; zbool;
    try (by apply send_message_roundtrip); try (by apply try_send_message_roundtrip);
    try (cbn [forallb] in *; zbool; decode_step; done);
    try (by destruct sender).
  - decode_step. by destruct sender.
  - unfold SysCall_decode, SysCall_from_args. rewrite thread_roundtrip by done. done.
  - unfold SysCall_decode, SysCall_from_args. cbn.
    change (Args7 _ _ _ _ _ _ _) with (ProcessInit_to_args init).
    by rewrite process_init_roundtrip.
Qed.

Definition example_call : SysCall := Sys_TrySendMessage 3 (Move example_message).

Lemma SysCall_roundtrip_witness :
  SysCall_decode (SysCall_as_args example_call) = Ok example_call.
Proof. apply SysCall_roundtrip. vm_compute. reflexivity. Defined.

(** ** Decoding arbitrary words *)

Lemma wf_nonzero_intro x y : wf_word x = true -> NonZero_new x = Some y -> wf_nonzero y = true.
Proof.
  unfold NonZero_new, wf_nonzero. intros Hw H. case_match eqn:E; [done |].
  injection H as <-. by rewrite Hw, E.
Qed.

Lemma wf_opt_nonzero_intro x : wf_word x = true -> wf_opt_nonzero (NonZero_new x) = true.
Proof.
  intros Hw. destruct (NonZero_new x) eqn:E; [by eapply wf_nonzero_intro | done].
Qed.

Lemma wf_range_intro a b r :
  wf_word a = true -> wf_word b = true -> MemoryRange_new a b = Ok r -> wf_range r = true.
Proof.
  unfold MemoryRange_new, wf_range. intros Ha Hb H.
  destruct (NonZero_new a) eqn:Ea; [| done]. destruct (NonZero_new b) eqn:Eb; [| done].
  injection H as <-. cbn. 
  by rewrite (wf_nonzero_intro a _ Ha Ea), (wf_nonzero_intro b _ Hb Eb).
Qed.

Lemma wf_u32 x : wf_word (u32 x) = true.
Proof. unfold wf_word. pose proof (u32_range x). apply andb_true_iff. lia. Qed.

Lemma wf_sid_intro a b c d : wf_sid (sid_from_words a b c d) = true.
Proof. unfold wf_sid. cbn. by rewrite !wf_u32. Qed.

Lemma wf_flags_intro x f :
  wf_word x = true -> MemoryFlags_from_bits x = Some f -> wf_flags f = true.
Proof.
  unfold MemoryFlags_from_bits, wf_flags. intros Hw H. case_match eqn:E; [done |].
  injection H as <-. cbn. apply wf_word_range in Hw. zbool. apply andb_true_iff. lia.
Qed.

Lemma wf_pid_u8_intro x p : PID_new (u8 x) = Some p -> wf_pid p = true.
Proof.
  unfold PID_new, NonZero_new, wf_pid. intros H. case_match eqn:E; [done |].
  injection H as <-. pose proof (u8_range x). zbool. apply andb_true_iff. lia.
Qed.

Lemma wf_pid_intro x p : pid_from_usize x = Ok p -> wf_pid p = true.
Proof.
  unfold pid_from_usize. intros H. case_match; [done |]. case_match eqn:E; [| done].
  injection H as <-. by eapply wf_pid_u8_intro.
Qed.

Create HintDb abi_wf.
#[export] Hint Resolve wf_nonzero_intro wf_opt_nonzero_intro wf_range_intro wf_u32
  wf_sid_intro wf_flags_intro wf_pid_u8_intro wf_pid_intro : abi_wf.

Lemma wf_memory_message_intro i a b c d r :
  forallb wf_word [i; a; b; c; d] = true -> MemoryRange_new a b = Ok r ->
  wf_memory_message (mk_MemoryMessage i r (NonZero_new c) (NonZero_new d)) = true.
Proof.
  cbn [forallb]. intros H Hr. zbool. unfold wf_memory_message. cbn.
  rewrite (wf_range_intro a b r), !wf_opt_nonzero_intro by done. by rewrite !andb_true_r.
Qed.

Lemma wf_message_intro k i a b c d m :
  forallb wf_word [i; a; b; c; d] = true ->
  Message_try_from k i a b c d = Some m -> wf_call_message m = true.
Proof.
  intros H. unfold Message_try_from. repeat case_match; intros [= <-]; try done;
    by apply (wf_memory_message_intro i a b c d).
Qed.

(** The errors the decoder reports. *)
Definition decode_error (e : Error) : bool :=
  match e with InvalidSyscall | InvalidPID | BadAddress | OutOfMemory => true | _ => false end.

Definition decoded_ok (r : result SysCall) : bool :=
  match r with Ok c => wf_SysCall c | Err e => decode_error e end.

Lemma try_send_decoded a1 a2 a3 a4 a5 a6 a7 :
  forallb wf_word [a1; a2; a3; a4; a5; a6; a7] = true ->
  decoded_ok (try_send_from_args a1 a2 a3 a4 a5 a6 a7) = true.
Proof.
  intros H. pose proof H as Hw. cbn [forallb] in Hw. zbool.
  assert (forallb wf_word [a3; a4; a5; a6; a7] = true) as Hm
    by (cbn [forallb]; andb_split; done).
  assert (Hmem : forall ctor : MemoryMessage -> Message,
    (forall m, wf_call_message (ctor m) = wf_memory_message m) ->
    decoded_ok (try_ (MemoryRange_new a4 a5) (fun buf =>
      Ok (Sys_TrySendMessage (u32 a1)
            (ctor (mk_MemoryMessage a3 buf (NonZero_new a6) (NonZero_new a7)))))) = true).
  { intros ctor Hc. destruct (MemoryRange_new a4 a5) eqn:Er; cbn [try_ decoded_ok wf_SysCall].
    - rewrite Hc, wf_u32. by apply (wf_memory_message_intro a3 a4 a5 a6 a7).
    - unfold MemoryRange_new in Er. by repeat case_match; simplify_eq. }
  unfold try_send_from_args.
  repeat case_match; try (by apply Hmem); cbn [decoded_ok wf_SysCall wf_call_message];
    rewrite ?wf_u32; done.
Qed.

Lemma range_decoded a b (k : MemoryRange -> result SysCall) :
  wf_word a = true -> wf_word b = true ->
  (forall r, wf_range r = true -> decoded_ok (k r) = true) ->
  decoded_ok (try_ (MemoryRange_new a b) k) = true.
Proof.
  intros Ha Hb Hk. destruct (MemoryRange_new a b) eqn:E; cbn [try_].
  - apply Hk, (wf_range_intro a b); done.
  - unfold MemoryRange_new in E. by repeat case_match; simplify_eq.
Qed.

Lemma pid_decoded a (k : Z -> result SysCall) :
  (forall p, wf_pid p = true -> decoded_ok (k p) = true) ->
  decoded_ok (try_ (pid_from_usize a) k) = true.
Proof.
  intros Hk. destruct (pid_from_usize a) eqn:E; cbn [try_].
  - apply Hk, (wf_pid_intro a); done.
  - unfold pid_from_usize in E. by repeat case_match; simplify_eq.
Qed.

Lemma wf_opt_pid_intro x : wf_opt_pid (PID_new (u8 x)) = true.
Proof. destruct (PID_new (u8 x)) eqn:E; [by eapply wf_pid_u8_intro | done]. Qed.

Lemma thread_decoded a1 a2 a3 a4 a5 a6 a7 :
  forallb wf_word [a1; a2; a3; a4; a5; a6; a7] = true ->
  decoded_ok (try_ (args_to_thread a1 a2 a3 a4 a5 a6 a7) (fun i => Ok (Sys_CreateThread i))) = true.
Proof.
  intros H. cbn [forallb] in H. zbool. unfold args_to_thread.
  destruct (MemoryRange_new a2 a3) eqn:E; [| done]. cbn [try_ decoded_ok wf_SysCall].
  unfold wf_thread_init. cbn [forallb ti_stack ti_call ti_arg1 ti_arg2 ti_arg3 ti_arg4].
  andb_split; eauto with abi_wf.
Qed.

Lemma process_decoded a1 a2 a3 a4 a5 a6 a7 :
  forallb wf_word [a1; a2; a3; a4; a5; a6; a7] = true ->
  decoded_ok (try_ (ProcessInit_try_from (Args7 a1 a2 a3 a4 a5 a6 a7))
                (fun i => Ok (Sys_CreateProcess i))) = true.
Proof.
  intros H. cbn [forallb] in H. zbool. unfold ProcessInit_try_from.
  cbn [s0 s1 s2 s3 s4 s5]. repeat case_match; try done. cbn [try_ decoded_ok wf_SysCall].
  unfold wf_process_init. cbn [pi_stack pi_text pi_text_destination pi_start].
  andb_split; eauto with abi_wf.
Qed.

#[export] Hint Resolve wf_opt_pid_intro : abi_wf.

(** C35. Whatever eight words user space puts in its registers, decoding them
    yields a call whose fields satisfy the invariants of their Rust types (a
    PID between 1 and 255, non-null ranges, no unknown memory flag), or one of
    four errors; it never panics. *)
Theorem SysCall_from_args_wf a0 a1 a2 a3 a4 a5 a6 a7 :
  forallb wf_word [a1; a2; a3; a4; a5; a6; a7] = true ->
  decoded_ok (SysCall_from_args a0 a1 a2 a3 a4 a5 a6 a7) = true.
Proof.
  intros H. pose proof H as Hw. cbn [forallb] in Hw. zbool.
  unfold SysCall_from_args. destruct (SysCallNumber_from a0);
    try (by apply try_send_decoded); try (by apply thread_decoded);
    try (by apply process_decoded); try apply range_decoded; try apply pid_decoded; try done;
    intros; unfold require; repeat case_match; try done;
    cbn [decoded_ok wf_SysCall wf_sender MessageSender_from_usize sender_data forallb];
    andb_split; eauto with abi_wf.
  eapply (wf_message_intro a2 a3 a4 a5 a6 a7); [| done].
  cbn [forallb]. andb_split; done.
Qed.

Lemma SysCall_from_args_wf_witness :
  decoded_ok (SysCall_from_args 7 256 1 0 0 0 0 0) = true.
Proof. apply SysCall_from_args_wf. vm_compute. reflexivity. Defined.

(** The memory a call carries can be read exactly when the call says it has
    some, and replacing it is visible to the reader. *)
Lemma SysCall_replace_memory_spec (c : SysCall) (new : MemoryRange) :
  wf_range new = true ->
  SysCall_memory (SysCall_replace_memory c new)
  = (if SysCall_has_memory c then Some new else None).
Proof.
  intros H. destruct c; cbn; try done; try (by destruct m).
  destruct (return_type =? usize_MAX) eqn:E; cbn; rewrite E; [| done].
  by rewrite MemoryRange_new_wf.
Qed.
