(* ===== verification/Server.v ===== *)
(** * A server and its message queue

    Models src/kernel/src/server.rs (riscv32): the sender word, the 128-slot
    message queue with its head and tail generations, and the mask of threads
    that wait for a message.  [Server::destroy], which also drives the process
    table, is modelled with the process table in Services.v. *)

From Stdlib Require Import ZArith Lia Bool.
From stdpp Require Import base numbers list option.
From S2P Require Import Prelude.
From S2P Require Import Abi.

#[local] Open Scope Z_scope.
#[local] Open Scope kernel_scope.

(** ** Sender words *)

Record SenderID : Type := mk_SenderID {
  sender_sidx : Z;
  sender_idx : Z;
  sender_pid : option Z
}.

Definition SenderID_from_usize (item : Z) : SenderID :=
  mk_SenderID (Z.land (shr32 item 16) 255) (Z.land item 65535) (PID_new (u8 (shr32 item 24))).

Definition SenderID_to_usize (val : SenderID) : Z :=
  Z.lor (Z.lor (shl32 (get_or_0 (sender_pid val)) 24)
               (Z.land (shl32 (sender_sidx val) 16) 16711680))
        (Z.land (sender_idx val) 65535).

Definition SenderID_from_sender (item : MessageSender) : SenderID :=
  SenderID_from_usize (MessageSender_to_usize item).

Definition SenderID_to_sender (val : SenderID) : MessageSender :=
  MessageSender_from_usize (SenderID_to_usize val).

(** ** Queue entries *)

Inductive WaitingMessage : Type :=
| WM_None
| WM_BorrowedMemory (pid tid server_addr client_addr len : Z)
| WM_MovedMemory
| WM_ScalarMessage (pid tid : Z)
| WM_ForgetMemory (r : MemoryRange).

Inductive QueuedMessage : Type :=
| QM_Empty
| QM_BlockingScalarMessage (pid tid idx reserved id arg1 arg2 arg3 arg4 : Z)
| QM_ScalarMessage (pid tid idx reserved id arg1 arg2 arg3 arg4 : Z)
| QM_MemoryMessageSend (pid tid idx client_addr id server_addr buf_size offset valid : Z)
| QM_MemoryMessageROLend (pid tid idx client_addr id server_addr buf_size offset valid : Z)
| QM_MemoryMessageRWLend (pid tid idx client_addr id server_addr buf_size offset valid : Z)
| QM_MemoryMessageROLendTerminated (pid tid idx client_addr id server_addr buf_size offset valid : Z)
| QM_MemoryMessageRWLendTerminated (pid tid idx client_addr id server_addr buf_size offset valid : Z)
| QM_BlockingScalarTerminated (pid tid idx reserved id arg1 arg2 arg3 arg4 : Z)
| QM_WaitingReturnMemory (pid tid idx server_addr client_addr len : Z)
| QM_WaitingForget (pid tid idx server_addr client_addr len : Z)
| QM_WaitingReturnScalar (pid tid idx return_address : Z).

#[export] Instance QueuedMessage_eq_dec : EqDecision QueuedMessage.
Proof. solve_decision. Defined.
#[export] Instance WaitingMessage_eq_dec : EqDecision WaitingMessage.
Proof. solve_decision. Defined.

Definition QueuedMessage_is_in_server (m : QueuedMessage) : bool :=
  match m with
  | QM_WaitingForget _ _ _ _ _ _ | QM_WaitingReturnMemory _ _ _ _ _ _
  | QM_WaitingReturnScalar _ _ _ _ => true
  | _ => false
  end.

(** ** The server *)

Record Server : Type := mk_Server {
  server_sid : SID;
  server_pid : Z;
  queue_head : nat;
  queue_tail : nat;
  head_generation : Z;
  tail_generation : Z;
  queue : list QueuedMessage;
  ready_threads : Z;
  (** the address of the page that holds the queue *)
  queue_ptr : Z
}.

Definition set_queue (q : list QueuedMessage) (s : Server) : Server :=
  mk_Server (server_sid s) (server_pid s) (queue_head s) (queue_tail s)
            (head_generation s) (tail_generation s) q (ready_threads s) (queue_ptr s).
Definition set_queue_head (h : nat) (s : Server) : Server :=
  mk_Server (server_sid s) (server_pid s) h (queue_tail s)
            (head_generation s) (tail_generation s) (queue s) (ready_threads s) (queue_ptr s).
Definition set_queue_tail (t : nat) (s : Server) : Server :=
  mk_Server (server_sid s) (server_pid s) (queue_head s) t
            (head_generation s) (tail_generation s) (queue s) (ready_threads s) (queue_ptr s).
Definition set_head_generation (g : Z) (s : Server) : Server :=
  mk_Server (server_sid s) (server_pid s) (queue_head s) (queue_tail s)
            g (tail_generation s) (queue s) (ready_threads s) (queue_ptr s).
Definition set_tail_generation (g : Z) (s : Server) : Server :=
  mk_Server (server_sid s) (server_pid s) (queue_head s) (queue_tail s)
            (head_generation s) g (queue s) (ready_threads s) (queue_ptr s).
Definition set_ready_threads (m : Z) (s : Server) : Server :=
  mk_Server (server_sid s) (server_pid s) (queue_head s) (queue_tail s)
            (head_generation s) (tail_generation s) (queue s) m (queue_ptr s).

(** The backing store of a queue is one page of 32-byte entries. *)
Definition QUEUE_LEN : nat := 128.

(** [Server::init] on the slot [new].  The page handed in is zeroed, and the
    all-zero entry is [Empty]. *)
Definition Server_init (new : option Server) (pid : Z) (sid : SID) (backing : MemoryRange)
    : result Server :=
  match new with
  | Some _ => Err MemoryInUse
  | None =>
      Ok (mk_Server sid pid 0 0 0 0
            (replicate (Z.to_nat (MemoryRange_len backing / 32)) QM_Empty) 0
            (MemoryRange_as_ptr backing))
  end.

(** [i += 1; if i >= len { i = 0 }]. *)
Definition next_index (len i : nat) : nat := if (len <=? S i)%nat then 0%nat else S i.

Definition queue_set (i : nat) (m : QueuedMessage) (s : Server) : Server :=
  set_queue (<[i := m]> (queue s)) s.

Definition advance_tail (s : Server) : Server :=
  set_queue_tail (next_index (length (queue s)) (queue_tail s)) s.
Definition advance_head (s : Server) : Server :=
  set_queue_head (next_index (length (queue s)) (queue_head s)) s.

(** *** [discard_messages_for_pid] *)

Definition discard_entry (pid : Z) (m : QueuedMessage) : QueuedMessage :=
  match m with
  | QM_MemoryMessageROLend msg_pid tid idx a1 a2 a3 a4 a5 a6 =>
      if msg_pid =? pid
      then QM_MemoryMessageROLendTerminated msg_pid tid idx a1 a2 a3 a4 a5 a6 else m
  | QM_MemoryMessageRWLend msg_pid tid idx a1 a2 a3 a4 a5 a6 =>
      if msg_pid =? pid
      then QM_MemoryMessageRWLendTerminated msg_pid tid idx a1 a2 a3 a4 a5 a6 else m
  | QM_BlockingScalarMessage msg_pid tid idx a1 a2 a3 a4 a5 a6 =>
      if msg_pid =? pid
      then QM_BlockingScalarTerminated msg_pid tid idx a1 a2 a3 a4 a5 a6 else m
  | _ => m
  end.

Definition discard_messages_for_pid (pid : Z) (s : Server) : Server :=
  set_queue (map (discard_entry pid) (queue s)) s.

(** *** [take_waiting_message] *)

(** The [while] loop that skips a run of empty slots; it runs at most once per
    slot, which is the fuel it is given. *)
Fixpoint skip_empty (fuel : nat) : Server -> outcome Error Server unit := fun s =>
  if decide (queue_tail s = queue_head s) then ROk s tt
  else match queue s !! queue_tail s with
       | None => RPanic
       | Some QM_Empty =>
           match fuel with
           | O => RStuck
           | S fuel' => skip_empty fuel' (advance_tail s)
           end
       | Some _ => ROk s tt
       end.

(** The tuple [(pid, tid, idx, server_addr, client_addr, len, forget, is_memory)]. *)
Definition waiting_fields (m : QueuedMessage)
    : option (Z * Z * Z * Z * Z * Z * bool * bool) :=
  match m with
  | QM_WaitingReturnMemory pid tid idx server_addr client_addr len =>
      Some (pid, tid, idx, server_addr, client_addr, len, false, true)
  | QM_WaitingForget pid tid idx server_addr client_addr len =>
      Some (pid, tid, idx, server_addr, client_addr, len, true, true)
  | QM_WaitingReturnScalar pid tid idx return_address =>
      Some (pid, tid, idx, return_address, 0, 0, true, false)
  | _ => None
  end.

(** What the caller is told about the freed slot. *)
Definition finish_reply (pid tid server_addr client_addr len : Z) (forget is_memory : bool)
    : Server -> outcome Error Server WaitingMessage :=
  if negb is_memory then
    (pid <- unwrap (PID_new (u8 pid));; ret (WM_ScalarMessage pid tid))
  else if forget then
    (r <- lift_result (MemoryRange_new server_addr len);; ret (WM_ForgetMemory r))
  else
    match NonZero_new server_addr with
    | None => ret WM_MovedMemory
    | Some server_addr =>
        client_addr <- unwrap (NonZero_new client_addr);;
        len <- unwrap (NonZero_new len);;
        pid <- unwrap (PID_new (u8 pid));;
        ret (WM_BorrowedMemory pid tid server_addr client_addr len)
    end.

Definition take_waiting_message (message_index : nat) (buf : option MemoryRange)
    : Server -> outcome Error Server WaitingMessage :=
  q <- gets queue;;
  current_val <- ok_or (q !! message_index) BadAddress;;
  match waiting_fields current_val with
  | None => ret WM_None
  | Some (pid, tid, _, server_addr, client_addr, len, forget, is_memory) =>
      (match buf with
       | Some b =>
           if is_memory && (negb (server_addr =? MemoryRange_as_ptr b)
                            || negb (len =? MemoryRange_len b))
           then fail BadAddress else ret tt
       | None => ret tt
       end) ;;;
      modify (queue_set message_index QM_Empty) ;;;
      tail <- gets queue_tail;;
      (if decide (message_index = tail)
       then modify advance_tail ;;; skip_empty (length q)
       else ret tt) ;;;
      finish_reply pid tid server_addr client_addr len forget is_memory
  end.

(** *** [take_next_message] *)

(** What one iteration of the loop does with the entry it looks at:
    [Take_skip] continues with the next slot, [Take_bad_range] is the [?] on a
    null memory range, [Take_bad_pid] the [unwrap] of a PID above 255,
    [Take_free] returns the envelope and frees the slot and [Take_reply]
    returns it and leaves the entry that waits for the reply. *)
Inductive take_action : Type :=
| Take_skip
| Take_bad_pid
| Take_bad_range
| Take_free (e : MessageEnvelope)
| Take_reply (e : MessageEnvelope) (response : QueuedMessage).

(** [sender.pid = PID::new(pid.try_into().unwrap())], then the envelope. *)
Definition with_sender (sidx : Z) (queue_idx : nat) (pid : Z)
    (k : MessageSender -> take_action) : take_action :=
  if 255 <? pid then Take_bad_pid
  else k (SenderID_to_sender (mk_SenderID sidx (Z.of_nat queue_idx) (PID_new pid))).

Definition memory_envelope (sender : MessageSender) (ctor : MemoryMessage -> Message)
    (id server_addr buf_size offset valid : Z) (k : MessageEnvelope -> take_action)
    : take_action :=
  match MemoryRange_new server_addr buf_size with
  | Err _ => Take_bad_range
  | Ok buf =>
      k (mk_MessageEnvelope sender
           (ctor (mk_MemoryMessage id buf (NonZero_new offset) (NonZero_new valid))))
  end.

Definition take_entry (sidx : Z) (queue_idx : nat) (generation : Z) (m : QueuedMessage)
    : take_action :=
  let lend ctor pid tid idx client_addr id server_addr buf_size offset valid :=
    if idx =? generation then
      with_sender sidx queue_idx pid (fun sender =>
        memory_envelope sender ctor id server_addr buf_size offset valid (fun e =>
          Take_reply e (QM_WaitingReturnMemory pid tid idx server_addr client_addr buf_size)))
    else Take_skip in
  match m with
  | QM_MemoryMessageROLend pid tid idx client_addr id server_addr buf_size offset valid =>
      lend Borrow pid tid idx client_addr id server_addr buf_size offset valid
  | QM_MemoryMessageRWLend pid tid idx client_addr id server_addr buf_size offset valid =>
      lend MutableBorrow pid tid idx client_addr id server_addr buf_size offset valid
  | QM_MemoryMessageROLendTerminated pid tid idx client_addr id server_addr buf_size offset valid =>
      lend Borrow pid tid idx client_addr id server_addr buf_size offset valid
  | QM_MemoryMessageRWLendTerminated pid tid idx client_addr id server_addr buf_size offset valid =>
      lend MutableBorrow pid tid idx client_addr id server_addr buf_size offset valid
  | QM_BlockingScalarMessage pid tid idx client_addr id arg1 arg2 arg3 arg4 =>
      if idx =? generation then
        with_sender sidx queue_idx pid (fun sender =>
          Take_reply
            (mk_MessageEnvelope sender (BlockingScalar (mk_ScalarMessage id arg1 arg2 arg3 arg4)))
            (QM_WaitingReturnScalar pid tid idx client_addr))
      else Take_skip
  | QM_MemoryMessageSend pid _ idx _ id server_addr buf_size offset valid =>
      if idx =? generation then
        with_sender sidx queue_idx pid (fun sender =>
          memory_envelope sender Move id server_addr buf_size offset valid Take_free)
      else Take_skip
  | QM_ScalarMessage pid _ idx _ id arg1 arg2 arg3 arg4
  | QM_BlockingScalarTerminated pid _ idx _ id arg1 arg2 arg3 arg4 =>
      if idx =? generation then
        with_sender sidx queue_idx pid (fun sender =>
          Take_free
            (mk_MessageEnvelope sender (Scalar (mk_ScalarMessage id arg1 arg2 arg3 arg4))))
      else Take_skip
  | _ => Take_skip
  end.

(** Leave [m] in the slot the message was taken from, advance the tail when it
    points there, and go on to the next generation. *)
Definition finish_take (queue_idx : nat) (m : QueuedMessage) (s : Server) : Server :=
  let s := queue_set queue_idx m s in
  let s := if decide (queue_idx = queue_tail s) then advance_tail s else s in
  set_head_generation (u8 (head_generation s + 1)) s.

(** The [loop]; it visits every slot at most once. *)
Fixpoint take_loop (fuel : nat) (sidx : Z) (queue_idx : nat)
    : Server -> outcome Error Server (option MessageEnvelope) := fun s =>
  match fuel with
  | O => RStuck
  | S fuel' =>
      match queue s !! queue_idx with
      | None => RPanic
      | Some m =>
          match take_entry sidx queue_idx (head_generation s) m with
          | Take_bad_pid => RPanic
          | Take_bad_range => ROk s None
          | Take_free e => ROk (finish_take queue_idx QM_Empty s) (Some e)
          | Take_reply e response => ROk (finish_take queue_idx response s) (Some e)
          | Take_skip =>
              let queue_idx := next_index (length (queue s)) queue_idx in
              if decide (queue_idx = queue_tail s) then ROk s None
              else take_loop fuel' sidx queue_idx s
          end
      end
  end.

Definition take_next_message (sidx : Z) : Server -> outcome Error Server (option MessageEnvelope) :=
  fun s =>
    if tail_generation s =? head_generation s then ROk s None
    else take_loop (length (queue s)) sidx (queue_tail s) s.

(** *** [queue_message] and [queue_response] *)

(** [for queue_idx in lo..lo+n { if self.queue[queue_idx] == Empty { ... } }];
    the outer [None] is the panic of an index out of bounds. *)
Fixpoint find_empty (q : list QueuedMessage) (lo n : nat) : option (option nat) :=
  match n with
  | O => Some None
  | S n' =>
      match q !! lo with
      | None => None
      | Some QM_Empty => Some (Some lo)
      | Some _ => find_empty q (S lo) n'
      end
  end.

Definition message_entry (pid tid generation : Z) (message : Message) (original_address : option Z)
    : QueuedMessage :=
  match message with
  | Scalar msg =>
      QM_ScalarMessage pid (u8 tid) generation 0
        (sm_id msg) (sm_arg1 msg) (sm_arg2 msg) (sm_arg3 msg) (sm_arg4 msg)
  | BlockingScalar msg =>
      QM_BlockingScalarMessage pid (u8 tid) generation 0
        (sm_id msg) (sm_arg1 msg) (sm_arg2 msg) (sm_arg3 msg) (sm_arg4 msg)
  | Move msg =>
      QM_MemoryMessageSend pid (u8 tid) generation (get_or_0 original_address) (mm_id msg)
        (MemoryRange_as_ptr (mm_buf msg)) (MemoryRange_len (mm_buf msg))
        (get_or_0 (mm_offset msg)) (get_or_0 (mm_valid msg))
  | MutableBorrow msg =>
      QM_MemoryMessageRWLend pid (u8 tid) generation (get_or_0 original_address) (mm_id msg)
        (MemoryRange_as_ptr (mm_buf msg)) (MemoryRange_len (mm_buf msg))
        (get_or_0 (mm_offset msg)) (get_or_0 (mm_valid msg))
  | Borrow msg =>
      QM_MemoryMessageROLend pid (u8 tid) generation (get_or_0 original_address) (mm_id msg)
        (MemoryRange_as_ptr (mm_buf msg)) (MemoryRange_len (mm_buf msg))
        (get_or_0 (mm_offset msg)) (get_or_0 (mm_valid msg))
  end.

Definition queue_message (pid tid : Z) (message : Message) (original_address : option Z)
    : Server -> outcome Error Server nat :=
  s <- gets id;;
  if tail_generation s =? u8 (head_generation s - 1) then fail ServerQueueFull
  else
    discovered_index <- unwrap (find_empty (queue s) (queue_head s)
                                  (length (queue s) - queue_head s));;
    discovered_index <-
      match discovered_index with
      | None => unwrap (find_empty (queue s) 0 (queue_head s))
      | Some i => ret (Some i)
      end;;
    match discovered_index with
    | None => fail ServerQueueFull
    | Some queue_idx =>
        modify (queue_set queue_idx
                  (message_entry pid tid (tail_generation s) message original_address)) ;;;
        modify (set_tail_generation (u8 (tail_generation s + 1))) ;;;
        (if decide (queue_idx = queue_head s) then modify advance_head else ret tt) ;;;
        ret queue_idx
    end.

(** The [loop] of [queue_response]; it returns to the head after one round. *)
Fixpoint find_empty_round (fuel : nat) (queue_idx : nat) : Server -> outcome Error Server nat :=
  fun s =>
    match fuel with
    | O => RStuck
    | S fuel' =>
        match queue s !! queue_idx with
        | None => RPanic
        | Some QM_Empty => ROk s queue_idx
        | Some _ =>
            let queue_idx := next_index (length (queue s)) queue_idx in
            if decide (queue_idx = queue_head s) then RErr s ServerQueueFull
            else find_empty_round fuel' queue_idx s
        end
    end.

Definition response_entry (pid tid : Z) (message : Message) (client_address : option Z)
    : QueuedMessage :=
  match message with
  | Scalar _ | BlockingScalar _ =>
      QM_WaitingReturnScalar pid (u8 tid) 0 (get_or_0 client_address)
  | Move msg =>
      QM_WaitingForget pid (u8 tid) 0 (MemoryRange_as_ptr (mm_buf msg))
        (get_or_0 client_address) (MemoryRange_len (mm_buf msg))
  | MutableBorrow msg | Borrow msg =>
      QM_WaitingReturnMemory pid (u8 tid) 0 (MemoryRange_as_ptr (mm_buf msg))
        (get_or_0 client_address) (MemoryRange_len (mm_buf msg))
  end.

Definition queue_response (pid tid : Z) (message : Message) (client_address : option Z)
    : Server -> outcome Error Server nat :=
  head <- gets queue_head;;
  len <- gets (fun s => length (queue s));;
  queue_idx <- find_empty_round len head;;
  modify (queue_set queue_idx (response_entry pid tid message client_address)) ;;;
  (if decide (queue_idx = head) then modify advance_head else ret tt) ;;;
  ret queue_idx.

(** *** The threads that wait for a message *)

(** [mask.rotate_left(1)] on a [usize]. *)
Definition rotate_left1 (m : Z) : Z := Z.lor (shl32 m 1) (shr32 m 31).

(** The [loop] of [take_available_thread]; the mask is back at 1 after 32 turns. *)
Fixpoint available_loop (fuel : nat) (mask tid : Z) : Server -> outcome Error Server (option Z) :=
  fun s =>
    match fuel with
    | O => RStuck
    | S fuel' =>
        if Z.land (ready_threads s) mask =? mask
        then ROk (set_ready_threads (Z.land (ready_threads s) (not32 mask)) s) (Some tid)
        else
          let mask := rotate_left1 mask in
          let tid := tid + 1 in
          if mask =? 1 then RPanic else available_loop fuel' mask tid s
    end.

Definition take_available_thread : Server -> outcome Error Server (option Z) :=
  fun s => if ready_threads s =? 0 then ROk s None else available_loop 32 1 0 s.

Definition return_available_thread (tid : Z) : Server -> outcome Error Server unit :=
  fun s => if has_bit (ready_threads s) tid then RPanic
           else ROk (set_ready_threads (set_bit (ready_threads s) tid) s) tt.

Definition park_thread (tid : Z) : Server -> outcome Error Server unit :=
  s <- gets id;;
  assert_ (negb (has_bit (ready_threads s) tid)) ;;;
  modify (set_ready_threads (set_bit (ready_threads s) tid)).

(** ** Sender words: round trip *)

(** The fields of a sender as the kernel builds it: [sidx] indexes the table of
    128 servers, [idx] a queue slot. *)
Definition wf_SenderID (v : SenderID) : bool :=
  (0 <=? sender_sidx v) && (sender_sidx v <? 256)
  && (0 <=? sender_idx v) && (sender_idx v <? 65536)
  && match sender_pid v with Some p => wf_pid p | None => true end.

Lemma sender_word p s i :
  0 <= p < 256 -> 0 <= s < 256 -> 0 <= i < 65536 ->
  Z.lor (Z.lor (shl32 p 24) (Z.land (shl32 s 16) 16711680)) (Z.land i 65535)
  = p * 16777216 + (s * 65536 + i).
Proof.
  intros Hp Hs Hi. unfold shl32. change (24 mod 32) with 24. change (16 mod 32) with 16.
  rewrite (u32_id (Z.shiftl p 24)) by (rewrite Z.shiftl_mul_pow2; lia).
  rewrite (u32_id (Z.shiftl s 16)) by (rewrite Z.shiftl_mul_pow2; lia).
  change 16711680 with (Z.shiftl 255 16). rewrite <- Z.shiftl_land.
  rewrite (land_mask s 8 255), (land_mask i 16 65535) by done.
  change (2 ^ 8) with 256. change (2 ^ 16) with 65536.
  rewrite !Z.mod_small, <- Z.lor_assoc by lia.
  rewrite (lor_shiftl_add s i 16) by lia.
  rewrite lor_shiftl_add by lia. lia.
Qed.

Lemma sender_word_fields p s i :
  0 <= p < 256 -> 0 <= s < 256 -> 0 <= i < 65536 ->
  let w := p * 16777216 + (s * 65536 + i) in
  Z.land (shr32 w 16) 255 = s /\ Z.land w 65535 = i /\ u8 (shr32 w 24) = p.
Proof.
  intros Hp Hs Hi w.
  assert (Hw : w = p * 16777216 + (s * 65536 + i)) by done. clearbody w.
  unfold shr32. change (24 mod 32) with 24. change (16 mod 32) with 16.
  rewrite (land_mask _ 8 255), (land_mask _ 16 65535), !shiftr_div by done.
  change (2 ^ 8) with 256. change (2 ^ 16) with 65536. change (2 ^ 24) with 16777216.
  assert (w / 65536 = p * 256 + s) as -> by (symmetry; apply (Z.div_unique _ _ _ i); lia).
  assert (w / 16777216 = p) as ->
    by (symmetry; apply (Z.div_unique _ _ _ (s * 65536 + i)); lia).
  repeat split.
  - symmetry. apply (Z.mod_unique _ _ p); lia.
  - symmetry. apply (Z.mod_unique _ _ (p * 256 + s)); lia.
  - apply u8_id. lia.
Qed.

(** The word a server receives as the sender of a message identifies the
    message: unpacking it gives back the server index, the queue slot and the
    sending process that were packed. *)
Lemma SenderID_roundtrip (v : SenderID) :
  wf_SenderID v = true -> SenderID_from_usize (SenderID_to_usize v) = v.
Proof.
  unfold wf_SenderID, SenderID_from_usize, SenderID_to_usize. intros H. zbool.
  assert (0 <= get_or_0 (sender_pid v) < 256) as Hp.
  { destruct (sender_pid v) as [p |]; [| done]. cbn. pose proof (wf_pid_range p ltac:(done)). lia. }
  rewrite sender_word by lia.
  destruct (sender_word_fields (get_or_0 (sender_pid v)) (sender_sidx v) (sender_idx v))
    as (-> & -> & ->); [lia ..|].
  destruct v as [s i [p |]]; cbn in *; [| done]. by rewrite wf_pid_new.
Qed.

(** ** Waiting threads *)

Lemma land_bit_eqb (m t : Z) :
  0 <= t < 32 -> (Z.land m (bit t) =? bit t) = Z.testbit m t.
Proof.
  intros Ht. destruct (Z.testbit m t) eqn:E.
  - apply Z.eqb_eq, Z.bits_inj'. intros i Hi. rewrite Z.land_spec, bit_spec by lia.
    destruct (Z.eqb_spec i t) as [-> |]; [by rewrite E | by rewrite andb_false_r].
  - apply Z.eqb_neq. intros H. assert (Z.testbit (Z.land m (bit t)) t = true) as Hb.
    { rewrite H, bit_spec by lia. apply Z.eqb_refl. }
    by rewrite Z.land_spec, E in Hb.
Qed.

Lemma rotate_bit (t : Z) : 0 <= t < 31 -> rotate_left1 (bit t) = bit (t + 1).
Proof.
  intros Ht. unfold rotate_left1, shl32, shr32. change (1 mod 32) with 1. change (31 mod 32) with 31.
  rewrite !bit_pow, Z.shiftl_mul_pow2, Z.shiftr_div_pow2 by lia.
  assert (2 ^ t < 2 ^ 31) by (apply Z.pow_lt_mono_r; lia).
  rewrite (Z.div_small (2 ^ t)), Z.lor_0_r, Z.pow_add_r by lia.
  apply u32_id. change (2 ^ 1) with 2. change (2 ^ 31) with 2147483648 in *. lia.
Qed.

Lemma bit_ne_1 (t : Z) : 1 <= t < 32 -> (bit t =? 1) = false.
Proof.
  intros Ht. rewrite bit_pow by lia. apply Z.eqb_neq.
  pose proof (Z.pow_gt_1 2 t). lia.
Qed.

(** The lowest set bit of a mask. *)
Definition lowest_bit (m t : Z) : Prop :=
  0 <= t < 32 /\ Z.testbit m t = true /\ forall j, 0 <= j < t -> Z.testbit m j = false.

Lemma available_loop_spec fuel t j s :
  0 <= t -> t <= j < 32 -> Z.of_nat fuel = 32 - t ->
  lowest_bit (ready_threads s) j ->
  available_loop fuel (bit t) t s
  = ROk (set_ready_threads (clear_bit (ready_threads s) j) s) (Some j).
Proof.
  intros Ht Hj Hf (Hr & Hset & Hlow). revert t Ht Hj Hf.
  induction fuel as [| fuel IH]; intros t Ht Hj Hf; [lia |]. cbn [available_loop].
  rewrite land_bit_eqb by lia. destruct (decide (t = j)) as [-> | Hne].
  - by rewrite Hset.
  - rewrite (Hlow t), rotate_bit, bit_ne_1 by lia. apply IH; lia.
Qed.

Lemma lowest_bit_exists (m : Z) : 0 < m < 4294967296 -> exists t, lowest_bit m t.
Proof.
  intros Hm.
  assert (Hex : exists n : nat, (n < 32)%nat /\ Z.testbit m (Z.of_nat n) = true).
  { exists (Z.to_nat (Z.log2 m)). pose proof (Z.log2_nonneg m).
    rewrite Z2Nat.id by lia. split; [| apply Z.bit_log2; lia].
    assert (Z.log2 m < 32) by (apply Z.log2_lt_pow2; lia). lia. }
  destruct Hex as (n & Hn & Hb). revert Hn Hb.
  induction (lt_wf n) as [n _ IH]; intros Hn Hb.
  destruct (decide (Exists (fun k => Z.testbit m (Z.of_nat k) = true) (seq 0 n))) as [He | Hne].
  - apply Exists_exists in He as (k & Hk%in_seq & Hkb). apply (IH k); [lia | lia | done].
  - exists (Z.of_nat n). split; [lia |]. split; [done |]. intros j Hj.
    destruct (Z.testbit m j) eqn:E; [| done]. exfalso. apply Hne, Exists_exists.
    exists (Z.to_nat j). rewrite Z2Nat.id by lia. split; [| done]. apply in_seq. lia.
Qed.

(** A server with waiting threads hands out the one with the lowest
    number and removes exactly that thread from its mask; it never reaches the
    panic of the search loop, and it hands out none only when none waits. *)
Lemma take_available_thread_spec (s : Server) :
  0 <= ready_threads s < 4294967296 ->
  if ready_threads s =? 0 then take_available_thread s = ROk s None
  else exists t, lowest_bit (ready_threads s) t /\
       take_available_thread s
       = ROk (set_ready_threads (clear_bit (ready_threads s) t) s) (Some t).
Proof.
  intros Hr. unfold take_available_thread. case_match eqn:E; [done |]. zbool.
  destruct (lowest_bit_exists (ready_threads s)) as [t Ht]; [lia |].
  exists t. split; [done |]. change 1 with (bit 0). destruct Ht as (? & ? & ?).
  by apply available_loop_spec; [lia .. |].
Qed.

Definition example_server : Server :=
  mk_Server (mk_SID 1 2 3 4) 3 0 0 0 0 (replicate QUEUE_LEN QM_Empty) 20 12288.
