(* ===== verification/ServerSpec.v ===== *)
(** * What a server's queue promises, and that it keeps the promise

    The abstract server is a FIFO list of the messages its clients sent, each
    with the ticket (the slot number) it was given, and a finite map from
    tickets to the replies the server owes.  [Rep] relates it to the concrete
    queue of Server.v, in which the order of the messages is only implied by
    wrapping 8-bit generation numbers.  Each operation refines an abstract one,
    so every sequence of operations does, and messages are delivered in the
    order in which they were accepted. *)

From Stdlib Require Import ZArith Lia Bool ZifyNat.
From stdpp Require Import base numbers list option gmap.
From S2P Require Import Prelude.
From S2P Require Import Abi.
From S2P Require Import Server.

#[local] Open Scope Z_scope.
#[local] Open Scope kernel_scope.
#[local] Ltac Zify.zify_post_hook ::= Z.div_mod_to_equations.

(** ** The abstract server *)

Record pend : Type := mk_pend {
  p_pid : Z;
  p_tid : Z;
  p_addr : Z;
  p_msg : Message;
  p_terminated : bool
}.

Inductive waiting : Type :=
| W_memory (pid tid server_addr client_addr len : Z)
| W_forget (pid tid server_addr client_addr len : Z)
| W_scalar (pid tid return_address : Z).

Record aserver : Type := mk_aserver {
  pending : list (nat * pend);
  replies : gmap nat waiting
}.

(** A ticket that is neither queued nor owed a reply. *)
Definition free_ticket (a : aserver) (i : nat) : Prop :=
  (i < QUEUE_LEN)%nat /\ (i ∉ (pending a).*1) /\ replies a !! i = None.

(** The message the server sees: a blocking scalar whose client has terminated
    no longer asks for a reply. *)
Definition delivered (p : pend) : Message :=
  match p_msg p with
  | BlockingScalar s => if p_terminated p then Scalar s else BlockingScalar s
  | m => m
  end.

(** The reply owed once the message has been delivered. *)
Definition owed (p : pend) : option waiting :=
  match p_msg p with
  | Borrow m | MutableBorrow m =>
      Some (W_memory (p_pid p) (p_tid p) (range_addr (mm_buf m)) (p_addr p) (range_size (mm_buf m)))
  | BlockingScalar _ =>
      if p_terminated p then None else Some (W_scalar (p_pid p) (p_tid p) (p_addr p))
  | Move _ | Scalar _ => None
  end.

Definition a_send (i : nat) (p : pend) (a : aserver) : aserver :=
  mk_aserver (pending a ++ [(i, p)]) (replies a).

Definition set_reply (i : nat) (w : option waiting) (r : gmap nat waiting) : gmap nat waiting :=
  match w with Some w => <[i := w]> r | None => r end.

Definition a_receive (a : aserver) : aserver * option (nat * pend) :=
  match pending a with
  | [] => (a, None)
  | (i, p) :: rest => (mk_aserver rest (set_reply i (owed p) (replies a)), Some (i, p))
  end.

Definition a_respond (i : nat) (w : waiting) (a : aserver) : aserver :=
  mk_aserver (pending a) (<[i := w]> (replies a)).

Definition terminate_pend (pid : Z) (p : pend) : pend :=
  match p_msg p with
  | Borrow _ | MutableBorrow _ | BlockingScalar _ =>
      if p_pid p =? pid
      then mk_pend (p_pid p) (p_tid p) (p_addr p) (p_msg p) true else p
  | _ => p
  end.

Definition a_discard (pid : Z) (a : aserver) : aserver :=
  mk_aserver (prod_map id (terminate_pend pid) <$> pending a) (replies a).

(** Whether the buffer handed back is not the one that was lent. *)
Definition wrong_buffer (w : waiting) (buf : option MemoryRange) : bool :=
  match w, buf with
  | (W_memory _ _ sa _ len | W_forget _ _ sa _ len), Some b =>
      negb ((sa =? range_addr b) && (len =? range_size b))
  | _, _ => false
  end.

Definition reply_result (w : waiting) : WaitingMessage :=
  match w with
  | W_memory pid tid sa ca len => WM_BorrowedMemory pid tid sa ca len
  | W_forget _ _ sa _ len => WM_ForgetMemory (mk_MemoryRange sa len)
  | W_scalar pid tid _ => WM_ScalarMessage pid tid
  end.

Definition a_reply (i : nat) (buf : option MemoryRange) (a : aserver)
    : aserver * result WaitingMessage :=
  if (QUEUE_LEN <=? i)%nat then (a, Err BadAddress)
  else match replies a !! i with
       | None => (a, Ok WM_None)
       | Some w =>
           if wrong_buffer w buf then (a, Err BadAddress)
           else (mk_aserver (pending a) (delete i (replies a)), Ok (reply_result w))
       end.

(** The entry a client's message becomes, and the reply a response stands for. *)
Definition pend_of (pid tid : Z) (m : Message) (addr : option Z) : pend :=
  mk_pend pid (u8 tid) (if Message_has_memory m then get_or_0 addr else 0) m false.

Definition waiting_of (pid tid : Z) (m : Message) (addr : option Z) : waiting :=
  match m with
  | Scalar _ | BlockingScalar _ => W_scalar pid (u8 tid) (get_or_0 addr)
  | Move m => W_forget pid (u8 tid) (range_addr (mm_buf m)) (get_or_0 addr) (range_size (mm_buf m))
  | Borrow m | MutableBorrow m =>
      W_memory pid (u8 tid) (range_addr (mm_buf m)) (get_or_0 addr) (range_size (mm_buf m))
  end.

(** ** Well-formed entries *)

Definition lends (m : Message) : bool :=
  match m with Borrow _ | MutableBorrow _ => true | _ => false end.

(** A message as the kernel queues it: lent memory comes with the address the
    client lent it from. *)
Definition wf_pend (p : pend) : bool :=
  wf_pid (p_pid p) && wf_message (p_msg p)
  && (if lends (p_msg p) then negb (p_addr p =? 0) else true).

Definition wf_waiting (w : waiting) : bool :=
  match w with
  | W_memory pid _ sa ca len =>
      wf_pid pid && wf_nonzero sa && negb (ca =? 0) && wf_nonzero len
  | W_forget pid _ sa _ len => wf_pid pid && wf_nonzero sa && wf_nonzero len
  | W_scalar pid _ _ => wf_pid pid
  end.

(** ** Reading a slot *)

Definition slot_pend (m : QueuedMessage) : option (Z * pend) :=
  let mem ctor terminated pid tid idx ca id sa len offset valid :=
    Some (idx, mk_pend pid tid ca
                 (ctor (mk_MemoryMessage id (mk_MemoryRange sa len)
                          (NonZero_new offset) (NonZero_new valid))) terminated) in
  match m with
  | QM_ScalarMessage pid tid idx r id a1 a2 a3 a4 =>
      Some (idx, mk_pend pid tid r (Scalar (mk_ScalarMessage id a1 a2 a3 a4)) false)
  | QM_BlockingScalarMessage pid tid idx r id a1 a2 a3 a4 =>
      Some (idx, mk_pend pid tid r (BlockingScalar (mk_ScalarMessage id a1 a2 a3 a4)) false)
  | QM_BlockingScalarTerminated pid tid idx r id a1 a2 a3 a4 =>
      Some (idx, mk_pend pid tid r (BlockingScalar (mk_ScalarMessage id a1 a2 a3 a4)) true)
  | QM_MemoryMessageSend pid tid idx ca id sa len o v => mem Move false pid tid idx ca id sa len o v
  | QM_MemoryMessageROLend pid tid idx ca id sa len o v =>
      mem Borrow false pid tid idx ca id sa len o v
  | QM_MemoryMessageRWLend pid tid idx ca id sa len o v =>
      mem MutableBorrow false pid tid idx ca id sa len o v
  | QM_MemoryMessageROLendTerminated pid tid idx ca id sa len o v =>
      mem Borrow true pid tid idx ca id sa len o v
  | QM_MemoryMessageRWLendTerminated pid tid idx ca id sa len o v =>
      mem MutableBorrow true pid tid idx ca id sa len o v
  | _ => None
  end.

Definition slot_wait (m : QueuedMessage) : option waiting :=
  match m with
  | QM_WaitingReturnMemory pid tid _ sa ca len => Some (W_memory pid tid sa ca len)
  | QM_WaitingForget pid tid _ sa ca len => Some (W_forget pid tid sa ca len)
  | QM_WaitingReturnScalar pid tid _ r => Some (W_scalar pid tid r)
  | _ => None
  end.

Definition pend_at (q : list QueuedMessage) (i : nat) : option (Z * pend) := q !! i ≫= slot_pend.
Definition wait_at (q : list QueuedMessage) (i : nat) : option waiting := q !! i ≫= slot_wait.

(** The generation of the [k]th message from the front. *)
Definition gen (hg : Z) (k : nat) : Z := (hg + Z.of_nat k) mod 256.

(** ** The representation relation *)

Record QRep (q : list QueuedMessage) (hg : Z) (a : aserver) : Prop := {
  rep_len : length q = QUEUE_LEN;
  rep_pend k i p : pending a !! k = Some (i, p) -> pend_at q i = Some (gen hg k, p);
  rep_complete i g p :
    pend_at q i = Some (g, p) -> exists k, pending a !! k = Some (i, p) /\ g = gen hg k;
  rep_nodup : NoDup (pending a).*1;
  rep_wait i : replies a !! i = wait_at q i
}.

Record Rep (s : Server) (a : aserver) : Prop := {
  rep_queue : QRep (queue s) (head_generation s) a;
  rep_head : (queue_head s < QUEUE_LEN)%nat;
  rep_tail : (queue_tail s < QUEUE_LEN)%nat;
  rep_head_gen : 0 <= head_generation s < 256;
  rep_tail_gen : tail_generation s = gen (head_generation s) (length (pending a));
  rep_wf_pending : Forall (fun ip => wf_pend (snd ip) = true) (pending a);
  rep_wf_replies : map_Forall (fun _ w => wf_waiting w = true) (replies a)
}.

(** ** Lemmas on slots *)

Lemma at_insert {A} (f : QueuedMessage -> option A) q i m j :
  (i < length q)%nat ->
  <[i := m]> q !! j ≫= f = if decide (j = i) then f m else q !! j ≫= f.
Proof. intros H. rewrite lookup_insert_list by done. by case_decide. Qed.

Lemma slot_exclusive m : slot_pend m = None \/ slot_wait m = None.
Proof. destruct m; auto. Qed.

Lemma slot_empty m : slot_pend m = None -> slot_wait m = None -> m = QM_Empty.
Proof. by destruct m. Qed.

Lemma pend_no_wait q i gp : pend_at q i = Some gp -> wait_at q i = None.
Proof.
  unfold pend_at, wait_at. destruct (q !! i) as [m |]; cbn; [| done].
  destruct (slot_exclusive m) as [-> | ->]; done.
Qed.

Lemma wait_no_pend q i w : wait_at q i = Some w -> pend_at q i = None.
Proof.
  unfold pend_at, wait_at. destruct (q !! i) as [m |]; cbn; [| done].
  destruct (slot_exclusive m) as [-> | ->]; done.
Qed.

Lemma pend_at_lt q i gp : pend_at q i = Some gp -> (i < length q)%nat.
Proof.
  unfold pend_at. destruct (q !! i) eqn:E; [| done]. intros _. by eapply lookup_lt_Some.
Qed.

Lemma gen_range hg k : 0 <= gen hg k < 256.
Proof. unfold gen. lia. Qed.

Lemma gen_shift hg k : gen (gen hg 1) k = gen hg (S k).
Proof. unfold gen. lia. Qed.

Lemma gen_0 hg : 0 <= hg < 256 -> gen hg 0 = hg.
Proof. unfold gen. lia. Qed.

Lemma gen_inj hg k k' :
  (k <= QUEUE_LEN)%nat -> (k' <= QUEUE_LEN)%nat -> gen hg k = gen hg k' -> k = k'.
Proof. unfold gen, QUEUE_LEN. lia. Qed.

(** A list of distinct slots is no longer than the queue. *)
Lemma nodup_bounded (l : list nat) n :
  NoDup l -> (forall i, i ∈ l -> (i < n)%nat) -> (length l <= n)%nat.
Proof.
  intros Hd Hl. rewrite <- (length_seq n 0). apply submseteq_length, NoDup_submseteq; [done |].
  intros i Hi%Hl. apply elem_of_seq. lia.
Qed.

(** ** The representation is preserved slot by slot *)

Section QRepLemmas.
Context (q : list QueuedMessage) (hg : Z) (a : aserver).
Hypothesis Hrep : QRep q hg a.

Lemma pending_lt k i p : pending a !! k = Some (i, p) -> (i < QUEUE_LEN)%nat.
Proof.
  intros H. rewrite <- (rep_len _ _ _ Hrep). by eapply pend_at_lt, (rep_pend _ _ _ Hrep).
Qed.

Lemma elem_of_tickets i : i ∈ (pending a).*1 <-> exists k p, pending a !! k = Some (i, p).
Proof.
  rewrite list_elem_of_fmap. split.
  - intros ([i' p] & -> & [k Hk]%list_elem_of_lookup). eauto.
  - intros (k & p & Hk). exists (i, p). split; [done |]. by eapply list_elem_of_lookup_2.
Qed.

Lemma pending_bound : (length (pending a) <= QUEUE_LEN)%nat.
Proof.
  rewrite <- (length_fmap fst). apply nodup_bounded; [apply (rep_nodup _ _ _ Hrep) |].
  intros i (k & p & Hk)%elem_of_tickets. by eapply pending_lt.
Qed.

Lemma ticket_pend_at i : i ∈ (pending a).*1 <-> exists gp, pend_at q i = Some gp.
Proof.
  rewrite elem_of_tickets. split.
  - intros (k & p & Hk). eexists. by apply (rep_pend _ _ _ Hrep).
  - intros [[g p] (k & Hk & _)%(rep_complete _ _ _ Hrep)]. eauto.
Qed.

(** The free tickets are the empty slots. *)
Lemma free_ticket_empty i : free_ticket a i <-> q !! i = Some QM_Empty.
Proof.
  unfold free_ticket. rewrite ticket_pend_at, (rep_wait _ _ _ Hrep).
  rewrite <- (rep_len _ _ _ Hrep). unfold pend_at, wait_at. split.
  - intros (Hi & Hp & Hw). apply lookup_lt_is_Some in Hi as [m Hm]. rewrite Hm in *. cbn in *.
    f_equal. apply slot_empty; [| done]. destruct (slot_pend m) eqn:E; [| done].
    exfalso. eauto.
  - intros Hm. split; [by eapply lookup_lt_Some |]. rewrite Hm. cbn.
    split; [by intros [gp ?] | done].
Qed.

Lemma QRep_send i m p :
  free_ticket a i -> slot_pend m = Some (gen hg (length (pending a)), p) ->
  QRep (<[i := m]> q) hg (a_send i p a).
Proof.
  intros Hfree Hm. destruct Hrep as [Hlen Hpend Hcomp Hnd Hwait].
  pose proof Hfree as (Hi & Hni & Hnw).
  assert (slot_wait m = None) as Hmw by (destruct (slot_exclusive m); congruence).
  unfold pend_at, wait_at in *.
  split; cbn; unfold pend_at, wait_at.
  - by rewrite length_insert.
  - intros k j p' Hk. rewrite at_insert by lia. case_decide as Hd.
    + subst j. apply lookup_snoc_Some in Hk as [[_ Hk] | [-> [= <-]]]; [| done].
      exfalso. apply Hni, elem_of_tickets. eauto.
    + apply lookup_snoc_Some in Hk as [[_ Hk] | [-> [= <-]]]; [auto | done].
  - intros j g p'. rewrite at_insert by lia. case_decide as Hd.
    + subst j. rewrite Hm. intros [= <- <-]. exists (length (pending a)).
      by rewrite list_lookup_middle.
    + intros (k & Hk & ->)%Hcomp. exists k. split; [| done]. by apply lookup_app_l_Some.
  - rewrite fmap_app. apply NoDup_app. repeat split; [done | | apply NoDup_singleton].
    intros j Hj. cbn. rewrite list_elem_of_singleton. by intros ->.
  - intros j. rewrite at_insert by lia. case_decide as Hd; [subst; congruence | apply Hwait].
Qed.

Lemma QRep_receive i p rest m :
  pending a = (i, p) :: rest -> slot_pend m = None -> slot_wait m = owed p ->
  QRep (<[i := m]> q) (gen hg 1) (mk_aserver rest (set_reply i (owed p) (replies a))).
Proof.
  intros Hfront Hm Hmw. pose proof pending_bound as Hbound.
  assert (Hi : (i < QUEUE_LEN)%nat) by (apply (pending_lt 0 i p); by rewrite Hfront).
  destruct Hrep as [Hlen Hpend Hcomp Hnd Hwait]. rewrite Hfront in *.
  assert (Hpi : pend_at q i = Some (gen hg 0, p)) by (by apply Hpend).
  apply NoDup_cons in Hnd as [Hni Hnd].
  split; cbn; unfold pend_at, wait_at.
  - by rewrite length_insert.
  - intros k j p' Hk. rewrite at_insert, gen_shift by lia. case_decide as Hd.
    + subst j. exfalso. apply Hni. apply list_elem_of_fmap. exists (i, p'). split; [done |].
      by eapply list_elem_of_lookup_2.
    + by apply (Hpend (S k)).
  - intros j g p'. rewrite at_insert by lia. case_decide as Hd; [by rewrite Hm |].
    intros ([| k] & Hk & ->)%Hcomp; [by simplify_eq/= |]. exists k. by rewrite gen_shift.
  - done.
  - intros j. rewrite at_insert by lia. case_decide as Hd.
    + subst j. rewrite Hmw. destruct (owed p); cbn; [by rewrite lookup_insert_eq |].
      rewrite Hwait. by eapply pend_no_wait.
    + destruct (owed p); cbn; [rewrite lookup_insert_ne by done |]; apply Hwait.
Qed.

Lemma QRep_reply i w :
  replies a !! i = Some w ->
  QRep (<[i := QM_Empty]> q) hg (mk_aserver (pending a) (delete i (replies a))).
Proof.
  intros Hw. destruct Hrep as [Hlen Hpend Hcomp Hnd Hwait].
  rewrite Hwait in Hw. pose proof (wait_no_pend _ _ _ Hw) as Hnp.
  assert (Hi : (i < length q)%nat).
  { unfold wait_at in Hw. destruct (q !! i) eqn:E; [| done]. by eapply lookup_lt_Some. }
  split; cbn; unfold pend_at, wait_at.
  - by rewrite length_insert.
  - intros k j p Hk%Hpend. rewrite at_insert by lia. case_decide; [| done]. congruence.
  - intros j g p. rewrite at_insert by lia. case_decide; [done | apply Hcomp].
  - done.
  - intros j. rewrite at_insert by lia. case_decide as Hd.
    + subst. by rewrite lookup_delete_eq.
    + rewrite lookup_delete_ne by done. apply Hwait.
Qed.

Lemma QRep_respond i m w :
  free_ticket a i -> slot_wait m = Some w ->
  QRep (<[i := m]> q) hg (a_respond i w a).
Proof.
  intros Hfree Hm. pose proof Hfree as (Hi & _ & _).
  assert (slot_pend m = None) as Hmp by (destruct (slot_exclusive m); congruence).
  pose proof (proj1 (free_ticket_empty i) Hfree) as He.
  destruct Hrep as [Hlen Hpend Hcomp Hnd Hwait].
  split; cbn; unfold pend_at, wait_at.
  - by rewrite length_insert.
  - intros k j p Hk%Hpend. rewrite at_insert by lia. case_decide as Hd; [| done].
    subst j. unfold pend_at in Hk. by rewrite He in Hk.
  - intros j g p. rewrite at_insert by lia. case_decide; [by rewrite Hmp | apply Hcomp].
  - done.
  - intros j. rewrite at_insert by lia. case_decide as Hd.
    + subst. by rewrite lookup_insert_eq.
    + rewrite lookup_insert_ne by done. apply Hwait.
Qed.

Lemma discard_slot pid m :
  slot_pend (discard_entry pid m) = prod_map id (terminate_pend pid) <$> slot_pend m /\
  slot_wait (discard_entry pid m) = slot_wait m.
Proof.
  destruct m; cbn; unfold terminate_pend; cbn; try done; by case_match.
Qed.

Lemma QRep_discard pid : QRep (map (discard_entry pid) q) hg (a_discard pid a).
Proof.
  destruct Hrep as [Hlen Hpend Hcomp Hnd Hwait].
  assert (Hp : forall i, pend_at (map (discard_entry pid) q) i
                         = prod_map id (terminate_pend pid) <$> pend_at q i).
  { intros i. unfold pend_at. rewrite list_lookup_fmap. destruct (q !! i) as [m |]; [| done].
    cbn. apply discard_slot. }
  assert (Hw : forall i, wait_at (map (discard_entry pid) q) i = wait_at q i).
  { intros i. unfold wait_at. rewrite list_lookup_fmap. destruct (q !! i) as [m |]; [| done].
    cbn. apply discard_slot. }
  split; cbn.
  - by rewrite length_map.
  - intros k i p. rewrite list_lookup_fmap, Hp.
    destruct (pending a !! k) as [[i' p'] |] eqn:Hk; cbn; [| done].
    intros [= <- <-]. by rewrite (Hpend _ _ _ Hk).
  - intros i g p. rewrite Hp. destruct (pend_at q i) as [[g' p'] |] eqn:E; cbn; [| done].
    intros [= <- <-]. apply Hcomp in E as (k & Hk & ->). exists k.
    by rewrite list_lookup_fmap, Hk.
  - rewrite <- list_fmap_compose.
    replace (fst ∘ prod_map id (terminate_pend pid)) with (@fst nat pend); [done |].
    reflexivity.
  - intros i. by rewrite Hw.
Qed.
End QRepLemmas.

(** ** The loops terminate with the slot they look for *)

Lemma next_index_mod i : (i < QUEUE_LEN)%nat -> next_index QUEUE_LEN i = ((i + 1) mod QUEUE_LEN)%nat.
Proof. unfold next_index, QUEUE_LEN. intros H. destruct (Nat.leb_spec 128 (S i)); lia. Qed.

Lemma next_index_lt n i : (0 < n)%nat -> (next_index n i < n)%nat.
Proof. unfold next_index. intros H. destruct (Nat.leb_spec n (S i)); lia. Qed.

(** The steps from [i] to [j] in the ring. *)
Definition ring_dist (i j : nat) : nat := ((j + QUEUE_LEN - i) mod QUEUE_LEN)%nat.

Lemma ring_dist_next i j :
  (i < QUEUE_LEN)%nat -> (j < QUEUE_LEN)%nat -> i <> j ->
  ring_dist (next_index QUEUE_LEN i) j = (ring_dist i j - 1)%nat /\ (0 < ring_dist i j)%nat.
Proof.
  intros Hi Hj Hne. rewrite next_index_mod by done. unfold ring_dist, QUEUE_LEN in *. lia.
Qed.

Lemma ring_dist_lt i j : (ring_dist i j < QUEUE_LEN)%nat.
Proof. unfold ring_dist, QUEUE_LEN. lia. Qed.

(** The scan of [take_next_message], when every slot before [i] in ring order
    is skipped. *)
Lemma take_loop_scan sidx s i r :
  length (queue s) = QUEUE_LEN -> (queue_tail s < QUEUE_LEN)%nat -> (i < QUEUE_LEN)%nat ->
  (forall j m, queue s !! j = Some m -> j <> i ->
     take_entry sidx j (head_generation s) m = Take_skip) ->
  (forall fuel, take_loop (S fuel) sidx i s = r) ->
  forall fuel idx, (idx < QUEUE_LEN)%nat -> (ring_dist idx i < fuel)%nat ->
    (ring_dist idx i <= ring_dist (queue_tail s) i)%nat ->
    take_loop fuel sidx idx s = r.
Proof.
  intros Hlen Ht Hi Hskip Hr fuel.
  induction fuel as [| fuel IH]; intros idx Hidx Hd Hle; [lia |].
  destruct (decide (idx = i)) as [-> | Hne]; [apply Hr |].
  destruct (ring_dist_next idx i) as [Hn Hpos]; [done .. |].
  assert (idx < length (queue s))%nat as [m Hm]%lookup_lt_is_Some by lia.
  cbn [take_loop]. rewrite Hm, (Hskip idx m Hm Hne), Hlen.
  case_decide as Hback.
  - exfalso. rewrite Hback in Hn. lia.
  - apply IH; [apply next_index_lt; unfold QUEUE_LEN; lia | lia | lia].
Qed.

Lemma skip_empty_ok s :
  length (queue s) = QUEUE_LEN -> (queue_head s < QUEUE_LEN)%nat ->
  forall fuel, (queue_tail s < QUEUE_LEN)%nat ->
  (ring_dist (queue_tail s) (queue_head s) <= fuel)%nat ->
  exists t, (t < QUEUE_LEN)%nat /\ skip_empty fuel s = ROk (set_queue_tail t s) tt.
Proof.
  intros Hlen Hh fuel. revert s Hlen Hh. induction fuel as [| fuel IH]; intros s Hlen Hh Ht Hd;
    cbn [skip_empty]; (case_decide as Heq; [exists (queue_tail s); by destruct s |]);
    destruct (ring_dist_next (queue_tail s) (queue_head s)) as [Hn Hpos]; try done; [lia |].
  assert (queue_tail s < length (queue s))%nat as [m Hm]%lookup_lt_is_Some by lia.
  rewrite Hm. destruct m; try (exists (queue_tail s); by destruct s).
  destruct (IH (advance_tail s)) as (t & Htlt & ->);
    cbn [advance_tail set_queue_tail queue queue_head queue_tail]; [done | done | ..].
  - rewrite Hlen. apply next_index_lt. unfold QUEUE_LEN. lia.
  - rewrite Hlen. lia.
  - by exists t.
Qed.

Lemma find_empty_spec q n : forall lo, (lo + n <= length q)%nat ->
  match find_empty q lo n with
  | Some (Some i) => (lo <= i < lo + n)%nat /\ q !! i = Some QM_Empty
  | Some None => forall i, (lo <= i < lo + n)%nat -> q !! i <> Some QM_Empty
  | None => False
  end.
Proof.
  induction n as [| n IH]; intros lo Hlo; cbn; [intros i Hi; lia |].
  assert (lo < length q)%nat as [m Hm]%lookup_lt_is_Some by lia. rewrite Hm.
  specialize (IH (S lo) ltac:(lia)).
  destruct (decide (m = QM_Empty)) as [-> | Hne]; [split; [lia | done] |].
  assert (match m with QM_Empty => Some (Some lo) | _ => find_empty q (S lo) n end
          = find_empty q (S lo) n) as -> by (by destruct m).
  destruct (find_empty q (S lo) n) as [[i |] |]; [| | done].
  - destruct IH. split; [lia | done].
  - intros i Hi. destruct (decide (i = lo)) as [-> | ?]; [congruence | apply IH; lia].
Qed.

Lemma find_empty_round_spec s :
  length (queue s) = QUEUE_LEN -> (queue_head s < QUEUE_LEN)%nat ->
  forall fuel idx, (idx < QUEUE_LEN)%nat ->
  fuel = (QUEUE_LEN - ring_dist (queue_head s) idx)%nat ->
  (exists i, find_empty_round fuel idx s = ROk s i /\ queue s !! i = Some QM_Empty) \/
  (find_empty_round fuel idx s = RErr s ServerQueueFull /\
   forall i, (ring_dist (queue_head s) idx <= ring_dist (queue_head s) i)%nat ->
             (i < QUEUE_LEN)%nat -> queue s !! i <> Some QM_Empty).
Proof.
  intros Hlen Hh fuel. induction fuel as [| fuel IH]; intros idx Hidx Hf.
  { pose proof (ring_dist_lt (queue_head s) idx). lia. }
  assert (idx < length (queue s))%nat as [m Hm]%lookup_lt_is_Some by lia.
  destruct (decide (m = QM_Empty)) as [-> | Hne].
  { left. exists idx. cbn. by rewrite Hm. }
  assert (Hstep : find_empty_round (S fuel) idx s =
    if decide (next_index QUEUE_LEN idx = queue_head s) then RErr s ServerQueueFull
    else find_empty_round fuel (next_index QUEUE_LEN idx) s).
  { cbn. rewrite Hm, Hlen. by destruct m. }
  rewrite Hstep. rewrite next_index_mod in * by done.
  assert (Hlast : forall i, (i < QUEUE_LEN)%nat ->
    (ring_dist (queue_head s) idx <= ring_dist (queue_head s) i)%nat -> i <> idx ->
    ((idx + 1) mod QUEUE_LEN <> queue_head s)%nat /\
    (ring_dist (queue_head s) ((idx + 1) mod QUEUE_LEN) <= ring_dist (queue_head s) i)%nat)
    by (unfold ring_dist, QUEUE_LEN in *; lia).
  case_decide as Hback.
  - right. split; [done |]. intros i Hle Hi. destruct (decide (i = idx)) as [-> | Hni].
    + congruence.
    + by destruct (Hlast i Hi Hle Hni).
  - destruct (IH ((idx + 1) mod QUEUE_LEN)%nat) as [? | [-> Hfull]];
      [unfold QUEUE_LEN; lia | unfold ring_dist, QUEUE_LEN in *; lia | by left |].
    right. split; [done |]. intros i Hle Hi. destruct (decide (i = idx)) as [-> | Hni].
    + congruence.
    + apply Hfull; [by apply Hlast | done].
Qed.

(** ** What one entry does when its turn comes *)

Definition envelope (sidx : Z) (i : nat) (p : pend) : MessageEnvelope :=
  mk_MessageEnvelope
    (SenderID_to_sender (mk_SenderID sidx (Z.of_nat i) (Some (p_pid p)))) (delivered p).

Lemma take_entry_skip sidx i g m :
  (forall p, slot_pend m <> Some (g, p)) -> take_entry sidx i g m = Take_skip.
Proof.
  intros H. destruct m; cbn in *; try done;
    (destruct (Z.eqb_spec idx g); [subst; by edestruct H | done]).
Qed.

(** The action for an entry that is taken, as the entry it leaves behind. *)
Definition take_leaves (act : take_action) (e : MessageEnvelope) (m' : QueuedMessage) : Prop :=
  (act = Take_free e /\ m' = QM_Empty) \/ act = Take_reply e m'.

Lemma with_sender_ok sidx i pid k :
  wf_pid pid = true ->
  with_sender sidx i pid k = k (SenderID_to_sender (mk_SenderID sidx (Z.of_nat i) (Some pid))).
Proof.
  intros H. unfold with_sender. pose proof (wf_pid_range pid H).
  destruct (Z.ltb_spec 255 pid); [lia |]. by rewrite wf_pid_new.
Qed.

Lemma memory_envelope_ok sender ctor id sa len o v k :
  wf_range (mk_MemoryRange sa len) = true ->
  memory_envelope sender ctor id sa len o v k
  = k (mk_MessageEnvelope sender
         (ctor (mk_MemoryMessage id (mk_MemoryRange sa len) (NonZero_new o) (NonZero_new v)))).
Proof.
  intros H. unfold memory_envelope. pose proof (MemoryRange_new_wf _ H) as Hn. cbn in Hn.
  by rewrite Hn.
Qed.

Lemma wf_memory_message_range m : wf_memory_message m = true -> wf_range (mm_buf m) = true.
Proof. unfold wf_memory_message. intros. by zbool. Qed.

Lemma take_entry_hit sidx i g m p :
  slot_pend m = Some (g, p) -> wf_pend p = true ->
  exists m', slot_pend m' = None /\ slot_wait m' = owed p /\
             take_leaves (take_entry sidx i g m) (envelope sidx i p) m'.
Proof.
  unfold wf_pend. intros Hm Hwf. zbool.
  destruct m; cbn in Hm; try done; injection Hm as <- <-; cbn in *; rewrite Z.eqb_refl;
    rewrite with_sender_ok by done;
    try (rewrite memory_envelope_ok
           by (match goal with H : wf_memory_message _ = true |- _ =>
                 exact (wf_memory_message_range _ H) end));
    unfold take_leaves, envelope; cbn; 
    first [ exists QM_Empty; repeat split; left; split; reflexivity
          | eexists; split; [| split; [| right; reflexivity]]; reflexivity ].
Qed.

Lemma take_loop_hit sidx i s m p :
  queue s !! i = Some m -> slot_pend m = Some (head_generation s, p) -> wf_pend p = true ->
  exists m', slot_pend m' = None /\ slot_wait m' = owed p /\
    forall fuel, take_loop (S fuel) sidx i s
                 = ROk (finish_take i m' s) (Some (envelope sidx i p)).
Proof.
  intros Hi Hm Hwf. destruct (take_entry_hit sidx i _ m p Hm Hwf) as (m' & ? & ? & Hact).
  exists m'. split; [done |]. split; [done |]. intros fuel. cbn [take_loop]. rewrite Hi.
  by destruct Hact as [[-> ->] | ->].
Qed.

(** ** Each operation refines the abstract one *)

Lemma owed_wf p w : wf_pend p = true -> owed p = Some w -> wf_waiting w = true.
Proof.
  unfold wf_pend, owed. intros H Ho. zbool.
  destruct (p_msg p) as [m | m | m | sc | sc] eqn:E; cbn in *; try done;
    [| | destruct (p_terminated p); [done |]]; injection Ho as <-; cbn; [| | done];
    match goal with Hm : wf_memory_message _ = true |- _ =>
      apply wf_memory_message_range in Hm; unfold wf_range in Hm end;
    zbool; andb_split; done || by apply negb_true_iff, Z.eqb_neq.
Qed.

Lemma finish_take_fields i m s :
  length (queue s) = QUEUE_LEN -> (queue_tail s < QUEUE_LEN)%nat ->
  let s' := finish_take i m s in
  queue s' = <[i := m]> (queue s) /\ queue_head s' = queue_head s /\
  (queue_tail s' < QUEUE_LEN)%nat /\ head_generation s' = gen (head_generation s) 1 /\
  tail_generation s' = tail_generation s.
Proof.
  intros Hlen Ht. unfold finish_take. cbn [queue_tail queue_set set_queue].
  case_decide; cbn; repeat split; try done.
  rewrite length_insert, Hlen. apply next_index_lt. unfold QUEUE_LEN. lia.
Qed.

Lemma refine_receive_front s a sidx i p rest :
  Rep s a -> pending a = (i, p) :: rest ->
  exists s', take_next_message sidx s = ROk s' (Some (envelope sidx i p)) /\
             Rep s' (mk_aserver rest (set_reply i (owed p) (replies a))).
Proof.
  intros [Hq Hh Ht Hhg Htg Hwfp Hwfr] Hfront. pose proof (pending_bound _ _ _ Hq) as Hbound.
  assert (Hpi : pend_at (queue s) i = Some (head_generation s, p)).
  { rewrite (rep_pend _ _ _ Hq 0 i p) by (by rewrite Hfront). by rewrite gen_0. }
  pose proof (pend_at_lt _ _ _ Hpi) as Hi. pose proof (rep_len _ _ _ Hq) as Hlen.
  unfold pend_at in Hpi. destruct (queue s !! i) as [m |] eqn:Hm; [cbn in Hpi | done].
  rewrite Hfront in Hwfp. apply Forall_cons in Hwfp as [Hp Hwfp]. cbn in Hp.
  destruct (take_loop_hit sidx i s m p Hm Hpi Hp) as (m' & Hm'p & Hm'w & Hhit).
  exists (finish_take i m' s).
  destruct (finish_take_fields i m' s Hlen Ht) as (Eq & Eh & Et & Ehg & Etg). split.
  - unfold take_next_message. rewrite Htg, Hfront. cbn [length].
    rewrite Hfront in Hbound. cbn [length] in Hbound.
    destruct (Z.eqb_spec (gen (head_generation s) (S (length rest))) (head_generation s)) as [E |].
    { rewrite <- (gen_0 (head_generation s)) in E at 2 by done.
      apply gen_inj in E; [done | lia | unfold QUEUE_LEN; lia]. }
    apply (take_loop_scan sidx s i); try done; [lia | |].
    + intros j mj Hj Hne. apply take_entry_skip. intros p' Hp'.
      destruct (rep_complete _ _ _ Hq j (head_generation s) p') as (k & Hk & Eg).
      { unfold pend_at. by rewrite Hj. }
      rewrite <- (gen_0 (head_generation s)) in Eg at 1 by done.
      apply gen_inj in Eg; [subst k; by rewrite Hfront in Hk; simplify_eq/= | lia |].
      apply lookup_lt_Some in Hk. rewrite Hfront in Hk. cbn [length] in Hk. lia.
    + rewrite Hlen. apply ring_dist_lt.
  - split; [| by rewrite Eh | done | rewrite Ehg; apply gen_range | | done |].
    + rewrite Eq, Ehg. by apply QRep_receive.
    + rewrite Etg, Ehg, Htg, Hfront, gen_shift. done.
    + cbn. unfold set_reply. destruct (owed p) as [w |] eqn:Ew; [| done].
      apply map_Forall_insert_2; [by eapply owed_wf | done].
Qed.

Lemma refine_receive s a sidx :
  Rep s a ->
  exists s', take_next_message sidx s
             = ROk s' ((fun ip => envelope sidx (fst ip) (snd ip)) <$> snd (a_receive a)) /\
             Rep s' (fst (a_receive a)).
Proof.
  intros Hrep. unfold a_receive. destruct (pending a) as [| [i p] rest] eqn:Hp.
  - exists s. split; [| done]. unfold take_next_message.
    rewrite (rep_tail_gen _ _ Hrep), Hp, gen_0 by apply Hrep. by rewrite Z.eqb_refl.
  - exact (refine_receive_front s a sidx i p rest Hrep Hp).
Qed.

Lemma message_entry_slot pid tid g m addr :
  wf_message m = true ->
  slot_pend (message_entry pid tid g m addr) = Some (g, pend_of pid tid m addr).
Proof.
  destruct m as [m | m | m | sc | sc]; cbn; intros Hm; unfold pend_of; cbn; [.. | by destruct sc | by destruct sc];
    unfold MemoryRange_as_ptr, MemoryRange_len, wf_memory_message in *; zbool;
    rewrite !wf_opt_nonzero_new by done; by destruct m as [? [] ? ?].
Qed.

(** A message the kernel may queue for a client. *)
Definition wf_send (pid : Z) (m : Message) (addr : option Z) : bool :=
  wf_pid pid && wf_message m && (if lends m then negb (get_or_0 addr =? 0) else true).

Lemma pend_of_wf pid tid m addr :
  wf_send pid m addr = true -> wf_pend (pend_of pid tid m addr) = true.
Proof. unfold wf_send, wf_pend. intros H. zbool. by destruct m; cbn in *; andb_split. Qed.

Lemma no_full_generation s a : Rep s a -> (tail_generation s =? u8 (head_generation s - 1)) = false.
Proof.
  intros Hrep. pose proof (pending_bound _ _ _ (rep_queue _ _ Hrep)) as Hb.
  pose proof (rep_head_gen _ _ Hrep). apply Z.eqb_neq. rewrite (rep_tail_gen _ _ Hrep).
  unfold gen, u8, wrap, modulus, QUEUE_LEN in *. change (2 ^ 8) with 256. lia.
Qed.

(** The slot [queue_message] chooses: an empty one, if there is one. *)
Lemma choose_slot s :
  length (queue s) = QUEUE_LEN -> (queue_head s < QUEUE_LEN)%nat ->
  exists o, (d <- unwrap (find_empty (queue s) (queue_head s) (length (queue s) - queue_head s));;
             match d with
             | None => unwrap (find_empty (queue s) 0 (queue_head s))
             | Some i => ret (Some i)
             end) s = ROk (E := Error) s o /\
            match o with
            | Some i => queue s !! i = Some QM_Empty
            | None => forall i, queue s !! i <> Some QM_Empty
            end.
Proof.
  intros Hlen Hh. unfold bind, unwrap.
  pose proof (find_empty_spec (queue s) (length (queue s) - queue_head s) (queue_head s)
                ltac:(lia)) as H1.
  pose proof (find_empty_spec (queue s) (queue_head s) 0 ltac:(lia)) as H2.
  destruct (find_empty _ (queue_head s) _) as [[i |] |]; [| | done].
  - exists (Some i). split; [done | apply H1].
  - destruct (find_empty _ 0 _) as [[i |] |]; [| | done].
    + exists (Some i). split; [done | apply H2].
    + exists None. split; [done |]. intros i Hi. pose proof (lookup_lt_Some _ _ _ Hi).
      destruct (decide (i < queue_head s)%nat).
      * apply (H2 i); [lia | done].
      * apply (H1 i); [lia | done].
Qed.

Lemma queue_set_head_fields i m s :
  length (queue s) = QUEUE_LEN -> (queue_head s < QUEUE_LEN)%nat ->
  (queue_head (if decide (i = queue_head s) then advance_head (queue_set i m s)
               else queue_set i m s) < QUEUE_LEN)%nat.
Proof.
  intros Hlen Hh. case_decide; cbn; [| done]. rewrite length_insert, Hlen.
  apply next_index_lt. unfold QUEUE_LEN. lia.
Qed.

(** [queue_message] in two cases. *)
Lemma queue_message_eq s a pid tid m addr :
  Rep s a ->
  (exists i, queue s !! i = Some QM_Empty /\
     queue_message pid tid m addr s
     = ROk (let s1 := set_tail_generation (u8 (tail_generation s + 1))
                        (queue_set i (message_entry pid tid (tail_generation s) m addr) s) in
            if decide (i = queue_head s) then advance_head s1 else s1) i) \/
  ((forall i, queue s !! i <> Some QM_Empty) /\
   queue_message pid tid m addr s = RErr s ServerQueueFull).
Proof.
  intros Hrep. destruct (choose_slot s) as (o & Ho & Hslot);
    [apply (rep_queue _ _ Hrep) | apply Hrep |].
  assert (E : queue_message pid tid m addr s = match o with
    | Some i => ROk (let s1 := set_tail_generation (u8 (tail_generation s + 1))
                        (queue_set i (message_entry pid tid (tail_generation s) m addr) s) in
            if decide (i = queue_head s) then advance_head s1 else s1) i
    | None => RErr s ServerQueueFull end).
  { unfold queue_message. unfold bind at 1, gets at 1. cbn beta iota. unfold id.
    rewrite (no_full_generation s a Hrep), <- bind_assoc. unfold bind at 1. rewrite Ho.
    destruct o; [| reflexivity]. unfold bind, modify, ret. by case_decide. }
  rewrite E. destruct o as [i |]; [left; exists i; done | right; done].
Qed.

Lemma gen_succ hg k : u8 (gen hg k + 1) = gen hg (S k).
Proof. unfold gen, u8, wrap, modulus. change (2 ^ 8) with 256. lia. Qed.

Lemma refine_send s a pid tid m addr :
  Rep s a -> wf_send pid m addr = true ->
  (exists i s', queue_message pid tid m addr s = ROk s' i /\ free_ticket a i /\
                Rep s' (a_send i (pend_of pid tid m addr) a)) \/
  (queue_message pid tid m addr s = RErr s ServerQueueFull /\ forall i, ~ free_ticket a i).
Proof.
  intros Hrep Hwf. pose proof (rep_queue _ _ Hrep) as Hq. pose proof (rep_len _ _ _ Hq) as Hlen.
  destruct (queue_message_eq s a pid tid m addr Hrep) as [(i & Hi & ->) | [Hfull ->]].
  - left. eexists i, _. split; [done |]. apply (free_ticket_empty _ _ _ Hq) in Hi.
    split; [done |].
    pose proof (queue_set_head_fields i
      (message_entry pid tid (tail_generation s) m addr) s Hlen (rep_head _ _ Hrep)) as Hh.
    unfold wf_send in Hwf. destruct Hrep as [_ Hh0 Ht Hhg Htg Hwfp Hwfr].
    split; cbn zeta; [| case_decide; exact Hh | by case_decide | by case_decide | | | done].
    + case_decide; cbn [queue head_generation advance_head set_queue_head set_tail_generation queue_set set_queue];
        apply QRep_send; try done; rewrite Htg; apply message_entry_slot; by zbool.
    + case_decide; cbn; rewrite Htg, gen_succ, length_app; cbn; f_equal; lia.
    + cbn. apply Forall_app. split; [done |]. apply Forall_singleton. by apply pend_of_wf.
  - right. split; [done |]. intros i Hi%(free_ticket_empty _ _ _ Hq). by apply (Hfull i).
Qed.

Lemma response_entry_slot pid tid m addr :
  slot_wait (response_entry pid tid m addr) = Some (waiting_of pid tid m addr).
Proof. by destruct m. Qed.

Lemma waiting_of_wf pid tid m addr :
  wf_send pid m addr = true -> wf_waiting (waiting_of pid tid m addr) = true.
Proof.
  unfold wf_send. intros H. zbool. destruct m as [m | m | m | |]; cbn in *; try done;
    match goal with Hm : wf_memory_message _ = true |- _ =>
      apply wf_memory_message_range in Hm; unfold wf_range in Hm end;
    zbool; andb_split; done || by apply negb_true_iff, Z.eqb_neq.
Qed.

Lemma refine_respond s a pid tid m addr :
  Rep s a -> wf_send pid m addr = true ->
  (exists i s', queue_response pid tid m addr s = ROk s' i /\ free_ticket a i /\
                Rep s' (a_respond i (waiting_of pid tid m addr) a)) \/
  (queue_response pid tid m addr s = RErr s ServerQueueFull /\ forall i, ~ free_ticket a i).
Proof.
  intros Hrep Hwf. pose proof (rep_queue _ _ Hrep) as Hq. pose proof (rep_len _ _ _ Hq) as Hlen.
  pose proof (rep_head _ _ Hrep) as Hh.
  unfold queue_response. unfold bind, gets. rewrite Hlen.
  assert (H0 : ring_dist (queue_head s) (queue_head s) = 0%nat)
    by (unfold ring_dist, QUEUE_LEN in *; lia).
  destruct (find_empty_round_spec s Hlen Hh QUEUE_LEN (queue_head s) Hh)
    as [(i & -> & Hi) | [-> Hfull]]; [rewrite H0; lia | left | right].
  - unfold modify, ret. apply (free_ticket_empty _ _ _ Hq) in Hi. exists i.
    assert (Hq' : QRep (<[i := response_entry pid tid m addr]> (queue s)) (head_generation s)
                    (a_respond i (waiting_of pid tid m addr) a))
      by (by apply QRep_respond, response_entry_slot).
    destruct Hrep as [_ _ Ht Hhg Htg Hwfp Hwfr].
    assert (Hw : map_Forall (fun _ w => wf_waiting w = true)
                   (<[i := waiting_of pid tid m addr]> (replies a)))
      by (apply map_Forall_insert_2; [by apply waiting_of_wf | done]).
    case_decide as Hd; (eexists; split; [done |]; split; [done |]); split; cbn; try done.
    rewrite length_insert, Hlen. apply next_index_lt. unfold QUEUE_LEN. lia.
  - split; [done |]. intros i Hi. apply (Hfull i); [lia | apply Hi |].
    by apply (free_ticket_empty _ _ _ Hq).
Qed.

Lemma terminate_pend_wf pid p : wf_pend p = true -> wf_pend (terminate_pend pid p) = true.
Proof. unfold wf_pend, terminate_pend. intros H. destruct (p_msg p) eqn:E; repeat case_match; cbn; by rewrite ?E in *. Qed.

Lemma refine_discard s a pid : Rep s a -> Rep (discard_messages_for_pid pid s) (a_discard pid a).
Proof.
  intros [Hq Hh Ht Hhg Htg Hwfp Hwfr]. split; cbn; try done.
  - by apply QRep_discard.
  - by rewrite length_fmap.
  - apply Forall_fmap. eapply Forall_impl; [exact Hwfp |]. intros [i p]. cbn.
    apply terminate_pend_wf.
Qed.

(** Once a slot is freed, the tail moves past it and past the empty slots that
    follow. *)
Lemma free_tail i n s :
  length (queue s) = QUEUE_LEN -> (queue_head s < QUEUE_LEN)%nat ->
  (queue_tail s < QUEUE_LEN)%nat -> n = QUEUE_LEN ->
  exists t, (t < QUEUE_LEN)%nat /\
    (if decide (i = queue_tail s) then modify advance_tail ;;; skip_empty n else ret tt) s
    = ROk (set_queue_tail t s) tt.
Proof.
  intros Hlen Hh Ht ->. case_decide as Hd.
  - destruct (skip_empty_ok (advance_tail s) Hlen Hh QUEUE_LEN) as (t & Htt & E).
    + cbn [advance_tail set_queue_tail queue_tail]. rewrite Hlen.
      apply next_index_lt. unfold QUEUE_LEN. lia.
    + pose proof (ring_dist_lt (queue_tail (advance_tail s)) (queue_head (advance_tail s))). lia.
    + exists t. split; [done |]. unfold bind, modify. by rewrite E.
  - exists (queue_tail s). split; [done |]. unfold ret. by destruct s.
Qed.

Lemma Rep_freed s a i w t :
  Rep s a -> replies a !! i = Some w -> (t < QUEUE_LEN)%nat ->
  Rep (set_queue_tail t (queue_set i QM_Empty s)) (mk_aserver (pending a) (delete i (replies a))).
Proof.
  intros [Hq Hh Ht Hhg Htg Hwfp Hwfr] Hw Htt. split; cbn; try done.
  - by eapply QRep_reply.
  - by apply map_Forall_delete.
Qed.

(** The checks at the start of [take_waiting_message]. *)
Lemma waiting_fields_none m : slot_wait m = None -> waiting_fields m = None.
Proof. by destruct m. Qed.

Lemma take_waiting_eq i buf s m pid tid g sa ca len forget is_memory t :
  queue s !! i = Some m ->
  waiting_fields m = Some (pid, tid, g, sa, ca, len, forget, is_memory) ->
  (if decide (i = queue_tail s) then modify advance_tail ;;; skip_empty (length (queue s))
   else ret tt) (queue_set i QM_Empty s) = ROk (set_queue_tail t (queue_set i QM_Empty s)) tt ->
  take_waiting_message i buf s =
  match buf with
  | Some b =>
      if is_memory && (negb (sa =? range_addr b) || negb (len =? range_size b))
      then RErr s BadAddress
      else finish_reply pid tid sa ca len forget is_memory
             (set_queue_tail t (queue_set i QM_Empty s))
  | None => finish_reply pid tid sa ca len forget is_memory
              (set_queue_tail t (queue_set i QM_Empty s))
  end.
Proof.
  intros Hm Hf Ht. unfold take_waiting_message.
  unfold bind at 1, gets at 1. cbn beta iota. unfold bind at 1, ok_or. rewrite Hm, Hf.
  unfold MemoryRange_as_ptr, MemoryRange_len.
  assert (Htail : forall k : Server -> outcome Error Server WaitingMessage,
    (modify (queue_set i QM_Empty) ;;; tail <- gets queue_tail;;
     (if decide (i = tail) then modify advance_tail ;;; skip_empty (length (queue s))
      else ret tt) ;;; k) s = k (set_queue_tail t (queue_set i QM_Empty s))).
  { intros k. unfold bind at 1, modify at 1. unfold bind at 1, gets at 1. unfold bind at 1.
    cbn [queue_tail queue_set set_queue] in *. by rewrite Ht. }
  destruct buf as [b |]; [destruct (is_memory && _) |];
    [reflexivity | exact (Htail _) | exact (Htail _)].
Qed.

Lemma wf_waiting_finish w s pid tid g sa ca len forget is_memory m :
  slot_wait m = Some w -> waiting_fields m = Some (pid, tid, g, sa, ca, len, forget, is_memory) ->
  wf_waiting w = true ->
  finish_reply pid tid sa ca len forget is_memory s = ROk s (reply_result w) /\
  forall b, is_memory && (negb (sa =? range_addr b) || negb (len =? range_size b))
            = wrong_buffer w (Some b).
Proof.
  intros Hw Hf Hwf. destruct m; cbn in *; try done; injection Hw as <-; injection Hf; intros;
    subst; unfold finish_reply; cbn in *; zbool.
  - split; [| intros; by rewrite negb_andb].
    rewrite (wf_nonzero_new sa), (wf_nonzero_new len), (NonZero_new_Some ca) by done.
    unfold unwrap, bind. by rewrite wf_pid_u8, wf_pid_new.
  - split; [| intros; by rewrite negb_andb]. unfold bind, lift_result, MemoryRange_new.
    by rewrite !wf_nonzero_new.
  - split; [| done]. unfold unwrap, bind. by rewrite wf_pid_u8, wf_pid_new.
Qed.

Lemma reply_nothing_owed s a i buf :
  Rep s a -> (i < QUEUE_LEN)%nat -> replies a !! i = None ->
  take_waiting_message i buf s = ROk s WM_None.
Proof.
  intros Hrep Hi Hw. pose proof (rep_queue _ _ Hrep) as Hq. rewrite (rep_wait _ _ _ Hq) in Hw.
  unfold wait_at in Hw. rewrite <- (rep_len _ _ _ Hq) in Hi.
  apply lookup_lt_is_Some in Hi as [m Hm]. rewrite Hm in Hw.
  unfold take_waiting_message, bind, gets, ok_or. by rewrite Hm, waiting_fields_none.
Qed.

Lemma refine_reply s a i buf :
  Rep s a ->
  exists s', take_waiting_message i buf s
             = match snd (a_reply i buf a) with Ok w => ROk s' w | Err e => RErr s' e end /\
             Rep s' (fst (a_reply i buf a)).
Proof.
  intros Hrep. pose proof (rep_queue _ _ Hrep) as Hq. pose proof (rep_len _ _ _ Hq) as Hlen.
  unfold a_reply. destruct (Nat.leb_spec QUEUE_LEN i) as [Hi | Hi].
  { exists s. split; [| done]. unfold take_waiting_message, bind, gets, ok_or.
    by rewrite lookup_ge_None_2 by lia. }
  assert (i < length (queue s))%nat as [m Hm]%lookup_lt_is_Some by lia.
  pose proof (rep_wait _ _ _ Hq i) as Hw. unfold wait_at in Hw. rewrite Hm in Hw. cbn in Hw.
  rewrite Hw. destruct (slot_wait m) as [w |] eqn:Ew.
  2: { exists s. split; [| done]. by apply (reply_nothing_owed s a). }
  pose proof (rep_wf_replies _ _ Hrep i w Hw) as Hwf. cbn in Hwf.
  destruct (free_tail i (length (queue s)) (queue_set i QM_Empty s)) as (t & Ht & Etail);
    [by cbn; rewrite length_insert | apply Hrep | apply Hrep | done |].
  assert (Hf : exists pid tid g sa ca len forget is_memory,
    waiting_fields m = Some (pid, tid, g, sa, ca, len, forget, is_memory))
    by (destruct m; try done; cbn; repeat eexists).
  destruct Hf as (pid & tid & g & sa & ca & len & forget & is_memory & Hf).
  rewrite (take_waiting_eq i buf s m _ _ _ _ _ _ _ _ t Hm Hf Etail).
  destruct (wf_waiting_finish w (set_queue_tail t (queue_set i QM_Empty s))
              _ _ _ _ _ _ _ _ m Ew Hf Hwf) as [-> Hbuf].
  pose proof (Rep_freed s a i w t Hrep Hw Ht) as Hfreed.
  destruct buf as [b |]; [rewrite Hbuf; destruct (wrong_buffer w (Some b)) | destruct w];
    (eexists; split; [reflexivity | done]).
Qed.

(** ** Sequences of operations *)

Inductive server_op : Type :=
| Op_send (pid tid : Z) (m : Message) (addr : option Z)
| Op_receive (sidx : Z)
| Op_reply (i : nat) (buf : option MemoryRange)
| Op_respond (pid tid : Z) (m : Message) (addr : option Z)
| Op_discard (pid : Z).

Inductive event : Type :=
| Ev_ticket (i : nat)
| Ev_received (e : option MessageEnvelope)
| Ev_replied (w : WaitingMessage)
| Ev_done
| Ev_error (e : Error).

(** The caller sees an error and carries on with the state it left. *)
Definition observe_op {A} (f : A -> event) (m : Server -> outcome Error Server A)
    : Server -> outcome Error Server event :=
  fun s => match m s with
           | ROk s' x => ROk s' (f x)
           | RErr s' e => ROk s' (Ev_error e)
           | RPanic => RPanic
           | RStuck => RStuck
           end.

Definition run_op (o : server_op) : Server -> outcome Error Server event :=
  match o with
  | Op_send pid tid m addr => observe_op Ev_ticket (queue_message pid tid m addr)
  | Op_receive sidx => observe_op Ev_received (take_next_message sidx)
  | Op_reply i buf => observe_op Ev_replied (take_waiting_message i buf)
  | Op_respond pid tid m addr => observe_op Ev_ticket (queue_response pid tid m addr)
  | Op_discard pid => observe_op (fun _ => Ev_done) (modify (discard_messages_for_pid pid))
  end.

Fixpoint run_ops (ops : list server_op) : Server -> outcome Error Server (list event) :=
  match ops with
  | [] => ret []
  | o :: ops => e <- run_op o;; es <- run_ops ops;; ret (e :: es)
  end.

Definition wf_op (o : server_op) : bool :=
  match o with
  | Op_send pid _ m addr | Op_respond pid _ m addr => wf_send pid m addr
  | Op_receive sidx => (0 <=? sidx) && (sidx <? 256)
  | _ => true
  end.

(** The steps of the abstract server. *)
Inductive astep (a : aserver) : server_op -> event -> aserver -> Prop :=
| A_send pid tid m addr i :
    free_ticket a i ->
    astep a (Op_send pid tid m addr) (Ev_ticket i) (a_send i (pend_of pid tid m addr) a)
| A_send_full pid tid m addr :
    (forall i, ~ free_ticket a i) ->
    astep a (Op_send pid tid m addr) (Ev_error ServerQueueFull) a
| A_respond pid tid m addr i :
    free_ticket a i ->
    astep a (Op_respond pid tid m addr) (Ev_ticket i)
          (a_respond i (waiting_of pid tid m addr) a)
| A_respond_full pid tid m addr :
    (forall i, ~ free_ticket a i) ->
    astep a (Op_respond pid tid m addr) (Ev_error ServerQueueFull) a
| A_receive sidx :
    astep a (Op_receive sidx)
          (Ev_received ((fun ip => envelope sidx (fst ip) (snd ip)) <$> snd (a_receive a)))
          (fst (a_receive a))
| A_reply i buf :
    astep a (Op_reply i buf)
          (match snd (a_reply i buf a) with Ok w => Ev_replied w | Err e => Ev_error e end)
          (fst (a_reply i buf a))
| A_discard pid : astep a (Op_discard pid) Ev_done (a_discard pid a).

Inductive atrace : aserver -> list server_op -> list event -> aserver -> Prop :=
| atrace_nil a : atrace a [] [] a
| atrace_cons a o e a1 os es a2 :
    astep a o e a1 -> atrace a1 os es a2 -> atrace a (o :: os) (e :: es) a2.

Lemma refine_step s a o :
  Rep s a -> wf_op o = true ->
  exists s' e a', run_op o s = ROk s' e /\ astep a o e a' /\ Rep s' a'.
Proof.
  intros Hrep Hwf. destruct o as [pid tid m addr | sidx | i buf | pid tid m addr | pid];
    cbn [run_op wf_op] in *; unfold observe_op.
  - destruct (refine_send s a pid tid m addr Hrep Hwf) as [(i & s' & -> & Hf & Hr) | [-> Hf]];
      do 3 eexists; (split; [reflexivity |]); eauto using astep.
  - destruct (refine_receive s a sidx Hrep) as (s' & -> & Hr).
    do 3 eexists; (split; [reflexivity |]); eauto using astep.
  - destruct (refine_reply s a i buf Hrep) as (s' & -> & Hr).
    exists s', (match snd (a_reply i buf a) with Ok w => Ev_replied w | Err e => Ev_error e end),
      (fst (a_reply i buf a)).
    split; [by destruct (snd (a_reply i buf a)) |]. eauto using astep.
  - destruct (refine_respond s a pid tid m addr Hrep Hwf) as [(i & s' & -> & Hf & Hr) | [-> Hf]];
      do 3 eexists; (split; [reflexivity |]); eauto using astep.
  - do 3 eexists. split; [reflexivity |]. split; [constructor |]. by apply refine_discard.
Qed.

Definition empty_aserver : aserver := mk_aserver [] ∅.

(** A server just created with its page of backing memory. *)
Definition fresh_server (sid : SID) (pid ptr : Z) : Server :=
  mk_Server sid pid 0 0 0 0 (replicate QUEUE_LEN QM_Empty) 0 ptr.

Lemma Server_init_fresh pid sid backing :
  range_size backing = 4096 -> Server_init None pid sid backing
  = Ok (fresh_server sid pid (MemoryRange_as_ptr backing)).
Proof. intros H. unfold Server_init, MemoryRange_len. by rewrite H. Qed.

Lemma Rep_fresh sid pid ptr : Rep (fresh_server sid pid ptr) empty_aserver.
Proof.
  assert (Hslot : forall i, replicate QUEUE_LEN QM_Empty !! i = Some QM_Empty \/
                            replicate QUEUE_LEN QM_Empty !! i = None).
  { intros i. destruct (decide (i < QUEUE_LEN)%nat).
    - left. by apply lookup_replicate_2.
    - right. apply lookup_ge_None_2. rewrite length_replicate. lia. }
  split; cbn [fresh_server queue queue_head queue_tail head_generation tail_generation
              pending replies empty_aserver length]; try done; [| unfold QUEUE_LEN; lia ..].
  split; cbn [pending replies empty_aserver]; try done.
  - intros i g p. unfold pend_at. destruct (Hslot i) as [-> | ->]; done.
  - apply NoDup_nil_2.
  - intros i. unfold wait_at. rewrite lookup_empty. destruct (Hslot i) as [-> | ->]; done.
Qed.

Lemma refine_trace ops : forall s a,
  Rep s a -> Forall (fun o => wf_op o = true) ops ->
  exists s' es a', run_ops ops s = ROk s' es /\ atrace a ops es a' /\ Rep s' a'.
Proof.
  induction ops as [| o ops IH]; intros s a Hrep Hwf; cbn [run_ops].
  - do 3 eexists. split; [reflexivity |]. eauto using atrace.
  - apply Forall_cons in Hwf as [Ho Hwf].
    destruct (refine_step s a o Hrep Ho) as (s1 & e & a1 & E1 & Hs & Hr1).
    destruct (IH s1 a1 Hr1 Hwf) as (s2 & es & a2 & E2 & Ht & Hr2).
    exists s2, (e :: es), a2. unfold bind. rewrite E1, E2. eauto using atrace.
Qed.

(** C1. A server's queue implements the abstract server: from its creation,
    every sequence of sends, receives, replies, responses and client
    terminations runs without a panic and without an endless loop, and the
    results are those of the FIFO list with its map of owed replies.  A send
    fails exactly when all 128 tickets are in use. *)
Theorem server_refines (sid : SID) (pid : Z) (backing : MemoryRange) (ops : list server_op) :
  range_size backing = 4096 -> Forall (fun o => wf_op o = true) ops ->
  exists s0 s' es a',
    Server_init None pid sid backing = Ok s0 /\
    run_ops ops s0 = ROk s' es /\ atrace empty_aserver ops es a' /\ Rep s' a'.
Proof.
  intros Hb Hwf.
  destruct (refine_trace ops (fresh_server sid pid (MemoryRange_as_ptr backing)) empty_aserver) as (s' & es & a' & E & Ht & Hr);
    [apply Rep_fresh | done |].
  exists (fresh_server sid pid (MemoryRange_as_ptr backing)), s', es, a'. rewrite Server_init_fresh by done. eauto.
Qed.

Definition example_borrow : Message := Borrow example_message.

Definition example_ops : list server_op :=
  [Op_send 5 2 example_borrow (Some 8192); Op_receive 0; Op_discard 5;
   Op_reply 0 (Some (mm_buf example_message)); Op_reply 0 None].

Lemma server_refines_witness :
  exists s0 s' es a',
    Server_init None 3 (mk_SID 1 2 3 4) (mk_MemoryRange 4096 4096) = Ok s0 /\
    run_ops example_ops s0 = ROk s' es /\ atrace empty_aserver example_ops es a' /\ Rep s' a'.
Proof.
  apply server_refines; [reflexivity |]. repeat constructor.
Defined.

(** ** Delivery in order *)

(** A message without the client's wish to be answered. *)
Definition settle (m : Message) : Message :=
  match m with BlockingScalar s => Scalar s | m => m end.

Definition accepted (o : server_op) (e : event) : list (option Z * Message) :=
  match o, e with
  | Op_send pid _ m _, Ev_ticket _ => [(Some pid, settle m)]
  | _, _ => []
  end.

Definition received (e : event) : list (option Z * Message) :=
  match e with
  | Ev_received (Some env) => [(MessageSender_pid (env_sender env), settle (env_body env))]
  | _ => []
  end.

Definition contents (a : aserver) : list (option Z * Message) :=
  map (fun ip => (Some (p_pid (snd ip)), settle (p_msg (snd ip)))) (pending a).

Lemma settle_delivered p : settle (delivered p) = settle (p_msg p).
Proof. unfold delivered. destruct (p_msg p); try done. by destruct (p_terminated p). Qed.

Lemma terminate_pend_keeps pid p :
  p_pid (terminate_pend pid p) = p_pid p /\ p_msg (terminate_pend pid p) = p_msg p.
Proof. unfold terminate_pend. by repeat case_match. Qed.

(** The process that user space reads from a sender word is the sender. *)
Lemma sender_word_pid sidx i pid :
  0 <= sidx < 256 -> 0 <= i < 65536 -> wf_pid pid = true ->
  MessageSender_pid (SenderID_to_sender (mk_SenderID sidx i (Some pid))) = Some pid.
Proof.
  intros Hs Hi Hp. pose proof (wf_pid_range pid Hp).
  unfold MessageSender_pid, SenderID_to_sender, SenderID_to_usize, MessageSender_from_usize.
  cbn [sender_data sender_sidx sender_idx sender_pid]. change (get_or_0 (Some pid)) with pid.
  rewrite sender_word by lia.
  destruct (sender_word_fields pid sidx i) as (_ & _ & E); [lia ..|].
  rewrite (land_mask _ 8 255) by done.
  change (_ mod 2 ^ 8) with (u8 (shr32 (pid * 16777216 + (sidx * 65536 + i)) 24)).
  by rewrite E, wf_pid_u8, wf_pid_new.
Qed.

Lemma contents_step s a o e a' :
  Rep s a -> wf_op o = true -> astep a o e a' ->
  contents a ++ accepted o e = received e ++ contents a'.
Proof.
  intros Hrep Hwf Hstep. unfold contents. destruct Hstep; cbn; try by rewrite app_nil_r.
  - by rewrite map_app.
  - rewrite app_nil_r. unfold a_receive. destruct (pending a) as [| [i p] rest] eqn:Hp;
      [by cbn; rewrite Hp |].
    cbn. rewrite settle_delivered. cbn in Hwf. zbool.
    pose proof (rep_wf_pending _ _ Hrep) as Hf. rewrite Hp in Hf.
    apply Forall_cons in Hf as [Hwfp _]. unfold wf_pend in Hwfp. cbn in Hwfp. zbool.
    pose proof (pending_lt _ _ _ (rep_queue _ _ Hrep) 0 i p) as Hlt. rewrite Hp in Hlt.
    specialize (Hlt eq_refl). unfold QUEUE_LEN in Hlt. rewrite sender_word_pid by (done || lia).
    done.
  - rewrite app_nil_r. unfold a_reply. repeat case_match; by simplify_eq/=.
  - rewrite app_nil_r, map_map. apply map_ext. intros [i p]. cbn.
    by destruct (terminate_pend_keeps pid p) as [-> ->].
Qed.

Definition accepted_all (ops : list server_op) (es : list event) : list (option Z * Message) :=
  concat (zip_with accepted ops es).
Definition received_all (es : list event) : list (option Z * Message) := concat (map received es).

Lemma contents_trace ops : forall s a,
  Rep s a -> Forall (fun o => wf_op o = true) ops ->
  exists s' es a', run_ops ops s = ROk s' es /\ Rep s' a' /\
    contents a ++ accepted_all ops es = received_all es ++ contents a'.
Proof.
  unfold accepted_all, received_all. induction ops as [| o ops IH]; intros s a Hrep Hwf.
  - exists s, [], a. split; [done |]. split; [done |]. cbn. by rewrite app_nil_r.
  - apply Forall_cons in Hwf as [Ho Hwf].
    destruct (refine_step s a o Hrep Ho) as (s1 & e & a1 & E1 & Hs & Hr1).
    destruct (IH s1 a1 Hr1 Hwf) as (s2 & es & a2 & E2 & Hr2 & Hc).
    exists s2, (e :: es), a2. cbn [run_ops]. unfold bind. rewrite E1, E2.
    split; [done |]. split; [done |]. cbn.
    by rewrite (app_assoc (contents a)), (contents_step s a o e a1 Hrep Ho Hs),
      <- !app_assoc, Hc.
Qed.

Lemma drain sidx n : forall s a,
  0 <= sidx < 256 -> Rep s a -> length (pending a) = n ->
  exists s' es, run_ops (replicate n (Op_receive sidx)) s = ROk s' es /\
    received_all es = contents a /\ take_next_message sidx s' = ROk s' None.
Proof.
  induction n as [| n IH]; intros s a Hs Hrep Hn.
  - exists s, []. apply nil_length_inv in Hn. split; [done |]. unfold contents. rewrite Hn.
    split; [done |]. unfold take_next_message.
    rewrite (rep_tail_gen _ _ Hrep), Hn, gen_0 by apply Hrep. by rewrite Z.eqb_refl.
  - destruct (pending a) as [| [i p] rest] eqn:Hp; [done |].
    destruct (refine_receive_front s a sidx i p rest Hrep Hp) as (s1 & E1 & Hr1).
    destruct (IH s1 _ Hs Hr1) as (s2 & es & E2 & Hc & Hend); [cbn in *; lia |].
    eexists s2, _. cbn [replicate run_ops run_op]. unfold bind, observe_op.
    rewrite E1, E2. split; [reflexivity |]. split; [| done].
    assert (Hstep : astep a (Op_receive sidx) (Ev_received (Some (envelope sidx i p)))
                      (mk_aserver rest (set_reply i (owed p) (replies a)))).
    { pose proof (A_receive a sidx) as H. unfold a_receive in H. by rewrite Hp in H. }
    apply (contents_step s a _ _ _ Hrep) in Hstep; [| cbn; apply andb_true_iff; lia].
    cbn [accepted] in Hstep. rewrite app_nil_r in Hstep. rewrite Hstep, <- Hc. done.
Qed.

(** C11. Messages are delivered in order and none is lost: after any sequence
    of operations on a new server, the messages it accepted are those it has
    delivered followed by those it still holds; receiving as often as it holds
    messages delivers exactly these, in order, and then nothing more.  The
    order survives the wrap-around of the 8-bit generation numbers, and the
    sender read from each envelope is the process that sent it. *)
Theorem fifo_delivery (sid : SID) (pid ptr : Z) (ops : list server_op) :
  Forall (fun o => wf_op o = true) ops ->
  exists s es rest s' es',
    run_ops ops (fresh_server sid pid ptr) = ROk s es /\
    accepted_all ops es = received_all es ++ rest /\
    run_ops (replicate (length rest) (Op_receive 0)) s = ROk s' es' /\
    received_all es' = rest /\
    take_next_message 0 s' = ROk s' None.
Proof.
  intros Hwf.
  destruct (contents_trace ops (fresh_server sid pid ptr) empty_aserver (Rep_fresh sid pid ptr) Hwf)
    as (s & es & a & E & Hrep & Hc).
  destruct (drain 0 (length (pending a)) s a) as (s' & es' & E' & Hr & Hend); [lia | done | done |].
  exists s, es, (contents a), s', es'. unfold contents at 2. rewrite length_map. eauto 10.
Qed.

Lemma fifo_delivery_witness :
  exists s es rest s' es',
    run_ops (example_ops ++ example_ops) (fresh_server (mk_SID 1 2 3 4) 3 0) = ROk s es /\
    accepted_all (example_ops ++ example_ops) es = received_all es ++ rest /\
    run_ops (replicate (length rest) (Op_receive 0)) s = ROk s' es' /\
    received_all es' = rest /\
    take_next_message 0 s' = ROk s' None.
Proof. apply fifo_delivery. repeat constructor. Defined.

(** ** Lent memory *)

(** The ticket a server reads from the sender of an envelope. *)
Definition ticket_of (e : MessageEnvelope) : nat :=
  Z.to_nat (sender_idx (SenderID_from_sender (env_sender e))).

Lemma ticket_of_envelope sidx i p :
  0 <= sidx < 256 -> (i < QUEUE_LEN)%nat -> wf_pid (p_pid p) = true ->
  ticket_of (envelope sidx i p) = i.
Proof.
  intros Hs Hi Hp. pose proof (wf_pid_range _ Hp). unfold ticket_of, envelope. cbn [env_sender].
  unfold SenderID_from_sender, SenderID_to_sender, MessageSender_to_usize, MessageSender_from_usize.
  cbn [sender_data]. unfold SenderID_from_usize, SenderID_to_usize, QUEUE_LEN in *.
  cbn [sender_sidx sender_idx sender_pid]. change (get_or_0 (Some (p_pid p))) with (p_pid p).
  rewrite sender_word by lia.
  destruct (sender_word_fields (p_pid p) sidx (Z.of_nat i)) as (_ & -> & _); lia.
Qed.

Definition lent_buffer (m : Message) : option MemoryRange :=
  match m with Borrow mm | MutableBorrow mm => Some (mm_buf mm) | _ => None end.

Lemma loan_returned s a sidx i p rest b :
  Rep s a -> 0 <= sidx < 256 -> pending a = (i, p) :: rest -> lent_buffer (p_msg p) = Some b ->
  exists s1 e s2,
    take_next_message sidx s = ROk s1 (Some e) /\
    take_waiting_message (ticket_of e) (Some b) s1
    = ROk s2 (WM_BorrowedMemory (p_pid p) (p_tid p) (range_addr b) (p_addr p) (range_size b)) /\
    take_waiting_message (ticket_of e) (Some b) s2 = ROk s2 WM_None.
Proof.
  intros Hrep Hs Hp Hb. destruct (refine_receive_front s a sidx i p rest Hrep Hp) as (s1 & E1 & Hr1).
  pose proof (pending_lt _ _ _ (rep_queue _ _ Hrep) 0 i p) as Hi. rewrite Hp in Hi.
  specialize (Hi eq_refl). pose proof (rep_wf_pending _ _ Hrep) as Hf. rewrite Hp in Hf.
  apply Forall_cons in Hf as [Hwfp _]. unfold wf_pend in Hwfp. cbn [snd] in Hwfp. zbool.
  exists s1, (envelope sidx i p). rewrite ticket_of_envelope by done.
  assert (Howed : owed p = Some (W_memory (p_pid p) (p_tid p) (range_addr b) (p_addr p) (range_size b))).
  { unfold owed. destruct (p_msg p); cbn in Hb; by simplify_eq. }
  rewrite Howed in Hr1. cbn [set_reply] in Hr1.
  destruct (refine_reply _ _ i (Some b) Hr1) as (s2 & E2 & Hr2).
  unfold a_reply in E2, Hr2. destruct (Nat.leb_spec QUEUE_LEN i); [lia |].
  cbn [replies pending] in E2, Hr2. rewrite lookup_insert_eq in E2, Hr2.
  cbn [wrong_buffer] in E2, Hr2. rewrite !Z.eqb_refl in E2, Hr2. cbn in E2, Hr2.
  exists s2. split; [done |]. split; [done |].
  apply (reply_nothing_owed _ _ _ _ Hr2); [done |]. cbn. by rewrite lookup_delete_eq.
Qed.

(** C17. Lent memory comes back once: the sender word of a received borrow, whose
    lender has not ended while the message was in the queue, is a ticket with which
    the lender's process, thread, address and length are recovered exactly, and a
    second reply with the same ticket finds nothing to return. *)
Theorem reply_exactly_once (s : Server) (a : aserver) (sidx : Z) (i : nat) (p : pend)
    (rest : list (nat * pend)) (b : MemoryRange) :
  Rep s a -> 0 <= sidx < 256 -> pending a = (i, p) :: rest -> p_terminated p = false ->
  lent_buffer (p_msg p) = Some b ->
  exists s1 e s2,
    take_next_message sidx s = ROk s1 (Some e) /\
    take_waiting_message (ticket_of e) (Some b) s1
    = ROk s2 (WM_BorrowedMemory (p_pid p) (p_tid p) (range_addr b) (p_addr p) (range_size b)) /\
    take_waiting_message (ticket_of e) (Some b) s2 = ROk s2 WM_None.
Proof. intros Hr Hs Hp _. by apply (loan_returned s a sidx i p rest). Qed.

(** A queue that holds one borrow from process 5, in slot 0. *)
Definition example_pend : pend := mk_pend 5 2 8192 example_borrow false.
Definition example_queued : Server :=
  mk_Server (mk_SID 1 2 3 4) 3 1 0 0 1
    (QM_MemoryMessageROLend 5 2 0 8192 7 1073741824 8192 0 100 :: replicate 127 QM_Empty) 0 0.

Lemma Rep_example : Rep example_queued (mk_aserver [(0%nat, example_pend)] ∅).
Proof.
  pose proof (refine_send (fresh_server (mk_SID 1 2 3 4) 3 0) empty_aserver 5 2 example_borrow
                (Some 8192) (Rep_fresh _ _ _) eq_refl) as [(i & s' & E & _ & Hr) | [E _]];
    vm_compute in E; [| done]. by injection E as <- <-.
Qed.

Lemma reply_exactly_once_witness :
  exists s1 e s2,
    take_next_message 0 example_queued = ROk s1 (Some e) /\
    take_waiting_message (ticket_of e) (Some (mm_buf example_message)) s1
    = ROk s2 (WM_BorrowedMemory 5 2 1073741824 8192 8192) /\
    take_waiting_message (ticket_of e) (Some (mm_buf example_message)) s2 = ROk s2 WM_None.
Proof.
  refine (reply_exactly_once example_queued _ 0 0 example_pend [] _ Rep_example _ _ _ _);
    [lia | reflexivity | reflexivity | reflexivity].
Defined.

(** Memory lent by a process that has terminated before the server received
    the message is still returned to that process: [discard_messages_for_pid]
    marks the message, but taking it produces a [WaitingReturnMemory] entry,
    so the reply yields [BorrowedMemory] for the terminated PID and never
    [ForgetMemory]. *)
Lemma discarded_loan_still_returned (s : Server) (a : aserver) (sidx : Z) (i : nat) (p : pend)
    (rest : list (nat * pend)) (b : MemoryRange) :
  Rep s a -> 0 <= sidx < 256 -> pending a = (i, p) :: rest -> lent_buffer (p_msg p) = Some b ->
  exists s1 e s2,
    take_next_message sidx (discard_messages_for_pid (p_pid p) s) = ROk s1 (Some e) /\
    take_waiting_message (ticket_of e) (Some b) s1
    = ROk s2 (WM_BorrowedMemory (p_pid p) (p_tid p) (range_addr b) (p_addr p) (range_size b)).
Proof.
  intros Hrep Hs Hp Hb. pose proof (refine_discard s a (p_pid p) Hrep) as Hrep'.
  assert (Ht : terminate_pend (p_pid p) p
               = mk_pend (p_pid p) (p_tid p) (p_addr p) (p_msg p) true).
  { unfold terminate_pend. rewrite Z.eqb_refl. by destruct (p_msg p). }
  destruct (loan_returned _ _ sidx i (terminate_pend (p_pid p) p)
              (prod_map id (terminate_pend (p_pid p)) <$> rest) b Hrep' Hs) as (s1 & e & s2 & H1 & H2 & _).
  - cbn. by rewrite Hp.
  - by rewrite Ht.
  - rewrite Ht in H2. cbn in H2. eauto.
Qed.
