(* ===== verification/Irq.v ===== *)
(** * Interrupt handlers

    Models src/kernel/src/irq.rs, the table of interrupt handlers that user
    processes claim, with the interrupt mask of src/kernel/src/arch/riscv/irq.rs
    that the table drives.  [irq::handle], which redirects into user space, is
    in Scheduler.v.

    The invariant [irq_ok] ties the two together: an interrupt is unmasked
    exactly when a process has claimed it.  While all interrupts are disabled
    the mask lives in a backing copy. *)

From Stdlib Require Import ZArith Lia Bool.
From stdpp Require Import base numbers list option.
From S2P Require Import Prelude.
From S2P Require Import Abi.

#[local] Open Scope Z_scope.
#[local] Open Scope kernel_scope.

Definition IRQ_COUNT : nat := 32.

(** The process, the function and its argument. *)
Definition handler : Type := (Z * Z * option Z)%type.

Definition handler_pid (h : handler) : Z := let '(p, _, _) := h in p.

Record IrqState : Type := mk_IrqState {
  IRQ_HANDLERS : list (option handler);
  sim : Z;
  SIM_BACKING : Z;
  IRQ_ENABLED : bool
}.

Definition set_handlers (h : list (option handler)) (s : IrqState) : IrqState :=
  mk_IrqState h (sim s) (SIM_BACKING s) (IRQ_ENABLED s).

Definition irq_init : IrqState := mk_IrqState (replicate IRQ_COUNT None) 0 0 true.

(** ** The interrupt mask *)

Definition disable_all_irqs (s : IrqState) : IrqState :=
  mk_IrqState (IRQ_HANDLERS s) 0 (sim s) false.

Definition enable_all_irqs (s : IrqState) : IrqState :=
  mk_IrqState (IRQ_HANDLERS s) (SIM_BACKING s) (SIM_BACKING s) true.

Definition enable_irq (irq : Z) (s : IrqState) : IrqState :=
  if IRQ_ENABLED s
  then mk_IrqState (IRQ_HANDLERS s) (set_bit (sim s) irq) (SIM_BACKING s) true
  else mk_IrqState (IRQ_HANDLERS s) (sim s) (set_bit (SIM_BACKING s) irq) false.

Definition disable_irq (irq : Z) (s : IrqState) : IrqState :=
  if IRQ_ENABLED s
  then mk_IrqState (IRQ_HANDLERS s) (clear_bit (sim s) irq) (SIM_BACKING s) true
  else mk_IrqState (IRQ_HANDLERS s) (sim s) (clear_bit (SIM_BACKING s) irq) false.

(** ** The handler table *)

Definition interrupt_claim (irq pid f : Z) (arg : option Z)
    : IrqState -> outcome Error IrqState unit := fun s =>
  if Z.of_nat (length (IRQ_HANDLERS s)) <? irq then RErr s InterruptNotFound
  else match IRQ_HANDLERS s !! Z.to_nat irq with
       | None => RPanic
       | Some (Some _) => RErr s InterruptInUse
       | Some None =>
           ROk (enable_irq irq
                  (set_handlers (<[Z.to_nat irq := Some (pid, f, arg)]> (IRQ_HANDLERS s)) s)) tt
       end.

Definition interrupt_free (irq pid : Z) : IrqState -> outcome Error IrqState unit := fun s =>
  if Z.of_nat (length (IRQ_HANDLERS s)) <? irq then RErr s InterruptNotFound
  else match IRQ_HANDLERS s !! Z.to_nat irq with
       | None => RPanic
       | Some h =>
           if negb (match h with Some f => handler_pid f =? pid | None => false end)
           then RErr s InterruptNotFound
           else ROk (set_handlers (<[Z.to_nat irq := None]> (IRQ_HANDLERS s)) (disable_irq irq s)) tt
       end.

(** One turn of the loop of [release_interrupts_for_pid]. *)
Definition release_one (pid : Z) (s : IrqState) (irq : nat) : IrqState :=
  match IRQ_HANDLERS s !! irq with
  | Some (Some h) =>
      if handler_pid h =? pid
      then set_handlers (<[irq := None]> (IRQ_HANDLERS s)) (disable_irq (Z.of_nat irq) s)
      else s
  | _ => s
  end.

Definition release_interrupts_for_pid (pid : Z) (s : IrqState) : IrqState :=
  fold_left (release_one pid) (seq 0 (length (IRQ_HANDLERS s))) s.

(** ** The invariant *)

(** The mask in force, or in force once interrupts are enabled again. *)
Definition effective (s : IrqState) : Z := if IRQ_ENABLED s then sim s else SIM_BACKING s.

Definition claimed (s : IrqState) (irq : nat) : bool :=
  match IRQ_HANDLERS s !! irq with Some (Some _) => true | _ => false end.

Definition owner (s : IrqState) (irq : nat) : option Z :=
  match IRQ_HANDLERS s !! irq with Some (Some h) => Some (handler_pid h) | _ => None end.

Record irq_ok (s : IrqState) : Prop := {
  irq_len : length (IRQ_HANDLERS s) = IRQ_COUNT;
  irq_mask_range : 0 <= effective s < 4294967296;
  irq_mask (i : nat) : (i < IRQ_COUNT)%nat -> Z.testbit (effective s) (Z.of_nat i) = claimed s i
}.

Lemma enable_irq_effective irq s :
  IRQ_HANDLERS (enable_irq irq s) = IRQ_HANDLERS s /\
  effective (enable_irq irq s) = set_bit (effective s) irq.
Proof. unfold enable_irq, effective. destruct s as [? ? ? []]; done. Qed.

Lemma disable_irq_effective irq s :
  IRQ_HANDLERS (disable_irq irq s) = IRQ_HANDLERS s /\
  effective (disable_irq irq s) = clear_bit (effective s) irq.
Proof. unfold disable_irq, effective. destruct s as [? ? ? []]; done. Qed.

Lemma effective_set_handlers h s : effective (set_handlers h s) = effective s.
Proof. done. Qed.

(** Claiming and releasing one slot keeps the invariant. *)
Lemma irq_ok_claim s irq h :
  irq_ok s -> (irq < IRQ_COUNT)%nat ->
  irq_ok (enable_irq (Z.of_nat irq) (set_handlers (<[irq := Some h]> (IRQ_HANDLERS s)) s)).
Proof.
  intros [Hlen Hr Hm] Hi. unfold IRQ_COUNT in *.
  destruct (enable_irq_effective (Z.of_nat irq)
              (set_handlers (<[irq := Some h]> (IRQ_HANDLERS s)) s)) as [Eh Ee].
  split; unfold claimed; rewrite ?Eh, ?Ee, ?effective_set_handlers; cbn [IRQ_HANDLERS set_handlers].
  - by rewrite length_insert.
  - apply set_bit_range; [done | lia].
  - intros i Hii. rewrite set_bit_spec, Hm, lookup_insert_list by (unfold IRQ_COUNT in *; lia).
    unfold claimed. destruct (decide (i = irq)) as [-> | Hne].
    + by rewrite Z.eqb_refl, orb_true_r.
    + rewrite (proj2 (Z.eqb_neq _ _)) by lia. apply orb_false_r.
Qed.

Lemma irq_ok_release s irq :
  irq_ok s -> (irq < IRQ_COUNT)%nat ->
  irq_ok (set_handlers (<[irq := None]> (IRQ_HANDLERS s)) (disable_irq (Z.of_nat irq) s)).
Proof.
  intros [Hlen Hr Hm] Hi. unfold IRQ_COUNT in *.
  destruct (disable_irq_effective (Z.of_nat irq) s) as [Eh Ee].
  split; unfold claimed; rewrite ?effective_set_handlers, ?Ee; cbn [IRQ_HANDLERS set_handlers].
  - by rewrite length_insert.
  - apply clear_bit_range; [done | lia].
  - intros i Hii. rewrite clear_bit_spec, Hm, lookup_insert_list by (unfold IRQ_COUNT in *; lia).
    unfold claimed. destruct (decide (i = irq)) as [-> | Hne].
    + by rewrite Z.eqb_refl, andb_false_r.
    + rewrite (proj2 (Z.eqb_neq _ _)) by lia. apply andb_true_r.
Qed.

Lemma irq_ok_disable_all s : irq_ok s -> IRQ_ENABLED s = true -> irq_ok (disable_all_irqs s).
Proof. intros [Hlen Hr Hm] He. unfold effective in *. rewrite He in *. by split. Qed.

Lemma irq_ok_enable_all s : irq_ok s -> IRQ_ENABLED s = false -> irq_ok (enable_all_irqs s).
Proof. intros [Hlen Hr Hm] He. unfold effective in *. rewrite He in *. by split. Qed.

Lemma irq_ok_init : irq_ok irq_init.
Proof.
  split; [done | done |]. intros i Hi. cbn. rewrite Z.bits_0.
  unfold claimed. cbn [irq_init IRQ_HANDLERS]. by rewrite lookup_replicate_2.
Qed.

(** ** Claiming, freeing and releasing *)

(** C33. Interrupts are unmasked exactly while a process claims them: claiming,
    freeing and releasing keep this, whether interrupts are enabled at the
    moment or not, and the errors leave the state as it was. *)
Theorem irq_table_invariant (s : IrqState) (irq pid f : Z) (arg : option Z) :
  irq_ok s -> 0 <= irq < 32 ->
  match interrupt_claim irq pid f arg s with
  | ROk s' _ => irq_ok s' /\ claimed s (Z.to_nat irq) = false /\ owner s' (Z.to_nat irq) = Some pid
  | RErr s' e => s' = s /\ e = InterruptInUse /\ claimed s (Z.to_nat irq) = true
  | _ => False
  end /\
  match interrupt_free irq pid s with
  | ROk s' _ => irq_ok s' /\ owner s (Z.to_nat irq) = Some pid /\ claimed s' (Z.to_nat irq) = false
  | RErr s' e => s' = s /\ e = InterruptNotFound /\ owner s (Z.to_nat irq) <> Some pid
  | _ => False
  end.
Proof.
  intros Hok Hi. pose proof (irq_len _ Hok) as Hlen.
  destruct (Z_of_nat_complete irq) as [n ->]; [lia |]. unfold interrupt_claim, interrupt_free.
  assert (Hn : (n < IRQ_COUNT)%nat) by (unfold IRQ_COUNT; lia).
  rewrite Nat2Z.id, Hlen, (proj2 (Z.ltb_ge _ _)) by (unfold IRQ_COUNT; lia).
  destruct (lookup_lt_is_Some_2 (IRQ_HANDLERS s) n) as [h Hh]; [by rewrite Hlen |].
  split; unfold owner, claimed; rewrite Hh; destruct h as [h |]; cbn [negb]; try done.
  - split; [by apply irq_ok_claim |]. split; [done |].
    destruct (enable_irq_effective (Z.of_nat n)
      (set_handlers (<[n := Some (pid, f, arg)]> (IRQ_HANDLERS s)) s)) as [-> _].
    cbn. rewrite lookup_insert_list by (by rewrite Hlen). by rewrite decide_True.
  - destruct (Z.eqb_spec (handler_pid h) pid) as [<- | Hne]; cbn [negb]; rewrite ?Hh.
    + split; [by apply irq_ok_release |]. split; [done |]. cbn.
      rewrite lookup_insert_list by (by rewrite Hlen). by rewrite decide_True.
    + split; [done |]. split; [done | congruence].
Qed.

Lemma irq_table_invariant_witness :
  match interrupt_claim 5 3 4096 None irq_init with
  | ROk s' _ => irq_ok s' /\ claimed irq_init 5 = false /\ owner s' 5 = Some 3
  | RErr s' e => s' = irq_init /\ e = InterruptInUse /\ claimed irq_init 5 = true
  | _ => False
  end /\
  match interrupt_free 5 3 irq_init with
  | ROk s' _ => irq_ok s' /\ owner irq_init 5 = Some 3 /\ claimed s' 5 = false
  | RErr s' e => s' = irq_init /\ e = InterruptNotFound /\ owner irq_init 5 <> Some 3
  | _ => False
  end.
Proof.
  refine (irq_table_invariant irq_init 5 3 4096 None irq_ok_init _). lia.
Defined.

(** The table after releasing the first [n] slots. *)
Definition released (pid : Z) (s : IrqState) (i : nat) : option (option handler) :=
  if decide (owner s i = Some pid) then Some None else IRQ_HANDLERS s !! i.

Lemma release_one_spec pid s n :
  irq_ok s -> (n < IRQ_COUNT)%nat ->
  irq_ok (release_one pid s n) /\
  forall i, IRQ_HANDLERS (release_one pid s n) !! i
            = if decide (i = n) then released pid s i else IRQ_HANDLERS s !! i.
Proof.
  intros Hok Hn. pose proof (irq_len _ Hok) as Hlen. unfold release_one, released, owner.
  destruct (lookup_lt_is_Some_2 (IRQ_HANDLERS s) n) as [h Hh]; [by rewrite Hlen |]. rewrite Hh.
  assert (Hsame : forall i, IRQ_HANDLERS s !! i
                 = if decide (i = n) then IRQ_HANDLERS s !! i else IRQ_HANDLERS s !! i)
    by (intros i; by case_decide).
  destruct h as [h |].
  - destruct (Z.eqb_spec (handler_pid h) pid) as [<- | Hne].
    + split; [by apply irq_ok_release |]. intros i. cbn.
      rewrite lookup_insert_list by (by rewrite Hlen). case_decide; [subst | done].
      rewrite Hh. by rewrite decide_True.
    + split; [done |]. intros i. case_decide; [subst | done]. rewrite Hh.
      rewrite decide_False; [done | congruence].
  - split; [done |]. intros i. case_decide; [subst | done]. by rewrite Hh.
Qed.

Lemma release_loop_spec pid n : forall s,
  irq_ok s -> (n <= IRQ_COUNT)%nat ->
  let s' := fold_left (release_one pid) (seq 0 n) s in
  irq_ok s' /\ forall i, IRQ_HANDLERS s' !! i
                         = if decide (i < n)%nat then released pid s i else IRQ_HANDLERS s !! i.
Proof.
  induction n as [| n IH]; intros s Hok Hn; cbn zeta.
  - cbn. split; [done |]. intros i. by case_decide; [lia |].
  - rewrite seq_S, fold_left_app. cbn [fold_left Nat.add].
    destruct (IH s Hok ltac:(lia)) as [Hok' Hs'].
    destruct (release_one_spec pid _ n Hok' ltac:(lia)) as [Hok'' Hs''].
    split; [done |]. intros i. rewrite Hs''. unfold released, owner. rewrite !Hs'.
    destruct (decide (i = n)) as [-> | Hne].
    + rewrite (decide_False (P := (n < n)%nat)), (decide_True (P := (n < S n)%nat)) by lia. done.
    + destruct (decide (i < n)%nat), (decide (i < S n)%nat); done || lia.
Qed.

(** When a process terminates, exactly the interrupts it had claimed are
    released and masked; every other process keeps its handlers. *)
Lemma release_interrupts_spec (pid : Z) (s : IrqState) :
  irq_ok s ->
  irq_ok (release_interrupts_for_pid pid s) /\
  forall i, (i < IRQ_COUNT)%nat ->
    IRQ_HANDLERS (release_interrupts_for_pid pid s) !! i
    = if decide (owner s i = Some pid) then Some None else IRQ_HANDLERS s !! i.
Proof.
  intros Hok. unfold release_interrupts_for_pid. rewrite (irq_len _ Hok).
  destruct (release_loop_spec pid IRQ_COUNT s Hok ltac:(lia)) as [Hok' Hs].
  split; [done |]. intros i Hi. rewrite Hs. by rewrite decide_True.
Qed.

(** The bound check of [interrupt_claim] admits the interrupt number 32,
    one past the table, and the kernel panics on it; a process can request it. *)
Lemma claim_irq_32_panics (pid f : Z) (arg : option Z) :
  interrupt_claim 32 pid f arg irq_init = RPanic /\ interrupt_free 32 pid irq_init = RPanic.
Proof. by split. Qed.
