(* ===== verification/Epoch.v ===== *)
(** * Page ages for the swapper

    With the swap feature every page of memory carries a timestamp, so that the
    least recently used one can be evicted.  This file models the table entries
    and the epoch counter of src/kernel/src/swap.rs, the set of smallest values
    of src/kernel/src/utils.rs and [renormalize_allocs] of
    src/kernel/src/mem.rs, which makes the timestamps small again when the
    counter is about to overflow.

    The main results: renormalization replaces every timestamp by its rank, in
    bounded time and for any number of pages, and a page that is touched becomes
    the youngest while the order of all others is kept. *)

From Stdlib Require Import ZArith Lia Bool.
From stdpp Require Import base numbers list option sorting.
From S2P Require Import Prelude.
From S2P Require Import Abi.

#[local] Open Scope Z_scope.
#[local] Open Scope kernel_scope.

Definition u32_MAX : Z := 4294967295.

(** ** [MinSet] *)

Definition RENORM_PASS_SIZE : nat := 64.

(** [sort_unstable] on words *)
Definition sort_unstable (l : list Z) : list Z := merge_sort Z.le l.

Definition MinSet_new : list Z := replicate RENORM_PASS_SIZE u32_MAX.

Definition MinSet_max (set : list Z) : Z := nth (RENORM_PASS_SIZE - 1) set 0.

Definition MinSet_insert (set : list Z) (item : Z) : list Z :=
  if existsb (Z.eqb item) set then set
  else if item <? MinSet_max set
       then sort_unstable (<[(RENORM_PASS_SIZE - 1)%nat := item]> set) else set.

Definition MinSet_index_of (set : list Z) (data : Z) : option nat := find_index (Z.eqb data) set.

(** ** Table entries *)

Record SwapAlloc : Type := mk_SwapAlloc { timestamp : Z; vpn : Z }.

Definition SWAP_FLG_WIRED : Z := 256.

Definition set_timestamp (v : Z) (a : SwapAlloc) : SwapAlloc := mk_SwapAlloc v (vpn a).

Definition SwapAlloc_is_pid (a : SwapAlloc) (pid : Z) : bool := u8 (vpn a) =? pid.
Definition SwapAlloc_is_none (a : SwapAlloc) : bool := u8 (vpn a) =? 0.
Definition SwapAlloc_get_pid (a : SwapAlloc) : option Z := PID_new (u8 (vpn a)).
Definition SwapAlloc_set_wired (a : SwapAlloc) : SwapAlloc :=
  mk_SwapAlloc (timestamp a) (Z.lor (vpn a) SWAP_FLG_WIRED).

(** ** Renormalization *)

(** One turn of the loop: the smallest timestamps from [limit] on become
    consecutive. *)
Definition collect (limit : Z) (l : list SwapAlloc) : list Z :=
  fold_left (fun ms d => if limit <=? timestamp d then MinSet_insert ms (timestamp d) else ms)
    l MinSet_new.

Definition remap (limit : Z) (ms : list Z) (l : list SwapAlloc) : list SwapAlloc :=
  map (fun d => match MinSet_index_of ms (timestamp d) with
                | Some i => set_timestamp (add32 (Z.of_nat i) limit) d
                | None => d
                end) l.

Fixpoint renorm_loop (fuel : nat) (limit : Z) (l : list SwapAlloc) : option (list SwapAlloc) :=
  match fuel with
  | O => None
  | S fuel =>
      let ms := collect limit l in
      let l := remap limit ms l in
      if MinSet_max ms =? u32_MAX then Some l
      else renorm_loop fuel (add32 limit (Z.of_nat RENORM_PASS_SIZE)) l
  end.

(** The largest timestamp; [None] for an empty table. *)
Definition max_timestamp (l : list SwapAlloc) : option Z :=
  match l with
  | [] => None
  | a :: l => Some (fold_left (fun m d => Z.max m (timestamp d)) l (timestamp a))
  end.

(** ** The epoch *)

(** The part of [Swap] that counts, with the table of the main memory. *)
Record SwapState : Type := mk_SwapState {
  epoch : Z;
  used_pages : Z;
  SWAP_ALLOCATIONS : list SwapAlloc
}.

Definition set_epoch (e : Z) (s : SwapState) : SwapState :=
  mk_SwapState e (used_pages s) (SWAP_ALLOCATIONS s).
Definition set_swap_allocations (l : list SwapAlloc) (s : SwapState) : SwapState :=
  mk_SwapState (epoch s) (used_pages s) l.

#[local] Notation "'swop' A" := (SwapState -> outcome Error SwapState A) (at level 10, A at level 9).

(** One turn per 64 different timestamps, and one more. *)
Definition renormalize_allocs : swop Z := fun s =>
  let l := SWAP_ALLOCATIONS s in
  match renorm_loop (S (length l)) 0 l with
  | None => RStuck
  | Some l =>
      match max_timestamp l with
      | None => RPanic
      | Some m => ROk (set_swap_allocations l s) m
      end
  end.

Definition next_epoch : swop Z :=
  e <- gets epoch;;
  (if e <? u32_MAX - 1 then modify (set_epoch (e + 1))
   else
     e <- renormalize_allocs;;
     modify (set_epoch (add32 e 1))) ;;;
  gets epoch.

Definition track_alloc (is_alloc : bool) : swop unit :=
  modify (fun s => mk_SwapState (epoch s)
    (if is_alloc then Z.min (used_pages s + 1) usize_MAX else Z.max (used_pages s - 1) 0)
    (SWAP_ALLOCATIONS s)).

(** A change of the entry [i]; the table is indexed with a check. *)
Definition alter_alloc (i : nat) (f : SwapAlloc -> SwapAlloc) : swop unit :=
  l <- gets SWAP_ALLOCATIONS;;
  a <- unwrap (l !! i);;
  modify (set_swap_allocations (<[i := f a]> l)).

(** [SwapAlloc::touch], [update] and [reparent] on the entry [i]. *)
Definition touch (i : nat) : swop unit :=
  e <- next_epoch;;
  alter_alloc i (set_timestamp e).

Definition update (i : nat) (pid vaddr : option Z) : swop unit :=
  touch i ;;;
  match pid with
  | Some pid =>
      track_alloc true ;;;
      alter_alloc i (fun a => mk_SwapAlloc (timestamp a)
        (match vaddr with
         | Some va =>
             Z.lor (Z.lor (Z.lor (Z.land va (not32 4095)) pid) (Z.land (vpn a) SWAP_FLG_WIRED))
                   (if pid =? 2 then SWAP_FLG_WIRED else 0)
         | None => Z.lor SWAP_FLG_WIRED pid
         end))
  | None =>
      track_alloc false ;;;
      alter_alloc i (fun a => mk_SwapAlloc (timestamp a) 0)
  end.

Definition reparent (i : nat) (pid : Z) : swop unit :=
  touch i ;;;
  alter_alloc i (fun a => mk_SwapAlloc (timestamp a) (Z.lor (Z.land (vpn a) (not32 255)) pid)).

(** ** The set of smallest values *)

(** Insertion into a strictly increasing list. *)
Fixpoint sins (x : Z) (l : list Z) : list Z :=
  match l with
  | [] => [x]
  | y :: l' => if x <? y then x :: y :: l' else if x =? y then y :: l' else y :: sins x l'
  end.

(** The first [n] values of [l], filled up with the largest word. *)
Definition pad (n : nat) (l : list Z) : list Z := take n (l ++ replicate n u32_MAX).

Definition increasing : list Z -> Prop := StronglySorted Z.lt.

Lemma sins_elem x y l : y ∈ sins x l <-> y = x \/ y ∈ l.
Proof.
  induction l as [| z l IH]; cbn; [by rewrite elem_of_cons |].
  destruct (Z.ltb_spec x z); [by rewrite !elem_of_cons |].
  destruct (Z.eqb_spec x z) as [-> |]; rewrite !elem_of_cons, ?IH; tauto.
Qed.

Lemma sins_increasing x l : increasing l -> increasing (sins x l).
Proof.
  induction 1 as [| z l Hl IH Hz]; cbn; [by repeat constructor |].
  destruct (Z.ltb_spec x z).
  - constructor; [by constructor |]. constructor; [done |]. eapply Forall_impl; [exact Hz |]. lia.
  - destruct (Z.eqb_spec x z) as [-> |]; [by constructor |]. constructor; [done |].
    apply Forall_forall. intros y [-> | Hy]%sins_elem; [lia |]. by eapply Forall_forall in Hy.
Qed.

Lemma sins_below x l :
  x < u32_MAX -> Forall (fun y => y < u32_MAX) l -> Forall (fun y => y < u32_MAX) (sins x l).
Proof. rewrite !Forall_forall. intros Hx Hl y [-> | Hy]%sins_elem; auto. Qed.

Lemma sins_dup x l : increasing l -> x ∈ l -> sins x l = l.
Proof.
  induction 1 as [| z l Hl IH Hz]; intros Hx; [by apply elem_of_nil in Hx |]. cbn.
  apply elem_of_cons in Hx as [-> | Hx]; [by rewrite Z.ltb_irrefl, Z.eqb_refl |].
  pose proof (proj1 (Forall_forall _ _) Hz _ Hx). cbn in *.
  rewrite (proj2 (Z.ltb_ge _ _)), (proj2 (Z.eqb_neq _ _)) by lia. by rewrite IH.
Qed.

Lemma increasing_unique l1 l2 :
  increasing l1 -> increasing l2 -> (forall x, x ∈ l1 <-> x ∈ l2) -> l1 = l2.
Proof.
  intros H1. revert l2. induction H1 as [| x l1 H1 IH Hx]; intros l2 H2 Hel.
  - destruct l2 as [| y l2]; [done |]. exfalso. apply (not_elem_of_nil y), Hel, list_elem_of_here.
  - destruct H2 as [| y l2 H2 Hy]; [exfalso; apply (not_elem_of_nil x), Hel, list_elem_of_here |].
    rewrite Forall_forall in Hx, Hy.
    assert (x = y) as ->.
    { destruct (proj1 (elem_of_cons _ _ _) (proj1 (Hel x) (list_elem_of_here _ _))) as [| Hin]; [done |].
      destruct (proj1 (elem_of_cons _ _ _) (proj2 (Hel y) (list_elem_of_here _ _))) as [| Hin']; [done |].
      specialize (Hy _ Hin). specialize (Hx _ Hin'). lia. }
    f_equal. apply IH; [done |]. intros z. specialize (Hel z). rewrite !elem_of_cons in Hel.
    split; intros Hz.
    + destruct (proj1 Hel (or_intror Hz)); [specialize (Hx _ Hz); lia | done].
    + destruct (proj2 Hel (or_intror Hz)); [specialize (Hy _ Hz); lia | done].
Qed.

Lemma pad_cons n x l : pad (S n) (x :: l) = x :: pad n l.
Proof.
  unfold pad. cbn [app take]. f_equal. rewrite replicate_S_end, app_assoc.
  rewrite take_app_le; [done |]. rewrite length_app, length_replicate. lia.
Qed.

Lemma pad_nil n : pad n [] = replicate n u32_MAX.
Proof. unfold pad. cbn. by rewrite take_ge by (by rewrite length_replicate). Qed.

Lemma pad_length n l : length (pad n l) = n.
Proof. unfold pad. rewrite length_take, length_app, length_replicate. lia. Qed.

Lemma pad_take n l : take n (pad (S n) l) = pad n l.
Proof.
  unfold pad. rewrite take_take, replicate_S_end, app_assoc.
  rewrite Nat.min_l by lia. apply take_app_le. rewrite length_app, length_replicate. lia.
Qed.

Lemma pad_elem n l x : x ∈ pad n l -> x = u32_MAX \/ x ∈ l.
Proof.
  unfold pad. intros H. apply elem_of_take in H as (i & H & _).
  apply lookup_app_Some in H as [H | [_ H]].
  - right. by apply list_elem_of_lookup_2 in H.
  - left. by apply lookup_replicate in H as [-> _].
Qed.

(** The position of an element that is not a filler. *)
Lemma pad_lookup n l i x :
  x <> u32_MAX -> pad n l !! i = Some x <-> l !! i = Some x /\ (i < n)%nat.
Proof.
  intros Hx. unfold pad. rewrite lookup_take_Some, lookup_app_Some. split.
  - intros [[? | [_ H]] ?]; [done |]. by apply lookup_replicate in H as [-> _].
  - tauto.
Qed.

Section Insert.
Context (x : Z) (Hx : x < u32_MAX).

Lemma pad_sins_above n l :
  increasing l -> Forall (fun y => y < u32_MAX) l -> x ∉ pad (S n) l ->
  nth n (pad (S n) l) 0 <= x -> pad (S n) (sins x l) = pad (S n) l.
Proof.
  intros Hl. revert n. induction Hl as [| y l Hl IH Hy]; intros n Hm Hnot Hlast.
  { rewrite pad_nil in Hlast. rewrite nth_lookup, lookup_replicate_2 in Hlast by lia. cbn in Hlast. lia. }
  inversion_clear Hm as [| ? ? Hym Hlm]. rewrite pad_cons in *. apply not_elem_of_cons in Hnot as [Hxy Hnot].
  assert (Hyx : y < x).
  { destruct n as [| n]; cbn in Hlast; [lia |].
    assert (Hin : nth n (pad (S n) l) 0 ∈ pad (S n) l)
      by (apply list_elem_of_In, nth_In; rewrite pad_length; lia).
    apply pad_elem in Hin as [Hin | Hin]; [lia |].
    pose proof (proj1 (Forall_forall _ _) Hy _ Hin). cbn in *. lia. }
  cbn [sins]. rewrite (proj2 (Z.ltb_ge _ _)), (proj2 (Z.eqb_neq _ _)) by lia. rewrite pad_cons. f_equal.
  destruct n as [| n]; [done |]. by apply IH.
Qed.

Lemma pad_sins_below n l :
  increasing l -> Forall (fun y => y < u32_MAX) l -> x ∉ pad (S n) l ->
  x < nth n (pad (S n) l) 0 -> pad (S n) (sins x l) ≡ₚ x :: pad n l.
Proof.
  intros Hl. revert n. induction Hl as [| y l Hl IH Hy]; intros n Hm Hnot Hlast.
  { cbn [sins]. by rewrite pad_cons. }
  inversion_clear Hm as [| ? ? Hym Hlm]. cbn [sins]. destruct (Z.ltb_spec x y).
  { by rewrite pad_cons. }
  rewrite pad_cons in *. apply not_elem_of_cons in Hnot as [Hxy Hnot].
  rewrite (proj2 (Z.eqb_neq _ _)) by done. rewrite pad_cons.
  destruct n as [| n]; cbn in Hlast; [lia |]. rewrite pad_cons, IH by done. by rewrite Permutation_swap.
Qed.
End Insert.

Lemma pad_sorted n l : increasing l -> Forall (fun y => y < u32_MAX) l -> Sorted Z.le (pad n l).
Proof.
  intros Hl Hm. apply StronglySorted_Sorted. revert n. induction Hl as [| y l Hl IH Hy]; intros n.
  - rewrite pad_nil. induction n; cbn; constructor; [done |]. apply Forall_replicate. lia.
  - inversion_clear Hm. destruct n as [| n]; [constructor |]. rewrite pad_cons.
    constructor; [auto |]. apply Forall_forall. intros z [-> | Hz]%pad_elem; [lia |].
    pose proof (proj1 (Forall_forall _ _) Hy _ Hz). cbn in *. lia.
Qed.

Lemma MinSet_insert_pad x l :
  x < u32_MAX -> increasing l -> Forall (fun y => y < u32_MAX) l ->
  MinSet_insert (pad RENORM_PASS_SIZE l) x = pad RENORM_PASS_SIZE (sins x l).
Proof.
  intros Hx Hl Hm. unfold MinSet_insert, MinSet_max.
  change RENORM_PASS_SIZE with (S 63). change (S 63 - 1)%nat with 63%nat.
  destruct (existsb (Z.eqb x) (pad (S 63) l)) eqn:Hex.
  { apply existsb_exists in Hex as (y & Hy & <-%Z.eqb_eq). apply list_elem_of_In in Hy.
    apply pad_elem in Hy as [? | ?]; [lia |]. by rewrite sins_dup. }
  assert (Hnot : x ∉ pad (S 63) l).
  { intros Hin. apply list_elem_of_In in Hin.
    rewrite (proj2 (existsb_exists _ _)) in Hex; [done |]. exists x. by rewrite Z.eqb_refl. }
  destruct (Z.ltb_spec x (nth 63 (pad (S 63) l) 0)) as [Hlt | Hge];
    [| symmetry; by apply pad_sins_above].
  pose proof (sins_below x l Hx Hm) as Hs.
  apply (Sorted_unique Z.le).
  - apply Sorted_merge_sort. exact _.
  - apply pad_sorted; [by apply sins_increasing | done].
  - unfold sort_unstable. rewrite merge_sort_Permutation, pad_sins_below by done.
    rewrite insert_take_drop by (rewrite pad_length; lia).
    rewrite pad_take, (drop_ge (pad _ _)) by (rewrite pad_length; lia).
    by rewrite Permutation_app_comm.
Qed.

(** The different values of [l], in increasing order. *)
Definition distinct (l : list Z) : list Z := fold_left (fun acc t => sins t acc) l [].

Lemma fold_sins l acc :
  increasing acc ->
  increasing (fold_left (fun acc t => sins t acc) l acc) /\
  (forall x, x ∈ fold_left (fun acc t => sins t acc) l acc <-> x ∈ l \/ x ∈ acc).
Proof.
  revert acc. induction l as [| t l IH]; intros acc Hacc; cbn.
  { split; [done |]. intros x. rewrite elem_of_nil. tauto. }
  destruct (IH (sins t acc) (sins_increasing _ _ Hacc)) as [Hi He]. split; [done |].
  intros x. rewrite He, sins_elem, elem_of_cons. tauto.
Qed.

Lemma distinct_increasing l : increasing (distinct l).
Proof. apply fold_sins. constructor. Qed.

Lemma distinct_elem l x : x ∈ distinct l <-> x ∈ l.
Proof. unfold distinct. rewrite (proj2 (fold_sins l [] ltac:(constructor))), elem_of_nil. tauto. Qed.

Lemma distinct_below l : Forall (fun t => t < u32_MAX) l -> Forall (fun t => t < u32_MAX) (distinct l).
Proof. rewrite !Forall_forall. intros H x Hx. apply H. by apply distinct_elem. Qed.

(** A turn collects the 64 smallest values from [limit] on. *)
Lemma collect_pad limit l :
  Forall (fun t => t < u32_MAX) (map timestamp l) ->
  collect limit l
  = pad RENORM_PASS_SIZE (distinct (filter (fun t => limit <= t) (map timestamp l))).
Proof.
  unfold collect, distinct. change MinSet_new with (pad RENORM_PASS_SIZE []).
  assert (H : increasing [] /\ Forall (fun t => t < u32_MAX) []) by repeat constructor.
  revert H. generalize (@nil Z) as acc. induction l as [| d l IH]; intros acc [Hi Hb] Hl; [done |].
  cbn in Hl. inversion_clear Hl as [| ? ? Hd Hl']. cbn [fold_left map].
  destruct (Z.leb_spec limit (timestamp d)).
  - rewrite filter_cons_True by done. cbn [fold_left]. rewrite MinSet_insert_pad by done.
    apply IH; [| done]. split; [by apply sins_increasing | by apply sins_below].
  - rewrite filter_cons_False by lia. by apply IH.
Qed.

(** ** Ranks *)

(** How many different values of [ts] are smaller than [t]. *)
Definition rank (ts : list Z) (t : Z) : Z :=
  Z.of_nat (length (remove_dups (filter (fun u => u < t) ts))).

(** The table with [f] applied to every timestamp. *)
Definition stamp (f : Z -> Z) (l : list SwapAlloc) : list SwapAlloc :=
  map (fun a => set_timestamp (f (timestamp a)) a) l.

Lemma stamp_timestamps f l : map timestamp (stamp f l) = map f (map timestamp l).
Proof. unfold stamp. by rewrite !map_map. Qed.

Lemma stamp_ext f g l :
  (forall t, t ∈ map timestamp l -> f t = g t) -> stamp f l = stamp g l.
Proof.
  intros H. unfold stamp. apply map_ext_in. intros a Ha. f_equal. apply H.
  apply list_elem_of_In. by apply in_map.
Qed.

Lemma increasing_lookup l i j x y :
  increasing l -> l !! i = Some x -> l !! j = Some y -> (i < j)%nat <-> x < y.
Proof.
  intros Hl.
  assert (Hlt : forall i j x y, l !! i = Some x -> l !! j = Some y -> (i < j)%nat -> x < y).
  { clear -Hl. induction Hl as [| z l Hl IH Hz]; intros i j x y Hi Hj Hij; [done |].
    destruct j as [| j]; [lia |]. destruct i as [| i]; [| eapply (IH i j); [done | done | lia]].
    cbn in Hi, Hj. injection Hi as <-. apply list_elem_of_lookup_2 in Hj.
    exact (proj1 (Forall_forall _ _) Hz _ Hj). }
  intros Hi Hj. split; [by eapply Hlt |]. intros Hxy.
  destruct (Nat.lt_trichotomy i j) as [| [-> | Hji]]; [done | simplify_eq; lia |].
  pose proof (Hlt _ _ _ _ Hj Hi Hji). lia.
Qed.

Lemma increasing_NoDup l : increasing l -> NoDup l.
Proof.
  induction 1 as [| x l Hl IH Hx]; constructor; [| done].
  intros Hin. pose proof (proj1 (Forall_forall _ _) Hx _ Hin). cbn in *. lia.
Qed.

Section Passes.
Context (ts : list Z) (Hts : Forall (fun t => 0 <= t < u32_MAX) ts).

Lemma distinct_lookup_elem t : t ∈ ts -> exists i, distinct ts !! i = Some t.
Proof. intros H. by apply list_elem_of_lookup, distinct_elem. Qed.

Lemma distinct_range i t : distinct ts !! i = Some t -> 0 <= t < u32_MAX.
Proof.
  intros H. apply list_elem_of_lookup_2 in H. rewrite distinct_elem in H.
  exact (proj1 (Forall_forall _ _) Hts _ H).
Qed.

Lemma rank_lookup i t : distinct ts !! i = Some t -> rank ts t = Z.of_nat i.
Proof.
  intros Hi. unfold rank. f_equal. pose proof (distinct_increasing ts) as Hinc.
  assert (remove_dups (filter (fun u => u < t) ts) ≡ₚ take i (distinct ts)) as ->.
  { apply NoDup_Permutation.
    - apply NoDup_remove_dups.
    - eapply sublist_NoDup; [by apply increasing_NoDup | apply sublist_take].
    - intros x. rewrite elem_of_remove_dups, list_elem_of_filter, elem_of_take.
      rewrite <- (distinct_elem ts x). split.
      + intros [Hx [k Hk]%list_elem_of_lookup]. exists k. split; [done |].
        by apply (increasing_lookup _ _ _ _ _ Hinc Hk Hi).
      + intros (k & Hk & Hki). split; [| by apply list_elem_of_lookup_2 in Hk].
        by apply (increasing_lookup _ _ _ _ _ Hinc Hk Hi). }
  rewrite length_take. apply lookup_lt_Some in Hi. lia.
Qed.

(** A value is at least its position. *)
Lemma distinct_above i t : distinct ts !! i = Some t -> Z.of_nat i <= t.
Proof.
  revert t. induction i as [| i IH]; intros t Hi; [by apply distinct_range in Hi; lia |].
  destruct (lookup_lt_is_Some_2 (distinct ts) i) as [u Hu]; [apply lookup_lt_Some in Hi; lia |].
  pose proof (proj1 (increasing_lookup _ _ _ _ _ (distinct_increasing ts) Hu Hi)).
  specialize (IH _ Hu). lia.
Qed.

(** The timestamp that stands for [t] after [j] turns. *)
Definition regroup (j : nat) (t : Z) : Z :=
  if rank ts t <? 64 * Z.of_nat j then rank ts t else t.

Lemma regroup_below j t : t ∈ ts -> regroup j t < u32_MAX.
Proof.
  intros [i Hi]%distinct_lookup_elem. unfold regroup. pose proof (distinct_range _ _ Hi).
  rewrite (rank_lookup _ _ Hi). pose proof (distinct_above _ _ Hi). case_match; lia.
Qed.

Lemma regroup_distinct j :
  distinct (filter (fun t => 64 * Z.of_nat j <= t) (map (regroup j) ts)) = drop (64 * j) (distinct ts).
Proof.
  apply increasing_unique; [apply distinct_increasing | |].
  { pose proof (distinct_increasing ts) as H. rewrite <- (take_drop (64 * j) (distinct ts)) in H.
    by apply StronglySorted_app_1_r in H. }
  intros x. rewrite distinct_elem, list_elem_of_filter.
  change (map (regroup j) ts) with (regroup j <$> ts).
  rewrite list_elem_of_fmap, (list_elem_of_lookup (drop _ _)). split.
  - intros (Hx & t & -> & [i Hi]%distinct_lookup_elem). unfold regroup in *.
    rewrite (rank_lookup _ _ Hi) in *. destruct (Z.ltb_spec (Z.of_nat i) (64 * Z.of_nat j)); [lia |].
    exists (i - 64 * j)%nat. rewrite lookup_drop. rewrite <- Hi. f_equal. lia.
  - intros (i & Hi). rewrite lookup_drop in Hi. pose proof (distinct_above _ _ Hi).
    split; [lia |]. exists x. split.
    + unfold regroup. rewrite (rank_lookup _ _ Hi). rewrite (proj2 (Z.ltb_ge _ _)); [done | lia].
    + apply distinct_elem. by apply list_elem_of_lookup_2 in Hi.
Qed.

(** The value of position [i] is found in the window of turn [j]. *)
Lemma index_of_window j i t :
  distinct ts !! i = Some t -> (64 * j <= i)%nat ->
  MinSet_index_of (pad RENORM_PASS_SIZE (drop (64 * j) (distinct ts))) t
  = if (i <? 64 * j + 64)%nat then Some (i - 64 * j)%nat else None.
Proof.
  intros Hi Hj. unfold MinSet_index_of. change RENORM_PASS_SIZE with 64%nat.
  pose proof (distinct_range _ _ Hi) as Hr.
  assert (Hpos : forall k, pad 64 (drop (64 * j) (distinct ts)) !! k = Some t <->
            (k = i - 64 * j /\ i < 64 * j + 64)%nat).
  { intros k. rewrite pad_lookup, lookup_drop by lia. split.
    - intros [Hk Hlt]. pose proof (increasing_NoDup _ (distinct_increasing ts)) as Hnd.
      pose proof (NoDup_lookup _ _ _ _ Hnd Hk Hi). lia.
    - intros [-> Hlt]. split; [rewrite <- Hi; f_equal; lia | lia]. }
  destruct (Nat.ltb_spec i (64 * j + 64)).
  - apply find_index_Some. split.
    + exists t. split; [by apply Hpos | apply Z.eqb_refl].
    + intros k x Hk Hx. apply Z.eqb_neq. intros <-. apply Hpos in Hx. lia.
  - apply find_index_None. intros k x Hx. apply Z.eqb_neq. intros <-. apply Hpos in Hx. lia.
Qed.

(** A value below the window is not found. *)
Lemma index_of_below j t :
  0 <= t < 64 * Z.of_nat j -> t < u32_MAX ->
  MinSet_index_of (pad RENORM_PASS_SIZE (drop (64 * j) (distinct ts))) t = None.
Proof.
  intros Ht Hm. apply find_index_None. intros i x Hi%list_elem_of_lookup_2. apply Z.eqb_neq. intros <-.
  apply pad_elem in Hi as [-> | [i' Hi]%list_elem_of_lookup]; [lia |].
  rewrite lookup_drop in Hi. apply distinct_above in Hi. lia.
Qed.

Lemma remap_turn j l :
  map timestamp l = ts -> 64 * Z.of_nat j <= u32_MAX - 64 ->
  let cur := stamp (regroup j) l in
  remap (64 * Z.of_nat j) (collect (64 * Z.of_nat j) cur) cur = stamp (regroup (S j)) l.
Proof.
  intros Hl Hj cur.
  assert (Hb : Forall (fun t => t < u32_MAX) (map timestamp cur)).
  { unfold cur. rewrite stamp_timestamps, Hl. apply Forall_forall. intros x Hx.
    apply list_elem_of_fmap in Hx as (t & -> & Ht). by apply regroup_below. }
  rewrite collect_pad by done. unfold cur at 1. rewrite stamp_timestamps, Hl, regroup_distinct.
  unfold remap, cur, stamp. rewrite map_map. apply map_ext_in. intros a Ha.
  assert (Hin : timestamp a ∈ ts) by (rewrite <- Hl; apply list_elem_of_In; by apply in_map).
  destruct (distinct_lookup_elem _ Hin) as [i Hi]. cbn [timestamp set_timestamp]. unfold regroup.
  rewrite (rank_lookup _ _ Hi). pose proof (distinct_range _ _ Hi). pose proof (distinct_above _ _ Hi).
  destruct (Z.ltb_spec (Z.of_nat i) (64 * Z.of_nat j)).
  - rewrite index_of_below by lia. by rewrite (proj2 (Z.ltb_lt _ _)) by lia.
  - rewrite (index_of_window _ i) by (done || lia).
    destruct (Nat.ltb_spec i (64 * j + 64)).
    + rewrite (proj2 (Z.ltb_lt _ _)) by lia. unfold set_timestamp. cbn. f_equal.
      unfold add32. rewrite u32_id by (unfold u32_MAX in *; lia). lia.
    + by rewrite (proj2 (Z.ltb_ge _ _)) by lia.
Qed.

(** The last place of the window is free exactly when fewer values are left. *)
Lemma window_full j :
  (MinSet_max (pad RENORM_PASS_SIZE (drop (64 * j) (distinct ts))) =? u32_MAX)
  = (length (distinct ts) <? 64 * j + 64)%nat.
Proof.
  unfold MinSet_max. change RENORM_PASS_SIZE with 64%nat. change (64 - 1)%nat with 63%nat.
  rewrite nth_lookup. unfold pad. rewrite lookup_take_lt by lia.
  destruct (Nat.ltb_spec (length (distinct ts)) (64 * j + 64)).
  - rewrite lookup_app_r by (rewrite length_drop; lia).
    rewrite lookup_replicate_2 by (rewrite length_drop; lia). apply Z.eqb_refl.
  - destruct (lookup_lt_is_Some_2 (distinct ts) (64 * j + 63)) as [t Ht]; [lia |].
    rewrite lookup_app_l by (rewrite length_drop; lia). rewrite lookup_drop, Ht.
    apply distinct_range in Ht. apply Z.eqb_neq. cbn. lia.
Qed.

Lemma renorm_loop_rank fuel j l :
  map timestamp l = ts -> Z.of_nat (length (distinct ts)) <= u32_MAX - 64 ->
  (64 * j <= length (distinct ts) < 64 * (j + fuel))%nat ->
  renorm_loop fuel (64 * Z.of_nat j) (stamp (regroup j) l) = Some (stamp (rank ts) l).
Proof.
  intros Hl Hb. revert j. induction fuel as [| fuel IH]; intros j Hj; [lia |]. cbn [renorm_loop].
  rewrite remap_turn by (done || lia).
  rewrite collect_pad, stamp_timestamps, Hl, regroup_distinct, window_full.
  2:{ rewrite stamp_timestamps, Hl. apply Forall_forall. intros x Hx.
      apply list_elem_of_fmap in Hx as (t & -> & Ht). by apply regroup_below. }
  destruct (Nat.ltb_spec (length (distinct ts)) (64 * j + 64)).
  - f_equal. apply stamp_ext. rewrite Hl. intros t [i Hi]%distinct_lookup_elem. unfold regroup.
    rewrite (rank_lookup _ _ Hi). apply lookup_lt_Some in Hi. by rewrite (proj2 (Z.ltb_lt _ _)) by lia.
  - replace (add32 _ _) with (64 * Z.of_nat (S j)); [apply IH; lia |].
    unfold add32. change (Z.of_nat RENORM_PASS_SIZE) with 64.
    rewrite u32_id by (unfold u32_MAX in *; lia). lia.
Qed.
End Passes.

(** ** Renormalization gives ranks *)

Lemma fold_max_spec (l : list SwapAlloc) m b :
  Forall (fun a => timestamp a <= m) l -> b <= m -> b = m \/ (exists a, a ∈ l /\ timestamp a = m) ->
  fold_left (fun m d => Z.max m (timestamp d)) l b = m.
Proof.
  revert b. induction l as [| a l IH]; intros b Hl Hb Hm; cbn.
  { destruct Hm as [-> | (a & Ha & _)]; [done | by apply not_elem_of_nil in Ha]. }
  inversion_clear Hl. apply IH; [done | lia |].
  destruct Hm as [-> | (c & [-> | Hc]%elem_of_cons & <-)]; [left; lia | left; lia | right; eauto].
Qed.

Lemma max_timestamp_spec l m :
  Forall (fun a => timestamp a <= m) l -> (exists a, a ∈ l /\ timestamp a = m) -> max_timestamp l = Some m.
Proof.
  destruct l as [| a l]; cbn; intros Hl (c & Hc & Hm); [by apply not_elem_of_nil in Hc |].
  inversion_clear Hl. f_equal. apply fold_max_spec; [done | done |].
  apply elem_of_cons in Hc as [-> | Hc]; [by left | right; eauto].
Qed.

Lemma distinct_length ts : length (distinct ts) = length (remove_dups ts).
Proof.
  apply Permutation_length, NoDup_Permutation.
  - apply increasing_NoDup, distinct_increasing.
  - apply NoDup_remove_dups.
  - intros x. by rewrite distinct_elem, elem_of_remove_dups.
Qed.

Lemma distinct_length_le ts : (length (distinct ts) <= length ts)%nat.
Proof.
  apply submseteq_length, NoDup_submseteq; [apply increasing_NoDup, distinct_increasing |].
  intros x. by rewrite distinct_elem.
Qed.

(** Every timestamp is below the sentinel, and there are fewer pages than
    timestamps. *)
Definition ages_ok (l : list SwapAlloc) : Prop :=
  l <> [] /\ Forall (fun t => 0 <= t < u32_MAX) (map timestamp l) /\
  Z.of_nat (length l) <= u32_MAX - 64.

Lemma renormalize_ranks s :
  ages_ok (SWAP_ALLOCATIONS s) ->
  let ts := map timestamp (SWAP_ALLOCATIONS s) in
  renormalize_allocs s
  = ROk (set_swap_allocations (stamp (rank ts) (SWAP_ALLOCATIONS s)) s)
        (Z.of_nat (length (distinct ts)) - 1).
Proof.
  intros (Hne & Hts & Hlen) ts. set (l := SWAP_ALLOCATIONS s) in *.
  pose proof (distinct_length_le ts) as Hle. unfold ts in Hle. rewrite length_map in Hle.
  assert (Hr : renorm_loop (S (length l)) 0 l = Some (stamp (rank ts) l)).
  { assert (l = stamp (regroup ts 0) l) as Hl.
    { unfold stamp. rewrite <- (map_id l) at 1. apply map_ext. intros [t v]. unfold set_timestamp. cbn.
      unfold regroup. rewrite (proj2 (Z.ltb_ge _ _)); [done | unfold rank; lia]. }
    rewrite Hl at 2. apply (renorm_loop_rank ts Hts _ 0); [done | unfold ts; lia | unfold ts; lia]. }
  unfold renormalize_allocs. fold l. rewrite Hr.
  rewrite (max_timestamp_spec _ (Z.of_nat (length (distinct ts)) - 1)); [done | |].
  - apply Forall_forall. intros b (a & -> & Ha)%list_elem_of_fmap. cbn.
    destruct (distinct_lookup_elem ts (timestamp a)) as [i Hi];
      [apply list_elem_of_fmap; eauto |].
    rewrite (rank_lookup _ _ _ Hi). apply lookup_lt_Some in Hi. lia.
  - destruct l as [| a0 l0] eqn:Hl; [done |].
    assert (Hpos : (0 < length (distinct ts))%nat).
    { destruct (distinct_lookup_elem ts (timestamp a0)) as [i Hi]; [apply list_elem_of_here |].
      apply lookup_lt_Some in Hi. lia. }
    destruct (lookup_lt_is_Some_2 (distinct ts) (length (distinct ts) - 1)) as [t Ht]; [lia |].
    pose proof Ht as Hin%list_elem_of_lookup_2. rewrite distinct_elem in Hin.
    apply list_elem_of_fmap in Hin as (a & -> & Ha).
    exists (set_timestamp (rank ts (timestamp a)) a). split; [apply list_elem_of_fmap; eauto |].
    cbn [timestamp set_timestamp]. rewrite (rank_lookup _ _ _ Ht). lia.
Qed.

(** C19. Renormalization of the page ages is the ranking: for any number of pages the
    loop, which handles at most 64 different ages per turn, ends, and every timestamp
    becomes the number of different smaller timestamps in the table, with nothing
    else changed; the value returned is the largest new timestamp. *)
Theorem renormalize_allocs_rank s :
  ages_ok (SWAP_ALLOCATIONS s) ->
  let ts := map timestamp (SWAP_ALLOCATIONS s) in
  renormalize_allocs s
  = ROk (mk_SwapState (epoch s) (used_pages s)
           (map (fun a => mk_SwapAlloc (rank ts (timestamp a)) (vpn a)) (SWAP_ALLOCATIONS s)))
        (Z.of_nat (length (remove_dups ts)) - 1).
Proof. intros H ts. rewrite renormalize_ranks by done. unfold ts. by rewrite distinct_length. Qed.

(** A table of 200 pages, two of each age, so that one turn is not enough. *)
Definition example_table : list SwapAlloc :=
  map (fun i => mk_SwapAlloc (4294967000 - 3 * (Z.of_nat i / 2)) (4096 * Z.of_nat i + 5)) (seq 0 200).

Definition example_swap : SwapState := mk_SwapState 4294967294 200 example_table.

Lemma example_ages_ok : ages_ok example_table.
Proof.
  split; [done |]. split; [| by vm_compute].
  apply Forall_forall. intros t Ht. apply list_elem_of_In, in_map_iff in Ht as (a & <- & Ha).
  apply in_map_iff in Ha as (i & <- & Hi%in_seq). cbn [timestamp]. unfold u32_MAX.
  pose proof (Z.div_pos (Z.of_nat i) 2). pose proof (Z.div_le_upper_bound (Z.of_nat i) 2 (Z.of_nat i)). lia.
Qed.

Lemma renormalize_allocs_rank_witness :
  returns (renormalize_allocs example_swap) (fun s' m => m = 99 /\ epoch s' = 4294967294).
Proof. rewrite (renormalize_allocs_rank example_swap example_ages_ok). by vm_compute. Defined.

(** ** Least recently used *)

Inductive SwapEvent : Type :=
| Touch (i : nat)
| Update (i : nat) (pid vaddr : option Z)
| Reparent (i : nat) (pid : Z)
| SetWired (i : nat).

Definition swap_step (e : SwapEvent) : swop unit :=
  match e with
  | Touch i => touch i
  | Update i pid vaddr => update i pid vaddr
  | Reparent i pid => reparent i pid
  | SetWired i => alter_alloc i SwapAlloc_set_wired
  end.

(** The events, the latest one first. *)
Fixpoint swap_run (es : list SwapEvent) : swop unit :=
  match es with
  | [] => ret tt
  | e :: es => swap_run es ;;; swap_step e
  end.

(** The page an event concerns, and whether the event is a use of it. *)
Definition event_page (e : SwapEvent) : nat :=
  match e with Touch i | Update i _ _ | Reparent i _ | SetWired i => i end.

Definition event_uses (e : SwapEvent) : bool :=
  match e with SetWired _ => false | _ => true end.

(** The number of the last event that uses page [i]; 0 for none. *)
Fixpoint last_use (i : nat) (es : list SwapEvent) : nat :=
  match es with
  | [] => 0
  | e :: es' => if event_uses e && Nat.eqb (event_page e) i then length es else last_use i es'
  end.

Definition swap_ok (n : nat) (s : SwapState) : Prop :=
  length (SWAP_ALLOCATIONS s) = n /\ Z.of_nat n <= u32_MAX - 64 /\ 0 <= epoch s < u32_MAX /\
  Forall (fun t => 0 <= t <= epoch s) (map timestamp (SWAP_ALLOCATIONS s)).

Definition age_of (s : SwapState) (i : nat) : option Z := timestamp <$> SWAP_ALLOCATIONS s !! i.

(** [younger s j i]: page [i] was used after page [j]. *)
Definition younger (s : SwapState) (j i : nat) : Prop :=
  match age_of s j, age_of s i with Some t, Some u => t < u | _, _ => False end.

(** What a new epoch does: it is above every timestamp, and the order of the
    timestamps is kept. *)
Definition new_epoch (s s' : SwapState) : Prop :=
  exists f, SWAP_ALLOCATIONS s' = stamp f (SWAP_ALLOCATIONS s) /\ 0 <= epoch s' < u32_MAX /\
    (forall t, t ∈ map timestamp (SWAP_ALLOCATIONS s) -> 0 <= f t < epoch s') /\
    (forall t u, t ∈ map timestamp (SWAP_ALLOCATIONS s) -> u ∈ map timestamp (SWAP_ALLOCATIONS s) ->
                 t < u -> f t < f u).

Lemma next_epoch_new n s :
  swap_ok n s -> (0 < n)%nat -> returns (next_epoch s) (fun s' e => e = epoch s' /\ new_epoch s s').
Proof.
  intros (Hlen & Hn & He & Hts) Hpos. unfold next_epoch. cbn -[renormalize_allocs].
  destruct (Z.ltb_spec (epoch s) (u32_MAX - 1)) as [Hlt | Hge]; cbn -[renormalize_allocs].
  - split; [done |]. exists id. cbn. rewrite Forall_forall in Hts.
    repeat split; [| lia | lia | | | done].
    + unfold stamp. rewrite <- (map_id (SWAP_ALLOCATIONS s)) at 1. by apply map_ext; intros [].
    + by apply Hts.
    + specialize (Hts _ H). cbn in *. lia.
  - set (ts := map timestamp (SWAP_ALLOCATIONS s)) in *.
    assert (Hok : ages_ok (SWAP_ALLOCATIONS s)).
    { split; [destruct (SWAP_ALLOCATIONS s); cbn in *; [lia | done] |]. split; [| lia].
      eapply Forall_impl; [exact Hts |]. cbn. intros. lia. }
    unfold bind. rewrite renormalize_ranks by done. cbn. fold ts.
    pose proof (distinct_length_le ts) as Hd. unfold ts in Hd at 2. rewrite length_map in Hd.
    assert (add32 (Z.of_nat (length (distinct ts)) - 1) 1 = Z.of_nat (length (distinct ts))) as ->.
    { unfold add32. rewrite u32_id by (unfold u32_MAX in *; lia). lia. }
    split; [done |]. exists (rank ts). cbn. split; [done |]. split; [lia |].
    destruct Hok as (_ & Hr & _). fold ts in Hr. split.
    + intros t [i Hi]%distinct_lookup_elem. fold ts in Hi. rewrite (rank_lookup ts _ _ Hi).
      apply lookup_lt_Some in Hi. lia.
    + intros t u [i Hi]%distinct_lookup_elem [j Hj]%distinct_lookup_elem Htu.
      rewrite (rank_lookup ts _ _ Hi), (rank_lookup ts _ _ Hj).
      apply (increasing_lookup _ _ _ _ _ (distinct_increasing ts) Hi Hj) in Htu. lia.
Qed.

(** Page [i] is now the youngest; the order of the others is kept. *)
Definition used (n i : nat) (s s' : SwapState) : Prop :=
  swap_ok n s' /\
  (forall j, (j < n)%nat -> j <> i -> younger s' j i) /\
  (forall j k, j <> i -> k <> i -> younger s j k -> younger s' j k).

Lemma touch_used n i s :
  swap_ok n s -> (i < n)%nat -> returns (touch i s) (fun s' _ => used n i s s').
Proof.
  intros Hok Hi. pose proof (next_epoch_new n s Hok ltac:(lia)) as Hnew. unfold touch, bind.
  destruct (next_epoch s) as [s1 e | | |]; try done. destruct Hnew as (-> & f & Hl & He & Hf & Hmono).
  destruct Hok as (Hlen & Hn & _ & Hts).
  assert (Hlook : forall j, SWAP_ALLOCATIONS s1 !! j
            = (fun a => set_timestamp (f (timestamp a)) a) <$> SWAP_ALLOCATIONS s !! j).
  { intros j. rewrite Hl. apply list_lookup_fmap. }
  assert (Hlen1 : length (SWAP_ALLOCATIONS s1) = n) by (by rewrite Hl; unfold stamp; rewrite length_map).
  assert (Hin : forall j a, SWAP_ALLOCATIONS s !! j = Some a -> timestamp a ∈ map timestamp (SWAP_ALLOCATIONS s)).
  { intros j a Ha%list_elem_of_lookup_2. apply list_elem_of_fmap. eauto. }
  destruct (lookup_lt_is_Some_2 (SWAP_ALLOCATIONS s) i) as [a Ha]; [lia |].
  unfold alter_alloc, bind, gets, unwrap. cbn. rewrite Hlook, Ha. cbn.
  assert (Hage : forall j, age_of (set_swap_allocations (<[i:=set_timestamp (epoch s1)
                   (set_timestamp (f (timestamp a)) a)]> (SWAP_ALLOCATIONS s1)) s1) j
                 = if decide (j = i) then Some (epoch s1) else f <$> age_of s j).
  { intros j. unfold age_of. cbn. destruct (decide (j = i)) as [-> | Hne].
    - by rewrite list_lookup_insert_eq by lia.
    - rewrite list_lookup_insert_ne, Hlook by done. by destruct (SWAP_ALLOCATIONS s !! j). }
  split; [| split].
  - repeat split; cbn; [by rewrite length_insert | done | lia | lia |].
    apply Forall_forall. intros t Ht. apply list_elem_of_lookup in Ht as [j Hj].
    change (map timestamp ?l) with (timestamp <$> l) in Hj. rewrite list_lookup_fmap in Hj.
    specialize (Hage j). unfold age_of in Hage. cbn in Hage. rewrite Hj in Hage.
    destruct (decide (j = i)); [injection Hage as ->; lia |].
    destruct (SWAP_ALLOCATIONS s !! j) as [b |] eqn:Hb; [| done]. injection Hage as ->.
    specialize (Hf _ (Hin _ _ Hb)). lia.
  - intros j Hj Hji. unfold younger. rewrite !Hage, decide_False, decide_True by done.
    unfold age_of. destruct (lookup_lt_is_Some_2 (SWAP_ALLOCATIONS s) j) as [b Hb]; [lia |].
    rewrite Hb. cbn. apply Hf, (Hin _ _ Hb).
  - intros j k Hj Hk. unfold younger. rewrite !Hage, !decide_False by done. unfold age_of.
    destruct (SWAP_ALLOCATIONS s !! j) eqn:Hb, (SWAP_ALLOCATIONS s !! k) eqn:Hc; cbn; try done. apply Hmono; eauto.
Qed.

(** Changes of the owner and of the flags keep the ages. *)
Definition same_ages (s s' : SwapState) : Prop :=
  epoch s' = epoch s /\ map timestamp (SWAP_ALLOCATIONS s') = map timestamp (SWAP_ALLOCATIONS s).

Lemma alter_alloc_ages i f s :
  (i < length (SWAP_ALLOCATIONS s))%nat -> (forall a, timestamp (f a) = timestamp a) ->
  returns (alter_alloc i f s) (fun s' _ => same_ages s s').
Proof.
  intros [a Ha]%lookup_lt_is_Some_2 Hf. unfold alter_alloc, bind, gets, unwrap. cbn. rewrite Ha. cbn.
  split; [done |]. cbn. change (timestamp <$> <[i:=f a]> (SWAP_ALLOCATIONS s) = timestamp <$> SWAP_ALLOCATIONS s).
  rewrite list_fmap_insert, Hf. apply list_insert_id. by rewrite list_lookup_fmap, Ha.
Qed.

Lemma younger_ages s s' j k : same_ages s s' -> younger s' j k <-> younger s j k.
Proof.
  intros [_ H]. unfold younger, age_of. rewrite <- !list_lookup_fmap.
  change (timestamp <$> SWAP_ALLOCATIONS s') with (map timestamp (SWAP_ALLOCATIONS s')). by rewrite H.
Qed.

Lemma swap_ok_ages n s s' : same_ages s s' -> swap_ok n s -> swap_ok n s'.
Proof.
  intros [He Hl] (Hlen & Hn & He' & Hts). unfold swap_ok. rewrite He, Hl. repeat split; try done; try lia.
  by rewrite <- (length_map timestamp), Hl, length_map.
Qed.

Lemma used_ages n i s s1 s2 : used n i s s1 -> same_ages s1 s2 -> used n i s s2.
Proof.
  intros (Hok & Hi & Hk) Hs. split; [by eapply swap_ok_ages |].
  split; intros; rewrite (younger_ages s1 s2); auto.
Qed.

Lemma returns_then {A B} (m : swop A) (k : A -> swop B) s (P : SwapState -> A -> Prop) (Q : SwapState -> B -> Prop) :
  returns (m s) P -> (forall s1 a, P s1 a -> returns (k a s1) Q) -> returns ((a <- m;; k a) s) Q.
Proof. unfold bind. destruct (m s) as [s1 a | | |]; try done. intros HP H. by apply H. Qed.

Lemma used_then_alter n i f s s1 :
  used n i s s1 -> (i < n)%nat -> (forall a, timestamp (f a) = timestamp a) ->
  returns (alter_alloc i f s1) (fun s' _ => used n i s s').
Proof.
  intros Hu Hi Hf. pose proof Hu as [(Hlen & _) _].
  pose proof (alter_alloc_ages i f s1 ltac:(lia) Hf) as H.
  destruct (alter_alloc i f s1) as [s2 [] | | |]; try done. by eapply used_ages.
Qed.

Lemma swap_step_used n e s :
  swap_ok n s -> (event_page e < n)%nat -> event_uses e = true ->
  returns (swap_step e s) (fun s' _ => used n (event_page e) s s').
Proof.
  intros Hok Hi Hu. destruct e as [i | i pid vaddr | i pid | i]; [by apply touch_used | | | done]; cbn in *.
  - eapply returns_then; [by apply touch_used |]. intros s1 [] H1.
    destruct pid as [pid |]; (eapply returns_then; [instantiate (1 := fun s2 _ => used n i s s2); cbn |]).
    1,3: eapply used_ages; [exact H1 | done].
    all: intros s2 [] H2; by apply used_then_alter.
  - eapply returns_then; [by apply touch_used |]. intros s1 [] H1. by apply used_then_alter.
Qed.

Lemma swap_step_wired n e s :
  swap_ok n s -> (event_page e < n)%nat -> event_uses e = false ->
  returns (swap_step e s) (fun s' _ => same_ages s s').
Proof. destruct e; try done. intros (Hlen & _) Hi _. apply alter_alloc_ages; [cbn in *; lia | done]. Qed.

Lemma last_use_le i es : (last_use i es <= length es)%nat.
Proof. induction es as [| e es IH]; cbn; [done |]. case_match; lia. Qed.

(** C18. The page ages implement least-recently-used order: from any consistent
    state, every sequence of uses of pages (touching, giving to an owner,
    releasing, moving to another process) and of wiring succeeds, however often
    the epoch counter is about to overflow and the table is renormalized, and
    afterwards a page whose last use is later has the greater timestamp; no
    timestamp is above the epoch and the epoch never reaches the sentinel. *)
Theorem lru_order n es s :
  swap_ok n s -> Forall (fun e => (event_page e < n)%nat) es ->
  returns (swap_run es s) (fun s' _ =>
    swap_ok n s' /\
    forall j k, (j < n)%nat -> (k < n)%nat -> (last_use j es < last_use k es)%nat -> younger s' j k).
Proof.
  intros Hok. induction es as [| e es IH]; intros Hes; [cbn; split; [done | lia] |].
  inversion_clear Hes as [| ? ? He Hes']. cbn [swap_run]. eapply returns_then; [by apply IH |].
  intros s1 [] [Hok1 Hord]. cbn [last_use]. destruct (event_uses e) eqn:Hu; cbn [andb].
  - pose proof (swap_step_used n e s1 Hok1 He Hu) as Hstep.
    destruct (swap_step e s1) as [s2 [] | | |]; try done. destruct Hstep as (Hok2 & Hyoung & Hkeep).
    split; [done |]. intros j k Hj Hk. pose proof (last_use_le k es).
    destruct (Nat.eqb_spec (event_page e) j) as [<- |]; cbn [length]; [case_match; lia |].
    destruct (Nat.eqb_spec (event_page e) k) as [<- |]; [intros _; by apply Hyoung |]. auto.
  - pose proof (swap_step_wired n e s1 Hok1 He Hu) as Hstep.
    destruct (swap_step e s1) as [s2 [] | | |]; try done. split; [by eapply swap_ok_ages |].
    intros j k Hj Hk Hlt. rewrite (younger_ages s1 s2) by done. auto.
Qed.

Definition example_events : list SwapEvent :=
  [Touch 7; SetWired 9; Update 150 (Some 4) (Some 8192); Reparent 7 3; Touch 9].

Lemma example_swap_ok : swap_ok 200 example_swap.
Proof.
  destruct example_ages_ok as (_ & H & _). split; [reflexivity |]. split; [unfold u32_MAX; lia |].
  split; [unfold example_swap, u32_MAX; cbn [epoch]; lia |].
  eapply Forall_impl; [exact H |]. unfold example_swap, u32_MAX. cbn [epoch]. lia.
Qed.

Lemma lru_order_witness :
  returns (swap_run example_events example_swap) (fun s' _ => younger s' 9 150 /\ younger s' 150 7).
Proof.
  assert (Hpages : Forall (fun e => (event_page e < 200)%nat) example_events)
    by (repeat constructor; apply Nat.ltb_lt; reflexivity).
  pose proof (lru_order 200 example_events example_swap example_swap_ok Hpages) as H.
  revert H. generalize (swap_run example_events example_swap). intros [s' u | | |] H; try exact H.
  destruct H as [_ H]. split; apply H; apply Nat.ltb_lt; reflexivity.
Defined.
