(* ===== verification/Machine.v ===== *)
(** * The state of the machine

    The data of src/kernel/src/arch/riscv/process.rs and
    src/kernel/src/services.rs that the riscv32 port of the kernel keeps for
    each process (thread contexts and the page they are on), the registers that
    select a process and its address space, and the access to memory.

    The kernel reaches the per-process page of the active process at a fixed
    virtual address; the page it finds there is the one of the process whose
    PID is the ASID field of the [satp] register.  The model keeps these pages
    in a map indexed by that PID, so that using the page of the wrong address
    space is visible.  An access in an address space without such a page, a
    page fault in the kernel, is a panic. *)

From Stdlib Require Import ZArith Lia Bool.
From stdpp Require Import base numbers list option gmap.
From S2P Require Import Prelude.
From S2P Require Import Abi.

#[local] Open Scope Z_scope.
#[local] Open Scope kernel_scope.

Definition MAX_THREAD : nat := 31.
Definition EXCEPTION_TID : Z := 1.
Definition INITIAL_TID : Z := 2.
Definition IRQ_TID : Z := 0.
Definition IRQ_TID_SENTINAL : Z := 255.
Definition MAX_PROCESS_COUNT : nat := 64.
Definition RETURN_FROM_ISR : Z := 4286586880.
Definition EXIT_THREAD : Z := 4286590976.
Definition PAGE_SIZE : Z := 4096.

(** ** Threads *)

Record Thread : Type := mk_Thread { registers : list Z; sepc : Z }.

Definition Thread_default : Thread := mk_Thread (replicate 31 0) 0.

Definition Thread_stack_pointer (t : Thread) : Z := nth 1 (registers t) 0.
Definition Thread_a0 (t : Thread) : Z := nth 9 (registers t) 0.
Definition Thread_a1 (t : Thread) : Z := nth 10 (registers t) 0.

Definition set_register (i : nat) (v : Z) (t : Thread) : Thread :=
  mk_Thread (<[i := v]> (registers t)) (sepc t).
Definition set_sepc (v : Z) (t : Thread) : Thread := mk_Thread (registers t) v.

(** Copy [vals] to the registers from [i] on, as far as there are registers. *)
Fixpoint set_registers (i : nat) (vals : list Z) (t : Thread) : Thread :=
  match vals with
  | [] => t
  | v :: vals => set_registers (S i) vals (set_register i v t)
  end.

(** [for val in &mut thread.registers { *val = 0 }; thread.sepc = 0]. *)
Definition clear_thread (t : Thread) : Thread :=
  mk_Thread (map (fun _ => 0) (registers t)) 0.

(** ** The per-process page *)

Record ProcessInner : Type := mk_ProcessInner {
  mem_default_base : Z;
  mem_default_last : Z;
  mem_message_base : Z;
  mem_message_last : Z;
  mem_heap_base : Z;
  mem_heap_size : Z;
  mem_heap_max : Z;
  connection_map : list (option Z);
  inner_pid : Z
}.

Definition DEFAULT_HEAP_BASE : Z := 536870912.
Definition DEFAULT_MESSAGE_BASE : Z := 1073741824.
Definition DEFAULT_BASE : Z := 1610612736.

Definition ProcessInner_default : ProcessInner :=
  mk_ProcessInner DEFAULT_BASE DEFAULT_BASE DEFAULT_MESSAGE_BASE DEFAULT_MESSAGE_BASE
    DEFAULT_HEAP_BASE 0 (1024 * 512) (replicate 32 None) 1.

Definition set_inner_pid (pid : Z) (p : ProcessInner) : ProcessInner :=
  mk_ProcessInner (mem_default_base p) (mem_default_last p) (mem_message_base p)
    (mem_message_last p) (mem_heap_base p) (mem_heap_size p) (mem_heap_max p)
    (connection_map p) pid.
Definition set_connection_map (c : list (option Z)) (p : ProcessInner) : ProcessInner :=
  mk_ProcessInner (mem_default_base p) (mem_default_last p) (mem_message_base p)
    (mem_message_last p) (mem_heap_base p) (mem_heap_size p) (mem_heap_max p)
    c (inner_pid p).

(** The first field of the source's structure, [scratch], is used by the trap
    handler's assembly only. *)
Record ProcessImpl : Type := mk_ProcessImpl {
  hardware_thread : Z;
  inner : ProcessInner;
  last_tid_allocated : Z;
  threads : list Thread
}.

Definition set_hardware_thread (t : Z) (p : ProcessImpl) : ProcessImpl :=
  mk_ProcessImpl t (inner p) (last_tid_allocated p) (threads p).
Definition set_inner (i : ProcessInner) (p : ProcessImpl) : ProcessImpl :=
  mk_ProcessImpl (hardware_thread p) i (last_tid_allocated p) (threads p).
Definition set_last_tid (t : Z) (p : ProcessImpl) : ProcessImpl :=
  mk_ProcessImpl (hardware_thread p) (inner p) t (threads p).
Definition set_threads (l : list Thread) (p : ProcessImpl) : ProcessImpl :=
  mk_ProcessImpl (hardware_thread p) (inner p) (last_tid_allocated p) l.

(** ** Memory

    The physical memory and the table of its owners are a parameter.  Its
    operations are the accesses of the kernel to a word of virtual memory, in
    the address space that the first argument, a value of [satp], selects (a
    page fault is a panic), and the operations of [MemoryManager] on the tables
    [MEMORY_ALLOCATIONS] and [EXTRA_ALLOCATIONS], which only it can access. *)

Inductive ClaimReleaseMove : Type := CRM_Claim | CRM_Release | CRM_Move (existing_pid : Z).

Class MemOps (M : Type) : Type := {
  mm_read : Z -> Z -> M -> outcome Error M Z;
  mm_write : Z -> Z -> Z -> M -> outcome Error M unit;
  (** [alloc_page(pid)]: the physical address *)
  mm_alloc_page : Z -> M -> outcome Error M Z;
  (** [claim_release_move(addr, pid, action)] *)
  mm_claim_release_move : Z -> Z -> ClaimReleaseMove -> M -> outcome Error M unit;
  (** [is_main_memory(phys)] *)
  mm_is_main_memory : Z -> M -> bool;
  (** the search of [map_range] for contiguous free pages *)
  mm_find_device_ram : Z -> M -> option Z;
  (** [release_all_memory_for_process(pid)] *)
  mm_release_all : Z -> Z -> M -> outcome Error M unit
}.

(** ** The machine *)

Record Machine (M : Type) : Type := mk_Machine {
  satp : Z;
  pt_current : Z;
  pt_table : list bool;
  impls : gmap Z ProcessImpl;
  supervisor : bool;
  memory : M
}.
Arguments mk_Machine {M}.
Arguments satp {M}.
Arguments pt_current {M}.
Arguments pt_table {M}.
Arguments impls {M}.
Arguments supervisor {M}.
Arguments memory {M}.

(** The ASID field of a [satp] value. *)
Definition satp_asid (s : Z) : Z := Z.land (shr32 s 22) 511.

(** [fixup_irq] *)
Definition fixup_irq (tid : Z) : Z := if tid =? IRQ_TID_SENTINAL then 0 else tid.

Section Machine.
Context {M : Type}.

#[local] Notation "'op' A" := (Machine M -> outcome Error (Machine M) A) (at level 10, A at level 9).

Definition set_satp (s : Z) (m : Machine M) : Machine M :=
  mk_Machine s (pt_current m) (pt_table m) (impls m) (supervisor m) (memory m).
Definition set_pt_current (p : Z) (m : Machine M) : Machine M :=
  mk_Machine (satp m) p (pt_table m) (impls m) (supervisor m) (memory m).
Definition set_pt_table (t : list bool) (m : Machine M) : Machine M :=
  mk_Machine (satp m) (pt_current m) t (impls m) (supervisor m) (memory m).
Definition set_impls (i : gmap Z ProcessImpl) (m : Machine M) : Machine M :=
  mk_Machine (satp m) (pt_current m) (pt_table m) i (supervisor m) (memory m).
Definition set_spp (b : bool) (m : Machine M) : Machine M :=
  mk_Machine (satp m) (pt_current m) (pt_table m) (impls m) b (memory m).
Definition set_memory (x : M) (m : Machine M) : Machine M :=
  mk_Machine (satp m) (pt_current m) (pt_table m) (impls m) (supervisor m) x.

(** Run an operation of the memory manager. *)
Definition with_memory {A} (f : M -> outcome Error M A) : op A :=
  zoom memory set_memory f.

(** The PID whose address space is active. *)
Definition hardware_pid (m : Machine M) : Z := satp_asid (satp m).

(** [unsafe { &mut *PROCESS }], read and written back. *)
Definition get_impl : op ProcessImpl :=
  fun m => unwrap (impls m !! hardware_pid m) m.
Definition put_impl (p : ProcessImpl) : op unit :=
  modify (fun m => set_impls (<[hardware_pid m := p]> (impls m)) m).

(** [arch::current_pid], from the hardware. *)
Definition arch_current_pid : op Z :=
  fun m => unwrap (PID_new (u8 (hardware_pid m))) m.

(** [arch::process::current_pid], [current_tid] and [set_current_pid]. *)
Definition current_pid : op Z := gets pt_current.

Definition current_tid : op Z :=
  p <- get_impl;; ret (sub32 (hardware_thread p) 1).

Definition set_current_pid (pid : Z) : op unit :=
  fun m =>
    match pt_table m !! Z.to_nat (pid - 1) with
    | None | Some false => RPanic
    | Some true => ROk (set_pt_current pid m) tt
    end.

(** [MemoryMapping::activate] and [get_pid]. *)
Definition MemoryMapping_activate (mapping : Z) : op unit := modify (set_satp mapping).
Definition MemoryMapping_get_pid (mapping : Z) : option Z := PID_new (u8 (satp_asid mapping)).
Definition MemoryMapping_is_kernel (mapping : Z) : bool :=
  match MemoryMapping_get_pid mapping with Some v => v =? 1 | None => false end.

Definition with_inner {A} (f : ProcessInner -> A) : op A :=
  p <- get_impl;; ret (f (inner p)).

Definition with_inner_mut (f : ProcessInner -> ProcessInner) : op unit :=
  p <- get_impl;; put_impl (set_inner (f (inner p)) p).
End Machine.
