(* ===== verification/Paging.v ===== *)
(** * Page tables

    Models src/kernel/src/arch/riscv/mem.rs: the page tables of Sv32, which the
    kernel reaches through two windows of virtual memory.  The root table is
    mapped at [PAGE_TABLE_ROOT_OFFSET], and the leaf table for the 4 MiB number
    [n] at [PAGE_TABLE_OFFSET + n * 4096].  Each operation works in the active
    address space; the ones that move a page switch to the other one and back.

    The build is the one without swap.  [flush_mmu] has no counterpart, since
    the model has no translation cache. *)

From Stdlib Require Import ZArith Lia Bool.
From stdpp Require Import base numbers list option gmap.
From S2P Require Import Prelude.
From S2P Require Import Abi.
From S2P Require Import Machine.

#[local] Open Scope Z_scope.
#[local] Open Scope kernel_scope.

Definition PAGE_TABLE_OFFSET : Z := 4282384384.
Definition PAGE_TABLE_ROOT_OFFSET : Z := 4286578688.
Definition THREAD_CONTEXT_AREA : Z := 4286582784.
Definition USER_AREA_END : Z := 4278190080.
Definition MMAP_VIRT_BASE : Z := 2952790016.

(** ** Flags *)

(** [MMUFlags] *)
Definition MMU_NONE : Z := 0.
Definition MMU_VALID : Z := 1.
Definition MMU_R : Z := 2.
Definition MMU_W : Z := 4.
Definition MMU_X : Z := 8.
Definition MMU_USER : Z := 16.
Definition MMU_A : Z := 64.
Definition MMU_D : Z := 128.
Definition MMU_S : Z := 256.
Definition MMU_P : Z := 512.

(** [x & flag != 0] *)
Definition has_flag (x flag : Z) : bool := negb (Z.land x flag =? 0).

(** [if cond { flags |= f }] *)
Definition flag_if (cond : bool) (f : Z) : Z := if cond then f else 0.

Definition translate_flags (req_flags : MemoryFlags) : Z :=
  Z.lor (Z.lor (Z.lor (flag_if (flags_has req_flags FLAG_R) MMU_R)
                      (flag_if (flags_has req_flags FLAG_W) MMU_W))
               (flag_if (flags_has req_flags FLAG_X) MMU_X))
        (flag_if (flags_has req_flags FLAG_P) MMU_P).

(** [MMUFlags::from_bits_truncate] keeps the ten flag bits. *)
Definition untranslate_flags (req_flags : Z) : MemoryFlags :=
  let req_flags := Z.land req_flags 1023 in
  mk_MemoryFlags
    (Z.lor (Z.lor (Z.lor (flag_if (has_flag req_flags MMU_R) (flag_bits FLAG_R))
                         (flag_if (has_flag req_flags MMU_W) (flag_bits FLAG_W)))
                  (flag_if (has_flag req_flags MMU_X) (flag_bits FLAG_X)))
           (flag_if (has_flag req_flags MMU_P) (flag_bits FLAG_P))).

(** ** Addresses *)

Definition vpn1 (virt : Z) : Z := Z.land (shr32 virt 22) 1023.
Definition vpn0 (virt : Z) : Z := Z.land (shr32 virt 12) 1023.

(** The virtual addresses of an entry of the root table and of a leaf table. *)
Definition l1_entry (v1 : Z) : Z := PAGE_TABLE_ROOT_OFFSET + v1 * 4.
Definition l0_table (v1 : Z) : Z := PAGE_TABLE_OFFSET + v1 * PAGE_SIZE.
Definition l0_entry (v1 v0 : Z) : Z := l0_table v1 + v0 * 4.

(** [(entry >> 10) << 12] *)
Definition entry_phys (entry : Z) : Z := shl32 (shr32 entry 10) 12.

(** [((phys >> 12) << 10) | flags] *)
Definition make_entry (phys flags : Z) : Z := Z.lor (shl32 (shr32 phys 12) 10) flags.

(** [(ppn1 << 20) | (ppn0 << 10) | flags] *)
Definition make_leaf (phys flags : Z) : Z :=
  Z.lor (Z.lor (shl32 (Z.land (shr32 phys 22) 4095) 20) (shl32 (Z.land (shr32 phys 12) 1023) 10))
        flags.

Section Paging.
Context {M : Type} {HM : MemOps M}.

#[local] Notation "'op' A" := (Machine M -> outcome Error (Machine M) A) (at level 10, A at level 9).

(** A word of memory in the active address space. *)
Definition rd (addr : Z) : op Z := s <- gets satp;; with_memory (mm_read s addr).
Definition wr (addr v : Z) : op unit := s <- gets satp;; with_memory (mm_write s addr v).

(** [zeropage], and [bzero] on whole words. *)
Definition bzero (start end_ : Z) : op unit := for_each (step_by start end_ 4) (fun a => wr a 0).
Definition zeropage (page : Z) : op unit := bzero page (page + PAGE_SIZE).

Definition hand_page_to_user (virt : Z) : op unit :=
  l1 <- rd (l1_entry (vpn1 virt));;
  if negb (has_flag l1 MMU_VALID) then fail BadAddress
  else
    e <- rd (l0_entry (vpn1 virt) (vpn0 virt));;
    if Z.land e 1 =? 0 then fail BadAddress
    else wr (l0_entry (vpn1 virt) (vpn0 virt)) (Z.lor e MMU_USER).

(** [map_page_inner].  A missing leaf table is mapped into the window by a
    recursive call; the leaf table of the window itself can be missing then, so
    there are at most three nested calls. *)
Fixpoint map_page_inner (fuel : nat) (pid phys virt : Z) (req_flags : MemoryFlags) (map_user : bool)
    : op unit :=
  match fuel with
  | O => fun _ => RStuck
  | S fuel =>
      let flags := Z.lor (translate_flags req_flags) (flag_if map_user MMU_USER) in
      assert_ (Z.land virt 4095 =? 0) ;;;
      let l0_pt := l0_table (vpn1 virt) in
      l1 <- rd (l1_entry (vpn1 virt));;
      (if negb (has_flag l1 MMU_VALID) then
         (l0_pt_phys <- with_memory (mm_alloc_page pid);;
          wr (l1_entry (vpn1 virt)) (make_entry l0_pt_phys MMU_VALID) ;;;
          map_page_inner fuel pid l0_pt_phys l0_pt (flags_or FLAG_W FLAG_R) false ;;;
          zeropage l0_pt)
       else ret tt) ;;;
      e <- rd (l0_entry (vpn1 virt) (vpn0 virt));;
      if negb (Z.land e 1 =? 0) then fail MemoryInUse
      else wr (l0_entry (vpn1 virt) (vpn0 virt))
             (make_leaf phys (Z.lor (Z.lor (Z.lor flags MMU_VALID) MMU_D) MMU_A))
  end.

Definition map_page (pid phys virt : Z) (req_flags : MemoryFlags) (map_user : bool) : op unit :=
  map_page_inner 3 pid phys virt req_flags map_user.

(** [pagetable_entry]: the virtual address of the entry for [addr]. *)
Definition pagetable_entry (addr : Z) : op Z :=
  if negb (Z.land addr 3 =? 0) then fail BadAlignment
  else
    l1_pte <- rd (l1_entry (vpn1 addr));;
    if negb (has_flag l1_pte MMU_VALID) then fail BadAddress
    else ret (l0_entry (vpn1 addr) (vpn0 addr)).

Definition unmap_page_inner (virt : Z) : op Z :=
  entry <- pagetable_entry virt;;
  e <- rd entry;;
  wr entry 0 ;;;
  ret (entry_phys e).

Definition move_page_inner (src_space src_addr dest_pid dest_space dest_addr : Z) : op unit :=
  entry <- pagetable_entry src_addr;;
  previous_entry <- rd entry;;
  if negb (has_flag previous_entry MMU_VALID) then fail BadAddress
  else
    wr entry 0 ;;;
    MemoryMapping_activate dest_space ;;;
    result <- attempt (map_page dest_pid (entry_phys previous_entry) dest_addr
                         (untranslate_flags previous_entry) (negb (dest_pid =? 1)));;
    MemoryMapping_activate src_space ;;;
    match result with inl e => fail e | inr _ => ret tt end.

(** [page_is_lent] *)
Definition page_is_lent (src_addr : Z) : op bool :=
  r <- ok (pagetable_entry src_addr);;
  match r with
  | None => ret false
  | Some entry => e <- rd entry;; ret (has_flag e MMU_S)
  end.

Definition lend_page_inner (src_space src_addr dest_pid dest_space dest_addr : Z) (mutable : bool)
    : op Z :=
  entry <- pagetable_entry src_addr;;
  current_entry <- rd entry;;
  let phys := entry_phys current_entry in
  if negb (has_flag current_entry MMU_VALID) then fail ShareViolation
  else if has_flag current_entry MMU_S then fail ShareViolation
  else
    let new_entry := Z.lor (Z.land current_entry (not32 MMU_VALID)) MMU_S in
    wr entry new_entry ;;;
    let new_flags := if mutable && has_flag new_entry MMU_W then flags_or FLAG_R FLAG_W
                     else FLAG_R in
    MemoryMapping_activate dest_space ;;;
    result <- attempt (map_page dest_pid phys dest_addr new_flags (negb (dest_pid =? 1)));;
    MemoryMapping_activate src_space ;;;
    match result with inl e => fail e | inr _ => ret phys end.

Definition return_page_inner (src_space src_addr dest_pid dest_space dest_addr : Z) : op Z :=
  src_entry <- pagetable_entry src_addr;;
  src_entry_value <- rd src_entry;;
  let phys := entry_phys src_entry_value in
  if negb (has_flag src_entry_value MMU_VALID) then fail ShareViolation
  else
    wr src_entry 0 ;;;
    MemoryMapping_activate dest_space ;;;
    dest_entry <- unwrap_result (pagetable_entry dest_addr);;
    dest_entry_value <- rd dest_entry;;
    assert_ (has_flag dest_entry_value MMU_S) ;;;
    wr dest_entry
      (Z.lor (Z.land dest_entry_value (not32 (Z.lor MMU_S MMU_P))) MMU_VALID) ;;;
    MemoryMapping_activate src_space ;;;
    ret phys.

Definition virt_to_phys (virt : Z) : op Z :=
  l1 <- rd (l1_entry (vpn1 virt));;
  if negb (has_flag l1 MMU_VALID) then fail BadAddress
  else
    e <- rd (l0_entry (vpn1 virt) (vpn0 virt));;
    if has_flag e MMU_S then fail ShareViolation
    else if negb (has_flag e MMU_VALID) then
      (if negb (e =? 0) then fail MemoryInUse else fail BadAddress)
    else ret (entry_phys e).

(** [address_available] *)
Definition address_available (virt : Z) : op bool :=
  r <- attempt (virt_to_phys virt);;
  ret (match r with inl e => bool_decide (e = BadAddress) | inr _ => false end).

Definition ensure_page_exists_inner (address : Z) : op Z :=
  s <- gets satp;;
  if negb (MemoryMapping_is_kernel s) && (USER_AREA_END <=? address) then fail OutOfMemory
  else
    let virt := Z.land address (not32 4095) in
    entry <- map_err (fun _ => BadAddress) (pagetable_entry virt);;
    current_entry <- rd entry;;
    let flags := Z.land current_entry 1023 in
    if has_flag flags MMU_VALID then ret address
    else if (flags =? 0) || has_flag flags MMU_S then fail BadAddress
    else
      pid <- current_pid;;
      new_page <- unwrap_result (with_memory (mm_alloc_page pid));;
      let flags' := Z.lor (Z.lor (Z.lor flags MMU_VALID) MMU_D) MMU_A in
      wr entry (make_leaf new_page flags') ;;;
      zeropage virt ;;;
      wr entry (make_leaf new_page (Z.lor flags' MMU_USER)) ;;;
      ret new_page.

(** [page_flags] *)
Definition page_flags (virt : Z) : op (option MemoryFlags) :=
  l1 <- rd (l1_entry (vpn1 virt));;
  if negb (has_flag l1 MMU_VALID) then ret None
  else
    mmu_flags <- rd (l0_entry (vpn1 virt) (vpn0 virt));;
    if has_flag mmu_flags MMU_S then ret None
    else
      let return_flags :=
        flags_or (flags_or (if has_flag mmu_flags MMU_R then FLAG_R else FLAG_FREE)
                           (if has_flag mmu_flags MMU_W then FLAG_W else FLAG_FREE))
                 (if has_flag mmu_flags MMU_X then FLAG_X else FLAG_FREE) in
      ret (if MemoryFlags_is_empty return_flags then None else Some return_flags).

(** Strip one flag as requested; [None] is the error when it would be added. *)
Definition strip_flag (flags f : MemoryFlags) (mmu_flag mmu_flags : Z) : option Z :=
  if MemoryFlags_is_empty (flags_and flags f) then
    Some (if has_flag mmu_flags mmu_flag then Z.land mmu_flags (not32 mmu_flag) else mmu_flags)
  else if has_flag mmu_flags mmu_flag then Some mmu_flags else None.

Definition update_page_flags (virt : Z) (flags : MemoryFlags) : op unit :=
  if MemoryFlags_is_empty (flags_and flags (flags_or (flags_or FLAG_R FLAG_W) FLAG_X))
  then fail MemoryInUse
  else
    l1 <- rd (l1_entry (vpn1 virt));;
    if negb (has_flag l1 MMU_VALID) then fail OutOfMemory
    else
      mmu_flags <- rd (l0_entry (vpn1 virt) (vpn0 virt));;
      if has_flag mmu_flags MMU_S then fail ShareViolation
      else
        mmu_flags <- ok_or (strip_flag flags FLAG_X MMU_X mmu_flags) ShareViolation;;
        mmu_flags <- ok_or (strip_flag flags FLAG_R MMU_R mmu_flags) ShareViolation;;
        mmu_flags <- ok_or (strip_flag flags FLAG_W MMU_W mmu_flags) ShareViolation;;
        wr (l0_entry (vpn1 virt) (vpn0 virt)) mmu_flags.

(** [MemoryMapping::reserve_address] *)
Definition reserve_address (addr : Z) (flags : MemoryFlags) : op unit :=
  let l0pt_virt := l0_table (vpn1 addr) in
  l1 <- rd (l1_entry (vpn1 addr));;
  (if negb (has_flag l1 MMU_VALID) then
     (pid <- arch_current_pid;;
      l0pt_phys <- with_memory (mm_alloc_page pid);;
      wr (l1_entry (vpn1 addr)) (make_entry l0pt_phys MMU_VALID) ;;;
      map_page pid l0pt_phys l0pt_virt (flags_or FLAG_W FLAG_R) false ;;;
      zeropage l0pt_virt)
   else ret tt) ;;;
  current_mapping <- rd (l0_entry (vpn1 addr) (vpn0 addr));;
  if Z.land current_mapping 1 =? 1 then ret tt
  else wr (l0_entry (vpn1 addr) (vpn0 addr)) (translate_flags flags).
End Paging.
