(* ===== verification/MemoryManager.v ===== *)
(** * The memory manager

    Models the operations of [MemoryManager] in src/kernel/src/mem.rs that work
    on the address space of a process: the search for an address, reserving,
    mapping and unmapping ranges, moving and lending pages, and changing flags.
    [MemoryMapping::allocate] of src/kernel/src/arch/riscv/mem.rs, which makes a
    new address space, is at the end.  The build is the baremetal one without
    swap. *)

From Stdlib Require Import ZArith Lia Bool.
From stdpp Require Import base numbers list option gmap.
From S2P Require Import Prelude.
From S2P Require Import Abi.
From S2P Require Import Machine.
From S2P Require Import Paging.

#[local] Open Scope Z_scope.
#[local] Open Scope kernel_scope.

Definition set_default_last (v : Z) (p : ProcessInner) : ProcessInner :=
  mk_ProcessInner (mem_default_base p) v (mem_message_base p) (mem_message_last p)
    (mem_heap_base p) (mem_heap_size p) (mem_heap_max p) (connection_map p) (inner_pid p).
Definition set_message_last (v : Z) (p : ProcessInner) : ProcessInner :=
  mk_ProcessInner (mem_default_base p) (mem_default_last p) (mem_message_base p) v
    (mem_heap_base p) (mem_heap_size p) (mem_heap_max p) (connection_map p) (inner_pid p).

Definition page_aligned (x : Z) : bool := Z.land x 4095 =? 0.

Section MemoryManager.
Context {M : Type} {HM : MemOps M}.

#[local] Notation "'op' A" := (Machine M -> outcome Error (Machine M) A) (at level 10, A at level 9).

(** [claim_page] and [release_page] *)
Definition claim_page (addr pid : Z) : op unit :=
  with_memory (mm_claim_release_move addr pid CRM_Claim).
Definition release_page (addr pid : Z) : op unit :=
  with_memory (mm_claim_release_move addr pid CRM_Release).

(** ** Finding an address *)

(** The inner loop: whether all the given pages are unused. *)
Fixpoint all_free (pages : list Z) : op bool :=
  match pages with
  | [] => ret true
  | check_page :: pages =>
      available <- address_available check_page;;
      if (available : bool) then all_free pages else ret false
  end.

(** The outer loops: the first start whose [size] bytes are unused. *)
Fixpoint search_range (size : Z) (starts : list Z) : op (option Z) :=
  match starts with
  | [] => ret None
  | potential_start :: starts =>
      free <- all_free (step_by potential_start (add32 potential_start size) PAGE_SIZE);;
      if (free : bool) then ret (Some potential_start) else search_range size starts
  end.

Definition find_virtual_address (virt_ptr size : Z) (kind : MemoryType) : op Z :=
  if negb (virt_ptr =? 0) then ret virt_ptr
  else
    p <- get_impl;;
    let i := inner p in
    let search (start end_ initial : Z) (set_last : Z -> ProcessInner -> ProcessInner) : op Z :=
      found <- search_range size (step_by initial (sub32 end_ size) PAGE_SIZE);;
      found <- (match found with
                | Some v => ret (Some v)
                | None => search_range size (step_by start initial PAGE_SIZE)
                end);;
      match found with
      | Some v => put_impl (set_inner (set_last v i) p) ;;; ret v
      | None => fail BadAddress
      end in
    match kind with
    | MT_Stack => fail BadAddress
    | MT_Heap =>
        let new_virt := add32 (add32 (mem_heap_base i) (mem_heap_size i)) PAGE_SIZE in
        if add32 (mem_heap_base i) (mem_heap_max i) <? add32 new_virt size then fail OutOfMemory
        else ret new_virt
    | MT_Default =>
        search (mem_default_base i) (add32 (mem_default_base i) 268435456) (mem_default_last i)
          set_default_last
    | MT_Messages =>
        search (mem_message_base i) (add32 (mem_message_base i) 4194304) (mem_message_last i)
          set_message_last
    end.

(** ** Reserving and mapping *)

(** The range returned begins at the address that was asked for, which is null
    when the manager chose one. *)
Definition reserve_range (virt_ptr size : Z) (flags : MemoryFlags) : op MemoryRange :=
  virt <- find_virtual_address virt_ptr size MT_Default;;
  if negb (page_aligned virt) then fail BadAlignment
  else if negb (page_aligned size) then fail BadAlignment
  else
    for_each (step_by virt (add32 virt size) PAGE_SIZE) (fun virt => reserve_address virt flags) ;;;
    lift_result (MemoryRange_new virt_ptr size).

Definition map_zeroed_page (pid : Z) (is_user : bool) : op Z :=
  virt <- find_virtual_address 0 PAGE_SIZE MT_Default;;
  phys <- with_memory (mm_alloc_page pid);;
  mapped <- attempt (map_page pid phys virt (flags_or FLAG_R FLAG_W) false);;
  match mapped with
  | inl e => ok (release_page phys pid) ;;; fail e
  | inr _ =>
      bzero virt (add32 virt PAGE_SIZE) ;;;
      (if is_user then hand_page_to_user virt else ret tt) ;;;
      ret virt
  end.

(** Step 1 of [map_range]: claim the pages; if one is not to be had, release
    those before it. *)
Fixpoint claim_pages (phys pid : Z) (pages : list Z) : op unit :=
  match pages with
  | [] => ret tt
  | claim_phys :: pages =>
      claimed <- attempt (claim_page claim_phys pid);;
      match claimed with
      | inl err =>
          for_each (step_by phys claim_phys PAGE_SIZE)
            (fun rel_phys => ok (release_page rel_phys pid) ;;; ret tt) ;;;
          fail err
      | inr _ => claim_pages phys pid pages
      end
  end.

(** The second loop: map the pages; if one cannot be mapped, unmap and release
    those before it. *)
Fixpoint map_pages (phys virt pid : Z) (flags : MemoryFlags) (offsets : list Z) : op unit :=
  match offsets with
  | [] => ret tt
  | offset :: offsets =>
      mapped <- attempt (map_page pid (add32 offset phys) (add32 offset virt) flags false);;
      match mapped with
      | inl e =>
          for_each (step_by 0 offset PAGE_SIZE) (fun unmap_offset =>
            ok (unmap_page_inner (add32 unmap_offset virt)) ;;;
            ok (release_page (add32 unmap_offset phys) pid) ;;; ret tt) ;;;
          fail e
      | inr _ => map_pages phys virt pid flags offsets
      end
  end.

(** A range of addresses that the swapper resolves. *)
Definition map_virtual (virt_ptr size : Z) : op MemoryRange :=
  let start := Z.land virt_ptr (not32 4095) in
  let end_ := Z.land (sub32 (add32 (add32 virt_ptr size) PAGE_SIZE) 1) (not32 4095) in
  for_each (step_by start end_ PAGE_SIZE) (fun virt =>
    reserve_address virt (flags_or FLAG_R FLAG_P) ;;;
    pte <- pagetable_entry virt;;
    e <- rd pte;;
    wr pte (Z.lor e MMU_USER)) ;;;
  lift_result (MemoryRange_new start (sub32 end_ start)).

Definition map_range (phys_ptr virt_ptr size pid : Z) (flags : MemoryFlags) (kind : MemoryType)
    : op MemoryRange :=
  virt <- find_virtual_address virt_ptr size kind;;
  let device_ram := flags_has flags FLAG_DEV && (phys_ptr =? 0) in
  if (phys_ptr =? 0) && flags_has flags FLAG_VIRT
     && (Z.land virt_ptr MMAP_VIRT_BASE =? MMAP_VIRT_BASE)
  then map_virtual virt_ptr size
  else if (phys_ptr =? 0) && negb device_ram then reserve_range virt size flags
  else
    phys <- (if device_ram
             then (found <- gets (fun m => mm_find_device_ram (size / PAGE_SIZE) (memory m));;
                   ok_or found OutOfMemory)
             else ret phys_ptr);;
    claim_pages phys pid (step_by phys (add32 phys size) PAGE_SIZE) ;;;
    map_pages phys virt pid flags (step_by 0 size PAGE_SIZE) ;;;
    (if device_ram then
       (bzero virt (add32 virt size) ;;;
        for_each (step_by 0 size PAGE_SIZE) (fun offset =>
          unwrap_result (hand_page_to_user (add32 virt offset))))
     else ret tt) ;;;
    lift_result (MemoryRange_new virt size).

Definition unmap_page (virt : Z) : op Z :=
  pid <- current_pid;;
  phys <- ok (virt_to_phys virt);;
  (match phys with
   | Some phys => ok (release_page phys pid) ;;; ret tt
   | None => ret tt
   end) ;;;
  unmap_page_inner virt.

(** ** Moving and lending *)

Definition move_page (src_pid src_mapping src_addr dest_pid dest_mapping dest_addr : Z) : op unit :=
  phys_addr <- virt_to_phys src_addr;;
  move_page_inner src_mapping src_addr dest_pid dest_mapping dest_addr ;;;
  with_memory (mm_claim_release_move phys_addr dest_pid (CRM_Move src_pid)).

Definition move_page_raw (phys_addr dest_pid : Z) : op unit :=
  pid <- current_pid;;
  with_memory (mm_claim_release_move phys_addr dest_pid (CRM_Move pid)).

Definition lend_page (src_mapping src_addr dest_pid dest_mapping dest_addr : Z) (mutable : bool)
    : op Z :=
  lend_page_inner src_mapping src_addr dest_pid dest_mapping dest_addr mutable.

Definition unlend_page (src_mapping src_addr dest_pid dest_mapping dest_addr : Z) : op Z :=
  return_page_inner src_mapping src_addr dest_pid dest_mapping dest_addr.

Definition ensure_page_exists (address : Z) : op unit :=
  ensure_page_exists_inner address ;;; ret tt.

(** [release_all_memory_for_process] *)
Definition release_all_memory_for_process (pid : Z) : op unit :=
  s <- gets satp;; with_memory (mm_release_all s pid).

(** ** Flags *)

(** The check that a page has all of the flags. *)
Definition check_flags (flags : MemoryFlags) (virt : Z) : op unit :=
  existing <- page_flags virt;;
  existing_flags <- ok_or existing MemoryInUse;;
  if negb (MemoryFlags_is_empty (flags_and (flags_not existing_flags) flags)) then fail MemoryInUse
  else ret tt.

Definition update_memory_flags (range : MemoryRange) (flags : MemoryFlags) : op unit :=
  let virt := MemoryRange_as_ptr range in
  let size := MemoryRange_len range in
  if negb (page_aligned virt) then fail BadAlignment
  else if negb (page_aligned size) then fail BadAlignment
  else
    for_each (step_by virt (add32 virt size) PAGE_SIZE) (check_flags flags) ;;;
    for_each (step_by virt (add32 virt size) PAGE_SIZE) (fun virt =>
      check_flags flags virt ;;; update_page_flags virt flags).

(** ** A new address space *)

(** The page of a new address space is zeroed. *)
Definition zero_impl : ProcessImpl :=
  mk_ProcessImpl 0 (mk_ProcessInner 0 0 0 0 0 0 0 (replicate 32 None) 0) 0
    (replicate MAX_THREAD Thread_default).

(** The flags of the pages of a new address space. *)
Definition space_flags : Z :=
  Z.lor (Z.lor (Z.lor (Z.lor MMU_VALID MMU_R) MMU_W) MMU_D) MMU_A.

(** [MemoryMapping::allocate] on the mapping [old]: the new mapping.  The page at
    [THREAD_CONTEXT_AREA] becomes the page of the process. *)
Definition MemoryMapping_allocate (old pid : Z) : op Z :=
  if negb (old =? 0) then fail MemoryInUse
  else
    cur <- current_pid;;
    root_temp_virt <- map_zeroed_page cur false;;
    root_phys <- unwrap_result (virt_to_phys root_temp_virt);;
    pages_l0_temp_virt <- map_zeroed_page cur false;;
    pages_l0_phys <- virt_to_phys pages_l0_temp_virt;;
    process_l0_temp_virt <- map_zeroed_page cur false;;
    process_l0_phys <- virt_to_phys process_l0_temp_virt;;
    context_temp_virt <- map_zeroed_page cur false;;
    context_phys <- virt_to_phys context_temp_virt;;
    krn_pg1023_ptr <- rd (l1_entry 1023);;
    wr (root_temp_virt + 1023 * 4) krn_pg1023_ptr ;;;
    wr (root_temp_virt + shr32 PAGE_TABLE_ROOT_OFFSET 22 * 4) (make_entry process_l0_phys MMU_VALID) ;;;
    wr (root_temp_virt + shr32 PAGE_TABLE_OFFSET 22 * 4) (make_entry pages_l0_phys MMU_VALID) ;;;
    wr (process_l0_temp_virt + vpn0 PAGE_TABLE_ROOT_OFFSET * 4) (make_entry root_phys space_flags) ;;;
    wr (process_l0_temp_virt + vpn0 THREAD_CONTEXT_AREA * 4) (make_entry context_phys space_flags) ;;;
    wr (pages_l0_temp_virt + vpn0 (l0_table 1022) * 4) (make_entry process_l0_phys space_flags) ;;;
    wr (pages_l0_temp_virt + vpn0 (l0_table 1021) * 4) (make_entry pages_l0_phys space_flags) ;;;
    move_page_raw root_phys pid ;;;
    move_page_raw pages_l0_phys pid ;;;
    move_page_raw process_l0_phys pid ;;;
    move_page_raw context_phys pid ;;;
    unmap_page_inner root_temp_virt ;;;
    unmap_page_inner pages_l0_temp_virt ;;;
    unmap_page_inner process_l0_temp_virt ;;;
    unmap_page_inner context_temp_virt ;;;
    let new := Z.lor (Z.lor 2147483648 (shl32 pid 22)) (shr32 root_phys 12) in
    modify (fun m => set_impls (<[satp_asid new := zero_impl]> (impls m)) m) ;;;
    ret new.
End MemoryManager.
