(* ===== verification/MemoryFacts.v ===== *)
(** * What the operations on memory leave alone

    Operations on memory change the memory, the place where the next search for
    an address starts, and, for the ones that visit another address space, the
    active address space; they end.  The laws of the class [MemLaws] are what
    this needs of the memory. *)

From Stdlib Require Import ZArith Lia Bool.
From stdpp Require Import base numbers list option gmap.
From S2P Require Import Prelude.
From S2P Require Import Abi.
From S2P Require Import Machine.
From S2P Require Import Paging.
From S2P Require Import MemoryManager.

#[local] Open Scope Z_scope.
#[local] Open Scope kernel_scope.

(** A read returns a word and changes nothing, or faults; a word that was
    written to the entry 1021 of the root table is read back. *)
Class MemLaws (M : Type) {HM : MemOps M} : Prop := {
  read_spec s a x : mm_read s a x = RPanic \/ exists v, mm_read s a x = ROk x v;
  write_spec s a v x : mm_write s a v x = RPanic \/ exists x', mm_write s a v x = ROk x' tt;
  write_read_l1 s v x x' :
    mm_write s (l1_entry 1021) v x = ROk x' tt -> mm_read s (l1_entry 1021) x' = ROk x' v;
  alloc_ends pid x : mm_alloc_page pid x <> RStuck;
  claim_ends addr pid action x : mm_claim_release_move addr pid action x <> RStuck;
  release_all_ends s pid x : mm_release_all s pid x <> RStuck
}.

(** The page of a process without the places where the searches start. *)
Definition core (p : ProcessImpl) : ProcessImpl :=
  set_inner (set_default_last 0 (set_message_last 0 (inner p))) p.

(** The step from [m] to [m'] is one on memory; [S] are the address spaces it
    may leave active. *)
Definition mem_step {M} (S : Z -> Prop) (m m' : Machine M) : Prop :=
  pt_current m' = pt_current m /\ pt_table m' = pt_table m /\ supervisor m' = supervisor m /\
  core <$> impls m' = core <$> impls m /\ (satp m' = satp m \/ S (satp m')).

(** No other address space, and any. *)
Definition here (s : Z) : Prop := False.
Definition anywhere (s : Z) : Prop := True.

Definition mem_op {M A} (S : Z -> Prop) (f : Machine M -> outcome Error (Machine M) A) : Prop :=
  forall m, sat (f m) (fun m' _ => mem_step S m m') (fun m' _ => mem_step S m m').

Create HintDb mem_op discriminated.

Lemma vpn1_range virt : 0 <= vpn1 virt < 1024.
Proof.
  unfold vpn1. rewrite (land_mask _ 10) by (done || lia). apply Z.mod_pos_bound. lia.
Qed.

Lemma vpn0_range virt : 0 <= vpn0 virt < 1024.
Proof.
  unfold vpn0. rewrite (land_mask _ 10) by (done || lia). apply Z.mod_pos_bound. lia.
Qed.

Lemma vpn1_l0_table v : 0 <= v < 1024 -> vpn1 (l0_table v) = 1021.
Proof.
  intros Hv. unfold vpn1, l0_table, shr32. rewrite (land_mask _ 10), shiftr_div by (done || lia).
  change (22 mod 32) with 22. unfold PAGE_TABLE_OFFSET, PAGE_SIZE.
  replace ((4282384384 + v * 4096) / 2 ^ 22) with 1021; [done |].
  apply (Z.div_unique _ _ _ (v * 4096)); lia.
Qed.

Lemma make_entry_valid phys : has_flag (make_entry phys MMU_VALID) MMU_VALID = true.
Proof.
  unfold has_flag, make_entry, MMU_VALID. apply negb_true_iff, Z.eqb_neq. intros H.
  assert (Hb : Z.testbit (Z.land (Z.lor (shl32 (shr32 phys 12) 10) 1) 1) 0 = true)
    by (rewrite Z.land_spec, Z.lor_spec, orb_true_r; done).
  by rewrite H in Hb.
Qed.

Section MemOp.
Context {M : Type} {HM : MemOps M} {HL : MemLaws M}.

Implicit Type m : Machine M.

Lemma mem_step_refl S m : mem_step S m m.
Proof. unfold mem_step. split_and!; auto. Qed.

Lemma mem_step_memory S m x : mem_step S m (set_memory x m).
Proof. unfold mem_step. split_and!; auto. Qed.

Lemma mem_step_trans S m1 m2 m3 : mem_step S m1 m2 -> mem_step S m2 m3 -> mem_step S m1 m3.
Proof.
  intros (? & ? & ? & ? & Hs1) (? & ? & ? & ? & Hs2). split_and!; try congruence.
  destruct Hs2 as [-> |]; auto.
Qed.

Lemma mem_step_mono (S S' : Z -> Prop) m m' :
  (forall s, S s -> S' s) -> mem_step S m m' -> mem_step S' m m'.
Proof. intros HS (? & ? & ? & ? & [? | ?]); split_and!; auto. Qed.

Lemma mem_op_mono (S S' : Z -> Prop) {A} (f : Machine M -> outcome Error (Machine M) A) :
  (forall s, S s -> S' s) -> mem_op S f -> mem_op S' f.
Proof. intros HS Hf m. eapply sat_mono; [apply Hf | |]; intros; by eapply mem_step_mono. Qed.

Lemma mem_op_bind S {A B} (f : Machine M -> outcome Error (Machine M) A)
    (g : A -> Machine M -> outcome Error (Machine M) B) :
  mem_op S f -> (forall a, mem_op S (g a)) -> mem_op S (bind f g).
Proof.
  intros Hf Hg m. sat_step. eapply sat_mono; [apply Hf | | done]. intros m1 a H1. cbn in H1.
  eapply sat_mono; [apply Hg | |]; intros m2 ? H2; by eapply mem_step_trans.
Qed.

Lemma mem_op_ret S {A} (a : A) : mem_op S (ret (S := Machine M) a).
Proof. intros m. apply mem_step_refl. Qed.

Lemma mem_op_fail S {A} e : mem_op S (fail (S := Machine M) (A := A) e).
Proof. intros m. apply mem_step_refl. Qed.

Lemma mem_op_gets S {A} (f : Machine M -> A) : mem_op S (gets f).
Proof. intros m. apply mem_step_refl. Qed.

Lemma mem_op_assert S b : mem_op S (M := M) (assert_ b).
Proof. intros m. sat_step. apply mem_step_refl. Qed.

Lemma mem_op_ok_or S {A} (o : option A) e : mem_op S (M := M) (ok_or o e).
Proof. intros m. sat_step; apply mem_step_refl. Qed.

Lemma mem_op_lift S {A} (r : result A) : mem_op S (M := M) (lift_result r).
Proof. destruct r; [apply mem_op_ret | apply mem_op_fail]. Qed.

Lemma mem_op_unwrap_result S {A} (f : Machine M -> outcome Error (Machine M) A) :
  mem_op S f -> mem_op S (unwrap_result f).
Proof. intros Hf m. sat_step. eapply sat_mono; [apply Hf | done | done]. Qed.

Lemma mem_op_attempt S {A} (f : Machine M -> outcome Error (Machine M) A) :
  mem_op S f -> mem_op S (attempt f).
Proof. intros Hf m. sat_step. apply Hf. Qed.

Lemma mem_op_ok S {A} (f : Machine M -> outcome Error (Machine M) A) : mem_op S f -> mem_op S (ok f).
Proof. intros Hf m. sat_step. apply Hf. Qed.

Lemma mem_op_map_err S {A} g (f : Machine M -> outcome Error (Machine M) A) :
  mem_op S f -> mem_op S (map_err g f).
Proof. intros Hf m. sat_step. apply Hf. Qed.

Lemma mem_op_for_each S {A} (l : list A) (f : A -> Machine M -> outcome Error (Machine M) unit) :
  (forall x, mem_op S (f x)) -> mem_op S (for_each l f).
Proof. intros Hf. induction l; [apply mem_op_ret | by apply mem_op_bind]. Qed.

Lemma mem_op_with_memory S {A} (f : M -> outcome Error M A) :
  (forall x, f x <> RStuck) -> mem_op S (with_memory f).
Proof.
  intros Hf m. apply sat_zoom. specialize (Hf (memory m)).
  destruct (f _); try done; apply mem_step_memory.
Qed.

Lemma mem_op_alloc S pid : mem_op S (M := M) (with_memory (mm_alloc_page pid)).
Proof. apply mem_op_with_memory. intros. apply alloc_ends. Qed.

Lemma mem_op_claim S addr pid action :
  mem_op S (M := M) (with_memory (mm_claim_release_move addr pid action)).
Proof. apply mem_op_with_memory. intros. apply claim_ends. Qed.

Lemma mem_op_release_all S s pid : mem_op S (M := M) (with_memory (mm_release_all s pid)).
Proof. apply mem_op_with_memory. intros. apply release_all_ends. Qed.

(** Words *)
Lemma sat_rd addr m (Q : Machine M -> Z -> Prop) (X : Machine M -> Error -> Prop) :
  (forall v, mm_read (satp m) addr (memory m) = ROk (memory m) v -> Q m v) -> sat (rd addr m) Q X.
Proof.
  intros HQ. unfold rd. sat_step. sat_step. apply sat_zoom.
  destruct (read_spec (satp m) addr (memory m)) as [-> | [v Hv]]; [done |]. rewrite Hv. cbn.
  destruct m. by apply HQ.
Qed.

Lemma sat_wr addr v m (Q : Machine M -> unit -> Prop) (X : Machine M -> Error -> Prop) :
  (forall x, mm_write (satp m) addr v (memory m) = ROk x tt -> Q (set_memory x m) tt) ->
  sat (wr addr v m) Q X.
Proof.
  intros HQ. unfold wr. sat_step. sat_step. apply sat_zoom.
  destruct (write_spec (satp m) addr v (memory m)) as [-> | [x Hx]]; [done |]. rewrite Hx. cbn. auto.
Qed.

Lemma mem_op_rd S addr : mem_op S (M := M) (rd addr).
Proof. intros m. apply sat_rd. intros. apply mem_step_refl. Qed.

Lemma mem_op_wr S addr v : mem_op S (M := M) (wr addr v).
Proof. intros m. apply sat_wr. intros. apply mem_step_memory. Qed.

Lemma mem_op_current_pid S : mem_op S (M := M) current_pid.
Proof. apply mem_op_gets. Qed.

Lemma mem_op_arch_current_pid S : mem_op S (M := M) arch_current_pid.
Proof. intros m. unfold arch_current_pid. sat_step. apply mem_step_refl. Qed.
End MemOp.

#[export] Hint Resolve mem_op_ret mem_op_fail mem_op_gets mem_op_assert mem_op_ok_or mem_op_lift
  mem_op_alloc mem_op_claim mem_op_release_all mem_op_rd mem_op_wr mem_op_current_pid
  mem_op_arch_current_pid : mem_op.

(** Steps through an operation on memory whose steps are all such operations. *)
Ltac mem_op :=
  repeat first
    [ solve [auto with mem_op]
    | apply mem_op_bind; [| intros]
    | apply mem_op_unwrap_result | apply mem_op_attempt | apply mem_op_ok | apply mem_op_map_err
    | apply mem_op_for_each; intros
    | lazymatch goal with |- mem_op _ (if ?b then _ else _) => destruct b end
    | lazymatch goal with |- mem_op _ (match ?x with _ => _ end) => destruct x end
    | progress cbv zeta ].

Section Pages.
Context {M : Type} {HM : MemOps M} {HL : MemLaws M}.

Implicit Type m : Machine M.

Lemma mem_op_bzero S a b : mem_op S (M := M) (bzero a b).
Proof. unfold bzero. mem_op. Qed.
#[local] Hint Resolve mem_op_bzero : mem_op.

Lemma mem_op_zeropage S a : mem_op S (M := M) (zeropage a).
Proof. apply mem_op_bzero. Qed.
#[local] Hint Resolve mem_op_zeropage : mem_op.

(** The leaf table exists: no recursive call. *)
Lemma map_page_leaf S fuel pid phys virt flags user m :
  (exists v, mm_read (satp m) (l1_entry (vpn1 virt)) (memory m) = ROk (memory m) v /\
             has_flag v MMU_VALID = true) ->
  sat (map_page_inner (Datatypes.S fuel) pid phys virt flags user m)
    (fun m' _ => mem_step S m m') (fun m' _ => mem_step S m m').
Proof.
  intros (v & Hv & Hflag). cbn [map_page_inner]. sat_step. sat_step. cbv zeta. sat_step.
  apply sat_rd. intros v' Hv'. replace v' with v by congruence. rewrite Hflag. cbn [negb].
  assert (Hop : mem_op S (M := M)
    (ret tt ;;; e <- rd (l0_entry (vpn1 virt) (vpn0 virt));;
     if negb (Z.land e 1 =? 0) then fail MemoryInUse
     else wr (l0_entry (vpn1 virt) (vpn0 virt))
            (make_leaf phys (Z.lor (Z.lor (Z.lor (Z.lor (translate_flags flags)
               (flag_if user MMU_USER)) MMU_VALID) MMU_D) MMU_A)))) by mem_op.
  apply Hop.
Qed.

(** One more level than the calls that create the leaf table need. *)
Lemma map_page_level S fuel pid phys virt flags user :
  (forall m p, (vpn1 virt = 1021 -> exists v, mm_read (satp m) (l1_entry 1021) (memory m) = ROk (memory m) v /\
                  has_flag v MMU_VALID = true) ->
     sat (map_page_inner fuel pid p (l0_table (vpn1 virt)) (flags_or FLAG_W FLAG_R) false m)
       (fun m' _ => mem_step S m m') (fun m' _ => mem_step S m m')) ->
  mem_op S (M := M) (map_page_inner (Datatypes.S fuel) pid phys virt flags user).
Proof.
  intros Hrec m. cbn [map_page_inner]. sat_step. sat_step. cbv zeta. sat_step. apply sat_rd.
  intros l1 _. assert (Hrest : mem_op S (M := M)
    (e <- rd (l0_entry (vpn1 virt) (vpn0 virt));;
     if negb (Z.land e 1 =? 0) then fail MemoryInUse
     else wr (l0_entry (vpn1 virt) (vpn0 virt))
            (make_leaf phys (Z.lor (Z.lor (Z.lor (Z.lor (translate_flags flags)
               (flag_if user MMU_USER)) MMU_VALID) MMU_D) MMU_A)))) by mem_op.
  destruct (negb (has_flag l1 MMU_VALID)); [| sat_step; apply Hrest].
  sat_step. sat_step. eapply sat_mono; [apply (mem_op_alloc S) | | done].
  intros m1 p H1. sat_step. apply sat_wr. intros x Hx.
  assert (H2 : mem_step S m (set_memory x m1)) by (eapply mem_step_trans; [exact H1 | apply mem_step_memory]).
  sat_step. eapply sat_mono; [apply Hrec | |].
  { intros H1021. rewrite H1021 in Hx. exists (make_entry p MMU_VALID).
    split; [by eapply write_read_l1 | apply make_entry_valid]. }
  - intros m3 [] H3. eapply sat_mono; [apply (mem_op_zeropage S) | |]; intros m4 ? H4; cbn in H3, H4.
    + eapply sat_mono; [apply Hrest | |]; intros m5 ? H5;
        (eapply mem_step_trans; [| exact H5]); (eapply mem_step_trans; [| exact H4]);
        by eapply mem_step_trans.
    + eapply mem_step_trans; [| exact H4]. by eapply mem_step_trans.
  - intros m3 e H3. by eapply mem_step_trans.
Qed.

(** At most three nested calls. *)
Lemma mem_op_map_page S pid phys virt flags user : mem_op S (M := M) (map_page pid phys virt flags user).
Proof.
  unfold map_page. apply map_page_level. intros m p _. revert m.
  apply map_page_level. intros m p' Hv. apply map_page_leaf.
  assert (Hl0 : vpn1 (l0_table (vpn1 virt)) = 1021) by apply vpn1_l0_table, vpn1_range.
  rewrite Hl0, vpn1_l0_table by lia. by apply Hv.
Qed.
#[local] Hint Resolve mem_op_map_page : mem_op.

(** More fuel does not change a run that ends. *)
Lemma bind_more {A B} (f f' : Machine M -> outcome Error (Machine M) A) (k k' : A -> Machine M -> outcome Error (Machine M) B) m :
  bind f k m <> RStuck -> (f m <> RStuck -> f' m = f m) -> (forall a m1, k a m1 <> RStuck -> k' a m1 = k a m1) ->
  bind f' k' m = bind f k m.
Proof. unfold bind. intros H Hf Hk. destruct (f m) eqn:E; rewrite Hf; try done. by apply Hk. Qed.

Lemma map_page_more fuel : forall pid phys virt flags user m,
  map_page_inner fuel pid phys virt flags user m <> RStuck ->
  map_page_inner (Datatypes.S fuel) pid phys virt flags user m = map_page_inner fuel pid phys virt flags user m.
Proof.
  induction fuel as [| fuel IH]; intros pid phys virt flags user m H; [done |].
  remember (Datatypes.S fuel) as n eqn:En. cbn [map_page_inner]. subst n. cbn [map_page_inner] in H |- *. cbv zeta in *.
  apply bind_more; [exact H | done |]. clear m H. intros [] m H.
  apply bind_more; [exact H | done |]. clear m H. intros l1 m H.
  apply bind_more; [exact H | | done]. clear H. intros H. destruct (negb (has_flag l1 MMU_VALID)); [| done].
  apply bind_more; [exact H | done |]. clear m H. intros p m H.
  apply bind_more; [exact H | done |]. clear m H. intros [] m H.
  apply bind_more; [exact H | | done]. apply IH.
Qed.

Lemma mem_op_hand S virt : mem_op S (M := M) (hand_page_to_user virt).
Proof. unfold hand_page_to_user. mem_op. Qed.

Lemma mem_op_pagetable_entry S addr : mem_op S (M := M) (pagetable_entry addr).
Proof. unfold pagetable_entry. mem_op. Qed.
#[local] Hint Resolve mem_op_hand mem_op_pagetable_entry : mem_op.

Lemma mem_op_unmap_inner S virt : mem_op S (M := M) (unmap_page_inner virt).
Proof. unfold unmap_page_inner. mem_op. Qed.

Lemma mem_op_virt_to_phys S virt : mem_op S (M := M) (virt_to_phys virt).
Proof. unfold virt_to_phys. mem_op. Qed.
#[local] Hint Resolve mem_op_unmap_inner mem_op_virt_to_phys : mem_op.

Lemma mem_op_address_available S virt : mem_op S (M := M) (address_available virt).
Proof. unfold address_available. mem_op. Qed.

Lemma mem_op_ensure_inner S a : mem_op S (M := M) (ensure_page_exists_inner a).
Proof. unfold ensure_page_exists_inner. mem_op. Qed.

Lemma mem_op_page_flags S a : mem_op S (M := M) (page_flags a).
Proof. unfold page_flags. mem_op. Qed.

Lemma mem_op_update_page_flags S a f : mem_op S (M := M) (update_page_flags a f).
Proof. unfold update_page_flags. mem_op. Qed.

Lemma mem_op_reserve_address S a f : mem_op S (M := M) (reserve_address a f).
Proof. unfold reserve_address. mem_op. Qed.

(** A visit to another address space ends in the given one. *)
Lemma mem_op_visit dest src {A B} (f : Machine M -> outcome Error (Machine M) A)
    (g : Error + A -> Machine M -> outcome Error (Machine M) B) :
  mem_op anywhere f -> (forall r, mem_op (eq src) (g r)) ->
  mem_op (eq src)
    (MemoryMapping_activate dest ;;; r <- attempt f;; MemoryMapping_activate src ;;; g r).
Proof.
  intros Hf Hg m. unfold MemoryMapping_activate. do 4 sat_step.
  assert (Hback : forall m1, mem_step anywhere (set_satp dest m) m1 -> mem_step (eq src) m (set_satp src m1))
    by (intros m1 (? & ? & ? & ? & _); split_and!; auto).
  eapply sat_mono; [apply Hf | |]; intros m1 ? H1; do 2 sat_step;
    (eapply sat_mono; [apply Hg | |]); intros m2 ? H2;
    (eapply mem_step_trans; [apply Hback; exact H1 | exact H2]).
Qed.

Lemma mem_op_move_inner src a pid dest b : mem_op (eq src) (M := M) (move_page_inner src a pid dest b).
Proof.
  unfold move_page_inner. apply mem_op_bind; [mem_op |]. intros e. apply mem_op_bind; [mem_op |].
  intros v. destruct (negb _); [mem_op |]. apply mem_op_bind; [mem_op |]. intros [].
  apply mem_op_visit; intros; mem_op.
Qed.

Lemma mem_op_lend_inner src a pid dest b mut :
  mem_op (eq src) (M := M) (lend_page_inner src a pid dest b mut).
Proof.
  unfold lend_page_inner. apply mem_op_bind; [mem_op |]. intros e. apply mem_op_bind; [mem_op |].
  intros v. cbv zeta. destruct (negb _); [mem_op |]. destruct (has_flag v MMU_S); [mem_op |].
  apply mem_op_bind; [mem_op |]. intros []. apply mem_op_visit; intros; mem_op.
Qed.

Lemma mem_op_return_inner src a pid dest b : mem_op (eq src) (M := M) (return_page_inner src a pid dest b).
Proof.
  unfold return_page_inner. apply mem_op_bind; [mem_op |]. intros e. apply mem_op_bind; [mem_op |].
  intros v. cbv zeta. destruct (negb _); [mem_op |]. apply mem_op_bind; [mem_op |]. intros [] m.
  unfold MemoryMapping_activate. do 4 sat_step.
  eapply sat_mono; [apply (mem_op_pagetable_entry anywhere) | | done]. intros m1 de H1. sat_step.
  apply sat_rd. intros dv _. sat_step. sat_step. sat_step. apply sat_wr. intros x _. do 2 sat_step.
  sat_step. destruct H1 as (? & ? & ? & ? & _). split_and!; auto.
Qed.
End Pages.

#[export] Hint Resolve mem_op_bzero mem_op_zeropage mem_op_map_page mem_op_hand
  mem_op_pagetable_entry mem_op_unmap_inner mem_op_virt_to_phys mem_op_address_available
  mem_op_ensure_inner mem_op_page_flags mem_op_update_page_flags mem_op_reserve_address
  mem_op_move_inner mem_op_lend_inner mem_op_return_inner : mem_op.

(** ** The memory manager *)

Lemma fmap_insert_same {A B} (f : A -> B) (m : gmap Z A) i x y :
  m !! i = Some x -> f y = f x -> f <$> <[i := y]> m = f <$> m.
Proof. intros Hx Hf. rewrite fmap_insert, Hf. apply insert_id. by rewrite lookup_fmap, Hx. Qed.

(** An operation that changes nothing. *)
Definition reads {M A} (f : Machine M -> outcome Error (Machine M) A) : Prop :=
  forall m, sat (f m) (fun m' _ => m' = m) (fun m' _ => m' = m).

Section Reads.
Context {M : Type} {HM : MemOps M} {HL : MemLaws M}.

Lemma reads_bind {A B} (f : Machine M -> outcome Error (Machine M) A)
    (g : A -> Machine M -> outcome Error (Machine M) B) :
  reads f -> (forall a, reads (g a)) -> reads (bind f g).
Proof.
  intros Hf Hg m. sat_step. eapply sat_mono; [apply Hf | | done]. intros m1 a H1. cbn in H1.
  subst. apply Hg.
Qed.

Lemma reads_rd addr : reads (M := M) (rd addr).
Proof. intros m. by apply sat_rd. Qed.

Lemma reads_virt_to_phys virt : reads (M := M) (virt_to_phys virt).
Proof.
  unfold virt_to_phys. apply reads_bind; [apply reads_rd |]. intros l1. destruct (negb _); [done |].
  apply reads_bind; [apply reads_rd |]. intros e. repeat case_if; done.
Qed.

Lemma reads_address_available virt : reads (M := M) (address_available virt).
Proof.
  unfold address_available. apply reads_bind; [| done]. intros m. sat_step. apply reads_virt_to_phys.
Qed.

Lemma reads_all_free pages : reads (M := M) (all_free pages).
Proof.
  induction pages as [| a pages IH]; [done |]. apply reads_bind; [apply reads_address_available |].
  by intros [].
Qed.

Lemma reads_search size starts : reads (M := M) (search_range size starts).
Proof.
  induction starts as [| v starts IH]; [done |]. apply reads_bind; [apply reads_all_free |].
  by intros [].
Qed.
End Reads.

Section Manager.
Context {M : Type} {HM : MemOps M} {HL : MemLaws M}.

Implicit Type m : Machine M.

Lemma mem_op_find_virtual_address S virt size kind :
  mem_op S (M := M) (find_virtual_address virt size kind).
Proof.
  intros m. unfold find_virtual_address, get_impl. sat_step; [apply mem_op_ret |]. sat_step. sat_step.
  assert (Hsearch : forall starts starts' set_last,
    (forall v, core (set_inner (set_last v (inner a)) a) = core a) ->
    sat ((found <- search_range size starts;;
          found <- (match found with
                    | Some v => ret (Some v)
                    | None => search_range size starts'
                    end);;
          match found with
          | Some v => put_impl (set_inner (set_last v (inner a)) a) ;;; ret v
          | None => fail BadAddress
          end) m) (fun m' _ => mem_step S m m') (fun m' _ => mem_step S m m')).
  { intros starts starts' set_last Hc. sat_step.
    eapply sat_mono; [apply reads_search | | intros ? ? ->; apply mem_step_refl].
    intros m1 found ->. sat_step.
    eapply (sat_mono _ (fun m' _ => m' = m) _ (fun m' _ => m' = m));
      [destruct found; [done | apply reads_search] | | intros ? ? ->; apply mem_step_refl].
    intros m1 [v |] ->; [| apply mem_step_refl]. unfold put_impl. repeat sat_step.
    split_and!; try done; [| by left]. cbn. by eapply fmap_insert_same. }
  destruct kind; [by apply Hsearch | | by apply Hsearch | apply mem_op_fail].
  sat_step; [apply mem_op_fail | apply mem_op_ret].
Qed.
#[local] Hint Resolve mem_op_find_virtual_address : mem_op.

Lemma mem_op_reserve_range S virt size flags : mem_op S (M := M) (reserve_range virt size flags).
Proof. unfold reserve_range. mem_op. Qed.

Lemma mem_op_release_page S a pid : mem_op S (M := M) (release_page a pid).
Proof. unfold release_page. mem_op. Qed.

Lemma mem_op_claim_page S a pid : mem_op S (M := M) (claim_page a pid).
Proof. unfold claim_page. mem_op. Qed.
#[local] Hint Resolve mem_op_reserve_range mem_op_release_page mem_op_claim_page : mem_op.

Lemma mem_op_map_zeroed S pid user : mem_op S (M := M) (map_zeroed_page pid user).
Proof. unfold map_zeroed_page. mem_op. Qed.

Lemma mem_op_claim_pages S phys pid l : mem_op S (M := M) (claim_pages phys pid l).
Proof. induction l; cbn [claim_pages]; mem_op. Qed.

Lemma mem_op_map_pages S phys virt pid flags l : mem_op S (M := M) (map_pages phys virt pid flags l).
Proof. induction l; cbn [map_pages]; mem_op. Qed.
#[local] Hint Resolve mem_op_map_zeroed mem_op_claim_pages mem_op_map_pages : mem_op.

Lemma mem_op_map_range S phys virt size pid flags kind :
  mem_op S (M := M) (map_range phys virt size pid flags kind).
Proof. unfold map_range, map_virtual. mem_op. Qed.

Lemma mem_op_unmap_page S virt : mem_op S (M := M) (unmap_page virt).
Proof. unfold unmap_page. mem_op. Qed.

Lemma mem_op_move_page src_pid src a pid dest b :
  mem_op (eq src) (M := M) (move_page src_pid src a pid dest b).
Proof. unfold move_page. mem_op. Qed.

Lemma mem_op_move_page_raw S phys pid : mem_op S (M := M) (move_page_raw phys pid).
Proof. unfold move_page_raw. mem_op. Qed.

Lemma mem_op_lend_page src a pid dest b mut : mem_op (eq src) (M := M) (lend_page src a pid dest b mut).
Proof. apply mem_op_lend_inner. Qed.

Lemma mem_op_unlend_page src a pid dest b : mem_op (eq src) (M := M) (unlend_page src a pid dest b).
Proof. apply mem_op_return_inner. Qed.

Lemma mem_op_ensure S a : mem_op S (M := M) (ensure_page_exists a).
Proof. unfold ensure_page_exists. mem_op. Qed.

Lemma mem_op_release_process S pid : mem_op S (M := M) (release_all_memory_for_process pid).
Proof. unfold release_all_memory_for_process. mem_op. Qed.

Lemma mem_op_update_flags S range flags : mem_op S (M := M) (update_memory_flags range flags).
Proof. unfold update_memory_flags, check_flags. mem_op. Qed.
End Manager.

#[export] Hint Resolve mem_op_find_virtual_address mem_op_reserve_range mem_op_map_zeroed
  mem_op_map_range mem_op_unmap_page mem_op_move_page mem_op_move_page_raw mem_op_lend_page
  mem_op_unlend_page mem_op_ensure mem_op_release_process mem_op_update_flags
  mem_op_release_page mem_op_claim_page : mem_op.
