(* ===== verification/Memory.v ===== *)
(** * Physical memory and the owners of its pages

    The memory of the machine: its words, the translation of addresses by the
    page tables of Sv32, and the part of [MemoryManager] in
    src/kernel/src/mem.rs that keeps the owner of every page.  It implements the
    interface [MemOps] of Machine.v and satisfies the laws [MemLaws].

    The kernel runs in supervisor mode and does not set SUM, so it cannot access
    a page that is marked as a user's. *)

From Stdlib Require Import ZArith Lia Bool.
From stdpp Require Import base numbers list option gmap.
From S2P Require Import Prelude.
From S2P Require Import Abi.
From S2P Require Import Machine.
From S2P Require Import Paging.
From S2P Require Import MemoryManager.
From S2P Require Import MemoryFacts.

#[local] Open Scope Z_scope.
#[local] Open Scope kernel_scope.

(** [MemoryRangeExtra], without the tag that is only printed. *)
Record MemoryRangeExtra : Type := mk_MemoryRangeExtra { mem_start : Z; mem_size : Z }.

(** The statics of mem.rs and the words of memory; a word that is absent is 0. *)
Record Memory : Type := mk_Memory {
  ram_start : Z;
  ram_size : Z;
  last_ram_page : nat;
  MEMORY_ALLOCATIONS : list (option Z);
  EXTRA_REGIONS : list MemoryRangeExtra;
  EXTRA_ALLOCATIONS : list (option Z);
  words : gmap Z Z
}.

Definition set_last_ram_page (i : nat) (x : Memory) : Memory :=
  mk_Memory (ram_start x) (ram_size x) i (MEMORY_ALLOCATIONS x) (EXTRA_REGIONS x)
    (EXTRA_ALLOCATIONS x) (words x).
Definition set_allocations (l : list (option Z)) (x : Memory) : Memory :=
  mk_Memory (ram_start x) (ram_size x) (last_ram_page x) l (EXTRA_REGIONS x)
    (EXTRA_ALLOCATIONS x) (words x).
Definition set_extra (l : list (option Z)) (x : Memory) : Memory :=
  mk_Memory (ram_start x) (ram_size x) (last_ram_page x) (MEMORY_ALLOCATIONS x) (EXTRA_REGIONS x)
    l (words x).
Definition set_words (w : gmap Z Z) (x : Memory) : Memory :=
  mk_Memory (ram_start x) (ram_size x) (last_ram_page x) (MEMORY_ALLOCATIONS x) (EXTRA_REGIONS x)
    (EXTRA_ALLOCATIONS x) w.

(** ** Translation *)

Definition word (a : Z) (x : Memory) : Z := default 0 (words x !! a).

(** The root table that a value of [satp] selects. *)
Definition satp_root (s : Z) : Z := Z.land s 4194303 * 4096.

(** The page that an entry points to; physical addresses have 34 bits. *)
Definition entry_page (e : Z) : Z := Z.shiftr e 10 * 4096.

(** A store, or a load, of the kernel to the page of the entry [e]; a page that is
    not readable is not writable either. *)
Definition permitted (store : bool) (e : Z) : bool :=
  has_flag e MMU_R && (negb store || has_flag e MMU_W) && negb (has_flag e MMU_USER).

(** The entry of the root table and, if it leads to a leaf table, the entry of
    that. *)
Definition walk_root (s virt : Z) (x : Memory) : Z := word (satp_root s + vpn1 virt * 4) x.
Definition walk_leaf (s virt : Z) (x : Memory) : Z :=
  word (entry_page (walk_root s virt x) + vpn0 virt * 4) x.

Definition is_leaf (e : Z) : bool := has_flag e (Z.lor (Z.lor MMU_R MMU_W) MMU_X).

Definition translate (store : bool) (s virt : Z) (x : Memory) : option Z :=
  if negb (Z.testbit s 31) then Some virt
  else
    let e1 := walk_root s virt x in
    if negb (has_flag e1 MMU_VALID) then None
    else if is_leaf e1 then
      if permitted store e1 && (Z.land (Z.shiftr e1 10) 1023 =? 0)
      then Some (entry_page e1 + Z.land virt 4194303) else None
    else
      let e0 := walk_leaf s virt x in
      if has_flag e0 MMU_VALID && permitted store e0
      then Some (entry_page e0 + Z.land virt 4095) else None.

Definition mem_read (s virt : Z) : Memory -> outcome Error Memory Z := fun x =>
  match translate false s virt x with
  | Some p => ROk x (word p x)
  | None => RPanic
  end.

Definition mem_write (s virt v : Z) : Memory -> outcome Error Memory unit := fun x =>
  match translate true s virt x with
  | Some p =>
      ROk (set_words (if v =? 0 then delete p (words x) else <[p := v]> (words x)) x) tt
  | None => RPanic
  end.

(** ** Owners *)

(** [alloc_page]: the ranges of the two slices are checked.  The search begins at
    the larger of the hint and the end, so it always covers the whole table from
    the start. *)
Definition alloc_page (pid : Z) : Memory -> outcome Error Memory Z := fun x =>
  let end_point := Z.to_nat (ram_size x / PAGE_SIZE) in
  let starting_point := Nat.max (last_ram_page x) end_point in
  let l := MEMORY_ALLOCATIONS x in
  if negb ((starting_point <=? end_point)%nat && (starting_point <=? length l)%nat) then RPanic
  else
    match List.find (fun i => match l !! i with Some None => true | _ => false end)
            (seq starting_point (end_point - starting_point) ++ seq 0 starting_point) with
    | Some index =>
        ROk (set_last_ram_page (index + 1) (set_allocations (<[index := Some pid]> l) x))
            (add32 (mul32 (Z.of_nat index) PAGE_SIZE) (ram_start x))
    | None => RErr x OutOfMemory
    end.

(** [action_inner]: the new owner *)
Definition action_inner (owner : option Z) (pid : Z) (action : ClaimReleaseMove)
    : result (option Z) :=
  let refused :=
    match owner with
    | Some current_pid =>
        negb (current_pid =? pid)
        && match action with
           | CRM_Move existing_pid => negb (existing_pid =? current_pid)
           | _ => true
           end
    | None => false
    end in
  if refused then Err MemoryInUse
  else Ok (match action with CRM_Claim | CRM_Move _ => Some pid | CRM_Release => None end).

(** The loop over the additional regions: the index into [EXTRA_ALLOCATIONS]. *)
Fixpoint extra_offset (regions : list MemoryRangeExtra) (addr offset : Z) : option Z :=
  match regions with
  | [] => None
  | region :: regions =>
      if (mem_start region <=? addr) && (addr <? add32 (mem_start region) (mem_size region))
      then Some (offset + (addr - mem_start region) / PAGE_SIZE)
      else extra_offset regions addr (offset + mem_size region / PAGE_SIZE)
  end.

Definition in_ram (addr : Z) (x : Memory) : bool :=
  (ram_start x <=? addr) && (addr <? add32 (ram_start x) (ram_size x)).

Definition claim_release_move (addr pid : Z) (action : ClaimReleaseMove)
    : Memory -> outcome Error Memory unit := fun x =>
  let act (l : list (option Z)) (offset : Z) (put : list (option Z) -> Memory) :=
    match l !! Z.to_nat offset with
    | None => RPanic
    | Some owner =>
        match action_inner owner pid action with
        | Ok owner => ROk (put (<[Z.to_nat offset := owner]> l)) tt
        | Err e => RErr x e
        end
    end in
  if negb (page_aligned addr) then RErr x BadAlignment
  else if in_ram addr x then
    act (MEMORY_ALLOCATIONS x) ((addr - ram_start x) / PAGE_SIZE) (fun l => set_allocations l x)
  else
    match extra_offset (EXTRA_REGIONS x) addr 0 with
    | Some offset => act (EXTRA_ALLOCATIONS x) offset (fun l => set_extra l x)
    | None => RErr x BadAddress
    end.

(** The loop of [map_range] over [MEMORY_ALLOCATIONS] from [index] on, with the
    start and the length of the current run of free pages. *)
Fixpoint free_run (pages : Z) (l : list (option Z)) (index : nat) (range_start : option nat)
    (current_run : Z) : option nat * Z :=
  match l with
  | [] => (range_start, current_run)
  | entry :: l =>
      let '(range_start, current_run) :=
        match entry with
        | None => match range_start with
                  | Some start => (Some start, current_run + 1)
                  | None => (Some index, 1)
                  end
        | Some _ => (None, 0)
        end in
      if pages <=? current_run then (range_start, current_run)
      else free_run pages l (S index) range_start current_run
  end.

Definition find_device_ram (pages : Z) (x : Memory) : option Z :=
  match free_run pages (MEMORY_ALLOCATIONS x) 0 None 0 with
  | (Some start, current_run) =>
      if pages <=? current_run
      then Some (add32 (mul32 (Z.of_nat start) PAGE_SIZE) (ram_start x)) else None
  | (None, _) => None
  end.

(** [allocation_offset_to_address] and [allocation_offset_to_address_extra] *)
Definition allocation_offset_to_address (x : Memory) (offset : nat) : option Z :=
  if Z.of_nat offset <? ram_size x / PAGE_SIZE
  then Some (add32 (ram_start x) (mul32 (Z.of_nat offset) PAGE_SIZE)) else None.

Fixpoint allocation_offset_to_address_extra (regions : list MemoryRangeExtra) (offset : Z)
    : option Z :=
  match regions with
  | [] => None
  | region :: regions =>
      if mem_size region / PAGE_SIZE <=? offset
      then allocation_offset_to_address_extra regions (offset - mem_size region / PAGE_SIZE)
      else Some (add32 (mem_start region) (mul32 offset PAGE_SIZE))
  end.

(** [page_is_lent] on the memory; see [page_is_lent_agrees]. *)
Definition lent_at (s addr : Z) : Memory -> outcome Error Memory bool :=
  if negb (Z.land addr 3 =? 0) then ret false
  else
    l1_pte <- mem_read s (l1_entry (vpn1 addr));;
    if negb (has_flag l1_pte MMU_VALID) then ret false
    else e <- mem_read s (l0_entry (vpn1 addr) (vpn0 addr));; ret (has_flag e MMU_S).

(** One turn of the loops of [release_all_memory_for_process]: the new owner of a
    page of [pid]. *)
Definition release_owner (s : Z) (phys : option Z) : Memory -> outcome Error Memory (option Z) :=
  phys_addr <- unwrap phys;;
  lent <- lent_at s phys_addr;;
  ret (if (lent : bool) then Some 1 else None).

(** The same for the entry [idx] of one of the two tables. *)
Definition release_entry (get : Memory -> list (option Z))
    (put : list (option Z) -> Memory -> Memory) (to_address : Memory -> nat -> option Z)
    (s pid : Z) (idx : nat) : Memory -> outcome Error Memory unit :=
  x <- gets id;;
  if decide (get x !! idx = Some (Some pid)) then
    (owner <- release_owner s (to_address x idx);;
     modify (fun x => put (<[idx := owner]> (get x)) x))
  else ret tt.

Definition release_all (s pid : Z) : Memory -> outcome Error Memory unit :=
  x <- gets id;;
  for_each (seq 0 (length (MEMORY_ALLOCATIONS x)))
    (release_entry MEMORY_ALLOCATIONS set_allocations allocation_offset_to_address s pid) ;;;
  for_each (seq 0 (length (EXTRA_ALLOCATIONS x)))
    (release_entry EXTRA_ALLOCATIONS set_extra
       (fun x idx => allocation_offset_to_address_extra (EXTRA_REGIONS x) (Z.of_nat idx)) s pid).

#[export] Instance memory_ops : MemOps Memory := {
  mm_read := mem_read;
  mm_write := mem_write;
  mm_alloc_page := alloc_page;
  mm_claim_release_move := claim_release_move;
  mm_is_main_memory := in_ram;
  mm_find_device_ram := find_device_ram;
  mm_release_all := release_all
}.

(** ** The laws of the interface *)

Lemma word_write p v a x :
  word a (set_words (if v =? 0 then delete p (words x) else <[p := v]> (words x)) x)
  = if decide (a = p) then v else word a x.
Proof.
  unfold word. cbn. destruct (Z.eqb_spec v 0) as [-> |]; case_decide; subst.
  - by rewrite lookup_delete_eq.
  - by rewrite lookup_delete_ne.
  - by rewrite lookup_insert_eq.
  - by rewrite lookup_insert_ne.
Qed.

(** A write to a word that the translation does not read leaves it alone. *)
Lemma translate_write store s virt p v x :
  p <> satp_root s + vpn1 virt * 4 ->
  p <> entry_page (walk_root s virt x) + vpn0 virt * 4 ->
  translate store s virt
    (set_words (if v =? 0 then delete p (words x) else <[p := v]> (words x)) x)
  = translate store s virt x.
Proof.
  intros H1 H0. unfold translate. set (x' := set_words _ x).
  assert (Hr : walk_root s virt x' = walk_root s virt x)
    by (unfold walk_root, x'; rewrite word_write, decide_False; done).
  assert (Hl : walk_leaf s virt x' = walk_leaf s virt x)
    by (unfold walk_leaf, x'; rewrite word_write; fold x'; rewrite Hr, decide_False; done).
  by rewrite Hr, Hl.
Qed.

(** A translation keeps the offset in the page. *)
Lemma translate_offset store s virt p x :
  0 <= virt -> translate store s virt x = Some p -> p mod 4096 = virt mod 4096.
Proof.
  intros Hv. unfold translate, entry_page. destruct (negb (Z.testbit s 31)); [by intros [= ->] |].
  destruct (negb _); [done |]. destruct (is_leaf _).
  - case_if; [| done]. intros [= <-]. rewrite Z.add_comm, Z.mod_add by done.
    rewrite (land_mask virt 22) by (done || lia).
    change (2 ^ 22) with (4096 * 1024).
    rewrite Z.rem_mul_r by lia. rewrite (Z.mul_comm 4096), Z.mod_add, Z.mod_mod by lia. done.
  - case_if; [| done]. intros [= <-]. rewrite Z.add_comm, Z.mod_add by done.
    rewrite (land_mask virt 12) by (done || lia). by rewrite Z.mod_mod.
Qed.

(** Where the kernel can store, it can load. *)
Lemma translate_load s virt p x : translate true s virt x = Some p -> translate false s virt x = Some p.
Proof.
  unfold translate, permitted. destruct (negb (Z.testbit s 31)); [done |].
  destruct (negb (has_flag _ MMU_VALID)); [done |].
  destruct (is_leaf _); [set (e := walk_root s virt x) | set (e := walk_leaf s virt x)];
    cbn [negb orb]; destruct (has_flag e MMU_R), (has_flag e MMU_W), (has_flag e MMU_USER);
    cbn [andb negb]; rewrite ?andb_false_r; done.
Qed.

(** A word that was written is read back, unless it is one that the translation
    of its own address reads. *)
Lemma mem_write_read s virt v x x' :
  0 <= virt -> virt mod 4096 <> vpn1 virt * 4 -> virt mod 4096 <> vpn0 virt * 4 ->
  mem_write s virt v x = ROk x' tt -> mem_read s virt x' = ROk x' v.
Proof.
  intros Hv H1 H0. unfold mem_write, mem_read.
  destruct (translate true s virt x) as [p |] eqn:Ht; [| done]. intros [= <-].
  pose proof (translate_offset _ _ _ _ _ Hv Ht) as Hoff.
  assert (Hb : forall n, 0 <= n < 1024 -> (n * 4) mod 4096 = n * 4) by (intros; apply Z.mod_small; lia).
  pose proof (vpn1_range virt) as Hr1.
  pose proof (vpn0_range virt) as Hr0.
  rewrite translate_write, (translate_load _ _ _ _ Ht).
  - by rewrite word_write, decide_True.
  - intros ->. unfold satp_root in Hoff. rewrite Z.add_comm, Z.mod_add, Hb in Hoff by (done || lia). congruence.
  - intros ->. unfold entry_page in Hoff. rewrite Z.add_comm, Z.mod_add, Hb in Hoff by (done || lia). congruence.
Qed.

(** ** Releasing the pages of a process *)

(** The owners after a process has released its pages: each of them is free or,
    if it is taken to be lent, of process 1. *)
Definition released (pid : Z) (o o' : option Z) : Prop :=
  if decide (o = Some pid) then o' = None \/ o' = Some 1 else o' = o.

Lemma sat_mem_read s a x (Q : Memory -> Z -> Prop) (X : Memory -> Error -> Prop) :
  (forall v, Q x v) -> sat (mem_read s a x) Q X.
Proof. intros HQ. unfold mem_read. destruct (translate _ _ _ _); [apply HQ | done]. Qed.

Lemma release_owner_spec s phys x :
  sat (release_owner s phys x) (fun x' o => x' = x /\ (o = None \/ o = Some 1)) (fun _ _ => False).
Proof.
  unfold release_owner, lent_at. sat_step. sat_step. sat_step. destruct (negb (_ =? 0)).
  { repeat sat_step. by auto. }
  sat_step. apply sat_mem_read. intros l1. destruct (negb _); [repeat sat_step; by auto |].
  sat_step. apply sat_mem_read. intros e. repeat sat_step. destruct (has_flag e MMU_S); by auto.
Qed.

Section ReleaseLoop.
Context (get : Memory -> list (option Z)) (put : list (option Z) -> Memory -> Memory).
Context (to_address : Memory -> nat -> option Z) (s pid : Z).
Context (get_put : forall l x, get (put l x) = l) (put_get : forall x, put (get x) x = x).
Context (put_put : forall l l' x, put l (put l' x) = put l x).

Lemma release_loop n start x :
  sat (for_each (seq start n) (release_entry get put to_address s pid) x)
    (fun x' _ => exists l, x' = put l x /\ length l = length (get x) /\
       forall i o, get x !! i = Some o -> exists o', l !! i = Some o' /\
         if decide (start <= i < start + n)%nat then released pid o o' else o' = o)
    (fun _ _ => False).
Proof.
  revert start x. induction n as [| n IH]; intros start x; cbn [seq for_each].
  { sat_step. exists (get x). split_and!; [by rewrite put_get | done |]. intros i o Hi. exists o.
    split; [done |]. rewrite decide_False; [done | lia]. }
  sat_step. unfold release_entry at 1. do 2 sat_step. unfold id.
  destruct (decide (get x !! start = Some (Some pid))) as [Hd | Hd].
  - sat_step. eapply sat_mono; [apply release_owner_spec | | done]. intros x1 o1 [-> Ho1]. sat_step.
    eapply sat_mono; [apply IH | | done]. intros x2 [] (l & -> & Hlen & Hl). exists l.
    rewrite put_put. rewrite get_put, length_insert in Hlen. split_and!; [done | done |].
    intros i o Hi. destruct (decide (i = start)) as [-> | Hne].
    + rewrite get_put in Hl. specialize (Hl start o1).
      rewrite list_lookup_insert_eq in Hl by (by eapply lookup_lt_Some).
      destruct (Hl eq_refl) as (o' & Ho' & Hc). exists o'. split; [done |].
      rewrite decide_False in Hc by lia. rewrite decide_True by lia. unfold released.
      rewrite decide_True by congruence. by subst.
    + rewrite get_put in Hl. specialize (Hl i o). rewrite list_lookup_insert_ne in Hl by done.
      destruct (Hl Hi) as (o' & Ho' & Hc). exists o'. split; [done |].
      repeat case_decide; done || lia.
  - sat_step. eapply sat_mono; [apply IH | | done]. intros x2 [] (l & -> & Hlen & Hl). exists l.
    split_and!; [done | done |]. intros i o Hi. destruct (Hl i o Hi) as (o' & Ho' & Hc).
    exists o'. split; [done |]. destruct (decide (i = start)) as [-> |].
    + rewrite decide_False in Hc by lia. rewrite decide_True by lia. unfold released.
      rewrite decide_False by congruence. done.
    + repeat case_decide; done || lia.
Qed.
End ReleaseLoop.

(** The owners in the table [l'] after the process [pid] has released its pages
    of the table [l]. *)
Definition all_released (pid : Z) (l l' : list (option Z)) : Prop :=
  length l' = length l /\
  forall i o, l !! i = Some o -> exists o', l' !! i = Some o' /\ released pid o o'.

Lemma release_table get put to_address s pid x :
  (forall l x, get (put l x) = l) -> (forall x, put (get x) x = x) ->
  (forall l l' x, put l (put l' x) = put l x) ->
  sat (for_each (seq 0 (length (get x))) (release_entry get put to_address s pid) x)
    (fun x' _ => exists l, x' = put l x /\ all_released pid (get x) l) (fun _ _ => False).
Proof.
  intros H1 H2 H3. eapply sat_mono; [by apply release_loop | | done].
  intros x' [] (l & -> & Hlen & Hl). exists l. split; [done |]. split; [done |].
  intros i o Hi. destruct (Hl i o Hi) as (o' & Ho' & Hc). exists o'. split; [done |].
  rewrite decide_True in Hc; [done |]. apply lookup_lt_Some in Hi. lia.
Qed.

Lemma release_all_ok s pid x :
  sat (release_all s pid x)
    (fun x' _ => exists l e, x' = set_extra e (set_allocations l x) /\
       all_released pid (MEMORY_ALLOCATIONS x) l /\ all_released pid (EXTRA_ALLOCATIONS x) e)
    (fun _ _ => False).
Proof.
  unfold release_all. do 3 sat_step. unfold id.
  eapply sat_mono; [apply release_table; by intros; destruct x0 | | done]. intros x1 [] (l & -> & Hl).
  change (EXTRA_ALLOCATIONS x) with (EXTRA_ALLOCATIONS (set_allocations l x)).
  eapply sat_mono; [apply release_table; by intros; destruct x0 | | done]. intros x2 [] (e & -> & He).
  eauto.
Qed.

#[export] Instance memory_laws : MemLaws Memory.
Proof.
  split.
  - intros s a x. cbn. unfold mem_read. destruct (translate _ _ _ _); eauto.
  - intros s a v x. cbn. unfold mem_write. destruct (translate _ _ _ _); eauto.
  - intros s v x x'. by apply mem_write_read.
  - intros pid x. cbn. unfold alloc_page. repeat case_if; done.
  - intros addr pid action x. cbn. unfold claim_release_move. repeat case_if; done.
  - intros s pid x H. change (release_all s pid x = RStuck) in H.
    pose proof (release_all_ok s pid x) as Hs. by rewrite H in Hs.
Qed.

(** The function of the memory agrees with the one of the page tables. *)
Lemma page_is_lent_agrees (m : Machine Memory) addr :
  page_is_lent addr m
  = match lent_at (satp m) addr (memory m) with
    | ROk _ b => ROk m b
    | RErr _ e => RErr m e
    | RPanic => RPanic
    | RStuck => RStuck
    end.
Proof.
  unfold page_is_lent, lent_at, pagetable_entry, ok, bind, rd, with_memory, zoom, gets, mm_read.
  cbn. unfold mem_read. destruct (negb (Z.land addr 3 =? 0)); [done |].
  destruct (translate _ _ _ _) as [p |]; [| done]. destruct m as [s c t i sp x]. cbn.
  destruct (negb (has_flag _ MMU_VALID)); [done |]. unfold ret. cbn.
  by destruct (translate _ _ _ _).
Qed.

(** ** A small memory, for concrete runs

    The address spaces of the processes 1, 2 and 3, with eight pages each: the
    root table, the leaf tables of the two windows, the page of the process, a
    leaf table for the first 4 MiB, two pages of the user at 4096 and 8192, and a
    page of the kernel at 12288.  Forty pages are free. *)

Definition example_page (i : Z) : Z := 1073741824 + i * 4096.

Definition example_satp (pid : Z) : Z :=
  2147483648 + pid * 4194304 + example_page (8 * (pid - 1)) / 4096.

Definition example_space (pid : Z) : list (Z * Z) :=
  let page i := example_page (8 * (pid - 1) + i) in
  let user := Z.lor space_flags MMU_USER in
  [ (page 0 + 1021 * 4, make_entry (page 1) MMU_VALID);
    (page 0 + 1022 * 4, make_entry (page 2) MMU_VALID);
    (page 0, make_entry (page 4) MMU_VALID);
    (page 1 + 1021 * 4, make_entry (page 1) space_flags);
    (page 1 + 1022 * 4, make_entry (page 2) space_flags);
    (page 1, make_entry (page 4) space_flags);
    (page 2, make_entry (page 0) space_flags);
    (page 2 + 4, make_entry (page 3) space_flags);
    (page 4 + 4, make_entry (page 5) user);
    (page 4 + 8, make_entry (page 6) user);
    (page 4 + 12, make_entry (page 7) space_flags) ].

Definition example_memory : Memory :=
  mk_Memory 1073741824 262144 24
    (replicate 8 (Some 1) ++ replicate 8 (Some 2) ++ replicate 8 (Some 3) ++ replicate 40 None)
    [] [] (list_to_map (example_space 1 ++ example_space 2 ++ example_space 3)).

(** ** Termination *)

(** C31. Mapping a page ends.  A leaf table that is missing is made by mapping a page
    for it, and the leaf table of the window for the tables can be missing then:
    in every memory and for every address there are at most three nested calls, so
    the recursion returns, fails or panics, and more fuel does not change its
    result. *)
Theorem map_page_terminates (fuel : nat) pid phys virt flags user (m : Machine Memory) :
  map_page pid phys virt flags user m <> RStuck
  /\ map_page_inner (fuel + 3) pid phys virt flags user m = map_page pid phys virt flags user m.
Proof.
  assert (H : map_page pid phys virt flags user m <> RStuck).
  { intros E. pose proof (mem_op_map_page (fun _ => True) pid phys virt flags user m) as Hs. by rewrite E in Hs. }
  split; [done |]. induction fuel as [| fuel IH]; [done |].
  cbn [Nat.add]. rewrite <- IH. apply map_page_more. by rewrite IH.
Qed.
