(* ===== verification/TableWords.v ===== *)
(** * Page tables as words of memory

    How the tables of an address space lie in memory, how the kernel reaches them
    through the windows, and what a write to them changes.  An address space is
    abstracted to a function from virtual pages to entries; [holds] says that the
    memory holds a collection of address spaces, whose tables are different pages
    and not free.  The allocator is abstracted to the list of free pages.

    The tables of the last 4 MiB, which all address spaces share, are never
    changed and not part of the abstraction. *)

From Stdlib Require Import ZArith Lia Bool.
From stdpp Require Import base numbers list option gmap.
From S2P Require Import Prelude.
From S2P Require Import Abi.
From S2P Require Import Machine.
From S2P Require Import Paging.
From S2P Require Import MemoryManager.
From S2P Require Import MemoryFacts.
From S2P Require Import Memory.

#[local] Open Scope Z_scope.
#[local] Open Scope kernel_scope.

(** ** Addresses and entries *)

Lemma vpn_split a b off :
  0 <= a < 1024 -> 0 <= b < 1024 -> 0 <= off < 4096 ->
  let virt := a * 4194304 + b * 4096 + off in
  vpn1 virt = a /\ vpn0 virt = b /\ Z.land virt 4095 = off.
Proof.
  intros Ha Hb Ho virt. unfold vpn1, vpn0, shr32. change (22 mod 32) with 22. change (12 mod 32) with 12.
  rewrite !(land_mask _ 10), (land_mask _ 12), !shiftr_div by (done || lia).
  change (2 ^ 22) with 4194304. change (2 ^ 12) with 4096. change (2 ^ 10) with 1024. unfold virt.
  split_and!.
  - rewrite <- (Z.div_unique _ 4194304 a (b * 4096 + off)) by lia. apply Z.mod_small. lia.
  - rewrite <- (Z.div_unique _ 4096 (a * 1024 + b) off) by lia. rewrite Z.add_comm, Z.mod_add by lia.
    apply Z.mod_small. lia.
  - symmetry. apply (Z.mod_unique _ _ (a * 1024 + b)); lia.
Qed.

Lemma l1_entry_split v : l1_entry v = 1022 * 4194304 + 0 * 4096 + v * 4.
Proof. unfold l1_entry, PAGE_TABLE_ROOT_OFFSET. lia. Qed.

Lemma l0_entry_split v1 v0 : l0_entry v1 v0 = 1021 * 4194304 + v1 * 4096 + v0 * 4.
Proof. unfold l0_entry, l0_table, PAGE_TABLE_OFFSET, PAGE_SIZE. lia. Qed.

Lemma shl32_small a n : 0 <= n < 32 -> 0 <= a * 2 ^ n < 4294967296 -> shl32 a n = a * 2 ^ n.
Proof. intros Hn Ha. unfold shl32. rewrite Z.mod_small, Z.shiftl_mul_pow2, u32_id by lia. done. Qed.

(** An entry for a page below 4 GiB. *)
Lemma make_leaf_value p f :
  0 <= p < 4294967296 -> 0 <= f < 1024 -> make_leaf p f = p / 4096 * 1024 + f.
Proof.
  intros Hp Hf. unfold make_leaf, shr32. change (22 mod 32) with 22. change (12 mod 32) with 12.
  rewrite (land_mask _ 12), (land_mask _ 10), !shiftr_div by (done || lia).
  change (2 ^ 22) with 4194304. change (2 ^ 12) with 4096. change (2 ^ 10) with 1024.
  assert (H1 : 0 <= p / 4194304 < 1024) by (split; [apply Z.div_pos | apply Z.div_lt_upper_bound]; lia).
  pose proof (Z.mod_pos_bound (p / 4096) 1024 ltac:(lia)) as H0.
  rewrite (Z.mod_small (p / 4194304)) by lia.
  rewrite (shl32_small _ 20), (shl32_small _ 10) by lia.
  rewrite <- Z.lor_assoc, <- !Z.shiftl_mul_pow2 by lia.
  rewrite (lor_shiftl_add _ f 10), lor_shiftl_add by lia.
  pose proof (Z.div_mod (p / 4096) 1024 ltac:(lia)) as Hd. rewrite Z.div_div in Hd by lia.
  change (4096 * 1024) with 4194304 in Hd. lia.
Qed.

Lemma make_leaf_page p f :
  0 <= p < 4294967296 -> p mod 4096 = 0 -> 0 <= f < 1024 -> entry_page (make_leaf p f) = p.
Proof.
  intros Hp Ha Hf. rewrite make_leaf_value by done. unfold entry_page. rewrite shiftr_div by lia.
  rewrite Z.div_add_l, (Z.div_small f) by lia. pose proof (Z.div_mod p 4096 ltac:(lia)). lia.
Qed.

Lemma make_leaf_flag p f g : 0 <= g < 1024 -> Z.land (make_leaf p f) g = Z.land f g.
Proof.
  intros Hg. apply Z.bits_inj'. intros i Hi. rewrite !Z.land_spec. unfold make_leaf. rewrite !Z.lor_spec.
  destruct (Z.lt_ge_cases i 10) as [Hlt | Hge].
  - unfold shl32. rewrite !Z.mod_small by lia. unfold u32, wrap, modulus.
    rewrite !Z.mod_pow2_bits_low, !Z.shiftl_spec_low by lia. done.
  - rewrite (testbit_above g 10) by (lia || done). by rewrite !andb_false_r.
Qed.

Lemma has_flag_make_leaf p f g : 0 <= g < 1024 -> has_flag (make_leaf p f) g = has_flag f g.
Proof. intros Hg. unfold has_flag. by rewrite make_leaf_flag. Qed.

(** The entry of a root table has no flag but VALID. *)
Lemma make_entry_leaf p : 0 <= p < 4294967296 -> make_entry p MMU_VALID = make_leaf p MMU_VALID.
Proof.
  intros Hp. rewrite make_leaf_value by (done || unfold MMU_VALID; lia). unfold make_entry, shr32, MMU_VALID.
  change (12 mod 32) with 12. rewrite shiftr_div by lia. change (2 ^ 12) with 4096.
  assert (0 <= p / 4096 < 1048576) by (split; [apply Z.div_pos | apply Z.div_lt_upper_bound]; lia).
  rewrite shl32_small, <- Z.shiftl_mul_pow2, lor_shiftl_add by lia. done.
Qed.

(** ** The allocator

    The free pages of the machine in the order of their addresses; a page is
    always taken from the front. *)

Fixpoint free_of (base : Z) (l : list (option Z)) : list Z :=
  match l with
  | [] => []
  | None :: l => base :: free_of (base + 4096) l
  | Some _ :: l => free_of (base + 4096) l
  end.

Definition free_pages (x : Memory) : list Z := free_of (ram_start x) (MEMORY_ALLOCATIONS x).

Record memory_ok (x : Memory) : Prop := {
  mo_start : 0 <= ram_start x /\ ram_start x mod 4096 = 0;
  mo_length : length (MEMORY_ALLOCATIONS x) = Z.to_nat (ram_size x / PAGE_SIZE);
  mo_end : ram_start x + Z.of_nat (length (MEMORY_ALLOCATIONS x)) * 4096 <= 4294967296;
  mo_last : (last_ram_page x <= length (MEMORY_ALLOCATIONS x))%nat
}.

Lemma free_of_app base l1 l2 :
  free_of base (l1 ++ l2) = free_of base l1 ++ free_of (base + Z.of_nat (length l1) * 4096) l2.
Proof.
  revert base. induction l1 as [| o l1 IH]; intros base; cbn [app free_of length].
  { by rewrite Z.add_0_r. }
  rewrite IH. replace (base + 4096 + Z.of_nat (length l1) * 4096)
    with (base + Z.of_nat (S (length l1)) * 4096) by lia. by destruct o.
Qed.

Lemma free_of_taken base l : Forall is_Some l -> free_of base l = [].
Proof. intros Hl. revert base. induction Hl as [| o l [pid ->] Hl IH]; intros base; cbn; auto. Qed.

Lemma free_of_elem base l p :
  p ∈ free_of base l -> exists i, (i < length l)%nat /\ p = base + Z.of_nat i * 4096.
Proof.
  revert base. induction l as [| o l IH]; intros base Hp; cbn [free_of] in Hp; [by apply elem_of_nil in Hp |].
  assert (Hl : p ∈ free_of (base + 4096) l -> exists i, (i < length (o :: l))%nat /\ p = base + Z.of_nat i * 4096).
  { intros (i & Hi & ->)%IH. exists (S i). cbn [length]. split; lia. }
  destruct o; [auto |]. apply elem_of_cons in Hp as [-> | Hp]; [| auto]. exists 0%nat. cbn [length]. lia.
Qed.

Lemma find_free (pre l : list (option Z)) :
  let f := fun i => match (pre ++ l) !! i with Some None => true | _ => false end in
  match List.find f (seq (length pre) (length l)) with
  | Some i => exists l1 l2, l = l1 ++ None :: l2 /\ i = (length pre + length l1)%nat /\ Forall is_Some l1
  | None => Forall is_Some l
  end.
Proof.
  revert pre. induction l as [| o l IH]; intros pre f; cbn [length seq List.find]; [constructor |].
  unfold f at 1. rewrite list_lookup_middle by done. destruct o as [pid |].
  - specialize (IH (pre ++ [Some pid])). rewrite <- app_assoc, length_app, Nat.add_1_r in IH. cbn [app] in IH.
    unfold f. cbv zeta in IH. revert IH. destruct (List.find _ _) as [i |].
    + intros (l1 & l2 & -> & -> & Hl). exists (Some pid :: l1), l2. cbn [length].
      split_and!; [done | lia | by constructor].
    + by constructor.
  - exists [], l. cbn [length]. split_and!; [done | lia | constructor].
Qed.

(** [alloc_page] takes the first free page. *)
Lemma alloc_page_free pid x :
  memory_ok x ->
  match free_pages x with
  | [] => alloc_page pid x = RErr x OutOfMemory
  | p :: rest =>
      exists x', alloc_page pid x = ROk x' p /\ free_pages x' = rest /\ memory_ok x' /\ words x' = words x
  end.
Proof.
  intros [[Hs0 Hs] Hlen Hend Hlast]. unfold alloc_page. rewrite <- Hlen.
  rewrite (Nat.max_r _ _ Hlast), !Nat.leb_refl, Nat.sub_diag. cbn [andb negb seq app].
  pose proof (find_free [] (MEMORY_ALLOCATIONS x)) as Hf. cbn [app length] in Hf. cbv zeta in Hf.
  unfold free_pages. revert Hf. destruct (List.find _ _) as [i |].
  - intros (l1 & l2 & E & -> & Hl). cbn [Nat.add]. rewrite E in *.
    rewrite free_of_app, (free_of_taken _ l1) by done. cbn [app free_of].
    rewrite length_app in Hend, Hlen, Hlast. cbn [length] in Hend, Hlen, Hlast.
    eexists. split_and!.
    + f_equal. unfold add32, mul32, PAGE_SIZE.
      rewrite (u32_id (Z.of_nat _ * _)), u32_id by lia. lia.
    + cbn. rewrite insert_app_r_alt, Nat.sub_diag by done. cbn. rewrite free_of_app, (free_of_taken _ l1) by done. done.
    + split; cbn; rewrite ?length_insert, ?E, ?length_app; cbn [length]; lia || done.
    + done.
  - intros Hl. by rewrite free_of_taken.
Qed.

(** ** Tables in memory *)

Definition root_entry (s v1 : Z) (x : Memory) : Z := word (satp_root s + v1 * 4) x.
Definition has_table (s v1 : Z) (x : Memory) : bool := has_flag (root_entry s v1 x) MMU_VALID.
Definition table (s v1 : Z) (x : Memory) : Z := entry_page (root_entry s v1 x).
Definition leaf (s v1 v0 : Z) (x : Memory) : Z := word (table s v1 x + v0 * 4) x.

(** The entry [e] lets the kernel load and store in [page]. *)
Definition window_entry (e page : Z) : Prop :=
  has_flag e MMU_VALID = true /\ permitted true e = true /\ entry_page e = page.

(** The kernel reaches [page] at the virtual page [v0] of the 4 MiB number [v1]. *)
Record reaches (s v1 v0 page : Z) (x : Memory) : Prop := {
  re_mode : Z.testbit s 31 = true;
  re_table : has_table s v1 x = true;
  re_pointer : is_leaf (root_entry s v1 x) = false;
  re_window : window_entry (leaf s v1 v0 x) page
}.

Definition poke (p v : Z) (x : Memory) : Memory :=
  set_words (if v =? 0 then delete p (words x) else <[p := v]> (words x)) x.

Lemma word_poke p v a x : word a (poke p v x) = if decide (a = p) then v else word a x.
Proof. apply word_write. Qed.

Lemma word_poke_ne p v a x : a <> p -> word a (poke p v x) = word a x.
Proof. intros Ha. by rewrite word_poke, decide_False. Qed.

Lemma translate_reaches store s v1 v0 off page x :
  0 <= v1 < 1024 -> 0 <= v0 < 1024 -> 0 <= off < 4096 -> reaches s v1 v0 page x ->
  translate store s (v1 * 4194304 + v0 * 4096 + off) x = Some (page + off).
Proof.
  intros H1 H0 Ho [Hm Ht Hp (Hv & Hw & He)]. unfold translate, walk_leaf, walk_root.
  destruct (vpn_split v1 v0 off H1 H0 Ho) as (-> & -> & ->). rewrite Hm. cbn [negb].
  fold (root_entry s v1 x). unfold has_table in Ht. rewrite Ht. cbn [negb]. rewrite Hp.
  fold (table s v1 x). fold (leaf s v1 v0 x). rewrite Hv, He. unfold permitted in *.
  apply andb_true_iff in Hw as [[-> Hw]%andb_true_iff ->]. cbn [negb orb] in Hw. rewrite Hw.
  by destruct store.
Qed.

Lemma reaches_poke s v1 v0 page p v x :
  p <> satp_root s + v1 * 4 -> p <> table s v1 x + v0 * 4 ->
  reaches s v1 v0 page x -> reaches s v1 v0 page (poke p v x).
Proof.
  intros Hr Hl [? Ht Hp Hw].
  assert (E : root_entry s v1 (poke p v x) = root_entry s v1 x) by (by apply word_poke_ne).
  split; unfold has_table, leaf, table in *; rewrite ?E; try done. by rewrite word_poke_ne.
Qed.

(** Only words differ. *)
Definition words_only (x x' : Memory) : Prop := exists w, x' = set_words w x.

Lemma words_only_refl x : words_only x x.
Proof. exists (words x). by destruct x. Qed.

Lemma words_only_trans x1 x2 x3 : words_only x1 x2 -> words_only x2 x3 -> words_only x1 x3.
Proof. intros [w ->] [w' ->]. by exists w'. Qed.

Lemma words_only_poke p v x : words_only x (poke p v x).
Proof. by eexists. Qed.

Lemma words_only_free x x' : words_only x x' -> free_pages x' = free_pages x.
Proof. by intros [w ->]. Qed.

Lemma words_only_ok x x' : words_only x x' -> memory_ok x -> memory_ok x'.
Proof. intros [w ->] [? ? ? ?]. by split. Qed.

(** Words of different pages have different addresses. *)
Lemma page_word_inj p p' i j :
  p mod 4096 = 0 -> p' mod 4096 = 0 -> 0 <= i < 1024 -> 0 <= j < 1024 ->
  p + i * 4 = p' + j * 4 -> p = p' /\ i = j.
Proof.
  intros Hp Hp' Hi Hj E. pose proof (Z.div_mod p 4096 ltac:(lia)). pose proof (Z.div_mod p' 4096 ltac:(lia)). lia.
Qed.

Lemma satp_root_aligned s : satp_root s mod 4096 = 0.
Proof. apply Z.mod_mul. lia. Qed.

Lemma entry_page_aligned e : entry_page e mod 4096 = 0.
Proof. apply Z.mod_mul. lia. Qed.

Lemma table_aligned s v1 x : table s v1 x mod 4096 = 0.
Proof. apply entry_page_aligned. Qed.

Section Access.
Implicit Types (m : Machine Memory).

Lemma rd_reaches m v1 v0 off page :
  0 <= v1 < 1024 -> 0 <= v0 < 1024 -> 0 <= off < 4096 -> reaches (satp m) v1 v0 page (memory m) ->
  rd (v1 * 4194304 + v0 * 4096 + off) m = ROk m (word (page + off) (memory m)).
Proof.
  intros H1 H0 Ho Hr. unfold rd, bind, gets, with_memory, zoom, mm_read. cbn. unfold mem_read.
  rewrite (translate_reaches false _ _ _ _ _ _ H1 H0 Ho Hr). by destruct m.
Qed.

Lemma wr_reaches m v1 v0 off page v :
  0 <= v1 < 1024 -> 0 <= v0 < 1024 -> 0 <= off < 4096 -> reaches (satp m) v1 v0 page (memory m) ->
  wr (v1 * 4194304 + v0 * 4096 + off) v m = ROk (set_memory (poke (page + off) v (memory m)) m) tt.
Proof.
  intros H1 H0 Ho Hr. unfold wr, bind, gets, with_memory, zoom, mm_write. cbn. unfold mem_write.
  by rewrite (translate_reaches true _ _ _ _ _ _ H1 H0 Ho Hr).
Qed.

(** [bzero] over words of a page that the kernel reaches, if the page is not
    one of the tables of its own translation. *)
Lemma bzero_reaches v1 v0 page n : forall start m,
  0 <= v1 < 1024 -> 0 <= v0 < 1024 -> (start + n <= 1024)%nat ->
  reaches (satp m) v1 v0 page (memory m) ->
  page mod 4096 = 0 -> page <> satp_root (satp m) -> page <> table (satp m) v1 (memory m) ->
  exists x',
    for_each (map (fun i => v1 * 4194304 + v0 * 4096 + Z.of_nat i * 4) (seq start n)) (fun a => wr a 0) m
    = ROk (set_memory x' m) tt /\
    words_only (memory m) x' /\
    (forall i, (start <= i < start + n)%nat -> word (page + Z.of_nat i * 4) x' = 0) /\
    (forall q, (forall i, (start <= i < start + n)%nat -> q <> page + Z.of_nat i * 4) ->
               word q x' = word q (memory m)).
Proof.
  induction n as [| n IH]; intros start m H1 H0 Hn Hr Ha Hroot Htab; cbn [seq map for_each].
  { exists (memory m). split_and!; [by destruct m | apply words_only_refl | lia | done]. }
  unfold bind at 1. rewrite (wr_reaches m v1 v0 _ page) by (done || lia).
  set (m1 := set_memory _ m). assert (Hr1 : reaches (satp m1) v1 v0 page (memory m1)).
  { apply reaches_poke; [| | done]; intros E; apply page_word_inj in E as [? _]; try done; try lia;
      [apply satp_root_aligned | apply table_aligned]. }
  assert (Ht1 : table (satp m1) v1 (memory m1) = table (satp m) v1 (memory m)).
  { unfold table, root_entry. cbn. rewrite word_poke_ne; [done |].
    intros E. apply page_word_inj in E as [? _]; try done; try lia. apply satp_root_aligned. }
  destruct (IH (S start) m1) as (x' & Ef & Hw & Hz & Ho); [done | done | lia | done | done | done | by rewrite Ht1 |].
  exists x'. rewrite Ef. split_and!.
  - by destruct m.
  - exact (words_only_trans _ (memory m1) _ (words_only_poke (page + Z.of_nat start * 4) 0 _) Hw).
  - intros i Hi. destruct (decide (i = start)) as [-> |]; [| apply Hz; lia].
    rewrite Ho; [cbn; by rewrite word_poke, decide_True | intros j Hj; lia].
  - intros q Hq. rewrite Ho by (intros; apply Hq; lia). cbn. apply word_poke_ne, Hq. lia.
Qed.
End Access.

Lemma zeropage_reaches v1 v0 page (m : Machine Memory) :
  0 <= v1 < 1024 -> 0 <= v0 < 1024 -> reaches (satp m) v1 v0 page (memory m) ->
  page mod 4096 = 0 -> page <> satp_root (satp m) -> page <> table (satp m) v1 (memory m) ->
  exists x', zeropage (v1 * 4194304 + v0 * 4096) m = ROk (set_memory x' m) tt /\
    words_only (memory m) x' /\
    (forall i, 0 <= i < 1024 -> word (page + i * 4) x' = 0) /\
    (forall q, (forall i, 0 <= i < 1024 -> q <> page + i * 4) -> word q x' = word q (memory m)).
Proof.
  intros H1 H0 Hr Ha Hroot Htab.
  destruct (bzero_reaches v1 v0 page 1024 0 m) as (x' & E & Hw & Hz & Ho); try done.
  exists x'. split_and!; [| done | |].
  - rewrite <- E. unfold zeropage, bzero, step_by, PAGE_SIZE.
    replace (_ + 4096 - _ + 4 - 1) with 4099 by lia. done.
  - intros i Hi. rewrite <- (Hz (Z.to_nat i)) by lia. f_equal. lia.
  - intros q Hq. apply Ho. intros i Hi. apply Hq. lia.
Qed.

(** ** The abstract address spaces *)

Record Space : Type := mk_Space { sp_table : Z -> bool; sp_entry : Z -> Z -> Z }.

Definition set_entry (v1 v0 e : Z) (A : Space) : Space :=
  mk_Space (sp_table A) (fun a b => if decide (a = v1 /\ b = v0) then e else sp_entry A a b).

(** The flags of a leaf table in the window. *)
Definition window_flags : Z := Z.lor (Z.lor (Z.lor (Z.lor MMU_W MMU_R) MMU_VALID) MMU_D) MMU_A.

(** A new, empty leaf table at the physical address [p], which also appears in
    the window. *)
Definition add_table (v1 p : Z) (A : Space) : Space :=
  mk_Space (fun a => if decide (a = v1) then true else sp_table A a)
    (fun a b => if decide (a = v1) then 0
                else if decide (a = 1021 /\ b = v1) then make_leaf p window_flags
                else sp_entry A a b).

(** The entries that hold the windows. *)
Definition window (v1 v0 : Z) : Prop := v1 = 1021 \/ v1 = 1022 /\ v0 = 0.

Record space_rep (s : Z) (x : Memory) (A : Space) : Prop := {
  sr_mode : Z.testbit s 31 = true;
  sr_table v1 : 0 <= v1 < 1023 -> has_table s v1 x = sp_table A v1;
  sr_entry v1 v0 : 0 <= v1 < 1023 -> 0 <= v0 < 1024 -> sp_table A v1 = true ->
    leaf s v1 v0 x = sp_entry A v1 v0;
  sr_pointer v1 : 0 <= v1 < 1023 -> sp_table A v1 = true -> is_leaf (root_entry s v1 x) = false;
  sr_windows : sp_table A 1021 = true /\ sp_table A 1022 = true;
  sr_root : window_entry (sp_entry A 1022 0) (satp_root s);
  sr_window v1 : 0 <= v1 < 1023 ->
    if sp_table A v1 then window_entry (sp_entry A 1021 v1) (table s v1 x)
    else has_flag (sp_entry A 1021 v1) MMU_VALID = false
}.

(** The tables of an address space, and their pages. *)
Inductive table_slot : Type := Root | Leaf (v1 : Z).

Definition page_of (s : Z) (k : table_slot) (x : Memory) : Z :=
  match k with Root => satp_root s | Leaf v1 => table s v1 x end.
Definition live_slot (s : Z) (k : table_slot) (x : Memory) : Prop :=
  match k with Root => True | Leaf v1 => 0 <= v1 < 1023 /\ has_table s v1 x = true end.

(** The memory holds the address spaces [sp]: their tables are different pages,
    none of which is free. *)
Record holds (x : Memory) (sp : gmap Z Space) : Prop := {
  ho_ok : memory_ok x;
  ho_space s A : sp !! s = Some A -> space_rep s x A;
  ho_distinct s k s' k' : is_Some (sp !! s) -> is_Some (sp !! s') -> live_slot s k x -> live_slot s' k' x ->
    page_of s k x = page_of s' k' x -> s = s' /\ k = k';
  ho_taken s k : is_Some (sp !! s) -> live_slot s k x -> page_of s k x ∉ free_pages x
}.

Lemma page_of_aligned s k x : page_of s k x mod 4096 = 0.
Proof. destruct k; [apply satp_root_aligned | apply table_aligned]. Qed.

(** ** Accesses through the windows *)

Section Holds.
Context (x : Memory) (sp : gmap Z Space) (H : holds x sp).

(** The words of two tables are different. *)
Lemma slot_word_ne s k i s' k' j :
  is_Some (sp !! s) -> is_Some (sp !! s') -> live_slot s k x -> live_slot s' k' x ->
  0 <= i < 1024 -> 0 <= j < 1024 -> (s, k, i) <> (s', k', j) ->
  page_of s k x + i * 4 <> page_of s' k' x + j * 4.
Proof.
  intros Hs Hs' Hk Hk' Hi Hj Hne E. apply page_word_inj in E as [E ->]; [| apply page_of_aligned..| done | done].
  destruct (ho_distinct _ _ H s k s' k') as [-> ->]; done.
Qed.

Lemma reaches_root s A : sp !! s = Some A -> reaches s 1022 0 (satp_root s) x.
Proof.
  intros Hs. destruct (ho_space _ _ H s A Hs) as [Hm Ht He Hp [_ Hw] Hr _].
  split; [done | by rewrite Ht | by apply Hp | by rewrite He].
Qed.

Lemma reaches_table s A v1 :
  sp !! s = Some A -> 0 <= v1 < 1023 -> sp_table A v1 = true -> reaches s 1021 v1 (table s v1 x) x.
Proof.
  intros Hs Hv Ht1. destruct (ho_space _ _ H s A Hs) as [Hm Ht He Hp [Hw _] _ Hwin].
  split; [done | by rewrite Ht | by apply Hp |]. rewrite He by (done || lia).
  specialize (Hwin v1 Hv). by rewrite Ht1 in Hwin.
Qed.
End Holds.

(** ** Changes of the tables *)

Lemma live_leaf x sp s A v1 :
  holds x sp -> sp !! s = Some A -> 0 <= v1 < 1023 -> sp_table A v1 = true -> live_slot s (Leaf v1) x.
Proof. intros H Hs Hv Ht. split; [done |]. by rewrite (sr_table _ _ _ (ho_space _ _ H s A Hs)). Qed.

(** If no root table changes, the tables stay where they are. *)
Section SameRoots.
Context (x x' : Memory) (sp : gmap Z Space).
Context (Hroot : forall s v1, is_Some (sp !! s) -> 0 <= v1 < 1024 -> root_entry s v1 x' = root_entry s v1 x).

Lemma same_has_table s v1 : is_Some (sp !! s) -> 0 <= v1 < 1024 -> has_table s v1 x' = has_table s v1 x.
Proof. intros Hs Hv. unfold has_table. by rewrite Hroot. Qed.

Lemma same_table s v1 : is_Some (sp !! s) -> 0 <= v1 < 1024 -> table s v1 x' = table s v1 x.
Proof. intros Hs Hv. unfold table. by rewrite Hroot. Qed.

Lemma same_live s k : is_Some (sp !! s) -> live_slot s k x' -> live_slot s k x.
Proof.
  intros Hs. destruct k as [| v1]; [done |]. intros [Hv Ht]. split; [done |].
  by rewrite <- same_has_table by (done || lia).
Qed.

Lemma same_page_of s k : is_Some (sp !! s) -> live_slot s k x' -> page_of s k x' = page_of s k x.
Proof. intros Hs. destruct k as [| v1]; [done |]. intros [Hv _]. by apply same_table; [| lia]. Qed.
End SameRoots.

Lemma root_entry_poke_leaf x sp s A v1 v0 e s' u :
  holds x sp -> sp !! s = Some A -> 0 <= v1 < 1023 -> sp_table A v1 = true -> 0 <= v0 < 1024 ->
  is_Some (sp !! s') -> 0 <= u < 1024 ->
  root_entry s' u (poke (table s v1 x + v0 * 4) e x) = root_entry s' u x.
Proof.
  intros H Hs Hv1 Ht Hv0 Hs' Hu. assert (live_slot s (Leaf v1) x) by by eapply live_leaf.
  apply word_poke_ne. by apply (slot_word_ne x sp H s' Root u s (Leaf v1) v0).
Qed.

(** Writing an entry that is not part of a window. *)
Lemma holds_set_entry x sp s A v1 v0 e :
  holds x sp -> sp !! s = Some A -> 0 <= v1 < 1023 -> sp_table A v1 = true -> 0 <= v0 < 1024 ->
  ~ window v1 v0 ->
  holds (poke (table s v1 x + v0 * 4) e x) (<[s := set_entry v1 v0 e A]> sp).
Proof.
  intros H Hs Hv1 Ht Hv0 Hw. set (x' := poke _ e x).
  assert (Hlive : live_slot s (Leaf v1) x) by by eapply live_leaf.
  assert (His : forall s', is_Some (<[s := set_entry v1 v0 e A]> sp !! s') -> is_Some (sp !! s')).
  { intros s'. rewrite lookup_insert_is_Some. intros [<- | [_ ?]]; [by eexists | done]. }
  assert (Hroot : forall s' u, is_Some (sp !! s') -> 0 <= u < 1024 -> root_entry s' u x' = root_entry s' u x).
  { intros s' u Hs' Hu. by eapply root_entry_poke_leaf. }
  assert (Hleaf : forall s' u w, is_Some (sp !! s') -> live_slot s' (Leaf u) x -> 0 <= w < 1024 ->
            leaf s' u w x' = if decide (s' = s /\ u = v1 /\ w = v0) then e else leaf s' u w x).
  { intros s' u w Hs' Hu Hw'. unfold leaf. rewrite (same_table x x' sp Hroot) by (done || apply Hu || (destruct Hu; lia)).
    case_decide as Hd.
    - destruct Hd as (-> & -> & ->). unfold x'. by rewrite word_poke, decide_True.
    - apply word_poke_ne. apply (slot_word_ne x sp H s' (Leaf u) w s (Leaf v1) v0); try done. intros [= -> -> ->]. by apply Hd. }
  assert (Hsp : forall s' A', sp !! s' = Some A' -> space_rep s' x' (if decide (s' = s) then set_entry v1 v0 e A' else A')).
  { intros s' A' Hs'. assert (HS : is_Some (sp !! s')) by by eexists.
    destruct (ho_space _ _ H s' A' Hs') as [Hm Htab Hent Hptr Hwins Hr Hwin].
    assert (E : forall u, sp_table (if decide (s' = s) then set_entry v1 v0 e A' else A') u = sp_table A' u)
      by (intros; by case_decide).
    assert (Ew : forall u w, window u w ->
              sp_entry (if decide (s' = s) then set_entry v1 v0 e A' else A') u w = sp_entry A' u w).
    { intros u w Huw. case_decide; [| done]. cbn. rewrite decide_False; [done |]. intros [-> ->]. done. }
    split; try done.
    - intros u Hu. rewrite E, <- Htab by done. apply (same_has_table x x' sp); (done || lia).
    - intros u w Hu Hw'. rewrite E. intros Hut.
      rewrite Hleaf, Hent by (done || (eapply live_leaf; eauto)).
      destruct (decide (s' = s)) as [-> |]; cbn; repeat case_decide; intuition congruence.
    - intros u Hu. rewrite E. intros. rewrite Hroot by (done || lia). by apply Hptr.
    - by rewrite !E.
    - rewrite Ew; [done | by right].
    - intros u Hu. rewrite E, Ew by (by left). rewrite (same_table x x' sp) by (done || lia). by apply Hwin. }
  split.
  - eapply words_only_ok; [apply words_only_poke | apply H].
  - intros s' A' Hs'. destruct (decide (s' = s)) as [-> | Hne].
    + rewrite lookup_insert_eq in Hs'. injection Hs' as <-. specialize (Hsp s A Hs). by rewrite decide_True in Hsp.
    + rewrite lookup_insert_ne in Hs' by done. specialize (Hsp s' A' Hs'). by rewrite decide_False in Hsp.
  - intros s1 k1 s2 k2 H1%His H2%His Hk1 Hk2 E.
    rewrite !(same_page_of x x' sp Hroot) in E by done.
    by apply (ho_distinct _ _ H); [| | eapply same_live.. |].
  - intros s1 k1 H1%His Hk1. rewrite (same_page_of x x' sp Hroot) by done.
    rewrite (words_only_free x x') by apply words_only_poke. apply (ho_taken _ _ H); [done | by eapply same_live].
Qed.

Lemma free_pages_elem x p :
  memory_ok x -> p ∈ free_pages x -> 0 <= p < 4294967296 /\ p mod 4096 = 0.
Proof.
  intros [[Hs0 Hs] _ He _] (i & Hi & ->)%free_of_elem. split; [lia |]. by rewrite Z.mod_add.
Qed.

Lemma free_of_rest base l p rest : free_of base l = p :: rest -> p ∉ rest.
Proof.
  revert base. induction l as [| [pid |] l IH]; intros base; cbn; [done | apply IH |].
  intros [= -> <-] (i & _ & E)%free_of_elem. lia.
Qed.

(** A new leaf table [p], which was free: its root entry and its entry in the
    window are written, and it is zeroed. *)
Section NewTable.
Context (x x' : Memory) (sp : gmap Z Space) (s : Z) (A : Space) (v1 p : Z) (rest : list Z).
Context (H : holds x sp) (Hs : sp !! s = Some A) (Hv1 : 0 <= v1 < 1023) (Hno : sp_table A v1 = false).
Context (Hfree : free_pages x = p :: rest) (Hok' : memory_ok x') (Hfree' : free_pages x' = rest).
Context (Hroot : word (satp_root s + v1 * 4) x' = make_entry p MMU_VALID).
Context (Hwin : word (table s 1021 x + v1 * 4) x' = make_leaf p window_flags).
Context (Hzero : forall i, 0 <= i < 1024 -> word (p + i * 4) x' = 0).
Context (Hrest : forall q, q <> satp_root s + v1 * 4 -> q <> table s 1021 x + v1 * 4 ->
  (forall i, 0 <= i < 1024 -> q <> p + i * 4) -> word q x' = word q x).

Lemma new_table_range : 0 <= p < 4294967296 /\ p mod 4096 = 0.
Proof. apply (free_pages_elem x); [apply H |]. rewrite Hfree. by left. Qed.

Lemma new_table_fresh s' k : is_Some (sp !! s') -> live_slot s' k x -> page_of s' k x <> p.
Proof. intros Hs' Hk E. apply (ho_taken _ _ H s' k Hs' Hk). rewrite Hfree, E. by left. Qed.

(** The words of the old tables. *)
Lemma new_table_word s' k i :
  is_Some (sp !! s') -> live_slot s' k x -> 0 <= i < 1024 ->
  (s', k, i) <> (s, Root, v1) -> (s', k, i) <> (s, Leaf 1021, v1) ->
  word (page_of s' k x + i * 4) x' = word (page_of s' k x + i * 4) x.
Proof.
  intros Hs' Hk Hi Hr Hl. assert (HA : live_slot s (Leaf 1021) x).
  { eapply live_leaf; [done | done | lia |]. apply (sr_windows _ _ _ (ho_space _ _ H s A Hs)). }
  apply Hrest.
  - apply (slot_word_ne x sp H s' k i s Root v1); done || lia.
  - apply (slot_word_ne x sp H s' k i s (Leaf 1021) v1); done || lia.
  - intros j Hj E. apply page_word_inj in E as [E _]; [| apply page_of_aligned | apply new_table_range | done | done].
    by apply (new_table_fresh s' k).
Qed.

Lemma new_table_root s' u :
  is_Some (sp !! s') -> 0 <= u < 1024 ->
  root_entry s' u x' = if decide (s' = s /\ u = v1) then make_entry p MMU_VALID else root_entry s' u x.
Proof.
  intros Hs' Hu. case_decide as Hd; [by destruct Hd as [-> ->] |].
  apply (new_table_word s' Root u); try done. intros [= -> ->]. by apply Hd.
Qed.

Lemma new_table_entry : entry_page (make_entry p MMU_VALID) = p /\
  has_flag (make_entry p MMU_VALID) MMU_VALID = true /\ is_leaf (make_entry p MMU_VALID) = false.
Proof.
  destruct new_table_range. rewrite make_entry_leaf by done. unfold is_leaf.
  rewrite make_leaf_page, !has_flag_make_leaf by (done || unfold MMU_VALID; cbn; lia). done.
Qed.

Lemma new_table_window : window_entry (make_leaf p window_flags) p.
Proof.
  destruct new_table_range. unfold window_entry, permitted.
  rewrite make_leaf_page, !has_flag_make_leaf by (done || cbn; lia). done.
Qed.

(** The old tables stay, and [p] is a table of [s]. *)
Lemma new_table_tables s' u :
  is_Some (sp !! s') -> 0 <= u < 1023 ->
  if decide (s' = s /\ u = v1) then has_table s' u x' = true /\ table s' u x' = p
  else has_table s' u x' = has_table s' u x /\ table s' u x' = table s' u x.
Proof.
  intros Hs' Hu. unfold has_table, table. rewrite new_table_root by (done || lia).
  case_decide; [| done]. destruct new_table_entry as (? & ? & _). done.
Qed.

Lemma new_table_leaf s' u w :
  is_Some (sp !! s') -> live_slot s' (Leaf u) x -> 0 <= w < 1024 -> ~ (s' = s /\ u = v1) ->
  leaf s' u w x' = if decide (s' = s /\ u = 1021 /\ w = v1) then make_leaf p window_flags else leaf s' u w x.
Proof.
  intros Hs' Hu Hw Hne. pose proof (new_table_tables s' u Hs' (proj1 Hu)) as Ht.
  rewrite decide_False in Ht by done. destruct Ht as [_ Ht]. unfold leaf. rewrite Ht.
  case_decide as Hd; [by destruct Hd as (-> & -> & ->) |].
  apply (new_table_word s' (Leaf u) w); try done. intros [= -> -> ->]. by apply Hd.
Qed.

Lemma new_table_space_other s' A' : sp !! s' = Some A' -> s' <> s -> space_rep s' x' A'.
Proof.
  intros Hs' Hne. assert (HS : is_Some (sp !! s')) by by eexists.
  assert (Hsame : forall u, 0 <= u < 1023 -> has_table s' u x' = has_table s' u x /\ table s' u x' = table s' u x).
  { intros u Hu. pose proof (new_table_tables s' u HS Hu) as Ht. rewrite decide_False in Ht by tauto. done. }
  destruct (ho_space _ _ H s' A' Hs') as [Hm Htab Hent Hptr Hwins Hr Hw]. split; try done.
  - intros u Hu. by rewrite <- Htab, (proj1 (Hsame u Hu)).
  - intros u w Hu Hw' Hut. rewrite new_table_leaf; [| done | by eapply live_leaf | done | tauto].
    rewrite decide_False by tauto. by apply Hent.
  - intros u Hu Hut. rewrite new_table_root by (done || lia). rewrite decide_False by tauto. by apply Hptr.
  - intros u Hu. rewrite (proj2 (Hsame u Hu)). by apply Hw.
Qed.

Lemma new_table_space : space_rep s x' (add_table v1 p A).
Proof.
  assert (HS : is_Some (sp !! s)) by by eexists.
  destruct (ho_space _ _ H s A Hs) as [Hm Htab Hent Hptr [Hw1 Hw2] Hr Hw].
  assert (Hn1 : v1 <> 1021) by congruence. assert (Hn2 : v1 <> 1022) by congruence.
  destruct new_table_entry as (Hp & Hv & Hl).
  assert (Ht : forall u, 0 <= u < 1023 -> has_table s u x' = if decide (u = v1) then true else sp_table A u).
  { intros u Hu. pose proof (new_table_tables s u HS Hu) as Ht. rewrite <- Htab by done.
    repeat case_decide; tauto. }
  assert (Hp' : forall u, 0 <= u < 1023 -> table s u x' = if decide (u = v1) then p else table s u x).
  { intros u Hu. pose proof (new_table_tables s u HS Hu) as Hp'. repeat case_decide; tauto. }
  split; cbn [add_table sp_table sp_entry].
  - done.
  - apply Ht.
  - intros u w Hu Hw'. case_decide as Hd; [intros _ | intros Hut].
    + subst u. unfold leaf. rewrite Hp', decide_True by done. by apply Hzero.
    + rewrite new_table_leaf; [| done | by eapply live_leaf | done | tauto].
      rewrite Hent by done. repeat case_decide; tauto.
  - intros u Hu. rewrite new_table_root by (done || lia). case_decide as Hd.
    + intros _. rewrite decide_True by done. done.
    + rewrite decide_False by tauto. by apply Hptr.
  - rewrite !decide_False by done. done.
  - rewrite !decide_False by (done || lia). done.
  - intros u Hu. rewrite Hp' by done. rewrite (decide_False (P := 1021 = v1)) by done.
    destruct (decide (u = v1)) as [-> |].
    + rewrite decide_True by done. apply new_table_window.
    + rewrite decide_False by tauto. by apply Hw.
Qed.

Lemma new_table_live s' k :
  is_Some (sp !! s') -> live_slot s' k x' ->
  (s' = s /\ k = Leaf v1) \/ live_slot s' k x /\ page_of s' k x' = page_of s' k x.
Proof.
  intros Hs'. destruct k as [| u]; [by right |]. intros [Hu Ht].
  pose proof (new_table_tables s' u Hs' Hu) as Hc. case_decide as Hd.
  - left. by destruct Hd as [-> ->].
  - right. destruct Hc as [Hc Hp]. split; [split; [done | congruence] | done].
Qed.

Lemma new_table_page : page_of s (Leaf v1) x' = p.
Proof.
  pose proof (new_table_tables s v1 ltac:(by eexists) Hv1) as Hc. rewrite decide_True in Hc by done. apply Hc.
Qed.

Lemma holds_add_table : holds x' (<[s := add_table v1 p A]> sp).
Proof.
  assert (His : forall s', is_Some (<[s := add_table v1 p A]> sp !! s') -> is_Some (sp !! s')).
  { intros s'. rewrite lookup_insert_is_Some. intros [<- | [_ ?]]; [by eexists | done]. }
  split; [done | | |].
  - intros s' A' Hs'. destruct (decide (s' = s)) as [-> | Hne].
    + rewrite lookup_insert_eq in Hs'. injection Hs' as <-. apply new_table_space.
    + rewrite lookup_insert_ne in Hs' by done. by apply new_table_space_other.
  - intros s1 k1 s2 k2 H1%His H2%His L1 L2 E.
    destruct (new_table_live s1 k1 H1 L1) as [[-> ->] | [L1' E1]],
      (new_table_live s2 k2 H2 L2) as [[-> ->] | [L2' E2]].
    + done.
    + rewrite new_table_page, E2 in E. by destruct (new_table_fresh s2 k2 H2 L2').
    + rewrite new_table_page, E1 in E. by destruct (new_table_fresh s1 k1 H1 L1').
    + rewrite E1, E2 in E. by apply (ho_distinct _ _ H).
  - intros s1 k1 H1%His L1. rewrite Hfree'. destruct (new_table_live s1 k1 H1 L1) as [[-> ->] | [L1' ->]].
    + rewrite new_table_page. by eapply free_of_rest.
    + intros Hin. apply (ho_taken _ _ H s1 k1 H1 L1'). rewrite Hfree. by right.
Qed.
End NewTable.
