(* ===== verification/PageTableSpec.v ===== *)
(** * What the page tables promise, and that they keep the promise

    The abstract view of the virtual memory is a collection of address spaces,
    each a function from virtual pages to entries, and the list of the free pages
    of the machine.  [rep] relates it to the memory by the predicate [holds] of
    TableWords.v.  Each operation of Paging.v refines an abstract one, so every
    sequence of operations does. *)

From Stdlib Require Import ZArith Lia Bool.
From stdpp Require Import base numbers list option gmap.
From S2P Require Import Prelude.
From S2P Require Import Abi.
From S2P Require Import Machine.
From S2P Require Import Paging.
From S2P Require Import MemoryManager.
From S2P Require Import MemoryFacts.
From S2P Require Import Memory.
From S2P Require Import TableWords.

#[local] Open Scope Z_scope.
#[local] Open Scope kernel_scope.

(** ** The specification

    The state of the specification has the address spaces, the free pages and the
    address space that is active; its operations are runs like those of the
    kernel. *)

Record PageTables : Type := mk_PageTables { spaces : gmap Z Space; free : list Z; active : Z }.

#[local] Notation "'aop' A" := (PageTables -> outcome Error PageTables A) (at level 10, A at level 9).
#[local] Notation "'op' A" := (Machine Memory -> outcome Error (Machine Memory) A) (at level 10, A at level 9).

(** The active address space; there is always one. *)
Definition space : aop Space := fun a => unwrap (spaces a !! active a) a.
Definition put_space (A : Space) : aop unit :=
  modify (fun a => mk_PageTables (<[active a := A]> (spaces a)) (free a) (active a)).

Definition spec_activate (s : Z) : aop unit := modify (fun a => mk_PageTables (spaces a) (free a) s).

(** A page of memory. *)
Definition spec_alloc : aop Z := fun a =>
  match free a with
  | [] => RErr a OutOfMemory
  | p :: rest => ROk (mk_PageTables (spaces a) rest (active a)) p
  end.

Definition spec_has_table (virt : Z) : aop bool := A <- space;; ret (sp_table A (vpn1 virt)).

(** The entry of a page whose table exists. *)
Definition spec_entry (virt : Z) : aop Z :=
  A <- space;; assert_ (sp_table A (vpn1 virt)) ;;; ret (sp_entry A (vpn1 virt) (vpn0 virt)).
Definition spec_set (virt e : Z) : aop unit :=
  A <- space;; assert_ (sp_table A (vpn1 virt)) ;;; put_space (set_entry (vpn1 virt) (vpn0 virt) e A).

(** The table of a page, which is made if it does not exist. *)
Definition spec_table (virt : Z) : aop unit :=
  A <- space;;
  if sp_table A (vpn1 virt) then ret tt
  else p <- spec_alloc;; put_space (add_table (vpn1 virt) p A).

(** ** Simulation *)

Record rep (m : Machine Memory) (a : PageTables) : Prop := {
  rep_active : satp m = active a;
  rep_space : is_Some (spaces a !! active a);
  rep_free : free_pages (memory m) = free a;
  rep_holds : holds (memory m) (spaces a);
  rep_pid s : is_Some (spaces a !! s) -> is_Some (PID_new (u8 (satp_asid s)))
}.

(** The run [r] of the kernel does what the run [r'] of the specification does. *)
Definition sim {A} (r : outcome Error (Machine Memory) A) (r' : outcome Error PageTables A) : Prop :=
  match r' with
  | ROk a v => exists m, r = ROk m v /\ rep m a
  | RErr a e => exists m, r = RErr m e /\ rep m a
  | RPanic => r = RPanic
  | RStuck => False
  end.

Lemma sim_bind {A B} (f : op A) (f' : aop A) (k : A -> op B) (k' : A -> aop B) m a :
  sim (f m) (f' a) ->
  (forall m1 a1 v, f' a = ROk a1 v -> rep m1 a1 -> sim (k v m1) (k' v a1)) ->
  sim (bind f k m) (bind f' k' a).
Proof.
  unfold bind. intros Hf Hk. destruct (f' a) as [a1 v | a1 e | |] eqn:E; cbn [sim] in Hf.
  - destruct Hf as (m1 & -> & Hm). by apply Hk.
  - destruct Hf as (m1 & -> & Hm). by exists m1.
  - by rewrite Hf.
  - done.
Qed.

Lemma sim_ret {A} (v : A) m a : rep m a -> sim (ret v m) (ret v a).
Proof. intros Hm. by exists m. Qed.

Lemma sim_fail {A} e m a : rep m a -> sim (fail (A := A) e m) (fail e a).
Proof. intros Hm. by exists m. Qed.

Lemma sim_assert b m a : rep m a -> sim (assert_ b m) (assert_ b a).
Proof. intros Hm. destruct b; [by exists m | done]. Qed.

Lemma sim_attempt {A} (f : op A) (f' : aop A) m a : sim (f m) (f' a) -> sim (attempt f m) (attempt f' a).
Proof. unfold attempt. destruct (f' a); cbn [sim]; [intros (m1 & -> & ?); eauto.. | by intros -> | done]. Qed.

Lemma sim_ok {A} (f : op A) (f' : aop A) m a : sim (f m) (f' a) -> sim (ok f m) (ok f' a).
Proof. unfold ok. destruct (f' a); cbn [sim]; [intros (m1 & -> & ?); eauto.. | by intros -> | done]. Qed.

Lemma sim_map_err {A} g (f : op A) (f' : aop A) m a : sim (f m) (f' a) -> sim (map_err g f m) (map_err g f' a).
Proof. unfold map_err. destruct (f' a); cbn [sim]; [intros (m1 & -> & ?); eauto.. | by intros -> | done]. Qed.

Lemma sim_unwrap_result {A} (f : op A) (f' : aop A) m a :
  sim (f m) (f' a) -> sim (unwrap_result f m) (unwrap_result f' a).
Proof. unfold unwrap_result. destruct (f' a); cbn [sim]; [intros (m1 & -> & ?); eauto | by intros (m1 & -> & _) | by intros -> | done]. Qed.

Lemma sim_ok_or {A} (o : option A) e m a : rep m a -> sim (ok_or o e m) (ok_or o e a).
Proof. intros Hm. destruct o; by exists m. Qed.

Definition addr_ok (virt : Z) : Prop := vpn1 virt < 1023 /\ ~ window (vpn1 virt) (vpn0 virt).

Lemma has_valid e : (Z.land e 1 =? 0) = negb (has_flag e MMU_VALID).
Proof. unfold has_flag, MMU_VALID. by rewrite negb_involutive. Qed.

Lemma rep_active_space m a : rep m a -> exists A, spaces a !! active a = Some A /\ space_rep (satp m) (memory m) A.
Proof. intros Hm. destruct (rep_space _ _ Hm) as [A HA]. exists A. rewrite (rep_active _ _ Hm). split; [done |]. by apply (rep_holds _ _ Hm). Qed.

Lemma rep_space_run m a A : rep m a -> spaces a !! active a = Some A -> space a = ROk a A.
Proof. intros Hm HA. unfold space, unwrap. by rewrite HA. Qed.

Lemma rd_root m a v1 :
  rep m a -> 0 <= v1 < 1024 -> rd (l1_entry v1) m = ROk m (root_entry (satp m) v1 (memory m)).
Proof.
  intros Hm Hv. destruct (rep_space _ _ Hm) as [A HA]. rewrite l1_entry_split.
  apply rd_reaches; [lia | lia | lia |]. rewrite (rep_active _ _ Hm). by eapply reaches_root; [apply Hm | exact HA].
Qed.

(** Whether the table of a page exists. *)
Lemma sim_root {B} (k : Z -> op B) (k' : bool -> aop B) virt m a :
  rep m a -> vpn1 virt < 1023 ->
  (forall e, sim (k e m) (k' (has_flag e MMU_VALID) a)) ->
  sim (bind (rd (l1_entry (vpn1 virt))) k m) (bind (spec_has_table virt) k' a).
Proof.
  intros Hm Hv Hk. destruct (rep_active_space m a Hm) as (A & HA & HS). pose proof (vpn1_range virt).
  unfold bind at 1. rewrite (rd_root m a) by (done || lia).
  unfold bind, spec_has_table, space, unwrap, ret. unfold bind. rewrite HA.
  rewrite <- (sr_table _ _ _ HS) by lia. apply Hk.
Qed.

Lemma sim_entry virt m a :
  rep m a -> vpn1 virt < 1023 -> sim (rd (l0_entry (vpn1 virt) (vpn0 virt)) m) (spec_entry virt a).
Proof.
  intros Hm Hv. destruct (rep_active_space m a Hm) as (A & HA & HS).
  pose proof (vpn1_range virt). pose proof (vpn0_range virt). rewrite l0_entry_split.
  unfold spec_entry, bind. rewrite (rep_space_run m a A Hm HA). unfold assert_, ret.
  destruct (sp_table A (vpn1 virt)) eqn:Ht.
  - exists m. split; [| done]. erewrite rd_reaches; [| lia..|].
    2: { rewrite (rep_active _ _ Hm). eapply reaches_table; [apply Hm | exact HA | lia | done]. }
    f_equal. rewrite <- (sr_entry _ _ _ HS) by (done || lia). by rewrite <- (rep_active _ _ Hm).
  - unfold rd, bind, gets, with_memory, zoom, mm_read. cbn. unfold mem_read, translate, walk_leaf, walk_root.
    destruct (vpn_split 1021 (vpn1 virt) (vpn0 virt * 4)) as (-> & -> & _); [lia..|].
    destruct HS as [Hmode Htab Hent Hptr [Hw _] _ Hwin]. rewrite Hmode. cbn [negb].
    fold (root_entry (satp m) 1021 (memory m)). specialize (Htab 1021 ltac:(lia)). unfold has_table in Htab.
    rewrite Htab, Hw, Hptr by (done || lia). cbn [negb]. fold (table (satp m) 1021 (memory m)).
    fold (leaf (satp m) 1021 (vpn1 virt) (memory m)). rewrite Hent by (done || lia).
    specialize (Hwin (vpn1 virt) ltac:(lia)). rewrite Ht in Hwin. by rewrite Hwin.
Qed.

(** The state after a write to the memory. *)
Lemma rep_memory m a x' sp' fr' :
  rep m a -> free_pages x' = fr' -> holds x' sp' -> dom sp' = dom (spaces a) ->
  rep (set_memory x' m) (mk_PageTables sp' fr' (active a)).
Proof.
  intros Hm Hf Hh Hd. assert (Hs : forall s, is_Some (sp' !! s) <-> is_Some (spaces a !! s)).
  { intros s. by rewrite <- !elem_of_dom, Hd. }
  split; cbn; [apply Hm | apply Hs, Hm | done | done |]. intros s Hs'%Hs. by apply (rep_pid _ _ Hm).
Qed.

Lemma sim_set virt e m a :
  rep m a -> addr_ok virt -> (forall A, spaces a !! active a = Some A -> sp_table A (vpn1 virt) = true) ->
  sim (wr (l0_entry (vpn1 virt) (vpn0 virt)) e m) (spec_set virt e a).
Proof.
  intros Hm [Hv Hw] Ht. destruct (rep_active_space m a Hm) as (A & HA & HS). specialize (Ht A HA).
  pose proof (vpn1_range virt). pose proof (vpn0_range virt). rewrite l0_entry_split.
  unfold spec_set, bind. rewrite (rep_space_run m a A Hm HA). unfold assert_. rewrite Ht.
  unfold put_space, modify. cbn [sim]. eexists. split.
  - apply wr_reaches; [lia..|]. rewrite (rep_active _ _ Hm). eapply reaches_table; [apply Hm | exact HA | lia | done].
  - apply rep_memory; [done | | |].
    + rewrite (words_only_free (memory m)); [apply Hm | apply words_only_poke].
    + apply holds_set_entry; [apply Hm | done | lia | done | lia | done].
    + apply (dom_insert_lookup_L (spaces a)). by exists A.
Qed.

(** ** Making a leaf table *)

Lemma word_words x x' q : words x' = words x -> word q x' = word q x.
Proof. unfold word. by intros ->. Qed.

Lemma reaches_words s v1 v0 page x x' : words x' = words x -> reaches s v1 v0 page x -> reaches s v1 v0 page x'.
Proof.
  intros E [? ? ? ?]. assert (Hr : root_entry s v1 x' = root_entry s v1 x) by by apply word_words.
  split; unfold has_table, leaf, table in *; rewrite ?Hr; try done. by rewrite (word_words x).
Qed.

(** The call of [map_page_inner] for the window, whose table exists. *)
Lemma map_page_window n pid p v1 (m : Machine Memory) :
  0 <= v1 < 1023 -> reaches (satp m) 1022 0 (satp_root (satp m)) (memory m) ->
  reaches (satp m) 1021 1021 (table (satp m) 1021 (memory m)) (memory m) ->
  has_flag (leaf (satp m) 1021 v1 (memory m)) MMU_VALID = false ->
  map_page_inner (S n) pid p (l0_table v1) (flags_or FLAG_W FLAG_R) false m
  = ROk (set_memory (poke (table (satp m) 1021 (memory m) + v1 * 4) (make_leaf p window_flags) (memory m)) m) tt.
Proof.
  intros Hv Hroot Hwin Hinv. cbn [map_page_inner].
  assert (E : l0_table v1 = 1021 * 4194304 + v1 * 4096 + 0) by (unfold l0_table, PAGE_TABLE_OFFSET, PAGE_SIZE; lia).
  destruct (vpn_split 1021 v1 0 ltac:(lia) ltac:(lia) ltac:(lia)) as (E1 & E0 & Ea). rewrite <- E in E1, E0, Ea.
  rewrite E1, E0, Ea. unfold bind at 1. cbn [assert_ Z.eqb].
  unfold bind at 1. rewrite l1_entry_split, (rd_reaches m 1022 0 _ (satp_root (satp m))) by (done || lia).
  fold (root_entry (satp m) 1021 (memory m)). pose proof (re_table _ _ _ _ _ Hwin) as Ht. unfold has_table in Ht.
  rewrite Ht. cbn [negb]. unfold bind at 1, ret.
  unfold bind at 1. rewrite l0_entry_split, (rd_reaches m 1021 1021 _ (table (satp m) 1021 (memory m))) by (done || lia).
  fold (leaf (satp m) 1021 v1 (memory m)). rewrite has_valid, Hinv. cbn [negb].
  by rewrite (wr_reaches m 1021 1021 _ (table (satp m) 1021 (memory m))) by (done || lia).
Qed.

Section MakeTable.
Context (m : Machine Memory) (a : PageTables) (A : Space) (v1 p : Z) (rest : list Z).
Context (Hm : rep m a) (HA : spaces a !! active a = Some A) (Hv : 0 <= v1 < 1023) (Hno : sp_table A v1 = false).
Context (Hfree : free a = p :: rest).

#[local] Abbreviation s := (satp m).
#[local] Abbreviation x := (memory m).

Lemma make_table_space : spaces a !! s = Some A.
Proof. by rewrite (rep_active _ _ Hm). Qed.

Lemma make_table_pages : free_pages x = p :: rest.
Proof. by rewrite (rep_free _ _ Hm). Qed.

Lemma make_table_windows : v1 <> 1021 /\ v1 <> 1022.
Proof. destruct (sr_windows _ _ _ (ho_space _ _ (rep_holds _ _ Hm) _ _ make_table_space)). split; congruence. Qed.

(** Where a word of the tables is not. *)
Lemma make_table_ne k i k' j :
  live_slot s k x -> live_slot s k' x -> 0 <= i < 1024 -> 0 <= j < 1024 -> (k, i) <> (k', j) ->
  page_of s k x + i * 4 <> page_of s k' x + j * 4.
Proof.
  intros Hk Hk' Hi Hj Hne. pose proof make_table_space.
  apply (slot_word_ne x (spaces a)); [apply Hm | done..|]. congruence.
Qed.

Lemma make_table_live u : u = 1021 \/ u = 1022 -> live_slot s (Leaf u) x.
Proof.
  intros Hu. eapply live_leaf; [apply Hm | apply make_table_space | lia |].
  destruct (sr_windows _ _ _ (ho_space _ _ (rep_holds _ _ Hm) _ _ make_table_space)).
  by destruct Hu as [-> | ->].
Qed.

(** The memory when the page is allocated and its root entry is written. *)
Context (x1 : Memory) (Hx1 : words x1 = words x).

#[local] Abbreviation x2 := (poke (satp_root s + v1 * 4) (make_entry p MMU_VALID) x1).

Lemma make_table_table u : (u = 1021 \/ u = 1022) -> table s u x2 = table s u x.
Proof.
  intros Hu. destruct make_table_windows. unfold table, root_entry. rewrite word_poke_ne.
  - by rewrite (word_words x).
  - lia.
Qed.

Lemma make_table_reaches u w page :
  (u = 1021 \/ u = 1022) -> 0 <= w < 1024 -> reaches s u w page x -> reaches s u w page x2.
Proof.
  intros Hu Hw Hr. destruct make_table_windows. apply reaches_poke; [| | by eapply reaches_words].
  - lia.
  - intros E. unfold table, root_entry in E. rewrite (word_words x) in E by done.
    fold (root_entry s u x) in E. fold (table s u x) in E.
    apply (make_table_ne Root v1 (Leaf u) w); try done || lia. by apply make_table_live.
Qed.

Lemma make_table_leaf : leaf s 1021 v1 x2 = leaf s 1021 v1 x.
Proof.
  unfold leaf. rewrite make_table_table by lia. rewrite word_poke_ne.
  - by apply word_words.
  - apply (make_table_ne (Leaf 1021) v1 Root v1); try done || lia. apply make_table_live. lia.
Qed.

(** The memory when the window is mapped, too. *)
#[local] Abbreviation x3 := (poke (table s 1021 x + v1 * 4) (make_leaf p window_flags) x2).

Lemma make_table_root3 : root_entry s 1021 x3 = root_entry s 1021 x2.
Proof.
  apply word_poke_ne. apply (make_table_ne Root 1021 (Leaf 1021) v1); try done || lia. apply make_table_live. lia.
Qed.

Lemma make_table_reaches_new : reaches s 1021 v1 p x3.
Proof.
  assert (Hr : reaches s 1021 1021 (table s 1021 x) x2).
  { apply make_table_reaches; [lia | lia |]. eapply reaches_table; [apply Hm | apply make_table_space | lia |].
    apply (sr_windows _ _ _ (ho_space _ _ (rep_holds _ _ Hm) _ _ make_table_space)). }
  pose proof make_table_root3 as E. destruct Hr as [? ? ? _]. split; unfold has_table, leaf, table in *; rewrite ?E; try done.
  fold (table s 1021 x2). rewrite make_table_table, word_poke, decide_True by (done || lia).
  apply (new_table_window x (spaces a) p rest); [apply Hm | apply make_table_pages].
Qed.

Lemma make_table_fresh k : live_slot s k x -> page_of s k x <> p.
Proof.
  apply (new_table_fresh x (spaces a) p rest); [apply Hm | apply make_table_pages |]. by rewrite make_table_space.
Qed.

(** The memory when the new table is zeroed. *)
Lemma make_table_holds x4 :
  memory_ok x4 -> free_pages x4 = rest ->
  (forall i, 0 <= i < 1024 -> word (p + i * 4) x4 = 0) ->
  (forall q, (forall i, 0 <= i < 1024 -> q <> p + i * 4) -> word q x4 = word q x3) ->
  holds x4 (<[s := add_table v1 p A]> (spaces a)).
Proof.
  intros Hok Hf Hz Ho.
  assert (Hout : forall k i, live_slot s k x -> 0 <= i < 1024 ->
            forall j, 0 <= j < 1024 -> page_of s k x + i * 4 <> p + j * 4).
  { intros k i Hk Hi j Hj E. apply page_word_inj in E as [E _]; [| apply page_of_aligned | | done | done].
    - by apply (make_table_fresh k).
    - apply (new_table_range x (spaces a) p rest); [apply Hm | apply make_table_pages]. }
  assert (Hl : live_slot s (Leaf 1021) x) by (apply make_table_live; lia).
  apply (holds_add_table x x4 (spaces a) s A v1 p rest); try done.
  - apply Hm.
  - apply make_table_space.
  - apply make_table_pages.
  - rewrite Ho by (apply (Hout Root v1); done || lia). rewrite word_poke_ne.
    + by rewrite word_poke, decide_True.
    + apply (make_table_ne Root v1 (Leaf 1021) v1); done || lia.
  - rewrite Ho by (apply (Hout (Leaf 1021) v1); done || lia). by rewrite word_poke, decide_True.
  - intros q H1 H2 H3. rewrite Ho, !word_poke_ne by done. by apply word_words.
Qed.
End MakeTable.

(** The page that becomes a table is allocated, entered into the root table and
    the window, and zeroed. *)
Lemma make_table_run m a A v1 p rest n pid :
  rep m a -> spaces a !! active a = Some A -> 0 <= v1 < 1023 -> sp_table A v1 = false -> free a = p :: rest ->
  exists x',
    (l0_pt_phys <- with_memory (mm_alloc_page pid);;
     wr (l1_entry v1) (make_entry l0_pt_phys MMU_VALID) ;;;
     map_page_inner (S n) pid l0_pt_phys (l0_table v1) (flags_or FLAG_W FLAG_R) false ;;;
     zeropage (l0_table v1)) m = ROk (set_memory x' m) tt /\
    free_pages x' = rest /\ holds x' (<[active a := add_table v1 p A]> (spaces a)).
Proof.
  intros Hm HA Hv Hno Hfree.
  pose proof (alloc_page_free pid (memory m) (ho_ok _ _ (rep_holds _ _ Hm))) as Halloc.
  rewrite (make_table_pages m a p rest Hm Hfree) in Halloc. destruct Halloc as (x1 & Ea & Hf1 & Ho1 & Hw1).
  set (m1 := set_memory x1 m). set (x2 := poke (satp_root (satp m) + v1 * 4) (make_entry p MMU_VALID) x1).
  set (m2 := set_memory x2 m).
  assert (E1 : with_memory (mm_alloc_page pid) m = ROk m1 p)
    by (unfold with_memory, zoom; cbn; by rewrite Ea).
  assert (E2 : wr (l1_entry v1) (make_entry p MMU_VALID) m1 = ROk m2 tt).
  { rewrite l1_entry_split, (wr_reaches m1 1022 0 _ (satp_root (satp m))); [done | lia.. |].
    eapply (reaches_words _ _ _ _ (memory m)); [done |].
    eapply reaches_root; [apply Hm | by apply make_table_space]. }
  unfold bind at 1. rewrite E1. unfold bind at 1. rewrite E2.
  pose proof (make_table_space m a A Hm HA) as HAs.
  pose proof (ho_space _ _ (rep_holds _ _ Hm) _ _ HAs) as [_ Htab Hent _ [Hw1021 _] _ Hwin].
  assert (Et : table (satp m) 1021 x2 = table (satp m) 1021 (memory m))
    by (apply (make_table_table m a A v1 p Hm HA Hv Hno x1 Hw1); lia).
  assert (El : leaf (satp m) 1021 v1 x2 = leaf (satp m) 1021 v1 (memory m))
    by (apply (make_table_leaf m a A v1 p Hm HA Hv Hno x1 Hw1)).
  pose proof (make_table_reaches m a A v1 p Hm HA Hv Hno x1 Hw1) as Hr2. fold x2 in Hr2.
  unfold bind at 1. rewrite map_page_window; [| done | | |].
  2: { apply Hr2; [lia | lia |]. eapply reaches_root; [apply Hm | exact HAs]. }
  2: { cbn. rewrite Et. apply Hr2; [lia | lia |]. eapply reaches_table; [apply Hm | exact HAs | lia | done]. }
  2: { cbn. rewrite El, Hent by (done || lia). specialize (Hwin v1 Hv). by rewrite Hno in Hwin. }
  cbn [satp memory m2 set_memory]. rewrite Et. set (x3 := poke _ _ x2).
  pose proof (make_table_reaches_new m a A v1 p rest Hm HA Hv Hno Hfree x1 Hw1) as Hr3. fold x2 x3 in Hr3.
  pose proof (make_table_root3 m a A v1 p Hm HA Hv x1) as E3. fold x2 x3 in E3.
  destruct (new_table_range (memory m) (spaces a) p rest) as [_ Hal]; [apply Hm | exact (make_table_pages m a p rest Hm Hfree) |].
  destruct (zeropage_reaches 1021 v1 p (set_memory x3 m)) as (x4 & Ez & Hw4 & Hz & Ho); [lia | lia | done | done | | |].
  - intros E. by apply (make_table_fresh m a A p rest Hm HA Hfree Root).
  - intros E. cbn in E. unfold table in E. rewrite E3 in E. fold (table (satp m) 1021 x2) in E. rewrite Et in E.
    apply (make_table_fresh m a A p rest Hm HA Hfree (Leaf 1021)); [| done].
    apply (make_table_live m a A Hm HA). lia.
  - exists x4. replace (l0_table v1) with (1021 * 4194304 + v1 * 4096)
      by (unfold l0_table, PAGE_TABLE_OFFSET, PAGE_SIZE; lia).
    change (set_memory x3 m2) with (set_memory x3 m). rewrite Ez.
    assert (Hw : words_only x1 x4).
    { eapply words_only_trans; [eapply words_only_trans; [apply words_only_poke | apply words_only_poke] | exact Hw4]. }
    assert (Hf4 : free_pages x4 = rest) by (by rewrite (words_only_free x1)).
    split_and!; [done | done |]. rewrite <- (rep_active _ _ Hm).
    apply (make_table_holds m a A v1 p rest Hm HA Hv Hno Hfree x1 Hw1); try done.
    by eapply words_only_ok.
Qed.

(** ** The operations of the specification *)

Definition leaf_entry (phys : Z) (req_flags : MemoryFlags) (map_user : bool) : Z :=
  make_leaf phys (Z.lor (Z.lor (Z.lor (Z.lor (translate_flags req_flags) (flag_if map_user MMU_USER))
                                      MMU_VALID) MMU_D) MMU_A).

Definition spec_map (phys virt : Z) (req_flags : MemoryFlags) (map_user : bool) : aop unit :=
  assert_ (Z.land virt 4095 =? 0) ;;;
  spec_table virt ;;;
  e <- spec_entry virt;;
  if has_flag e MMU_VALID then fail MemoryInUse else spec_set virt (leaf_entry phys req_flags map_user).

(** The entry of a page, or the error [e] if its table does not exist. *)
Definition spec_entry_or (err : Error) (virt : Z) : aop Z :=
  b <- spec_has_table virt;; if negb b then fail err else spec_entry virt.
Definition spec_lookup (virt : Z) : aop Z :=
  if negb (Z.land virt 3 =? 0) then fail BadAlignment else spec_entry_or BadAddress virt.

Definition spec_hand (virt : Z) : aop unit :=
  e <- spec_entry_or BadAddress virt;;
  if has_flag e MMU_VALID then spec_set virt (Z.lor e MMU_USER) else fail BadAddress.

Definition spec_unmap (virt : Z) : aop Z :=
  e <- spec_lookup virt;; spec_set virt 0 ;;; ret (entry_phys e).

(** Run an operation in another address space. *)
Definition spec_in {A} (s : Z) (f : aop A) : aop A :=
  here <- gets active;;
  spec_activate s ;;;
  r <- attempt f;;
  spec_activate here ;;;
  match r with inl e => fail e | inr v => ret v end.

Definition spec_move (src_addr dest_pid dest_space dest_addr : Z) : aop unit :=
  e <- spec_lookup src_addr;;
  if negb (has_flag e MMU_VALID) then fail BadAddress
  else
    spec_set src_addr 0 ;;;
    spec_in dest_space (spec_map (entry_phys e) dest_addr (untranslate_flags e) (negb (dest_pid =? 1))) ;;;
    ret tt.

(** A page that is lent is marked as shared and no longer valid in its own
    address space. *)
Definition lent_entry (e : Z) : Z := Z.lor (Z.land e (not32 MMU_VALID)) MMU_S.
Definition lent_flags (e : Z) (mutable : bool) : MemoryFlags :=
  if mutable && has_flag (lent_entry e) MMU_W then flags_or FLAG_R FLAG_W else FLAG_R.

Definition spec_lend (src_addr dest_pid dest_space dest_addr : Z) (mutable : bool) : aop Z :=
  e <- spec_lookup src_addr;;
  if negb (has_flag e MMU_VALID) || has_flag e MMU_S then fail ShareViolation
  else
    spec_set src_addr (lent_entry e) ;;;
    spec_in dest_space (spec_map (entry_phys e) dest_addr (lent_flags e mutable) (negb (dest_pid =? 1))) ;;;
    ret (entry_phys e).

Definition returned_entry (e : Z) : Z := Z.lor (Z.land e (not32 (Z.lor MMU_S MMU_P))) MMU_VALID.

Definition spec_return (src_addr dest_space dest_addr : Z) : aop Z :=
  e <- spec_lookup src_addr;;
  if negb (has_flag e MMU_VALID) then fail ShareViolation
  else
    spec_set src_addr 0 ;;;
    here <- gets active;;
    spec_activate dest_space ;;;
    d <- unwrap_result (spec_lookup dest_addr);;
    assert_ (has_flag d MMU_S) ;;;
    spec_set dest_addr (returned_entry d) ;;;
    spec_activate here ;;;
    ret (entry_phys e).

Definition spec_virt_to_phys (virt : Z) : aop Z :=
  e <- spec_entry_or BadAddress virt;;
  if has_flag e MMU_S then fail ShareViolation
  else if has_flag e MMU_VALID then ret (entry_phys e)
  else if e =? 0 then fail BadAddress else fail MemoryInUse.

Definition spec_is_lent (virt : Z) : aop bool :=
  r <- ok (spec_lookup virt);; ret (match r with Some e => has_flag e MMU_S | None => false end).

(** The rights that a process asks to keep. *)
Definition stripped (e : Z) (flags : MemoryFlags) : option Z :=
  e ← strip_flag flags FLAG_X MMU_X e;
  e ← strip_flag flags FLAG_R MMU_R e;
  strip_flag flags FLAG_W MMU_W e.

Definition spec_update_flags (virt : Z) (flags : MemoryFlags) : aop unit :=
  if MemoryFlags_is_empty (flags_and flags (flags_or (flags_or FLAG_R FLAG_W) FLAG_X)) then fail MemoryInUse
  else
    e <- spec_entry_or OutOfMemory virt;;
    if has_flag e MMU_S then fail ShareViolation
    else e <- ok_or (stripped e flags) ShareViolation;; spec_set virt e.

Definition spec_reserve (virt : Z) (flags : MemoryFlags) : aop unit :=
  spec_table virt ;;;
  e <- spec_entry virt;;
  if has_flag e MMU_VALID then ret tt else spec_set virt (translate_flags flags).

(** A reserved page gets memory when it is first used. *)
Definition demand_flags (e : Z) : Z := Z.lor (Z.lor (Z.lor (Z.land e 1023) MMU_VALID) MMU_D) MMU_A.

Definition spec_ensure (address : Z) : aop Z :=
  s <- gets active;;
  if negb (MemoryMapping_is_kernel s) && (USER_AREA_END <=? address) then fail OutOfMemory
  else
    let virt := Z.land address (not32 4095) in
    e <- map_err (fun _ => BadAddress) (spec_lookup virt);;
    if has_flag e MMU_VALID then ret address
    else if (Z.land e 1023 =? 0) || has_flag e MMU_S then fail BadAddress
    else
      new_page <- unwrap_result spec_alloc;;
      assert_ (permitted true (demand_flags e)) ;;;
      spec_set virt (make_leaf new_page (Z.lor (demand_flags e) MMU_USER)) ;;;
      ret new_page.

(** ** Every operation refines its specification *)

(** What the steps of the specification keep: the address spaces that exist, and
    the one that is active. *)
Definition same_spaces (a a' : PageTables) : Prop :=
  dom (spaces a') = dom (spaces a) /\ active a' = active a.

Definition table_exists (virt : Z) (a : PageTables) : Prop :=
  forall A, spaces a !! active a = Some A -> sp_table A (vpn1 virt) = true.

Lemma spec_table_run virt a a' :
  is_Some (spaces a !! active a) -> spec_table virt a = ROk a' tt -> same_spaces a a' /\ table_exists virt a'.
Proof.
  intros [A HA]. unfold spec_table, bind, space, unwrap. rewrite HA.
  destruct (sp_table A (vpn1 virt)) eqn:Ht.
  - intros [= <-]. split; [by split |]. intros A' HA'. congruence.
  - unfold spec_alloc. destruct (free a) as [| p rest]; [done |]. intros [= <-]. cbn. split; [split; [| done] |].
    + apply (dom_insert_lookup_L (spaces a)). by exists A.
    + intros A'. cbn. rewrite lookup_insert_eq. intros [= <-]. cbn. by rewrite decide_True.
Qed.

Lemma spec_entry_run virt a a' e : spec_entry virt a = ROk a' e -> a' = a /\ table_exists virt a.
Proof.
  unfold spec_entry, bind, space, unwrap, assert_. destruct (spaces a !! active a) as [A |] eqn:HA; [| done].
  destruct (sp_table A (vpn1 virt)) eqn:Ht; [| done]. intros [= <- _]. split; [done |].
  intros A' HA'. congruence.
Qed.

Lemma sim_new_table virt n pid m a :
  rep m a -> vpn1 virt < 1023 -> (exists A, spaces a !! active a = Some A /\ sp_table A (vpn1 virt) = false) ->
  sim ((l0_pt_phys <- with_memory (mm_alloc_page pid);;
        wr (l1_entry (vpn1 virt)) (make_entry l0_pt_phys MMU_VALID) ;;;
        map_page_inner (S n) pid l0_pt_phys (l0_table (vpn1 virt)) (flags_or FLAG_W FLAG_R) false ;;;
        zeropage (l0_table (vpn1 virt))) m)
      (spec_table virt a).
Proof.
  intros Hm Hv (A & HA & Ht). pose proof (vpn1_range virt).
  unfold spec_table. unfold bind at 4. rewrite (rep_space_run m a A Hm HA), Ht. unfold bind at 4, spec_alloc.
  destruct (free a) as [| p rest] eqn:Hf.
  - pose proof (alloc_page_free pid (memory m) (ho_ok _ _ (rep_holds _ _ Hm))) as Ha.
    rewrite (rep_free _ _ Hm), Hf in Ha. exists m. split; [| done].
    unfold bind at 1, with_memory, zoom. cbn. rewrite Ha. by destruct m.
  - destruct (make_table_run m a A (vpn1 virt) p rest n pid) as (x' & E & Hf' & Hh); [done.. | lia | done | done |].
    exists (set_memory x' m). split; [done |]. cbn. apply rep_memory; [done | done | done |].
    apply (dom_insert_lookup_L (spaces a)). by exists A.
Qed.

Lemma sim_table {B} virt (mk : op unit) (k : op B) (k' : aop B) m a :
  rep m a -> vpn1 virt < 1023 ->
  ((exists A, spaces a !! active a = Some A /\ sp_table A (vpn1 virt) = false) ->
   sim (mk m) (spec_table virt a)) ->
  (forall m1 a1, rep m1 a1 -> same_spaces a a1 -> table_exists virt a1 -> sim (k m1) (k' a1)) ->
  sim ((l1 <- rd (l1_entry (vpn1 virt));; (if negb (has_flag l1 MMU_VALID) then mk else ret tt) ;;; k) m)
      ((spec_table virt ;;; k') a).
Proof.
  intros Hm Hv Hmk Hk. destruct (rep_active_space m a Hm) as (A & HA & HS). pose proof (vpn1_range virt).
  unfold bind at 1. rewrite (rd_root m a) by (done || lia).
  fold (has_table (satp m) (vpn1 virt) (memory m)). rewrite (sr_table _ _ _ HS) by lia.
  apply sim_bind.
  - destruct (sp_table A (vpn1 virt)) eqn:Ht; cbn [negb].
    + unfold spec_table, bind. rewrite (rep_space_run m a A Hm HA), Ht. by exists m.
    + apply Hmk. by exists A.
  - intros m1 a1 [] E H1. apply spec_table_run in E as [? ?]; [by apply Hk | apply Hm].
Qed.

Lemma sim_map pid phys virt flags user m a :
  rep m a -> addr_ok virt -> sim (map_page pid phys virt flags user m) (spec_map phys virt flags user a).
Proof.
  intros Hm Ha. unfold map_page, spec_map. cbn [map_page_inner].
  apply sim_bind; [by apply sim_assert |]. intros m0 a0 [] _ H0.
  apply sim_table; [done | apply Ha | intros; apply (sim_new_table virt 1); [done | apply Ha | done] |].
  intros m1 a1 H1 Hs Ht.
  apply sim_bind; [apply sim_entry; [done | apply Ha] |]. intros m2 a2 e [-> _]%spec_entry_run H2.
  rewrite has_valid. destruct (has_flag e MMU_VALID); cbn [negb]; [by apply sim_fail | by apply sim_set].
Qed.

(** A page whose table exists or not. *)
Lemma sim_entry_or {B} err virt (k : op B) (k1 : Z -> op B) (k' : Z -> aop B) m a :
  rep m a -> vpn1 virt < 1023 ->
  sim (k m) (RErr (A := B) a err) ->
  (forall m1 e, rep m1 a -> table_exists virt a -> sim (k1 e m1) (k' e a)) ->
  sim ((l1 <- rd (l1_entry (vpn1 virt));;
        if negb (has_flag l1 MMU_VALID) then k
        else e <- rd (l0_entry (vpn1 virt) (vpn0 virt));; k1 e) m)
      ((e <- spec_entry_or err virt;; k' e) a).
Proof.
  intros Hm Hv Herr Hk. unfold spec_entry_or. rewrite bind_assoc. apply sim_root; [done | done |].
  intros l1. destruct (has_flag l1 MMU_VALID); cbn [negb]; [| done].
  apply sim_bind; [by apply sim_entry |]. intros m1 a1 e [-> Ht]%spec_entry_run H1. by apply Hk.
Qed.

Lemma sim_lookup {B} virt (k : Z -> Z -> op B) (k' : Z -> aop B) m a :
  rep m a -> vpn1 virt < 1023 ->
  (forall m1 e, rep m1 a -> table_exists virt a ->
     sim (k (l0_entry (vpn1 virt) (vpn0 virt)) e m1) (k' e a)) ->
  sim ((entry <- pagetable_entry virt;; e <- rd entry;; k entry e) m) ((e <- spec_lookup virt;; k' e) a).
Proof.
  intros Hm Hv Hk. unfold pagetable_entry, spec_lookup. destruct (negb (Z.land virt 3 =? 0)); [by exists m |].
  rewrite bind_assoc. unfold spec_entry_or. rewrite bind_assoc. apply sim_root; [done | done |].
  intros l1. destruct (has_flag l1 MMU_VALID); cbn [negb]; [| by exists m].
  unfold bind at 1, ret. apply sim_bind; [by apply sim_entry |].
  intros m1 a1 e [-> Ht]%spec_entry_run H1. by apply Hk.
Qed.

Lemma sim_hand virt m a : rep m a -> addr_ok virt -> sim (hand_page_to_user virt m) (spec_hand virt a).
Proof.
  intros Hm Ha. apply sim_entry_or; [done | apply Ha | by exists m |]. intros m1 e H1 Ht.
  rewrite has_valid. destruct (has_flag e MMU_VALID); cbn [negb]; [by apply sim_set | by apply sim_fail].
Qed.

Lemma sim_unmap virt m a : rep m a -> addr_ok virt -> sim (unmap_page_inner virt m) (spec_unmap virt a).
Proof.
  intros Hm Ha. apply sim_lookup; [done | apply Ha |]. intros m1 e H1 Ht.
  apply sim_bind; [by apply sim_set |]. intros m2 a2 [] _ H2. by apply sim_ret.
Qed.

Lemma sim_activate s m a : rep m a -> is_Some (spaces a !! s) -> sim (MemoryMapping_activate s m) (spec_activate s a).
Proof.
  intros Hm Hs. exists (set_satp s m). split; [done |]. destruct Hm as [? ? Hf Hh Hp]. by split.
Qed.

Lemma spec_set_spaces virt e a a' : spec_set virt e a = ROk a' tt -> same_spaces a a'.
Proof.
  unfold spec_set, bind, space, unwrap, assert_. destruct (spaces a !! active a) as [A |] eqn:HA; [| done].
  destruct (sp_table A (vpn1 virt)); [| done]. intros [= <-]. split; [| done]. cbn.
  apply (dom_insert_lookup_L (spaces a)). by exists A.
Qed.

Lemma same_spaces_is_Some a a' s : same_spaces a a' -> is_Some (spaces a !! s) <-> is_Some (spaces a' !! s).
Proof. intros [Hd _]. by rewrite <- !elem_of_dom, Hd. Qed.

(** An operation that keeps the address spaces, whatever its outcome. *)
Definition keeps_spaces {A} (f : aop A) : Prop :=
  forall a, sat (f a) (fun a' _ => same_spaces a a') (fun a' _ => same_spaces a a').

Lemma same_spaces_refl a : same_spaces a a.
Proof. by split. Qed.

Lemma same_spaces_trans a1 a2 a3 : same_spaces a1 a2 -> same_spaces a2 a3 -> same_spaces a1 a3.
Proof. intros [? ?] [? ?]. split; congruence. Qed.

Lemma keeps_spaces_bind {A B} (f : aop A) (k : A -> aop B) :
  keeps_spaces f -> (forall v, keeps_spaces (k v)) -> keeps_spaces (bind f k).
Proof.
  intros Hf Hk a. apply sat_bind. eapply sat_mono; [apply Hf | | done]. intros a1 v H1.
  eapply sat_mono; [apply Hk | |]; intros a2 ? H2; exact (same_spaces_trans _ _ _ H1 H2).
Qed.

Lemma keeps_reads {A} (f : aop A) : (forall a, sat (f a) (fun a' _ => a' = a) (fun a' _ => a' = a)) -> keeps_spaces f.
Proof. intros Hf a. eapply sat_mono; [apply Hf | |]; intros ? ? ->; apply same_spaces_refl. Qed.

Lemma keeps_spaces_ret {A} (v : A) : keeps_spaces (ret v).
Proof. by apply keeps_reads. Qed.

Lemma keeps_spaces_fail {A} e : keeps_spaces (fail (A := A) e).
Proof. by apply keeps_reads. Qed.

Lemma keeps_spaces_assert b : keeps_spaces (assert_ b).
Proof. apply keeps_reads. intros a. by destruct b. Qed.

Lemma keeps_entry virt : keeps_spaces (spec_entry virt).
Proof.
  intros a. destruct (spec_entry virt a) as [a' e | a' e | |] eqn:E; cbn; try done.
  - apply spec_entry_run in E as [-> _]. apply same_spaces_refl.
  - unfold spec_entry, bind, space, unwrap, assert_ in E. by destruct (spaces a !! active a) as [A |]; [destruct (sp_table A _) |].
  - unfold spec_entry, bind, space, unwrap, assert_ in E. by destruct (spaces a !! active a) as [A |]; [destruct (sp_table A _) |].
Qed.

Lemma keeps_set virt e : keeps_spaces (spec_set virt e).
Proof.
  intros a. destruct (spec_set virt e a) as [a' [] | a' ? | |] eqn:E; cbn; try done.
  - by eapply spec_set_spaces.
  - unfold spec_set, bind, space, unwrap, assert_ in E. by destruct (spaces a !! active a) as [A |]; [destruct (sp_table A _) |].
  - unfold spec_set, bind, space, unwrap, assert_ in E. by destruct (spaces a !! active a) as [A |]; [destruct (sp_table A _) |].
Qed.

Lemma keeps_table virt : keeps_spaces (spec_table virt).
Proof.
  intros a. unfold spec_table, bind, space, unwrap. destruct (spaces a !! active a) as [A |] eqn:HA; [| done].
  destruct (sp_table A _); [apply same_spaces_refl |]. unfold spec_alloc.
  destruct (free a) as [| p rest]; cbn; [apply same_spaces_refl |]. split; [| done]. cbn.
  apply (dom_insert_lookup_L (spaces a)). by exists A.
Qed.

Ltac keeps_spaces :=
  repeat first
    [ apply keeps_spaces_ret | apply keeps_spaces_fail | apply keeps_spaces_assert | apply keeps_entry | apply keeps_set
    | apply keeps_table | apply keeps_spaces_bind; [| intros ?] | case_match ].

Lemma keeps_map phys virt flags user : keeps_spaces (spec_map phys virt flags user).
Proof. unfold spec_map. keeps_spaces. Qed.

(** Visiting another address space. *)
Lemma sim_in {A B} dest (f : op A) (f' : aop A) (h : A -> B) m a :
  rep m a -> is_Some (spaces a !! dest) -> keeps_spaces f' ->
  (forall m1, rep m1 (mk_PageTables (spaces a) (free a) dest) ->
     sim (f m1) (f' (mk_PageTables (spaces a) (free a) dest))) ->
  sim ((MemoryMapping_activate dest ;;;
        r <- attempt f;;
        MemoryMapping_activate (active a) ;;;
        match r with inl e => fail e | inr v => ret (h v) end) m)
      ((v <- spec_in dest f';; ret (h v)) a).
Proof.
  intros Hm Hd Hk Hf.
  change ((v <- spec_in dest f';; ret (h v)) a) with
    ((v <- (spec_activate dest ;;; r <- attempt f';; spec_activate (active a) ;;;
            match r with inl e => fail e | inr v => ret v end);; ret (h v)) a).
  rewrite bind_assoc.
  apply sim_bind; [by apply sim_activate |]. intros m1 a1 [] [= <-] H1. rewrite bind_assoc.
  apply sim_bind; [apply sim_attempt, Hf, H1 |]. intros m2 a2 r E H2. rewrite bind_assoc.
  assert (Hs : same_spaces (mk_PageTables (spaces a) (free a) dest) a2).
  { specialize (Hk (mk_PageTables (spaces a) (free a) dest)). unfold attempt in E.
    destruct (f' _); cbn in Hk; simplify_eq; done. }
  apply sim_bind.
  - apply sim_activate; [done |]. apply (same_spaces_is_Some _ _ _ Hs). apply (rep_space _ _ Hm).
  - intros m3 a3 [] _ H3. destruct r; [by apply sim_fail | by apply sim_ret].
Qed.

Lemma sim_move src dest_pid dest dest_addr m a :
  rep m a -> addr_ok src -> addr_ok dest_addr -> is_Some (spaces a !! dest) ->
  sim (move_page_inner (active a) src dest_pid dest dest_addr m) (spec_move src dest_pid dest dest_addr a).
Proof.
  intros Hm Ha Hd Hs. apply sim_lookup; [done | apply Ha |]. intros m1 e H1 Ht.
  destruct (negb (has_flag e MMU_VALID)); [by apply sim_fail |].
  apply sim_bind; [by apply sim_set |]. intros m2 a2 [] E2%spec_set_spaces H2.
  rewrite <- (proj2 E2). apply sim_in.
  - done.
  - by apply (same_spaces_is_Some _ _ _ E2).
  - apply keeps_map.
  - intros m3 H3. by apply sim_map.
Qed.

Lemma sim_lend src dest_pid dest dest_addr mutable m a :
  rep m a -> addr_ok src -> addr_ok dest_addr -> is_Some (spaces a !! dest) ->
  sim (lend_page_inner (active a) src dest_pid dest dest_addr mutable m)
      (spec_lend src dest_pid dest dest_addr mutable a).
Proof.
  intros Hm Ha Hd Hs. apply sim_lookup; [done | apply Ha |]. intros m1 e H1 Ht.
  destruct (has_flag e MMU_VALID); cbn [negb orb]; [| by apply sim_fail].
  destruct (has_flag e MMU_S); [by apply sim_fail |].
  apply sim_bind; [by apply sim_set |]. intros m2 a2 [] E2%spec_set_spaces H2.
  rewrite <- (proj2 E2). apply (sim_in dest _ _ (fun _ => entry_phys e)).
  - done.
  - by apply (same_spaces_is_Some _ _ _ E2).
  - apply keeps_map.
  - intros m3 H3. by apply sim_map.
Qed.

Lemma sim_virt_to_phys virt m a :
  rep m a -> vpn1 virt < 1023 -> sim (virt_to_phys virt m) (spec_virt_to_phys virt a).
Proof.
  intros Hm Ha. apply sim_entry_or; [done | apply Ha | by exists m |]. intros m1 e H1 Ht.
  destruct (has_flag e MMU_S); [by apply sim_fail |].
  destruct (has_flag e MMU_VALID); cbn [negb]; [by apply sim_ret |].
  destruct (e =? 0); by apply sim_fail.
Qed.

Lemma sim_update_flags virt flags m a :
  rep m a -> addr_ok virt -> sim (update_page_flags virt flags m) (spec_update_flags virt flags a).
Proof.
  intros Hm Ha. unfold update_page_flags, spec_update_flags.
  destruct (MemoryFlags_is_empty _); [by apply sim_fail |].
  apply sim_entry_or; [done | apply Ha | by exists m |]. intros m1 e H1 Ht.
  destruct (has_flag e MMU_S); [by apply sim_fail |]. unfold stripped.
  unfold bind at 1, ok_or at 1. destruct (strip_flag flags FLAG_X MMU_X e) as [e1 |]; [| by exists m1].
  cbn [mbind option_bind].
  unfold bind at 1, ok_or at 1. destruct (strip_flag flags FLAG_R MMU_R e1) as [e2 |]; [| by exists m1].
  cbn [mbind option_bind].
  apply sim_bind; [by apply sim_ok_or |]. intros m2 a2 e3 E H2.
  assert (a2 = a) as -> by (by destruct (strip_flag flags FLAG_W MMU_W e2); simplify_eq/=).
  by apply sim_set.
Qed.

Lemma sim_reserve virt flags m a :
  rep m a -> addr_ok virt -> sim (reserve_address virt flags m) (spec_reserve virt flags a).
Proof.
  intros Hm Ha. unfold reserve_address, spec_reserve.
  apply sim_table; [done | apply Ha | |].
  - intros Hno. assert (Hp : exists pid, arch_current_pid m = ROk m pid).
    { destruct (rep_pid _ _ Hm (active a) (rep_space _ _ Hm)) as [pid Hpid]. exists pid.
      unfold arch_current_pid, hardware_pid, unwrap. by rewrite (rep_active _ _ Hm), Hpid. }
    destruct Hp as [pid Hp]. unfold bind at 1. rewrite Hp. apply (sim_new_table virt 2); [done | apply Ha | done].
  - intros m1 a1 H1 Hs Ht.
    apply sim_bind; [apply sim_entry; [done | apply Ha] |]. intros m2 a2 e [-> _]%spec_entry_run H2.
    replace (Z.land e 1 =? 1) with (has_flag e MMU_VALID).
    + destruct (has_flag e MMU_VALID); [by apply sim_ret | by apply sim_set].
    + unfold has_flag, MMU_VALID. rewrite (land_mask e 1) by (done || lia).
      pose proof (Z.mod_pos_bound e (2 ^ 1) ltac:(lia)). change (2 ^ 1) with 2 in *.
      assert (e mod 2 = 0 \/ e mod 2 = 1) as [-> | ->] by lia; done.
Qed.

Ltac sim_gets :=
  lazymatch goal with
  | |- sim ?r (bind (gets ?f) ?k ?a) => change (sim r (k (f a) a)); cbv beta
  | |- sim (bind (gets ?f) ?k ?m) ?r => change (sim (k (f m) m) r); cbv beta
  end.

(** The two halves of a lookup: the place of the entry, and the entry. *)
Lemma lookup_run virt m a :
  rep m a -> vpn1 virt < 1023 ->
  (exists err, pagetable_entry virt m = RErr m err /\ spec_lookup virt a = RErr a err) \/
  (exists e, pagetable_entry virt m = ROk m (l0_entry (vpn1 virt) (vpn0 virt)) /\
     rd (l0_entry (vpn1 virt) (vpn0 virt)) m = ROk m e /\ spec_lookup virt a = ROk a e /\ table_exists virt a).
Proof.
  intros Hm Hv. destruct (rep_active_space m a Hm) as (A & HA & HS). pose proof (vpn1_range virt).
  unfold pagetable_entry, spec_lookup. destruct (negb (Z.land virt 3 =? 0)); [left; by eexists |].
  unfold bind at 1 2, spec_entry_or. rewrite (rd_root m a) by (done || lia).
  fold (has_table (satp m) (vpn1 virt) (memory m)). rewrite (sr_table _ _ _ HS) by lia.
  unfold bind, spec_has_table at 1 2. unfold bind. rewrite (rep_space_run m a A Hm HA). unfold ret at 1 3.
  destruct (sp_table A (vpn1 virt)) eqn:Ht; cbn [negb]; [right | left; by eexists].
  pose proof (sim_entry virt m a Hm Hv) as He. unfold spec_entry, bind in *.
  rewrite (rep_space_run m a A Hm HA) in *. unfold assert_ in *. rewrite Ht in *.
  destruct He as (m' & He & _). exists (sp_entry A (vpn1 virt) (vpn0 virt)).
  assert (m' = m) as ->.
  { unfold rd, bind, gets, with_memory, zoom, mm_read in He. cbn in He. unfold mem_read in He.
    destruct (translate _ _ _ _); [| done]. injection He as <- _. by destruct m. }
  split_and!; try done.
  - cbn. by rewrite (rep_space_run m a A Hm HA), Ht.
  - intros A' HA'. congruence.
Qed.

Lemma sim_is_lent virt m a : rep m a -> vpn1 virt < 1023 -> sim (page_is_lent virt m) (spec_is_lent virt a).
Proof.
  intros Hm Hv. unfold page_is_lent, spec_is_lent, bind at 1 3, ok.
  destruct (lookup_run virt m a Hm Hv) as [(err & -> & ->) | (e & -> & Hr & -> & _)]; [by exists m |].
  unfold bind. rewrite Hr. by exists m.
Qed.

Lemma sim_return src dest_pid dest dest_addr m a :
  rep m a -> addr_ok src -> addr_ok dest_addr -> is_Some (spaces a !! dest) ->
  sim (return_page_inner (active a) src dest_pid dest dest_addr m) (spec_return src dest dest_addr a).
Proof.
  intros Hm Ha Hd Hs. apply sim_lookup; [done | apply Ha |]. intros m1 e H1 Ht.
  destruct (negb (has_flag e MMU_VALID)); [by apply sim_fail |].
  apply sim_bind; [by apply sim_set |]. intros m2 a2 [] E2%spec_set_spaces H2.
  sim_gets. rewrite (proj2 E2).
  apply sim_bind; [by apply sim_activate; [| apply (same_spaces_is_Some _ _ _ E2)] |].
  intros m3 a3 [] [= <-] H3.
  unfold bind at 1, unwrap_result at 1. unfold bind at 5, unwrap_result at 1.
  destruct (lookup_run dest_addr m3 _ H3 (proj1 Hd)) as [(err & -> & ->) | (d & -> & Hr & -> & Htd)]; [done |].
  unfold bind at 1. rewrite Hr. apply sim_bind; [by apply sim_assert |].
  intros m4 a4 [] E4 H4. unfold assert_ in E4. destruct (has_flag d MMU_S); [| done]. injection E4 as <-.
  apply sim_bind; [by apply sim_set |]. intros m5 a5 [] E5%spec_set_spaces H5.
  apply sim_bind.
  - apply sim_activate; [done |]. apply (same_spaces_is_Some _ _ _ E5). cbn.
    apply (same_spaces_is_Some _ _ _ E2). apply (rep_space _ _ Hm).
  - intros m6 a6 [] _ H6. by apply sim_ret.
Qed.

(** ** Memory on demand *)

(** A change of words outside of the tables, or of the owners of pages. *)
Lemma holds_other x x' sp :
  holds x sp -> memory_ok x' -> (forall p, p ∈ free_pages x' -> p ∈ free_pages x) ->
  (forall s k i, is_Some (sp !! s) -> live_slot s k x -> 0 <= i < 1024 ->
     word (page_of s k x + i * 4) x' = word (page_of s k x + i * 4) x) ->
  holds x' sp.
Proof.
  intros H Hok Hf Hw.
  assert (Hroot : forall s v1, is_Some (sp !! s) -> 0 <= v1 < 1024 -> root_entry s v1 x' = root_entry s v1 x)
    by (intros s v1 Hs Hv; by apply (Hw s Root v1)).
  assert (Hleaf : forall s A v1 v0, sp !! s = Some A -> 0 <= v1 < 1023 -> sp_table A v1 = true -> 0 <= v0 < 1024 ->
            leaf s v1 v0 x' = leaf s v1 v0 x).
  { intros s A v1 v0 Hs Hv Ht H0. unfold leaf. rewrite (same_table x x' sp Hroot) by (done || lia).
    apply (Hw s (Leaf v1) v0); [done | by eapply live_leaf | done]. }
  split; [done | | |].
  - intros s A Hs. destruct (ho_space _ _ H s A Hs) as [Hm Htab Hent Hptr Hwins Hr Hwin]. split; try done.
    + intros u Hu. rewrite <- Htab by done. apply (same_has_table x x' sp); done || lia.
    + intros u w Hu Hw' Hut. rewrite (Hleaf s A) by done. by apply Hent.
    + intros u Hu Hut. rewrite Hroot by (done || lia). by apply Hptr.
    + intros u Hu. rewrite (same_table x x' sp) by (done || lia). by apply Hwin.
  - intros s1 k1 s2 k2 H1 H2 L1 L2 E. rewrite !(same_page_of x x' sp Hroot) in E by done.
    by apply (ho_distinct _ _ H); [| | eapply same_live.. |].
  - intros s1 k1 H1 L1 Hin%Hf. rewrite (same_page_of x x' sp Hroot) in Hin by done.
    apply (ho_taken _ _ H s1 k1); [done | by eapply same_live | done].
Qed.

Definition space_eq (A B : Space) : Prop :=
  (forall u, sp_table A u = sp_table B u) /\ (forall u w, sp_entry A u w = sp_entry B u w).

Lemma holds_ext x sp s A B : holds x (<[s := A]> sp) -> space_eq A B -> holds x (<[s := B]> sp).
Proof.
  intros H [Ht He].
  assert (Hs : forall s', is_Some (<[s := B]> sp !! s') -> is_Some (<[s := A]> sp !! s'))
    by (intros s'; by rewrite !lookup_insert_is_Some).
  split.
  - apply H.
  - intros s' A' Hs'. destruct (decide (s' = s)) as [-> | Hne].
    + rewrite lookup_insert_eq in Hs'. injection Hs' as <-.
      destruct (ho_space _ _ H s A) as [Hm Htab Hent Hptr Hwins Hr Hwin]; [by rewrite lookup_insert_eq |].
      split; [done | | | | | |].
      * intros u Hu. rewrite <- Ht. by apply Htab.
      * intros u w Hu Hw. rewrite <- Ht, <- He. by apply Hent.
      * intros u Hu. rewrite <- Ht. by apply Hptr.
      * by rewrite <- !Ht.
      * by rewrite <- He.
      * intros u Hu. rewrite <- Ht, <- He. by apply Hwin.
    + rewrite lookup_insert_ne in Hs' by done. apply H. by rewrite lookup_insert_ne.
  - intros s1 k1 s2 k2 H1%Hs H2%Hs. by apply (ho_distinct _ _ H).
  - intros s1 k1 H1%Hs. by apply (ho_taken _ _ H).
Qed.

Lemma virt_split virt :
  0 <= virt < 4294967296 -> Z.land virt 4095 = 0 -> virt = vpn1 virt * 4194304 + vpn0 virt * 4096.
Proof.
  intros Hv Ha. unfold vpn1, vpn0, shr32. change (22 mod 32) with 22. change (12 mod 32) with 12.
  rewrite (land_mask _ 12) in Ha by (done || lia). rewrite !(land_mask _ 10), !shiftr_div by (done || lia).
  change (2 ^ 22) with 4194304. change (2 ^ 12) with 4096 in *. change (2 ^ 10) with 1024.
  rewrite (Z.mod_small (virt / 4194304)).
  2: { split; [apply Z.div_pos; lia | apply Z.div_lt_upper_bound; lia]. }
  change 4194304 with (4096 * 1024). rewrite <- Z.div_div by lia.
  pose proof (Z.div_mod virt 4096 ltac:(lia)). pose proof (Z.div_mod (virt / 4096) 1024 ltac:(lia)). lia.
Qed.

Lemma zeropage_panics virt (m : Machine Memory) : wr virt 0 m = RPanic -> zeropage virt m = RPanic.
Proof.
  intros E. unfold zeropage, bzero, step_by, PAGE_SIZE. replace (virt + 4096 - virt + 4 - 1) with 4099 by lia.
  change (Z.to_nat (4099 / 4)) with (S 1023). cbn [seq map for_each]. unfold bind.
  rewrite Z.add_0_r. by rewrite E.
Qed.

Section Demand.
Context (m : Machine Memory) (a : PageTables) (A : Space) (virt p f : Z) (rest : list Z).
Context (Hm : rep m a) (HA : spaces a !! active a = Some A) (Ha : addr_ok virt).
Context (Hr : 0 <= virt < 4294967296) (Hal : Z.land virt 4095 = 0).
Context (Ht : sp_table A (vpn1 virt) = true) (Hfree : free a = p :: rest).
Context (Hf : 0 <= f < 1024) (Hvalid : has_flag f MMU_VALID = true).

#[local] Abbreviation v1 := (vpn1 virt).
#[local] Abbreviation v0 := (vpn0 virt).

(** A page [p] is taken for the virtual page, and mapped. *)
Context (x1 : Memory) (Hw1 : words x1 = words (memory m)) (Ho1 : memory_ok x1) (Hf1 : free_pages x1 = rest).

Lemma demand_pages : free_pages (memory m) = p :: rest.
Proof. by rewrite (rep_free _ _ Hm). Qed.

Lemma demand_rep1 : rep (set_memory x1 m) (mk_PageTables (spaces a) rest (active a)).
Proof.
  apply rep_memory; [done | done | | done]. apply (holds_other (memory m)); [apply Hm | done | |].
  - rewrite Hf1, demand_pages. intros q Hq. by right.
  - intros. by apply word_words.
Qed.

(** The entry is written. *)
Lemma demand_write (m' : Machine Memory) (B : Space) e :
  rep m' (mk_PageTables (<[active a := B]> (spaces a)) rest (active a)) -> sp_table B v1 = true ->
  wr (l0_entry v1 v0) e m'
  = ROk (set_memory (poke (table (satp m') v1 (memory m') + v0 * 4) e (memory m')) m') tt /\
  rep (set_memory (poke (table (satp m') v1 (memory m') + v0 * 4) e (memory m')) m')
    (mk_PageTables (<[active a := set_entry v1 v0 e B]> (spaces a)) rest (active a)).
Proof.
  intros H' HB. pose proof (vpn1_range virt). pose proof (vpn0_range virt). destruct Ha as [Hv Hw].
  assert (HBs : (<[active a := B]> (spaces a) : gmap Z Space) !! satp m' = Some B)
    by (rewrite (rep_active _ _ H'); apply lookup_insert_eq).
  split.
  - rewrite l0_entry_split. apply wr_reaches; [lia..|]. eapply reaches_table; [apply H' | exact HBs | lia | done].
  - apply (rep_memory m' (mk_PageTables (<[active a := B]> (spaces a)) rest (active a))); [done | | |].
    + rewrite (words_only_free (memory m')); [apply H' | apply words_only_poke].
    + pose proof (holds_set_entry _ _ _ _ v1 v0 e (rep_holds _ _ H') HBs) as Hh.
      rewrite (rep_active _ _ H') in Hh at 2. cbn [spaces active] in Hh. rewrite insert_insert_eq in Hh. apply Hh; done || lia.
    + cbn. by rewrite !dom_insert_L.
Qed.

(** The page is no table. *)
Definition untabled (x : Memory) : Prop :=
  forall s k, is_Some (spaces a !! s) -> live_slot s k x -> page_of s k x <> p.

Lemma demand_untabled1 : untabled x1.
Proof.
  assert (Hroot : forall s u, is_Some (spaces a !! s) -> 0 <= u < 1024 ->
            root_entry s u x1 = root_entry s u (memory m)) by (intros; by apply word_words).
  intros s k Hs Hk. rewrite (same_page_of _ x1 (spaces a) Hroot) by done.
  apply (new_table_fresh (memory m) (spaces a) p rest);
    [apply Hm | apply demand_pages | done | by eapply same_live].
Qed.

Lemma demand_zero m2 B :
  rep m2 (mk_PageTables (<[active a := B]> (spaces a)) rest (active a)) -> untabled (memory m2) ->
  sp_table B v1 = true -> sp_entry B v1 v0 = make_leaf p f ->
  if permitted true f
  then exists x3, zeropage virt m2 = ROk (set_memory x3 m2) tt /\
         rep (set_memory x3 m2) (mk_PageTables (<[active a := B]> (spaces a)) rest (active a))
  else zeropage virt m2 = RPanic.
Proof.
  intros H2 Hun HB He. pose proof (vpn1_range virt). pose proof (vpn0_range virt). destruct Ha as [Hv Hw].
  destruct (new_table_range (memory m) (spaces a) p rest) as [Hpr Hpa]; [apply Hm | apply demand_pages |].
  assert (HBs : (<[active a := B]> (spaces a) : gmap Z Space) !! satp m2 = Some B)
    by (rewrite (rep_active _ _ H2); apply lookup_insert_eq).
  assert (HS : is_Some (spaces a !! satp m2)) by (rewrite (rep_active _ _ H2); by exists A).
  pose proof (ho_space _ _ (rep_holds _ _ H2) _ _ HBs) as [Hmode Htab Hent Hptr _ _ _].
  assert (Hp : permitted true (make_leaf p f) = permitted true f)
    by (unfold permitted; by rewrite !has_flag_make_leaf by done).
  rewrite (virt_split virt Hr Hal). destruct (permitted true f) eqn:Hperm.
  - assert (Hre : reaches (satp m2) v1 v0 p (memory m2)).
    { split; [done | by rewrite Htab by lia | by apply Hptr; [lia |] |]. rewrite Hent, He by (done || lia).
      split_and!; [by rewrite has_flag_make_leaf by done | done | by apply make_leaf_page]. }
    destruct (zeropage_reaches v1 v0 p m2) as (x3 & Ez & Hw3 & Hz & Ho); [lia | lia | done | done | | |].
    + intros E. by apply (Hun (satp m2) Root).
    + intros E. apply (Hun (satp m2) (Leaf v1)); [done | | done]. split; [lia |]. by rewrite Htab by lia.
    + exists x3. split; [done |].
      apply (rep_memory m2 (mk_PageTables (<[active a := B]> (spaces a)) rest (active a))); [done | | | done].
      * rewrite (words_only_free (memory m2)); [apply H2 | done].
      * apply (holds_other (memory m2)); [apply H2 | eapply words_only_ok; [done | apply H2] | |].
        -- intros q. by rewrite (words_only_free (memory m2)).
        -- intros s k i Hs Hk Hi. apply Ho. intros j Hj E.
           apply page_word_inj in E as [E _]; [| apply page_of_aligned | done..].
           apply (Hun s k); [| done | done]. rewrite lookup_insert_is_Some in Hs.
           destruct Hs as [<- | [_ ?]]; [by exists A | done].
  - apply zeropage_panics. unfold wr, bind, gets, with_memory, zoom, mm_write. cbn. unfold mem_write, translate, walk_leaf, walk_root.
    destruct (vpn_split v1 v0 0) as (E1 & E0 & _); [lia..|]. rewrite Z.add_0_r in E1, E0. rewrite E1, E0, Hmode. cbn [negb].
    fold (root_entry (satp m2) v1 (memory m2)). specialize (Htab v1 ltac:(lia)). unfold has_table in Htab.
    rewrite Htab, HB, Hptr by (done || lia). cbn [negb]. fold (table (satp m2) v1 (memory m2)).
    fold (leaf (satp m2) v1 v0 (memory m2)). rewrite Hent, He, Hp by (done || lia). by rewrite andb_false_r.
Qed.
End Demand.

Lemma flags_lor_range f g : 0 <= f < 1024 -> 0 <= g < 1024 -> 0 <= Z.lor f g < 1024.
Proof.
  intros Hf Hg. assert (0 <= Z.lor f g) by (rewrite Z.lor_nonneg; lia). split; [done |].
  apply (bits_bounded _ 10); [lia | done |]. intros i Hi. rewrite Z.lor_spec, !(testbit_above _ 10) by (done || lia). done.
Qed.

Lemma demand_flags_range e : 0 <= demand_flags e < 1024.
Proof.
  unfold demand_flags. repeat apply flags_lor_range; [| done..].
  rewrite (land_mask e 10) by (done || lia). apply Z.mod_pos_bound. done.
Qed.

Lemma demand_flags_valid e : has_flag (demand_flags e) MMU_VALID = true.
Proof.
  unfold has_flag, demand_flags. rewrite !Z.land_lor_distr_l. apply negb_true_iff, Z.eqb_neq. intros H.
  apply (f_equal (fun z => Z.testbit z 0)) in H. rewrite !Z.lor_spec in H. cbn in H. by rewrite !orb_true_r in H.
Qed.

Lemma has_flag_low e g : Z.land 1023 g = g -> has_flag (Z.land e 1023) g = has_flag e g.
Proof. intros E. unfold has_flag. by rewrite <- Z.land_assoc, E. Qed.

Lemma sim_demand virt e m a :
  rep m a -> addr_ok virt -> 0 <= virt < 4294967296 -> Z.land virt 4095 = 0 -> table_exists virt a ->
  sim ((pid <- current_pid;;
        new_page <- unwrap_result (with_memory (mm_alloc_page pid));;
        wr (l0_entry (vpn1 virt) (vpn0 virt)) (make_leaf new_page (demand_flags e)) ;;;
        zeropage virt ;;;
        wr (l0_entry (vpn1 virt) (vpn0 virt)) (make_leaf new_page (Z.lor (demand_flags e) MMU_USER)) ;;;
        ret new_page) m)
      ((new_page <- unwrap_result spec_alloc;;
        assert_ (permitted true (demand_flags e)) ;;;
        spec_set virt (make_leaf new_page (Z.lor (demand_flags e) MMU_USER)) ;;;
        ret new_page) a).
Proof.
  intros Hm Ha Hr Hal Ht. destruct (rep_space _ _ Hm) as [A HA]. specialize (Ht A HA).
  unfold bind at 1, current_pid, gets. set (pid := pt_current m).
  pose proof (alloc_page_free pid (memory m) (ho_ok _ _ (rep_holds _ _ Hm))) as Halloc.
  rewrite (rep_free _ _ Hm) in Halloc. unfold bind at 1, unwrap_result at 1. unfold bind at 4, unwrap_result at 1.
  unfold spec_alloc. destruct (free a) as [| p rest] eqn:Hfree.
  { unfold with_memory, zoom. cbn. by rewrite Halloc. }
  destruct Halloc as (x1 & Ea & Hf1 & Ho1 & Hw1).
  assert (E1 : with_memory (mm_alloc_page pid) m = ROk (set_memory x1 m) p)
    by (unfold with_memory, zoom; cbn; by rewrite Ea).
  rewrite E1. pose proof (demand_rep1 m a p rest Hm Hfree x1 Hw1 Ho1 Hf1) as H1.
  rewrite <- (insert_id (spaces a) (active a) A) in H1 by done.
  destruct (demand_write a virt rest Ha _ A (make_leaf p (demand_flags e)) H1 Ht) as [E2 H2].
  unfold bind at 1. rewrite E2. set (m2 := set_memory _ (set_memory x1 m)) in *.
  assert (Hun : untabled a p (memory m2)).
  { assert (HAs : (<[active a := A]> (spaces a) : gmap Z Space) !! satp m = Some A)
      by (rewrite (rep_active _ _ Hm); apply lookup_insert_eq).
    pose proof (vpn1_range virt). pose proof (vpn0_range virt). destruct Ha as [Hv _].
    assert (Hroot : forall s u, is_Some (spaces a !! s) -> 0 <= u < 1024 ->
              root_entry s u (memory m2) = root_entry s u x1).
    { intros s u Hs Hu. eapply root_entry_poke_leaf; [apply H1 | exact HAs | lia | done | lia | | done].
      cbn. by rewrite insert_id. }
    intros s k Hs Hk. rewrite (same_page_of x1 _ (spaces a) Hroot) by done.
    apply (demand_untabled1 m a p rest Hm Hfree x1 Hw1); [done | by eapply same_live]. }
  pose proof (demand_zero m a A virt p (demand_flags e) rest Hm HA Ha Hr Hal Hfree
                (demand_flags_range e) (demand_flags_valid e) m2 _ H2 Hun) as Hz.
  cbn [set_entry sp_table sp_entry] in Hz. rewrite decide_True in Hz by done. specialize (Hz Ht eq_refl).
  unfold bind at 1 4, assert_. destruct (permitted true (demand_flags e)); [| by rewrite Hz].
  destruct Hz as (x3 & Ez & H3). rewrite Ez.
  destruct (demand_write a virt rest Ha _ _ (make_leaf p (Z.lor (demand_flags e) MMU_USER)) H3) as [E4 H4]; [done |].
  unfold bind at 1. rewrite E4. unfold bind at 1, spec_set, bind, space, unwrap. cbn [spaces active].
  rewrite HA. unfold assert_, put_space, modify, ret. rewrite Ht. cbn [sim spaces active free].
  eexists. split; [reflexivity |]. destruct H4 as [? ? ? Hh ?]. split; try done; cbn in *.
  - by rewrite lookup_insert_eq.
  - eapply holds_ext; [exact Hh |]. split; [done |]. intros u w. cbn. by repeat case_decide.
  - intros s Hs. apply (rep_pid _ _ Hm). rewrite lookup_insert_is_Some in Hs.
    destruct Hs as [<- | [_ ?]]; [by exists A | done].
Qed.

Lemma aligned_down address :
  0 <= address < 4294967296 ->
  0 <= Z.land address (not32 4095) < 4294967296 /\ Z.land (Z.land address (not32 4095)) 4095 = 0.
Proof.
  intros Ha. split.
  - assert (0 <= Z.land address (not32 4095)) by (apply Z.land_nonneg; lia). split; [done |].
    apply (bits_bounded _ 32); [lia | done |]. intros i Hi. rewrite Z.land_spec, (testbit_above address 32) by lia. done.
  - rewrite <- Z.land_assoc. change (Z.land (not32 4095) 4095) with 0. apply Z.land_0_r.
Qed.

Lemma sim_ensure address m a :
  rep m a -> 0 <= address < 4294967296 -> addr_ok (Z.land address (not32 4095)) ->
  sim (ensure_page_exists_inner address m) (spec_ensure address a).
Proof.
  intros Hm Hr Ha. unfold ensure_page_exists_inner, spec_ensure.
  destruct (aligned_down address Hr) as [Hr' Hal].
  sim_gets. sim_gets. rewrite (rep_active _ _ Hm).
  destruct (negb (MemoryMapping_is_kernel (active a)) && (USER_AREA_END <=? address)); [by apply sim_fail |].
  cbv zeta. set (virt := Z.land address (not32 4095)) in *.
  destruct (lookup_run virt m a Hm (proj1 Ha)) as [(err & E & E') | (e & E & He & E' & Ht)].
  { rewrite (bind_RErr _ _ m m BadAddress), (bind_RErr _ _ a a BadAddress);
      [by exists m | unfold map_err; by rewrite ?E, ?E'..]. }
  rewrite (bind_ROk _ _ m m (l0_entry (vpn1 virt) (vpn0 virt))), (bind_ROk _ _ a a e), (bind_ROk _ _ m m e);
    [| done | unfold map_err; by rewrite ?E, ?E'..].
  rewrite !has_flag_low by done.
  destruct (has_flag e MMU_VALID); [by apply sim_ret |].
  destruct ((Z.land e 1023 =? 0) || has_flag e MMU_S); [by apply sim_fail |]. by apply sim_demand.
Qed.

Lemma sim_available virt m a :
  rep m a -> vpn1 virt < 1023 ->
  sim (address_available virt m)
      ((r <- attempt (spec_virt_to_phys virt);;
        ret (match r with inl e => bool_decide (e = BadAddress) | inr _ => false end)) a).
Proof.
  intros Hm Hv. apply sim_bind; [by apply sim_attempt, sim_virt_to_phys |]. intros m1 a1 r _ H1. by apply sim_ret.
Qed.

(** ** Sequences of operations *)

Inductive PageOp : Type :=
| Op_map (pid phys virt : Z) (flags : MemoryFlags) (user : bool)
| Op_reserve (virt : Z) (flags : MemoryFlags)
| Op_ensure (address : Z)
| Op_hand (virt : Z)
| Op_unmap (virt : Z)
| Op_update_flags (virt : Z) (flags : MemoryFlags)
| Op_move (src dest_pid dest dest_addr : Z)
| Op_lend (src dest_pid dest dest_addr : Z) (mutable : bool)
| Op_return (src dest_pid dest dest_addr : Z)
| Op_virt_to_phys (virt : Z)
| Op_is_lent (virt : Z)
| Op_activate (s : Z).

Inductive PageAnswer : Type := Ans_done | Ans_word (v : Z) | Ans_bool (b : bool).

Definition answer {S A} (h : A -> PageAnswer) (f : S -> outcome Error S A) : S -> outcome Error S PageAnswer :=
  v <- f;; ret (h v).

(** An operation in the active address space of the machine. *)
Definition exec_op (o : PageOp) : op PageAnswer :=
  s <- gets satp;;
  match o with
  | Op_map pid phys virt flags user => answer (fun _ => Ans_done) (map_page pid phys virt flags user)
  | Op_reserve virt flags => answer (fun _ => Ans_done) (reserve_address virt flags)
  | Op_ensure address => answer Ans_word (ensure_page_exists_inner address)
  | Op_hand virt => answer (fun _ => Ans_done) (hand_page_to_user virt)
  | Op_unmap virt => answer Ans_word (unmap_page_inner virt)
  | Op_update_flags virt flags => answer (fun _ => Ans_done) (update_page_flags virt flags)
  | Op_move src dest_pid dest dest_addr =>
      answer (fun _ => Ans_done) (move_page_inner s src dest_pid dest dest_addr)
  | Op_lend src dest_pid dest dest_addr mutable =>
      answer Ans_word (lend_page_inner s src dest_pid dest dest_addr mutable)
  | Op_return src dest_pid dest dest_addr => answer Ans_word (return_page_inner s src dest_pid dest dest_addr)
  | Op_virt_to_phys virt => answer Ans_word (virt_to_phys virt)
  | Op_is_lent virt => answer Ans_bool (page_is_lent virt)
  | Op_activate s => answer (fun _ => Ans_done) (MemoryMapping_activate s)
  end.

Definition spec_op (o : PageOp) : aop PageAnswer :=
  match o with
  | Op_map _ phys virt flags user => answer (fun _ => Ans_done) (spec_map phys virt flags user)
  | Op_reserve virt flags => answer (fun _ => Ans_done) (spec_reserve virt flags)
  | Op_ensure address => answer Ans_word (spec_ensure address)
  | Op_hand virt => answer (fun _ => Ans_done) (spec_hand virt)
  | Op_unmap virt => answer Ans_word (spec_unmap virt)
  | Op_update_flags virt flags => answer (fun _ => Ans_done) (spec_update_flags virt flags)
  | Op_move src dest_pid dest dest_addr => answer (fun _ => Ans_done) (spec_move src dest_pid dest dest_addr)
  | Op_lend src dest_pid dest dest_addr mutable =>
      answer Ans_word (spec_lend src dest_pid dest dest_addr mutable)
  | Op_return src _ dest dest_addr => answer Ans_word (spec_return src dest dest_addr)
  | Op_virt_to_phys virt => answer Ans_word (spec_virt_to_phys virt)
  | Op_is_lent virt => answer Ans_bool (spec_is_lent virt)
  | Op_activate s => answer (fun _ => Ans_done) (spec_activate s)
  end.

(** The addresses that an operation may be used with: not those of the windows
    and of the last 4 MiB; and the address spaces it names exist. *)
Definition op_ok (known : gset Z) (o : PageOp) : Prop :=
  match o with
  | Op_map _ _ virt _ _ | Op_reserve virt _ | Op_hand virt | Op_unmap virt | Op_update_flags virt _ => addr_ok virt
  | Op_ensure address => 0 <= address < 4294967296 /\ addr_ok (Z.land address (not32 4095))
  | Op_move src _ dest dest_addr | Op_lend src _ dest dest_addr _ | Op_return src _ dest dest_addr =>
      addr_ok src /\ addr_ok dest_addr /\ dest ∈ known
  | Op_virt_to_phys virt | Op_is_lent virt => vpn1 virt < 1023
  | Op_activate s => s ∈ known
  end.

Lemma sim_answer {A} h (f : op A) (f' : aop A) m a :
  rep m a -> sim (f m) (f' a) -> sim (answer h f m) (answer h f' a).
Proof. intros Hm Hf. apply sim_bind; [done |]. intros m1 a1 v _ H1. by apply sim_ret. Qed.

Lemma sim_op o m a : rep m a -> op_ok (dom (spaces a)) o -> sim (exec_op o m) (spec_op o a).
Proof.
  intros Hm Ho. unfold exec_op. sim_gets. rewrite (rep_active _ _ Hm).
  destruct o; cbn [op_ok spec_op] in *; (apply sim_answer; [done |]); rewrite ?elem_of_dom in Ho; destruct_and?;
    lazymatch goal with
    | |- sim (map_page _ _ _ _ _ _) _ => by apply sim_map
    | |- sim (reserve_address _ _ _) _ => by apply sim_reserve
    | |- sim (ensure_page_exists_inner _ _) _ => by apply sim_ensure
    | |- sim (hand_page_to_user _ _) _ => by apply sim_hand
    | |- sim (unmap_page_inner _ _) _ => by apply sim_unmap
    | |- sim (update_page_flags _ _ _) _ => by apply sim_update_flags
    | |- sim (move_page_inner _ _ _ _ _ _) _ => by apply sim_move
    | |- sim (lend_page_inner _ _ _ _ _ _ _) _ => by apply sim_lend
    | |- sim (return_page_inner _ _ _ _ _ _) _ => by apply sim_return
    | |- sim (virt_to_phys _ _) _ => by apply sim_virt_to_phys
    | |- sim (page_is_lent _ _) _ => by apply sim_is_lent
    | |- sim (MemoryMapping_activate _ _) _ => by apply sim_activate
    end.
Qed.

(** Run a list of operations and collect their answers. *)
Fixpoint run_all {S O A} (step : O -> S -> outcome Error S A) (l : list O) : S -> outcome Error S (list (Error + A)) :=
  match l with
  | [] => ret []
  | o :: l => r <- attempt (step o);; rs <- run_all step l;; ret (r :: rs)
  end.

(** No operation changes which address spaces there are. *)
Definition keeps_dom {A} (f : aop A) : Prop :=
  forall a, sat (f a) (fun a' _ => dom (spaces a') = dom (spaces a)) (fun a' _ => dom (spaces a') = dom (spaces a)).

Lemma keeps_dom_spaces {A} (f : aop A) : keeps_spaces f -> keeps_dom f.
Proof. intros Hf a. eapply sat_mono; [apply Hf | |]; by intros ? ? []. Qed.

Lemma keeps_dom_bind {A B} (f : aop A) (k : A -> aop B) :
  keeps_dom f -> (forall v, keeps_dom (k v)) -> keeps_dom (bind f k).
Proof.
  intros Hf Hk a. apply sat_bind. eapply sat_mono; [apply Hf | | done]. intros a1 v H1.
  eapply sat_mono; [apply Hk | |]; intros a2 ? H2; cbn in *; congruence.
Qed.

Lemma keeps_dom_attempt {A} (f : aop A) : keeps_dom f -> keeps_dom (attempt f).
Proof. intros Hf a. apply sat_attempt. eapply sat_mono; [apply Hf | |]; done. Qed.

Lemma keeps_dom_ok {A} (f : aop A) : keeps_dom f -> keeps_dom (ok f).
Proof. intros Hf a. apply sat_ok. eapply sat_mono; [apply Hf | |]; done. Qed.

Lemma keeps_dom_map_err {A} g (f : aop A) : keeps_dom f -> keeps_dom (map_err g f).
Proof. intros Hf a. apply sat_map_err. eapply sat_mono; [apply Hf | |]; done. Qed.

Lemma keeps_dom_unwrap {A} (f : aop A) : keeps_dom f -> keeps_dom (unwrap_result f).
Proof. intros Hf a. apply sat_unwrap_result. eapply sat_mono; [apply Hf | |]; done. Qed.

Lemma keeps_dom_modify f : (forall a, spaces (f a) = spaces a) -> keeps_dom (modify f).
Proof. intros Hf a. cbn. by rewrite Hf. Qed.

Lemma keeps_dom_gets {A} (f : PageTables -> A) : keeps_dom (gets f).
Proof. by intros a. Qed.

Lemma keeps_dom_ok_or {A} (o : option A) e : keeps_dom (ok_or o e).
Proof. intros a. by destruct o. Qed.

Lemma keeps_dom_alloc : keeps_dom spec_alloc.
Proof. intros a. unfold spec_alloc. by destruct (free a). Qed.

Lemma keeps_dom_space : keeps_dom space.
Proof. intros a. unfold space, unwrap. by destruct (spaces a !! active a). Qed.

Ltac keeps_dom :=
  repeat first
    [ apply keeps_dom_spaces;
      first [ apply keeps_spaces_ret | apply keeps_spaces_fail | apply keeps_spaces_assert | apply keeps_entry | apply keeps_set
            | apply keeps_table | apply keeps_map ]
    | apply keeps_dom_bind; [| intros ?] | apply keeps_dom_attempt | apply keeps_dom_ok | apply keeps_dom_map_err
    | apply keeps_dom_unwrap | apply keeps_dom_modify; intros; reflexivity | apply keeps_dom_gets
    | apply keeps_dom_ok_or | apply keeps_dom_alloc | apply keeps_dom_space | case_match ].

Lemma keeps_dom_op o : keeps_dom (spec_op o).
Proof.
  destruct o; unfold spec_op, answer, spec_map, spec_reserve, spec_ensure, spec_hand, spec_unmap,
    spec_update_flags, spec_move, spec_lend, spec_return, spec_in, spec_virt_to_phys, spec_is_lent, spec_lookup,
    spec_entry_or, spec_activate; keeps_dom.
Qed.

Lemma sim_all ops m a :
  rep m a -> Forall (op_ok (dom (spaces a))) ops -> sim (run_all exec_op ops m) (run_all spec_op ops a).
Proof.
  revert m a. induction ops as [| o ops IH]; intros m a Hm Ho; cbn [run_all]; [by apply sim_ret |].
  apply Forall_cons in Ho as [Ho Hops].
  apply sim_bind; [by apply sim_attempt, sim_op |]. intros m1 a1 r E H1.
  apply sim_bind.
  - apply IH; [done |]. replace (dom (spaces a1)) with (dom (spaces a)); [done |].
    pose proof (keeps_dom_attempt _ (keeps_dom_op o) a) as Hd. rewrite E in Hd. by symmetry.
  - intros m2 a2 rs _ H2. by apply sim_ret.
Qed.

(** ** A memory that holds address spaces

    The view of a memory, and a test that it is a proper one. *)

Definition below (n v : Z) : bool := (0 <=? v) && (v <? n).

Definition view (s : Z) (x : Memory) : Space :=
  mk_Space (fun v1 => below 1023 v1 && has_table s v1 x) (fun v1 v0 => if below 1024 v0 then leaf s v1 v0 x else 0).

Definition abstract (ss : list Z) (m : Machine Memory) : PageTables :=
  mk_PageTables (list_to_map (map (fun s => (s, view s (memory m))) ss)) (free_pages (memory m)) (satp m).

Definition table_numbers : list Z := map Z.of_nat (seq 0 1023).

Definition window_entryb (e page : Z) : bool :=
  has_flag e MMU_VALID && permitted true e && (entry_page e =? page).

Definition space_okb (x : Memory) (s : Z) : bool :=
  Z.testbit s 31 && has_table s 1021 x && has_table s 1022 x &&
  window_entryb (leaf s 1022 0 x) (satp_root s) &&
  match PID_new (u8 (satp_asid s)) with Some _ => true | None => false end &&
  forallb (fun v1 =>
    if has_table s v1 x
    then negb (is_leaf (root_entry s v1 x)) && window_entryb (leaf s 1021 v1 x) (table s v1 x)
    else negb (has_flag (leaf s 1021 v1 x) MMU_VALID)) table_numbers.

(** The live tables of the address spaces, and their pages. *)
Definition slots (x : Memory) (s : Z) : list (Z * table_slot) :=
  (s, Root) :: map (fun v1 => (s, Leaf v1)) (List.filter (fun v1 => has_table s v1 x) table_numbers).
Definition table_pages (x : Memory) (ss : list Z) : list Z :=
  map (fun sk => page_of sk.1 sk.2 x) (concat (map (slots x) ss)).

Definition memory_okb (x : Memory) : bool :=
  (0 <=? ram_start x) && (ram_start x mod 4096 =? 0) &&
  (length (MEMORY_ALLOCATIONS x) =? Z.to_nat (ram_size x / PAGE_SIZE))%nat &&
  (ram_start x + Z.of_nat (length (MEMORY_ALLOCATIONS x)) * 4096 <=? 4294967296) &&
  (last_ram_page x <=? length (MEMORY_ALLOCATIONS x))%nat.

Definition repb (ss : list Z) (m : Machine Memory) : bool :=
  memory_okb (memory m) && bool_decide (satp m ∈ ss) && forallb (space_okb (memory m)) ss &&
  bool_decide (NoDup (table_pages (memory m) ss)) &&
  forallb (fun p => negb (bool_decide (p ∈ free_pages (memory m)))) (table_pages (memory m) ss).

Lemma table_numbers_In v1 : In v1 table_numbers <-> 0 <= v1 < 1023.
Proof.
  unfold table_numbers. rewrite in_map_iff. split.
  - intros (i & <- & Hi%in_seq). lia.
  - intros Hv. exists (Z.to_nat v1). rewrite in_seq. split; lia.
Qed.

#[local] Opaque table_numbers.

Lemma window_entryb_spec e page : window_entryb e page = true -> window_entry e page.
Proof. unfold window_entryb. rewrite !andb_true_iff, Z.eqb_eq. intros [[? ?] ?]. by split. Qed.

Lemma below_true n v : 0 <= v < n -> below n v = true.
Proof. intros H. unfold below. by rewrite (proj2 (Z.leb_le 0 v)), (proj2 (Z.ltb_lt v n)) by lia. Qed.

Lemma space_okb_rep x s : space_okb x s = true -> space_rep s x (view s x).
Proof.
  unfold space_okb. rewrite !andb_true_iff, forallb_forall. intros [[[[[Hm Hw] Hp] Hr] _] Hf].
  assert (Hf' : forall v1, 0 <= v1 < 1023 -> _ = true) by (intros v1 Hv; apply (Hf v1), table_numbers_In, Hv).
  split; cbn.
  - done.
  - intros v1 Hv. by rewrite below_true.
  - intros v1 v0 Hv H0 _. by rewrite below_true.
  - intros v1 Hv [_ Ht]%andb_true_iff. specialize (Hf' v1 Hv). cbn in Hf'. rewrite Ht in Hf'.
    apply andb_true_iff in Hf' as [Hl _]. by apply negb_true_iff.
  - done.
  - by apply window_entryb_spec.
  - intros v1 Hv. specialize (Hf' v1 Hv). cbn in Hf'. rewrite !below_true by lia. cbn [andb].
    destruct (has_table s v1 x).
    + apply andb_true_iff in Hf' as [_ Hl]. by apply window_entryb_spec.
    + by apply negb_true_iff.
Qed.

Lemma slots_In x ss s k : In s ss -> live_slot s k x -> In (s, k) (concat (map (slots x) ss)).
Proof.
  intros Hs Hk. apply in_concat. exists (slots x s). split; [by apply in_map |].
  destruct k as [| v1]; [by left |]. right. destruct Hk as [Hv Ht].
  apply (in_map (fun v1 => (s, Leaf v1))), filter_In. split; [by apply table_numbers_In | done].
Qed.

Lemma map_inj_NoDup {A B} (f : A -> B) l x y : NoDup (map f l) -> In x l -> In y l -> f x = f y -> x = y.
Proof.
  induction l as [| a l IH]; cbn; [done |]. intros [Ha Hl]%NoDup_cons Hx Hy E.
  rewrite list_elem_of_In, in_map_iff in Ha. destruct Hx as [-> | Hx], Hy as [-> | Hy]; auto.
  - destruct Ha. by exists y.
  - destruct Ha. by exists x.
Qed.

Lemma abstract_lookup ss m s A :
  spaces (abstract ss m) !! s = Some A -> In s ss /\ A = view s (memory m).
Proof.
  cbn. intros H%elem_of_list_to_map_2. apply list_elem_of_In, in_map_iff in H as (s' & [= <- <-] & Hin). done.
Qed.

Lemma abstract_is_Some ss m s : is_Some (spaces (abstract ss m) !! s) <-> In s ss.
Proof.
  split; [by intros [A [? _]%abstract_lookup] |]. intros Hs. rewrite <- elem_of_dom. cbn.
  rewrite dom_list_to_map_L, elem_of_list_to_set, list_elem_of_In, !map_map. cbn. by rewrite map_id.
Qed.

Lemma repb_spec ss m : repb ss m = true -> rep m (abstract ss m).
Proof.
  unfold repb. rewrite !andb_true_iff, !bool_decide_eq_true, !forallb_forall.
  intros [[[[Hmem Hact] Hsp] Hnd] Hfree].
  assert (Hpage : forall s k, In s ss -> live_slot s k (memory m) -> In (page_of s k (memory m)) (table_pages (memory m) ss)).
  { intros s k Hs Hk. apply in_map_iff. exists (s, k). split; [done | by apply slots_In]. }
  split; [done | by apply abstract_is_Some, list_elem_of_In | done | split |].
  - unfold memory_okb in Hmem. rewrite !andb_true_iff in Hmem. destruct Hmem as [[[[? ?] ?] ?] ?].
    split; [zbool; lia | by apply Nat.eqb_eq | zbool; lia | by apply Nat.leb_le].
  - intros s A [Hs ->]%abstract_lookup. by apply space_okb_rep, Hsp.
  - intros s k s' k' Hs%abstract_is_Some Hs'%abstract_is_Some Hk Hk' E.
    assert (H : (s, k) = (s', k')) by (apply (map_inj_NoDup _ _ _ _ Hnd); [by apply slots_In.. | done]).
    by injection H as -> ->.
  - intros s k Hs%abstract_is_Some Hk Hin. specialize (Hfree _ (Hpage s k Hs Hk)).
    apply negb_true_iff, bool_decide_eq_false in Hfree. done.
  - intros s Hs%abstract_is_Some. specialize (Hsp s Hs). unfold space_okb in Hsp.
    rewrite !andb_true_iff in Hsp. destruct Hsp as [[_ Hp] _]. destruct (PID_new _); [by eexists | done].
Qed.

(** C5. The page tables implement address spaces.  An address space is a function
    from virtual pages to entries; there is a list of free pages, from whose front
    pages are taken.  In every state of memory that holds a collection of address
    spaces, every sequence of mappings, reservations, page faults, unmappings,
    changes of flags, moves, loans and returns of pages, lookups and switches of
    the address space gives the answers that the specification gives, panics
    where it panics, and ends in a memory that holds the address spaces of the
    specification.  So an operation changes the entries that it names, and the
    leaf tables it needs, in the address spaces that it names, and nothing else
    in any address space. *)
Theorem page_tables_refine ops m a :
  rep m a -> Forall (op_ok (dom (spaces a))) ops -> sim (run_all exec_op ops m) (run_all spec_op ops a).
Proof. apply sim_all. Qed.

(** Process 2 lends a page to process 3, in which a leaf table is made for it,
    looks the page up, and gets it back. *)
Definition example_pt_machine : Machine Memory :=
  mk_Machine (example_satp 2) 2 [] ∅ false example_memory.

Definition example_pt_ops : list PageOp :=
  [Op_lend 4096 3 (example_satp 3) 8388608 true; Op_virt_to_phys 4096; Op_reserve 16384 (flags_or FLAG_R FLAG_W);
   Op_ensure 16390; Op_activate (example_satp 3); Op_return 8388608 2 (example_satp 2) 4096].

Lemma page_tables_refine_witness :
  let a := abstract [example_satp 1; example_satp 2; example_satp 3] example_pt_machine in
  sim (run_all exec_op example_pt_ops example_pt_machine) (run_all spec_op example_pt_ops a).
Proof.
  apply (page_tables_refine example_pt_ops example_pt_machine).
  - apply repb_spec. vm_compute. reflexivity.
  - assert (Hd : forall s, s = example_satp 2 \/ s = example_satp 3 ->
              s ∈ dom (spaces (abstract [example_satp 1; example_satp 2; example_satp 3] example_pt_machine))).
    { intros s Hs. apply elem_of_dom, abstract_is_Some. destruct Hs as [-> | ->]; cbn; auto. }
    assert (Ha : forall virt, vpn1 virt < 1021 -> addr_ok virt)
      by (intros virt Hv; split; [lia | intros [? | [? _]]; lia]).
    repeat constructor; try apply Hd; try apply Ha; try done; auto.
Defined.
