(* ===== verification/PageSafety.v ===== *)
(** * No page in two places

    Page exclusivity: a page of memory is accessible at one virtual page of one
    address space at most.  Every operation on the page tables keeps this, also
    the loan of a page, which makes it inaccessible to its owner until it is
    returned.  The proofs are about the specification of PageTableSpec.v; the
    theorems are about the page tables in memory. *)

From Stdlib Require Import ZArith Lia Bool.
From stdpp Require Import base numbers list option gmap.
From S2P Require Import Prelude.
From S2P Require Import Abi.
From S2P Require Import Machine.
From S2P Require Import Paging.
From S2P Require Import MemoryManager.
From S2P Require Import MemoryFacts.
From S2P Require Import Memory.
From S2P Require Import TableWords.
From S2P Require Import PageTableSpec.

#[local] Open Scope Z_scope.
#[local] Open Scope kernel_scope.

(** ** Entries *)

(** The page of an entry is in the bits 10 to 29. *)
Lemma entry_phys_bits e e' :
  (forall i, 10 <= i < 32 -> Z.testbit e i = Z.testbit e' i) -> entry_phys e = entry_phys e'.
Proof.
  intros H. apply Z.bits_inj'. intros i Hi. unfold entry_phys, shl32, shr32.
  change (10 mod 32) with 10. change (12 mod 32) with 12. unfold u32, wrap, modulus.
  destruct (Z.lt_ge_cases i 32) as [Hlt | Hge].
  - rewrite !Z.mod_pow2_bits_low by lia. destruct (Z.lt_ge_cases i 12).
    + by rewrite !Z.shiftl_spec_low by lia.
    + rewrite !Z.shiftl_spec_high, !Z.shiftr_spec by lia. apply H. lia.
  - by rewrite !Z.mod_pow2_bits_high by lia.
Qed.

Lemma entry_phys_range e : 0 <= entry_phys e < 4294967296 /\ entry_phys e mod 4096 = 0.
Proof.
  unfold entry_phys, shl32, shr32. change (10 mod 32) with 10. change (12 mod 32) with 12. split; [apply u32_range |].
  unfold u32, wrap, modulus. rewrite Z.shiftl_mul_pow2 by lia.
  change (2 ^ 32) with (4096 * 1048576). change (2 ^ 12) with 4096.
  rewrite (Z.mul_comm _ 4096), Z.mul_mod_distr_l by lia. rewrite Z.mul_comm. apply Z.mod_mul. lia.
Qed.

Lemma entry_phys_make_leaf p f :
  0 <= p < 4294967296 -> p mod 4096 = 0 -> 0 <= f < 1024 -> entry_phys (make_leaf p f) = p.
Proof.
  intros Hp Ha Hf. rewrite make_leaf_value by done. unfold entry_phys, shr32. change (10 mod 32) with 10.
  rewrite shiftr_div by lia. rewrite Z.div_add_l, (Z.div_small f), Z.add_0_r by lia.
  pose proof (Z.div_mod p 4096 ltac:(lia)). rewrite shl32_small by lia. lia.
Qed.

Lemma not32_above c i : 0 <= c < 1024 -> 10 <= i < 32 -> Z.testbit (not32 c) i = true.
Proof.
  intros Hc Hi. rewrite not32_spec by lia. rewrite (testbit_above c 10) by lia. apply Z.ltb_lt. lia.
Qed.

Lemma has_flag_testbit e k : 0 <= k -> has_flag e (2 ^ k) = Z.testbit e k.
Proof.
  intros Hk. unfold has_flag. destruct (Z.testbit e k) eqn:E.
  - apply negb_true_iff, Z.eqb_neq. intros H. apply (f_equal (fun z => Z.testbit z k)) in H.
    rewrite Z.land_spec, E, Z.pow2_bits_true, Z.bits_0 in H by done. done.
  - apply negb_false_iff, Z.eqb_eq. apply Z.bits_inj'. intros i Hi. rewrite Z.land_spec, Z.bits_0.
    destruct (decide (i = k)) as [-> |]; [by rewrite E |]. rewrite Z.pow2_bits_false by lia. apply andb_false_r.
Qed.

Lemma valid_bit e : has_flag e MMU_VALID = Z.testbit e 0.
Proof. by apply (has_flag_testbit e 0). Qed.

(** The changes of an entry that keep its page. *)
Lemma entry_phys_lor e c : 0 <= c < 1024 -> entry_phys (Z.lor e c) = entry_phys e.
Proof.
  intros Hc. apply entry_phys_bits. intros i Hi. rewrite Z.lor_spec, (testbit_above c 10) by lia. apply orb_false_r.
Qed.

Lemma entry_phys_clear e c : 0 <= c < 1024 -> entry_phys (Z.land e (not32 c)) = entry_phys e.
Proof.
  intros Hc. apply entry_phys_bits. intros i Hi. rewrite Z.land_spec, not32_above by lia. apply andb_true_r.
Qed.

Lemma lent_entry_invalid e : has_flag (lent_entry e) MMU_VALID = false.
Proof.
  rewrite valid_bit. unfold lent_entry. rewrite Z.lor_spec, Z.land_spec, not32_spec by done.
  cbn. by rewrite andb_false_r.
Qed.

Lemma entry_phys_returned e : entry_phys (returned_entry e) = entry_phys e.
Proof. unfold returned_entry. by rewrite entry_phys_lor, entry_phys_clear. Qed.

Lemma strip_flag_entry flags f g e e' :
  strip_flag flags f g e = Some e' -> 1 < g < 1024 -> Z.testbit g 0 = false ->
  entry_phys e' = entry_phys e /\ has_flag e' MMU_VALID = has_flag e MMU_VALID.
Proof.
  intros E Hg H0. unfold strip_flag in E. repeat case_match; simplify_eq; try done.
  rewrite entry_phys_clear by lia. split; [done |].
  rewrite !valid_bit, Z.land_spec, not32_spec by lia. by rewrite H0, andb_true_r.
Qed.

Lemma stripped_entry e flags e' :
  stripped e flags = Some e' -> entry_phys e' = entry_phys e /\ has_flag e' MMU_VALID = has_flag e MMU_VALID.
Proof.
  unfold stripped. destruct (strip_flag _ FLAG_X _ _) as [e1 |] eqn:E1; [| done]. cbn.
  destruct (strip_flag _ FLAG_R _ _) as [e2 |] eqn:E2; [| done]. cbn. intros E3.
  apply strip_flag_entry in E1 as [? ?], E2 as [? ?], E3 as [? ?]; (done || lia || (split; congruence)).
Qed.

Lemma translate_flags_range f : 0 <= translate_flags f < 1024.
Proof. unfold translate_flags, flag_if. repeat apply flags_lor_range; by destruct (flags_has _ _). Qed.

Lemma leaf_entry_page p flags user :
  0 <= p < 4294967296 -> p mod 4096 = 0 -> entry_phys (leaf_entry p flags user) = p.
Proof.
  intros Hp Ha. apply entry_phys_make_leaf; [done | done |].
  repeat first [apply translate_flags_range | apply flags_lor_range]; by destruct user.
Qed.

(** ** Exclusivity *)

(** The page [p] is accessible at a virtual page of the address space [s]. *)
Definition mapped (a : PageTables) (s v1 v0 p : Z) : Prop :=
  exists A, spaces a !! s = Some A /\ sp_table A v1 = true /\
    has_flag (sp_entry A v1 v0) MMU_VALID = true /\ entry_phys (sp_entry A v1 v0) = p.

Record exclusive (a : PageTables) : Prop := {
  ex_one s v1 v0 s' v1' v0' p : mapped a s v1 v0 p -> mapped a s' v1' v0' p -> (s, v1, v0) = (s', v1', v0');
  ex_free s v1 v0 p : mapped a s v1 v0 p -> p ∉ free a;
  ex_nodup : NoDup (free a);
  ex_pages p : p ∈ free a -> 0 <= p < 4294967296 /\ p mod 4096 = 0
}.

(** The page [p] is neither accessible nor free. *)
Definition unmapped (a : PageTables) (p : Z) : Prop :=
  (p ∉ free a) /\ (forall s v1 v0, ~ mapped a s v1 v0 p).

(** What an entry may be set to: a page that is accessible nowhere else. *)
Definition may_set (a : PageTables) (virt e : Z) : Prop :=
  has_flag e MMU_VALID = true ->
  (entry_phys e ∉ free a) /\
  (forall s v1 v0, mapped a s v1 v0 (entry_phys e) -> (s, v1, v0) = (active a, vpn1 virt, vpn0 virt)).

Lemma mapped_set a A virt e s v1 v0 p :
  spaces a !! active a = Some A ->
  mapped (mk_PageTables (<[active a := set_entry (vpn1 virt) (vpn0 virt) e A]> (spaces a)) (free a) (active a)) s v1 v0 p ->
  (if decide ((s, v1, v0) = (active a, vpn1 virt, vpn0 virt)) then has_flag e MMU_VALID = true /\ p = entry_phys e
   else mapped a s v1 v0 p).
Proof.
  intros HA (B & HB & Ht & Hv & Hp). cbn in HB. destruct (decide (s = active a)) as [-> | Hs].
  - rewrite lookup_insert_eq in HB. injection HB as <-. cbn in *. destruct (decide (v1 = vpn1 virt /\ v0 = vpn0 virt)) as [[-> ->] | Hne].
    + by rewrite decide_True.
    + rewrite decide_False by (intros [= ? ?]; tauto). by exists A.
  - rewrite lookup_insert_ne in HB by done. rewrite decide_False by congruence. by exists B.
Qed.

Lemma exclusive_set virt e a :
  exclusive a -> may_set a virt e ->
  sat (spec_set virt e a)
    (fun a' _ => exclusive a' /\ free a' = free a /\ active a' = active a /\
       forall s v1 v0 p, mapped a' s v1 v0 p ->
         (if decide ((s, v1, v0) = (active a, vpn1 virt, vpn0 virt)) then has_flag e MMU_VALID = true /\ p = entry_phys e
          else mapped a s v1 v0 p))
    (fun _ _ => False).
Proof.
  intros Ha Hset. unfold spec_set, space, bind, unwrap, assert_.
  destruct (spaces a !! active a) as [A |] eqn:HA; [| done]. destruct (sp_table A (vpn1 virt)); [| done]. cbn.
  pose proof (mapped_set a A virt e) as Hm. set (a' := mk_PageTables _ _ _) in *.
  split_and!; [| done | done | intros; by apply Hm].
  split; [| | apply Ha | apply Ha].
  - intros s v1 v0 s' v1' v0' p H1%Hm H2%Hm; [| done..]. 
    destruct (decide ((s, v1, v0) = _)) as [E1 | N1], (decide ((s', v1', v0') = _)) as [E2 | N2].
    + congruence.
    + destruct H1 as [Hv ->]. destruct (Hset Hv) as [_ Hone]. by apply Hone in H2.
    + destruct H2 as [Hv ->]. destruct (Hset Hv) as [_ Hone]. by apply Hone in H1.
    + by eapply (ex_one _ Ha).
  - intros s v1 v0 p H1%Hm; [| done]. case_decide.
    + destruct H1 as [Hv ->]. by apply Hset.
    + by eapply (ex_free _ Ha).
Qed.

(** A step that keeps exclusivity, and every page unmapped that was unmapped. *)
Definition excl_step (a a' : PageTables) : Prop :=
  exclusive a' /\ active a' = active a /\ forall q, unmapped a q -> unmapped a' q.

Lemma excl_step_refl a : exclusive a -> excl_step a a.
Proof. intros Ha. unfold excl_step. by split_and!. Qed.

Lemma excl_step_trans a1 a2 a3 : excl_step a1 a2 -> excl_step a2 a3 -> excl_step a1 a3.
Proof. intros (_ & E1 & H1) (? & E2 & H2). unfold excl_step. split_and!; [done | congruence | auto]. Qed.

Lemma exclusive_alloc a :
  exclusive a ->
  sat (spec_alloc a)
    (fun a' p => excl_step a a' /\ (p ∈ free a) /\ unmapped a' p /\ spaces a' = spaces a /\ 0 <= p < 4294967296 /\ p mod 4096 = 0)
    (fun a' _ => a' = a).
Proof.
  intros [H1 H2 Hn Hp]. unfold spec_alloc. destruct (free a) as [| p rest] eqn:E; [done |]. cbn.
  apply NoDup_cons in Hn as [Hin Hn].
  assert (Hm : forall s v1 v0 q, mapped (mk_PageTables (spaces a) rest (active a)) s v1 v0 q -> mapped a s v1 v0 q) by done.
  unfold excl_step. split_and!; [| done | | by left | | done | apply Hp; by left..].
  - split; [by intros; eapply H1; apply Hm | | done | intros q Hq; apply Hp; by right].
    intros s v1 v0 q Hq%Hm Hin'. apply (H2 s v1 v0 q Hq). by right.
  - intros q [Hq Hnm]. rewrite E in Hq. split; [| done]. intros Hin'. apply Hq. by right.
  - split; [done |]. intros s v1 v0 Hq%Hm. apply (H2 s v1 v0 p Hq). by left.
Qed.

Lemma mapped_add_table a A v1 p s u w q :
  spaces a !! active a = Some A -> entry_phys (make_leaf p window_flags) = p ->
  mapped (mk_PageTables (<[active a := add_table v1 p A]> (spaces a)) (free a) (active a)) s u w q ->
  ((s, u, w) = (active a, 1021, v1) /\ q = p) \/ mapped a s u w q.
Proof.
  intros HA Hp (B & HB & Ht & Hv & Hq). cbn in HB. destruct (decide (s = active a)) as [-> | Hs].
  - rewrite lookup_insert_eq in HB. injection HB as <-. cbn in *.
    destruct (decide (u = v1)); [done |]. destruct (decide (u = 1021 /\ w = v1)) as [[-> ->] |].
    + left. by rewrite Hp in Hq.
    + right. by exists A.
  - rewrite lookup_insert_ne in HB by done. right. by exists B.
Qed.

Lemma exclusive_table virt a : exclusive a -> sat (spec_table virt a) (fun a' _ => excl_step a a') (fun a' _ => a' = a).
Proof.
  intros Ha. unfold spec_table. apply sat_bind. unfold space, unwrap.
  destruct (spaces a !! active a) as [A |] eqn:HA; [| done]. cbn [sat].
  destruct (sp_table A (vpn1 virt)); [by apply excl_step_refl |].
  apply sat_bind. eapply sat_mono; [by apply exclusive_alloc | | done].
  intros a1 p ((H1 & E1 & K1) & Hin & [Hpf Hpm] & Es & Hp & Hal). unfold put_space, modify. cbn [sat].
  rewrite <- Es, <- E1 in HA. 
  assert (Hph : entry_phys (make_leaf p window_flags) = p) by (by apply entry_phys_make_leaf).
  pose proof (mapped_add_table a1 A (vpn1 virt) p) as Hm. set (a2 := mk_PageTables _ _ _) in *.
  assert (H2 : forall s u w q, mapped a2 s u w q -> ((s, u, w) = (active a1, 1021, vpn1 virt) /\ q = p) \/ mapped a1 s u w q)
    by (intros; by apply Hm).
  unfold excl_step. split_and!.
  - split; [| | apply H1 | apply H1].
    + intros s u w s' u' w' q [[-> ->] | M1]%H2 [[-> E] | M2]%H2.
      * done.
      * by apply Hpm in M2.
      * subst q. by apply Hpm in M1.
      * by eapply (ex_one _ H1).
    + intros s u w q [[_ ->] | M1]%H2; [done | by eapply (ex_free _ H1)].
  - done.
  - intros q Hq. destruct (K1 q Hq) as [? Hnm]. split; [done |].
    intros s u w [[_ ->] | M1]%H2; [| by eapply Hnm]. 
    by destruct Hq as [Hq _].
Qed.

(** The entry of a page in the active address space. *)
Definition entry_at (a : PageTables) (virt e : Z) : Prop :=
  exists A, spaces a !! active a = Some A /\ sp_table A (vpn1 virt) = true /\ e = sp_entry A (vpn1 virt) (vpn0 virt).

Lemma sat_entry virt a : sat (spec_entry virt a) (fun a' e => a' = a /\ entry_at a virt e) (fun _ _ => False).
Proof.
  unfold spec_entry, space, bind, unwrap, assert_. destruct (spaces a !! active a) as [A |] eqn:HA; [| done].
  destruct (sp_table A (vpn1 virt)) eqn:Ht; [| done]. cbn. split; [done |]. by exists A.
Qed.

Lemma sat_entry_or err virt a :
  sat (spec_entry_or err virt a) (fun a' e => a' = a /\ entry_at a virt e) (fun a' _ => a' = a).
Proof.
  unfold spec_entry_or, spec_has_table. apply sat_bind. unfold space, bind, unwrap.
  destruct (spaces a !! active a) as [A |]; [| done]. cbn [ret sat]. destruct (negb _); [done |].
  eapply sat_mono; [apply sat_entry | done | done].
Qed.

Lemma sat_lookup virt a :
  sat (spec_lookup virt a) (fun a' e => a' = a /\ entry_at a virt e) (fun a' _ => a' = a).
Proof. unfold spec_lookup. destruct (negb _); [done | apply sat_entry_or]. Qed.

Lemma entry_mapped a virt e :
  entry_at a virt e -> has_flag e MMU_VALID = true -> mapped a (active a) (vpn1 virt) (vpn0 virt) (entry_phys e).
Proof. intros (A & HA & Ht & ->) Hv. by exists A. Qed.

(** An entry may be changed to one for the same page. *)
Lemma may_set_same a virt e e' :
  exclusive a -> entry_at a virt e -> entry_phys e' = entry_phys e ->
  has_flag e' MMU_VALID = has_flag e MMU_VALID -> may_set a virt e'.
Proof.
  intros Ha He Ep Ev Hv. rewrite Ev in Hv. rewrite Ep. pose proof (entry_mapped a virt e He Hv) as Hm.
  split; [by eapply (ex_free _ Ha) |]. intros s v1 v0 H. by eapply (ex_one _ Ha).
Qed.

Lemma may_set_unmapped a virt e : unmapped a (entry_phys e) -> may_set a virt e.
Proof. intros [Hf Hm] _. split; [done |]. intros s v1 v0 H. by destruct (Hm s v1 v0). Qed.

(** A page that is made inaccessible is unmapped afterwards. *)
Lemma exclusive_clear a virt e e' :
  exclusive a -> entry_at a virt e -> has_flag e MMU_VALID = true -> has_flag e' MMU_VALID = false ->
  sat (spec_set virt e' a)
    (fun a' _ => exclusive a' /\ active a' = active a /\ unmapped a' (entry_phys e)) (fun _ _ => False).
Proof.
  intros Ha He Hv Hv'. pose proof (entry_mapped a virt e He Hv) as Hm.
  eapply sat_mono; [apply exclusive_set; [done | unfold may_set; by rewrite Hv'] | | done].
  intros a' [] (H' & Hf & Hact & Hmap). split_and!; [done | done |]. split.
  - rewrite Hf. by eapply (ex_free _ Ha).
  - intros s v1 v0 M. pose proof (Hmap _ _ _ _ M) as M'. case_decide as Hd; [by rewrite Hv' in M'; destruct M' |].
    apply Hd. by eapply (ex_one _ Ha).
Qed.

Lemma exclusive_map phys virt flags user a :
  exclusive a -> unmapped a phys -> 0 <= phys < 4294967296 -> phys mod 4096 = 0 ->
  sat (spec_map phys virt flags user a) (fun a' _ => exclusive a' /\ active a' = active a)
    (fun a' _ => exclusive a' /\ active a' = active a).
Proof.
  intros Ha Hu Hp Hal. unfold spec_map. sat_step. sat_step. sat_step.
  eapply sat_mono; [by apply exclusive_table | | by intros ? ? ->].
  intros a1 [] (H1 & E1 & K1). sat_step. eapply sat_mono; [apply sat_entry | | done]. intros a2 e [-> He].
  destruct (has_flag e MMU_VALID); [by sat_step |].
  eapply sat_mono; [apply exclusive_set; [done |] | | done].
  - apply may_set_unmapped. rewrite leaf_entry_page by done. by apply K1.
  - intros a2 [] (? & _ & ? & _). split; [done | congruence].
Qed.

Lemma exclusive_activate s a : exclusive a -> exclusive (mk_PageTables (spaces a) (free a) s).
Proof. intros [? ? ? ?]. by split. Qed.

Lemma exclusive_visit dest phys virt flags user a :
  exclusive a -> unmapped a phys -> 0 <= phys < 4294967296 -> phys mod 4096 = 0 ->
  sat (spec_in dest (spec_map phys virt flags user) a) (fun a' _ => exclusive a') (fun a' _ => exclusive a').
Proof.
  intros Ha Hu Hp Hal. unfold spec_in. do 2 sat_step. sat_step. unfold spec_activate at 1. sat_step.
  sat_step. sat_step.
  eapply sat_mono; [apply (exclusive_map phys); [by apply exclusive_activate | done..] | |];
    intros a1 v [H1 _]; sat_step; unfold spec_activate; sat_step; sat_step; by apply exclusive_activate.
Qed.

(** What an operation needs besides: a page that is mapped is not in use, and a
    page that is returned is the one that was lent. *)
Definition op_pre (o : PageOp) (a : PageTables) : Prop :=
  match o with
  | Op_map _ phys _ _ _ => unmapped a phys /\ 0 <= phys < 4294967296 /\ phys mod 4096 = 0
  | Op_return src _ dest dest_addr =>
      forall A B, spaces a !! active a = Some A -> spaces a !! dest = Some B ->
        entry_phys (sp_entry A (vpn1 src) (vpn0 src)) = entry_phys (sp_entry B (vpn1 dest_addr) (vpn0 dest_addr))
  | _ => True
  end.

#[local] Abbreviation keeps_excl r := (sat r (fun a' _ => exclusive a') (fun a' _ => exclusive a')).

Lemma excl_set virt e a : exclusive a -> may_set a virt e -> keeps_excl (spec_set virt e a).
Proof. intros Ha Hs. eapply sat_mono; [by apply exclusive_set | | done]. by intros ? ? []. Qed.

Lemma invalid_may_set a virt e : has_flag e MMU_VALID = false -> may_set a virt e.
Proof. intros H H'. congruence. Qed.

Lemma excl_reserve virt flags a : exclusive a -> keeps_excl (spec_reserve virt flags a).
Proof.
  intros Ha. unfold spec_reserve. sat_step. eapply sat_mono; [by apply exclusive_table | | by intros ? ? ->].
  intros a1 [] (H1 & _). sat_step. eapply sat_mono; [apply sat_entry | | done]. intros a2 e [-> He].
  destruct (has_flag e MMU_VALID); [by sat_step |]. apply excl_set; [done |]. apply invalid_may_set.
  rewrite valid_bit. unfold translate_flags, flag_if. rewrite !Z.lor_spec. by repeat destruct (flags_has _ _).
Qed.

Lemma excl_ensure address a : exclusive a -> keeps_excl (spec_ensure address a).
Proof.
  intros Ha. unfold spec_ensure. sat_step. sat_step. destruct (_ && _); [by sat_step |]. cbv zeta.
  set (virt := Z.land address _). sat_step. sat_step. eapply sat_mono; [apply sat_lookup | | by intros ? ? ->].
  intros a1 e [-> He]. destruct (has_flag e MMU_VALID); [by sat_step |]. destruct (_ || _); [by sat_step |].
  sat_step. sat_step. eapply sat_mono; [by apply exclusive_alloc | | done].
  intros a1 p ((H1 & E1 & K1) & Hin & Hu & Es & Hp & Hal). sat_step. sat_step. sat_step.
  eapply sat_mono; [apply excl_set; [done |] | | done].
  - apply may_set_unmapped. rewrite entry_phys_make_leaf; [done | done | done |].
    apply flags_lor_range; [apply demand_flags_range | done].
  - intros a2 [] H2. by sat_step.
Qed.

Lemma excl_hand virt a : exclusive a -> keeps_excl (spec_hand virt a).
Proof.
  intros Ha. unfold spec_hand. sat_step. eapply sat_mono; [apply sat_entry_or | | by intros ? ? ->].
  intros a1 e [-> He]. destruct (has_flag e MMU_VALID) eqn:Hv; [| by sat_step].
  apply excl_set; [done |]. apply (may_set_same a virt e); [done | done | by apply entry_phys_lor |].
  rewrite !valid_bit, Z.lor_spec. by rewrite orb_false_r.
Qed.

Lemma excl_unmap virt a : exclusive a -> keeps_excl (spec_unmap virt a).
Proof.
  intros Ha. unfold spec_unmap. sat_step. eapply sat_mono; [apply sat_lookup | | by intros ? ? ->].
  intros a1 e [-> He]. sat_step. eapply sat_mono; [by apply excl_set, invalid_may_set | | done].
  intros a2 [] H2. by sat_step.
Qed.

Lemma excl_update_flags virt flags a : exclusive a -> keeps_excl (spec_update_flags virt flags a).
Proof.
  intros Ha. unfold spec_update_flags. destruct (MemoryFlags_is_empty _); [by sat_step |].
  sat_step. eapply sat_mono; [apply sat_entry_or | | by intros ? ? ->]. intros a1 e [-> He].
  destruct (has_flag e MMU_S); [by sat_step |]. sat_step. sat_step; [| done].
  apply excl_set; [done |]. apply stripped_entry in H as [? ?]. by apply (may_set_same a virt e).
Qed.

Lemma excl_move src dest_pid dest dest_addr a : exclusive a -> keeps_excl (spec_move src dest_pid dest dest_addr a).
Proof.
  intros Ha. unfold spec_move. sat_step. eapply sat_mono; [apply sat_lookup | | by intros ? ? ->].
  intros a1 e [-> He]. destruct (has_flag e MMU_VALID) eqn:Hv; cbn [negb]; [| by sat_step].
  sat_step. eapply sat_mono; [by apply (exclusive_clear a src e) | | done].
  intros a1 [] (H1 & _ & Hu). sat_step. destruct (entry_phys_range e).
  eapply sat_mono; [by apply exclusive_visit | | done]. intros a2 [] H2. by sat_step.
Qed.

Lemma excl_lend src dest_pid dest dest_addr mutable a :
  exclusive a -> keeps_excl (spec_lend src dest_pid dest dest_addr mutable a).
Proof.
  intros Ha. unfold spec_lend. sat_step. eapply sat_mono; [apply sat_lookup | | by intros ? ? ->].
  intros a1 e [-> He]. destruct (has_flag e MMU_VALID) eqn:Hv; cbn [negb orb]; [| by sat_step].
  destruct (has_flag e MMU_S); [by sat_step |].
  sat_step. eapply sat_mono; [apply (exclusive_clear a src e); try done; apply lent_entry_invalid | | done].
  intros a1 [] (H1 & _ & Hu). sat_step. destruct (entry_phys_range e).
  eapply sat_mono; [by apply exclusive_visit | | done]. intros a2 [] H2. by sat_step.
Qed.

(** After an entry was cleared, the entries of the other pages are as before. *)
Lemma set_entry_at a virt e a' :
  spec_set virt e a = ROk a' tt ->
  forall s B, spaces a' !! s = Some B -> exists C, spaces a !! s = Some C /\ sp_table B = sp_table C /\
    forall v1 v0, sp_entry B v1 v0
      = if decide (s = active a /\ v1 = vpn1 virt /\ v0 = vpn0 virt) then e else sp_entry C v1 v0.
Proof.
  unfold spec_set, space, bind, unwrap, assert_. destruct (spaces a !! active a) as [A |] eqn:HA; [| done].
  destruct (sp_table A (vpn1 virt)); [| done]. intros [= <-] s B. cbn.
  destruct (decide (s = active a)) as [-> | Hs].
  - rewrite lookup_insert_eq. intros [= <-]. exists A. split_and!; [done | done |]. intros v1 v0. cbn.
    repeat case_decide; tauto.
  - rewrite lookup_insert_ne by done. intros HB. exists B. split_and!; [done | done |]. intros v1 v0.
    by rewrite decide_False by tauto.
Qed.

Lemma excl_return src dest dest_addr a :
  exclusive a -> op_pre (Op_return src 0 dest dest_addr) a -> keeps_excl (spec_return src dest dest_addr a).
Proof.
  intros Ha Hpre. unfold spec_return. sat_step. eapply sat_mono; [apply sat_lookup | | by intros ? ? ->].
  intros a1 e [-> He]. destruct (has_flag e MMU_VALID) eqn:Hv; cbn [negb]; [| by sat_step].
  sat_step. pose proof (exclusive_clear a src e 0 Ha He Hv eq_refl) as Hc.
  destruct (spec_set src 0 a) as [a1 [] | | |] eqn:Es; try done. destruct Hc as (H1 & Hact & Hu). cbn [sat].
  do 2 sat_step. sat_step. unfold spec_activate at 1. sat_step.
  sat_step. sat_step. eapply sat_mono; [apply sat_lookup | | done]. intros a2 d [-> Hd].
  sat_step. sat_step. sat_step.
  eapply sat_mono; [apply excl_set; [by apply exclusive_activate | apply may_set_unmapped] | | done].
  - destruct Hd as (B & HB & _ & ->). cbn in HB. destruct (set_entry_at _ _ _ _ Es _ _ HB) as (C & HC & _ & HE).
    rewrite entry_phys_returned. rewrite HE in *. case_decide; [done |].
    destruct He as (A & HA & _ & ->). by rewrite <- (Hpre A C HA HC).
  - intros a3 [] H3. sat_step. unfold spec_activate. do 2 sat_step. by apply exclusive_activate.
Qed.

Lemma excl_reads {A} (f : PageTables -> outcome Error PageTables A) a :
  exclusive a -> sat (f a) (fun a' _ => a' = a) (fun a' _ => a' = a) -> keeps_excl (f a).
Proof. intros Ha Hf. eapply sat_mono; [exact Hf | |]; by intros ? ? ->. Qed.

Lemma excl_virt_to_phys virt a : exclusive a -> keeps_excl (spec_virt_to_phys virt a).
Proof.
  intros Ha. apply excl_reads; [done |]. unfold spec_virt_to_phys. sat_step.
  eapply sat_mono; [apply sat_entry_or | | by intros ? ? ->]. intros a1 e [-> He].
  repeat case_match; by sat_step.
Qed.

Lemma excl_is_lent virt a : exclusive a -> keeps_excl (spec_is_lent virt a).
Proof.
  intros Ha. apply excl_reads; [done |]. unfold spec_is_lent. sat_step. sat_step.
  eapply sat_mono; [apply sat_lookup | |]; [intros a1 e [-> He] | intros a1 e ->]; by sat_step.
Qed.

Lemma exclusive_op o a : exclusive a -> op_pre o a -> keeps_excl (spec_op o a).
Proof.
  intros Ha Hpre. destruct o; cbn [spec_op]; unfold answer; sat_step;
    (eapply sat_mono; [| intros a1 v H1; sat_step; exact H1 | intros a1 e H1; exact H1]).
  - destruct Hpre as (Hu & Hp & Hal). eapply sat_mono; [by apply exclusive_map | |]; by intros ? ? [].
  - by apply excl_reserve.
  - by apply excl_ensure.
  - by apply excl_hand.
  - by apply excl_unmap.
  - by apply excl_update_flags.
  - by apply excl_move.
  - by apply excl_lend.
  - by apply excl_return.
  - by apply excl_virt_to_phys.
  - by apply excl_is_lent.
  - by apply exclusive_activate.
Qed.


(** ** A test for exclusivity *)

Definition entry_numbers : list Z := map Z.of_nat (seq 0 1024).

(** The accessible pages of a memory. *)
Definition mapped_in (x : Memory) (s : Z) : list (Z * Z * Z) :=
  concat (map (fun v1 => map (fun v0 => (s, v1, v0))
                (List.filter (fun v0 => has_flag (leaf s v1 v0 x) MMU_VALID) entry_numbers))
            (List.filter (fun v1 => has_table s v1 x) table_numbers)).
Definition page_at (x : Memory) (svv : Z * Z * Z) : Z := entry_phys (leaf svv.1.1 svv.1.2 svv.2 x).

Definition exclusiveb (ss : list Z) (m : Machine Memory) : bool :=
  let x := memory m in
  let l := concat (map (mapped_in x) ss) in
  bool_decide (NoDup (map (page_at x) l)) && bool_decide (NoDup (free_pages x)) &&
  forallb (fun svv => negb (bool_decide (page_at x svv ∈ free_pages x))) l.

#[local] Opaque table_numbers entry_numbers.

Lemma mapped_in_In ss m s v1 v0 p :
  mapped (abstract ss m) s v1 v0 p ->
  In (s, v1, v0) (concat (map (mapped_in (memory m)) ss)) /\ page_at (memory m) (s, v1, v0) = p.
Proof.
  intros (A & [Hs ->]%abstract_lookup & Ht & Hv & Hp). cbn in *.
  apply andb_true_iff in Ht as [Hb1 Ht]. destruct (below 1024 v0) eqn:Hb0; [| done]. split; [| done].
  unfold below in Hb1, Hb0. apply andb_true_iff in Hb1 as [? ?], Hb0 as [? ?]. zbool.
  apply in_concat. exists (mapped_in (memory m) s). split; [by apply in_map |].
  apply in_concat. eexists. split.
  - apply in_map, filter_In. split; [| exact Ht]. apply table_numbers_In. lia.
  - cbn. apply in_map, filter_In. split; [| done]. 
    assert (He : In v0 (map Z.of_nat (seq 0 1024))) by (apply in_map_iff; exists (Z.to_nat v0); rewrite in_seq; lia).
    exact He.
Qed.

Lemma exclusiveb_spec ss m :
  memory_ok (memory m) -> exclusiveb ss m = true -> exclusive (abstract ss m).
Proof.
  intros Hok. unfold exclusiveb. rewrite !andb_true_iff, !bool_decide_eq_true, forallb_forall.
  intros [[Hn Hf] Ht]. split.
  - intros s v1 v0 s' v1' v0' p [H1 E1]%mapped_in_In [H2 E2]%mapped_in_In.
    apply (map_inj_NoDup _ _ _ _ Hn H1 H2). congruence.
  - intros s v1 v0 p [H1 E1]%mapped_in_In. specialize (Ht _ H1).
    apply negb_true_iff, bool_decide_eq_false in Ht. by rewrite E1 in Ht.
  - done.
  - intros p Hp. by apply (free_pages_elem (memory m)).
Qed.


(** ** A loan and its return *)

Lemma aligned_word virt : Z.land virt 4095 = 0 -> Z.land virt 3 = 0.
Proof. intros H. change 3 with (Z.land 4095 3). by rewrite Z.land_assoc, H. Qed.

(** An entry that was valid and neither shared nor P is the same after a loan. *)
Lemma returned_lent e :
  0 <= e < 4294967296 -> has_flag e MMU_VALID = true -> has_flag e MMU_S = false -> has_flag e MMU_P = false ->
  returned_entry (lent_entry e) = e.
Proof.
  intros He Hv Hs Hp. rewrite valid_bit in Hv.
  change MMU_S with (2 ^ 8) in Hs. change MMU_P with (2 ^ 9) in Hp. rewrite has_flag_testbit in Hs, Hp by done.
  apply Z.bits_inj'. intros i Hi. unfold returned_entry, lent_entry.
  rewrite !Z.lor_spec, !Z.land_spec, Z.lor_spec, Z.land_spec.
  change (Z.lor MMU_S MMU_P) with 768. rewrite !not32_spec by done.
  destruct (Z.lt_ge_cases i 32) as [Hlt | Hge].
  - rewrite (proj2 (Z.ltb_lt i 32)), !andb_true_r by done.
    destruct (decide (i = 0)) as [-> |]; [by rewrite Hv |].
    destruct (decide (i = 8)) as [-> |]; [by rewrite Hs |].
    destruct (decide (i = 9)) as [-> |]; [by rewrite Hp |].
    assert (E1 : Z.testbit MMU_VALID i = false) by (by apply (Z.pow2_bits_false 0)).
    assert (E2 : Z.testbit MMU_S i = false) by (by apply (Z.pow2_bits_false 8)).
    assert (E3 : Z.testbit 768 i = false).
    { change 768 with (Z.lor (2 ^ 8) (2 ^ 9)). rewrite Z.lor_spec, !Z.pow2_bits_false by done. done. }
    rewrite E1, E2, E3. cbn [negb]. by rewrite !andb_true_r, !orb_false_r.
  - rewrite (testbit_above e 32), !(testbit_above _ 10) by (done || lia). 
    rewrite (proj2 (Z.ltb_ge i 32)) by lia. by rewrite !andb_false_r.
Qed.

Section Runs.
Context (a : PageTables) (A : Space) (virt : Z).
Context (HA : spaces a !! active a = Some A) (Ht : sp_table A (vpn1 virt) = true) (Hal : Z.land virt 4095 = 0).

#[local] Abbreviation e := (sp_entry A (vpn1 virt) (vpn0 virt)).

Lemma run_entry : spec_entry virt a = ROk a e.
Proof. unfold spec_entry, space, bind, unwrap, assert_. by rewrite HA, Ht. Qed.

Lemma run_entry_or err : spec_entry_or err virt a = ROk a e.
Proof.
  unfold spec_entry_or, spec_has_table. unfold bind, space at 1, unwrap at 1. rewrite HA. cbn. rewrite Ht. apply run_entry.
Qed.

Lemma run_lookup : spec_lookup virt a = ROk a e.
Proof. unfold spec_lookup. rewrite (aligned_word _ Hal). apply run_entry_or. Qed.

Lemma run_set d :
  spec_set virt d a
  = ROk (mk_PageTables (<[active a := set_entry (vpn1 virt) (vpn0 virt) d A]> (spaces a)) (free a) (active a)) tt.
Proof. unfold spec_set, space, bind, unwrap, assert_. by rewrite HA, Ht. Qed.

Lemma run_map phys flags user :
  has_flag e MMU_VALID = false ->
  spec_map phys virt flags user a
  = ROk (mk_PageTables (<[active a := set_entry (vpn1 virt) (vpn0 virt) (leaf_entry phys flags user) A]> (spaces a))
           (free a) (active a)) tt.
Proof.
  intros Hv. unfold spec_map. rewrite Hal. rewrite (bind_ROk _ _ a a tt) by done.
  rewrite (bind_ROk _ _ a a tt).
  - rewrite (bind_ROk _ _ a a e) by apply run_entry. rewrite Hv. apply run_set.
  - unfold spec_table, space, bind, unwrap. by rewrite HA, Ht.
Qed.
End Runs.

Lemma leaf_entry_flags p flags user :
  has_flag (leaf_entry p flags user) MMU_VALID = true /\ has_flag (leaf_entry p flags user) MMU_S = false.
Proof.
  unfold leaf_entry. rewrite !has_flag_make_leaf by done. change MMU_S with (2 ^ 8) at 1. rewrite valid_bit, has_flag_testbit by done.
  unfold translate_flags, flag_if. rewrite !Z.lor_spec.
  by destruct (flags_has flags FLAG_R), (flags_has flags FLAG_W), (flags_has flags FLAG_X), (flags_has flags FLAG_P), user.
Qed.

Lemma run_virt_to_phys a A virt :
  spaces a !! active a = Some A -> sp_table A (vpn1 virt) = true ->
  spec_virt_to_phys virt a
  = let e := sp_entry A (vpn1 virt) (vpn0 virt) in
    (if has_flag e MMU_S then RErr a ShareViolation
     else if has_flag e MMU_VALID then ROk a (entry_phys e)
     else if e =? 0 then RErr a BadAddress else RErr a MemoryInUse).
Proof.
  intros HA Ht. unfold spec_virt_to_phys. rewrite (bind_ROk _ _ a a _ (run_entry_or a A virt HA Ht _)).
  unfold fail, ret. cbn zeta. set (c1 := has_flag _ _). set (c2 := has_flag _ _). set (c3 := _ =? 0). by destruct c1, c2, c3.
Qed.

Lemma lent_entry_shared e : has_flag (lent_entry e) MMU_S = true.
Proof.
  unfold lent_entry. change MMU_S with (2 ^ 8). rewrite has_flag_testbit by done. rewrite Z.lor_spec.
  change (Z.testbit (2 ^ 8) 8) with true. by rewrite orb_true_r.
Qed.

Section Loan.
Context (a : PageTables) (A B : Space) (src dst t : Z).
Context (HA : spaces a !! active a = Some A) (HB : spaces a !! t = Some B) (Hst : t <> active a).
Context (HtA : sp_table A (vpn1 src) = true) (HtB : sp_table B (vpn1 dst) = true).
Context (Hsrc : Z.land src 4095 = 0) (Hdst : Z.land dst 4095 = 0).
Context (Hfree : has_flag (sp_entry B (vpn1 dst) (vpn0 dst)) MMU_VALID = false).

#[local] Abbreviation e := (sp_entry A (vpn1 src) (vpn0 src)).
#[local] Abbreviation put virt d C := (set_entry (vpn1 virt) (vpn0 virt) d C).

(** The entry in the space of the borrower. *)
Definition loan (mutable : bool) (pid : Z) : Z := leaf_entry (entry_phys e) (lent_flags e mutable) (negb (pid =? 1)).

Definition lent_state (mutable : bool) (pid : Z) : PageTables :=
  mk_PageTables (<[t := put dst (loan mutable pid) B]> (<[active a := put src (lent_entry e) A]> (spaces a)))
    (free a) (active a).

Lemma run_lend mutable pid :
  has_flag e MMU_VALID = true -> has_flag e MMU_S = false ->
  spec_lend src pid t dst mutable a = ROk (lent_state mutable pid) (entry_phys e).
Proof.
  intros Hv Hs. unfold spec_lend. rewrite (bind_ROk _ _ a a e) by (by apply run_lookup). rewrite Hv, Hs. cbn [negb orb].
  erewrite (bind_ROk (spec_set src _)) by (by apply run_set). erewrite bind_ROk; [reflexivity |].
  unfold spec_in. set (a1 := mk_PageTables _ _ _). rewrite (bind_ROk _ _ a1 a1 (active a)) by done.
  set (a2 := mk_PageTables (spaces a1) (free a1) t). rewrite (bind_ROk _ _ a1 a2 tt) by done.
  erewrite (bind_ROk (attempt _)).
  2: { unfold attempt. erewrite run_map; [reflexivity | | exact HtB | done | done]. cbn. by rewrite lookup_insert_ne. }
  reflexivity.
Qed.

(** The return, from the space of the borrower. *)
Definition returned_state (mutable : bool) (pid : Z) : PageTables :=
  mk_PageTables
    (<[active a := put src (returned_entry (lent_entry e)) (put src (lent_entry e) A)]>
       (<[t := put dst 0 (put dst (loan mutable pid) B)]> (spaces (lent_state mutable pid)))) (free a) t.

Lemma run_return mutable pid :
  has_flag (lent_entry e) MMU_S = true ->
  spec_return dst (active a) src (mk_PageTables (spaces (lent_state mutable pid)) (free a) t)
  = ROk (returned_state mutable pid) (entry_phys e).
Proof.
  intros HS. set (a1 := mk_PageTables _ _ _). destruct (leaf_entry_flags (entry_phys e) (lent_flags e mutable) (negb (pid =? 1))) as [Hv _].
  assert (H1 : spaces a1 !! active a1 = Some (put dst (loan mutable pid) B)) by (cbn; by rewrite lookup_insert_eq).
  unfold spec_return. erewrite (bind_ROk (spec_lookup dst)) by (by apply (run_lookup a1 _ dst H1)).
  cbn [set_entry sp_entry]. rewrite decide_True by done. unfold loan at 1. rewrite Hv. cbn [negb].
  erewrite (bind_ROk (spec_set dst 0)) by (by apply (run_set a1 _ dst H1)). set (a2 := mk_PageTables _ _ _).
  rewrite (bind_ROk _ _ a2 a2 t) by done.
  set (a3 := mk_PageTables (spaces a2) (free a2) (active a)). rewrite (bind_ROk _ _ a2 a3 tt) by done.
  assert (H3 : spaces a3 !! active a3 = Some (put src (lent_entry e) A))
    by (cbn; rewrite !lookup_insert_ne, lookup_insert_eq by done; done).
  erewrite (bind_ROk (unwrap_result _)).
  2: { unfold unwrap_result. rewrite (run_lookup a3 _ src H3) by done. reflexivity. }
  cbn [set_entry sp_entry]. rewrite decide_True by done. rewrite HS. rewrite (bind_ROk _ _ a3 a3 tt) by done.
  erewrite (bind_ROk (spec_set src _)) by (by apply (run_set a3 _ src H3)).
  unfold bind, spec_activate, modify, ret. cbn [spaces free active a3 a2]. f_equal.
  unfold loan. destruct (entry_phys_range e). by rewrite leaf_entry_page.
Qed.
(** What the specification answers, from the loan to the return. *)
Lemma loan_answers mutable pid pid' :
  has_flag e MMU_VALID = true -> has_flag e MMU_S = false ->
  run_all spec_op
    [Op_lend src pid t dst mutable; Op_virt_to_phys src; Op_activate t; Op_virt_to_phys dst;
     Op_return dst pid' (active a) src; Op_activate (active a)] a
  = ROk (mk_PageTables (spaces (returned_state mutable pid)) (free a) (active a))
      [inr (Ans_word (entry_phys e)); inl ShareViolation; inr Ans_done; inr (Ans_word (entry_phys e));
       inr (Ans_word (entry_phys e)); inr Ans_done].
Proof.
  intros Hv HS. cbn [run_all spec_op]. set (a1 := lent_state mutable pid).
  destruct (leaf_entry_flags (entry_phys e) (lent_flags e mutable) (negb (pid =? 1))) as [Lv Ls].
  destruct (entry_phys_range e) as [Hp1 Hp2].
  assert (H1 : spaces a1 !! active a1 = Some (put src (lent_entry e) A))
    by (cbn; by rewrite lookup_insert_ne, lookup_insert_eq).
  assert (H2 : spaces a1 !! t = Some (put dst (loan mutable pid) B)) by (cbn; by rewrite lookup_insert_eq).
  assert (E1 : spec_virt_to_phys src a1 = RErr a1 ShareViolation).
  { rewrite (run_virt_to_phys _ _ _ H1) by done. cbn [set_entry sp_entry]. rewrite decide_True by done. cbn zeta.
    by rewrite lent_entry_shared. }
  assert (E2 : let a2 := mk_PageTables (spaces a1) (free a1) t in
               spec_virt_to_phys dst a2 = ROk a2 (entry_phys e)).
  { intros a2. rewrite (run_virt_to_phys a2 _ _ H2) by done. cbn [set_entry sp_entry]. rewrite decide_True by done.
    cbn zeta. unfold loan. rewrite Ls, Lv. by rewrite leaf_entry_page. }
  unfold bind, attempt, answer, bind, ret. rewrite run_lend by done. fold a1. rewrite E1.
  unfold spec_activate, modify. cbn zeta in E2. rewrite E2.
  change (mk_PageTables (spaces a1) (free a1) t) with (mk_PageTables (spaces (lent_state mutable pid)) (free a) t).
  rewrite run_return by apply lent_entry_shared. reflexivity.
Qed.
End Loan.

(** The same address spaces, entry by entry. *)
Definition space_eq (A B : Space) : Prop :=
  (forall v1, sp_table A v1 = sp_table B v1) /\ (forall v1 v0, sp_entry A v1 v0 = sp_entry B v1 v0).

Definition tables_eq (a b : PageTables) : Prop :=
  active a = active b /\ free a = free b /\ forall s, option_Forall2 space_eq (spaces a !! s) (spaces b !! s).

Lemma space_eq_put v1 v0 d A : sp_entry A v1 v0 = d -> forall c, space_eq (set_entry v1 v0 d (set_entry v1 v0 c A)) A.
Proof.
  intros Hd c. split; [done |]. intros w1 w0. cbn. by destruct (decide _) as [[-> ->] |].
Qed.

Lemma returned_eq a A B src dst t mutable pid :
  let e := sp_entry A (vpn1 src) (vpn0 src) in
  spaces a !! active a = Some A -> spaces a !! t = Some B -> t <> active a ->
  returned_entry (lent_entry e) = e -> sp_entry B (vpn1 dst) (vpn0 dst) = 0 ->
  tables_eq (mk_PageTables (spaces (returned_state a A B src dst t mutable pid)) (free a) (active a)) a.
Proof.
  intros e HA HB Ht He H0. split; [done | split; [done |]]. intros s. cbn. fold e. rewrite He.
  destruct (decide (s = active a)) as [-> |].
  { rewrite lookup_insert_eq, HA. constructor. by apply space_eq_put. }
  rewrite lookup_insert_ne by done. destruct (decide (s = t)) as [-> |].
  { rewrite lookup_insert_eq, HB. constructor. by apply space_eq_put. }
  rewrite !lookup_insert_ne by done. destruct (spaces a !! s); by constructor.
Qed.

(** C15. A loan and its return restore memory.  A process lends a valid page that is
    neither lent already ([MMU_S]) nor marked as a previous loan ([MMU_P]), to another
    process, at an address where that process has a leaf table and an empty entry.
    Both addresses are multiples of the page size, below the kernel's pages and outside
    the windows onto the page tables ([addr_ok]).
    While the page is lent for writing its owner is refused its physical address
    (`ShareViolation`), and the borrower of either kind of loan finds the page of
    memory of the owner at its address.  After the borrower returns the page, every
    entry of every address space, the free pages and the active address space are
    what they were before the loan. *)
Theorem lend_return_restores m a A B src dst t pid pid' mutable :
  let s := active a in
  let e := sp_entry A (vpn1 src) (vpn0 src) in
  rep m a -> spaces a !! s = Some A -> spaces a !! t = Some B -> t <> s ->
  addr_ok src -> Z.land src 4095 = 0 -> sp_table A (vpn1 src) = true ->
  addr_ok dst -> Z.land dst 4095 = 0 -> sp_table B (vpn1 dst) = true -> sp_entry B (vpn1 dst) (vpn0 dst) = 0 ->
  0 <= e < 4294967296 -> has_flag e MMU_VALID = true -> has_flag e MMU_S = false -> has_flag e MMU_P = false ->
  exists m' a' seen,
    run_all exec_op
      [Op_lend src pid t dst mutable; Op_virt_to_phys src; Op_activate t; Op_virt_to_phys dst;
       Op_return dst pid' s src; Op_activate s] m
    = ROk m' [inr (Ans_word (entry_phys e)); seen; inr Ans_done; inr (Ans_word (entry_phys e));
              inr (Ans_word (entry_phys e)); inr Ans_done]
    /\ (mutable = true -> seen = inl ShareViolation) /\ rep m' a' /\ tables_eq a' a.
Proof.
  intros s e Hm HA HB Ht Hs Hsal HtA Hd Hdal HtB H0 He Hv HS HP.
  pose proof (returned_eq a A B src dst t mutable pid HA HB Ht (returned_lent _ He Hv HS HP) H0) as Heq.
  set (ops := [_; _; _; _; _; _]).
  assert (Hops : Forall (op_ok (dom (spaces a))) ops).
  { assert (s ∈ dom (spaces a)) by (apply elem_of_dom; by rewrite HA).
    assert (t ∈ dom (spaces a)) by (apply elem_of_dom; by rewrite HB).
    destruct (Hs : _ /\ _), (Hd : _ /\ _). unfold ops. rewrite !Forall_cons. cbn [op_ok]. by split_and!. }
  pose proof (sim_all ops m a Hm Hops) as Hsim.
  unfold ops, s in Hsim.
  rewrite (loan_answers a A B src dst t HA HB Ht HtA HtB Hsal Hdal) in Hsim by (done || by rewrite H0).
  destruct Hsim as (m' & E & Hm'). eexists m', _, _. split; [exact E |]. by split_and!.
Qed.

Lemma abstract_view ss m s : In s ss -> spaces (abstract ss m) !! s = Some (view s (memory m)).
Proof. intros [A HA]%(abstract_is_Some _ m). rewrite HA. by destruct (abstract_lookup _ _ _ _ HA) as [_ ->]. Qed.

(** Process 2 lends its page at 0x1000 to process 3, at 0x4000. *)
Lemma lend_return_restores_witness :
  let ss := [example_satp 1; example_satp 2; example_satp 3] in
  exists m' a' rs,
    run_all exec_op
      [Op_lend 4096 3 (example_satp 3) 16384 true; Op_virt_to_phys 4096; Op_activate (example_satp 3);
       Op_virt_to_phys 16384; Op_return 16384 2 (example_satp 2) 4096; Op_activate (example_satp 2)]
      example_pt_machine = ROk m' rs
    /\ rep m' a' /\ tables_eq a' (abstract ss example_pt_machine).
Proof.
  intros ss.
  assert (Hok : forall virt, vpn1 virt < 1021 -> addr_ok virt)
    by (intros virt Hv; split; [lia | intros [? | [? _]]; lia]).
  destruct (lend_return_restores example_pt_machine (abstract ss example_pt_machine)
              (view (example_satp 2) example_memory) (view (example_satp 3) example_memory)
              4096 16384 (example_satp 3) 3 2 true) as (m' & a' & seen & E & _ & Hm & Ha).
  - apply repb_spec. vm_compute. reflexivity.
  - apply abstract_view. cbn. auto.
  - apply abstract_view. cbn. auto.
  - intros H. vm_compute in H. discriminate H.
  - by apply Hok.
  - reflexivity.
  - vm_compute. reflexivity.
  - by apply Hok.
  - reflexivity.
  - vm_compute. reflexivity.
  - vm_compute. reflexivity.
  - vm_compute. split; [intros H; discriminate H | reflexivity].
  - vm_compute. reflexivity.
  - vm_compute. reflexivity.
  - vm_compute. reflexivity.
  - exists m', a'. eexists. split; [exact E | split; [exact Hm | exact Ha]].
Defined.

(** ** Lending ignores the user flag *)

Lemma leaf_entry_user p flags user :
  has_flag (leaf_entry p flags user) MMU_USER = user
  /\ has_flag (leaf_entry p flags user) MMU_W = flags_has flags FLAG_W.
Proof.
  unfold leaf_entry. rewrite !has_flag_make_leaf by done.
  change MMU_USER with (2 ^ 4) at 2. change MMU_W with (2 ^ 2). rewrite !has_flag_testbit by done.
  unfold translate_flags, flag_if. rewrite !Z.lor_spec.
  by destruct (flags_has flags FLAG_R), (flags_has flags FLAG_W), (flags_has flags FLAG_X), (flags_has flags FLAG_P), user.
Qed.

Lemma lent_entry_writable e : has_flag e MMU_W = true -> has_flag (lent_entry e) MMU_W = true.
Proof.
  unfold lent_entry. change MMU_W with (2 ^ 2). rewrite !has_flag_testbit by done. intros H.
  by rewrite Z.lor_spec, Z.land_spec, H, not32_spec.
Qed.


