(* ===== verification/ArchProcess.v ===== *)
(** * Processes and threads of the riscv32 port

    Models the operations of src/kernel/src/arch/riscv/process.rs on the page of
    the active process, and [invoke] of src/kernel/src/arch/riscv/syscall.rs. *)

From Stdlib Require Import ZArith Lia Bool.
From stdpp Require Import base numbers list option gmap.
From S2P Require Import Prelude.
From S2P Require Import Abi.
From S2P Require Import Machine.
From S2P Require Import Paging.
From S2P Require Import MemoryManager.

#[local] Open Scope Z_scope.
#[local] Open Scope kernel_scope.

Section ArchProcess.
Context {M : Type} {HM : MemOps M}.

#[local] Notation "'op' A" := (Machine M -> outcome Error (Machine M) A) (at level 10, A at level 9).

(** [Process::current]: the PID must be the one of the active address space. *)
Definition Process_current : op Z :=
  fun m => if pt_current m =? hardware_pid m then ROk m (pt_current m) else RPanic.

(** [thread] and [thread_mut]: besides the assertion, the index is checked. *)
Definition Process_thread (tid : Z) : op Thread :=
  p <- get_impl;;
  let tid := fixup_irq tid in
  assert_ (tid <=? Z.of_nat (length (threads p))) ;;;
  unwrap (threads p !! Z.to_nat tid).

Definition update_thread (tid : Z) (f : Thread -> Thread) : op unit :=
  t <- Process_thread tid;;
  p <- get_impl;;
  put_impl (set_threads (<[Z.to_nat (fixup_irq tid) := f t]> (threads p)) p).

Definition Process_current_thread : op Thread :=
  p <- get_impl;;
  unwrap (threads p !! Z.to_nat (sub32 (hardware_thread p) 1)).

Definition Process_thread_exists (tid : Z) : op bool :=
  t <- Process_thread (fixup_irq tid);;
  ret (negb (sepc t =? 0)).

Definition Process_set_tid (tid : Z) : op unit :=
  p <- get_impl;;
  let tid := fixup_irq tid in
  assert_ (tid <=? Z.of_nat (length (threads p))) ;;;
  put_impl (set_hardware_thread (tid + 1) p).

(** The iteration order of [find_free_thread]: from the thread allocated last to
    the end, then from the start. *)
Definition thread_order (start len : nat) : list nat := seq start (len - start) ++ seq 0 start.

Definition Process_find_free_thread : op (option Z) :=
  p <- get_impl;;
  let start_tid := Z.to_nat (last_tid_allocated p) in
  assert_ (start_tid <=? length (threads p))%nat ;;;
  let free (tid : nat) :=
    negb (Z.of_nat tid =? IRQ_TID) && negb (Z.of_nat tid =? EXCEPTION_TID)
    && match threads p !! tid with Some t => sepc t =? 0 | None => false end in
  match List.find free (thread_order start_tid (length (threads p))) with
  | Some tid => put_impl (set_last_tid (Z.of_nat tid) p) ;;; ret (Some (Z.of_nat tid))
  | None => ret None
  end.

(** The eight words of a result, in the order of the argument registers. *)
Definition args8_list (a : args8) : list Z :=
  [w0 a; w1 a; w2 a; w3 a; w4 a; w5 a; w6 a; w7 a].

Definition Process_set_thread_result (thread_nr : Z) (result : Result) : op unit :=
  update_thread thread_nr (set_registers 9 (args8_list (Result_to_args result))).

Definition Process_retry_instruction (tid : Z) : op unit :=
  p <- get_impl;;
  t <- unwrap (threads p !! Z.to_nat tid);;
  let t' := if 4 <=? sepc t then set_sepc (sepc t - 4) t else t in
  put_impl (set_threads (<[Z.to_nat tid := t']> (threads p)) p).

(** [arch::syscall::invoke] *)
Definition invoke_thread (pc sp ret_addr : Z) (args : list Z) (t : Thread) : Thread :=
  set_sepc pc (set_registers 9 args (set_register 1 sp (set_register 0 ret_addr t))).

Definition Process_setup_thread (pid new_tid : Z) (setup : ThreadInit) : op unit :=
  Process_thread new_tid ;;;
  let sp := add32 (MemoryRange_as_ptr (ti_stack setup)) (MemoryRange_len (ti_stack setup)) in
  if sp <=? 16 then fail BadAddress
  else
    modify (set_spp (pid =? 1)) ;;;
    update_thread new_tid (fun t =>
      invoke_thread (ti_call setup) (Z.land (sp - 16) (not32 15)) EXIT_THREAD
        [ti_arg1 setup; ti_arg2 setup; ti_arg3 setup; ti_arg4 setup] (clear_thread t)).

Definition Process_setup_process (pid : Z) (thread_init : ThreadInit) : op unit :=
  let tid := INITIAL_TID in
  hw <- arch_current_pid;;
  assert_ (pid =? hw) ;;;
  table <- gets pt_table;;
  allocated <- unwrap (table !! Z.to_nat (pid - 1));;
  assert_ (negb allocated) ;;;
  modify (set_pt_table (<[Z.to_nat (pid - 1) := true]> table)) ;;;
  p <- get_impl;;
  let stack := ti_stack thread_init in
  let thread :=
    set_register 12 (ti_arg4 thread_init)
      (set_register 11 (ti_arg3 thread_init)
        (set_register 10 (ti_arg2 thread_init)
          (set_register 9 (ti_arg1 thread_init)
            (set_register 1 (add32 (MemoryRange_as_ptr stack) (MemoryRange_len stack))
              (set_sepc (ti_call thread_init) Thread_default))))) in
  put_impl
    (mk_ProcessImpl (tid + 1) (set_inner_pid pid ProcessInner_default) (last_tid_allocated p)
       (<[Z.to_nat tid := thread]> (map (fun _ => Thread_default) (threads p)))) ;;;
  let init_sp := Z.land (MemoryRange_as_ptr stack) (not32 4095) in
  if negb (init_sp =? 0) then
    (unwrap_result (reserve_range init_sp (MemoryRange_len stack) (flags_or FLAG_R FLAG_W)) ;;;
     ret tt)
  else ret tt.

Definition Process_destroy_thread (tid : Z) : op Z :=
  t <- Process_thread tid;;
  if (sepc t =? 0) || (tid =? IRQ_TID) then fail ThreadNotAvailable
  else
    let return_value := Thread_a0 t in
    update_thread tid clear_thread ;;;
    ret return_value.

Definition Process_destroy (pid : Z) : op unit :=
  table <- gets pt_table;;
  assert_ (Z.to_nat (pid - 1) <? length table)%nat ;;;
  modify (set_pt_table (<[Z.to_nat (pid - 1) := false]> table)).

(** [find_thread]: the first existing thread that satisfies [f]. *)
Definition Process_find_thread (f : Z -> Thread -> bool) : op (option (Z * Thread)) :=
  p <- get_impl;;
  ret (List.find (fun '(tid, t) => negb (sepc t =? 0) && f tid t)
         (zip (map Z.of_nat (seq 0 (length (threads p)))) (threads p))).
End ArchProcess.
