(* ===== verification/Scheduler.v ===== *)
(** * Processes and the scheduler

    Models the process table of src/kernel/src/services.rs and the operations
    that decide which thread of which process runs next.  The build modelled is
    the baremetal one without gdb-stub.

    The kernel state is the machine of Machine.v with the process table,
    the server table and the interrupt handlers. *)

From Stdlib Require Import ZArith Lia Bool.
From stdpp Require Import base numbers list option gmap.
From S2P Require Import Prelude.
From S2P Require Import Abi.
From S2P Require Import Server.
From S2P Require Import Irq.
From S2P Require Import Machine.
From S2P Require Import Paging.
From S2P Require Import MemoryManager.
From S2P Require Import ArchProcess.

#[local] Open Scope Z_scope.
#[local] Open Scope kernel_scope.

(** ** Choosing a thread *)

Definition MULTIPLY_DEBRUIJN_BIT_POSITION : list Z :=
  [0; 1; 28; 2; 29; 14; 24; 3; 30; 22; 20; 15; 25; 17; 4; 8; 31; 27; 13; 23; 21; 19; 16; 7; 26;
   12; 18; 6; 11; 5; 10; 9].

Definition trailing_zeros (v : Z) : Z :=
  nth (Z.to_nat (shr32 (mul32 (Z.land (not32 (sub32 v 1)) v) 125613361) 27))
      MULTIPLY_DEBRUIJN_BIT_POSITION 0.

(** [None] is the panic on an empty mask. *)
Definition find_next_thread (thread_mask current_thread : Z) : option Z :=
  if thread_mask =? 0 then None
  else Some (
    if Z.land thread_mask (thread_mask - 1) =? 0 then trailing_zeros thread_mask
    else
      let upper_bits := Z.land thread_mask (not32 (sub32 (shl32 2 current_thread) 1)) in
      if negb (upper_bits =? 0) then trailing_zeros upper_bits else trailing_zeros thread_mask).

(** ** Processes *)

Inductive ProcessState : Type :=
| Free
| Allocated
| Setup (init : ThreadInit)
| Ready (threads : Z)
| Running (threads : Z)
| Sleeping
| InException (threads : Z)
| BlockedException (threads : Z).

#[export] Instance ProcessState_eq_dec : EqDecision ProcessState.
Proof. solve_decision. Defined.

Record ExceptionHandler : Type := mk_ExceptionHandler { eh_pc : Z; eh_sp : Z }.

Record Process : Type := mk_Process {
  mapping : Z;
  pstate : ProcessState;
  proc_pid : Z;
  ppid : Z;
  current_thread : Z;
  previous_thread : Z;
  exception_handler : option ExceptionHandler
}.

Definition set_state (s : ProcessState) (p : Process) : Process :=
  mk_Process (mapping p) s (proc_pid p) (ppid p) (current_thread p) (previous_thread p)
    (exception_handler p).
Definition set_current_thread (t : Z) (p : Process) : Process :=
  mk_Process (mapping p) (pstate p) (proc_pid p) (ppid p) t (previous_thread p)
    (exception_handler p).
Definition set_previous_thread (t : Z) (p : Process) : Process :=
  mk_Process (mapping p) (pstate p) (proc_pid p) (ppid p) (current_thread p) t
    (exception_handler p).

Definition Process_runnable (p : Process) : bool :=
  match pstate p with Setup _ | Ready _ | InException _ => true | _ => false end.

Definition Process_free (p : Process) : bool :=
  match pstate p with Free => true | _ => false end.

(** ** The kernel state *)

Definition MAX_SERVER_COUNT : nat := 128.

Record Kernel (M : Type) : Type := mk_Kernel {
  machine : Machine M;
  processes : list Process;
  servers : list (option Server);
  irqs : IrqState
}.
Arguments mk_Kernel {M}.
Arguments machine {M}.
Arguments processes {M}.
Arguments servers {M}.
Arguments irqs {M}.

Section Scheduler.
Context {M : Type} {HM : MemOps M}.

#[local] Notation "'op' A" := (Machine M -> outcome Error (Machine M) A) (at level 10, A at level 9).
#[local] Notation "'kop' A" := (Kernel M -> outcome Error (Kernel M) A) (at level 10, A at level 9).

Definition set_machine (m : Machine M) (k : Kernel M) : Kernel M :=
  mk_Kernel m (processes k) (servers k) (irqs k).
Definition set_processes (l : list Process) (k : Kernel M) : Kernel M :=
  mk_Kernel (machine k) l (servers k) (irqs k).
Definition set_servers (l : list (option Server)) (k : Kernel M) : Kernel M :=
  mk_Kernel (machine k) (processes k) l (irqs k).
Definition set_irqs (i : IrqState) (k : Kernel M) : Kernel M :=
  mk_Kernel (machine k) (processes k) (servers k) i.

(** Run an operation of the machine. *)
Definition arch {A} (f : op A) : kop A := zoom machine set_machine f.

Definition pid_index (pid : Z) : nat := Z.to_nat (pid - 1).

Definition get_process (pid : Z) : kop Process :=
  l <- gets processes;;
  p <- unwrap (l !! pid_index pid);;
  if decide (MemoryMapping_get_pid (mapping p) = Some pid) then
    if Process_free p then fail ProcessNotFound else ret p
  else fail ProcessNotFound.

(** A write through the reference that [get_process_mut] returned. *)
Definition put_process (pid : Z) (p : Process) : kop unit :=
  modify (fun k => set_processes (<[pid_index pid := p]> (processes k)) k).

(** [Process::activate] *)
Definition Process_activate (p : Process) : kop unit :=
  arch (set_current_pid (proc_pid p)) ;;;
  arch (MemoryMapping_activate (mapping p)) ;;;
  arch Process_current ;;;
  ret tt.

(** ** Waking and switching *)

Definition runnable (pid : Z) (tid : option Z) : kop bool :=
  p <- get_process pid;;
  ret (match tid with
       | Some tid =>
           match pstate p with
           | Running x => (tid =? current_thread p) || has_bit x tid
           | Ready x => has_bit x tid
           | Sleeping => true
           | _ => false
           end
       | None =>
           match pstate p with Running _ | Ready _ | Sleeping => true | _ => false end
       end).

Definition ready_thread (pid tid : Z) : kop unit :=
  p <- get_process pid;;
  s <- match pstate p with
       | Running x => if has_bit x tid then panic else ret (Running (set_bit x tid))
       | Ready x => if has_bit x tid then panic else ret (Ready (set_bit x tid))
       | Sleeping => ret (Ready (bit tid))
       | InException x | BlockedException x => ret (InException x)
       | Free | Allocated | Setup _ => panic
       end;;
  put_process pid (set_state s p).

Definition set_last_thread (pid tid : Z) : kop unit :=
  p <- get_process pid;;
  match pstate p with
  | Ready x => if has_bit x tid then put_process pid (set_current_thread tid p)
               else fail ThreadNotAvailable
  | Sleeping => fail ThreadNotAvailable
  | Running _ => panic
  | _ => fail ProcessNotFound
  end.

(** [tid.unwrap_or_else(|| Self::find_next_thread(mask, current))] *)
Definition choose_thread (tid : option Z) (mask current : Z) : kop Z :=
  match tid with
  | Some t => ret t
  | None => unwrap (find_next_thread mask current)
  end.

Definition switch_to_thread (pid : Z) (tid : option Z) : kop unit :=
  p <- get_process pid;;
  p' <-
    match pstate p with
    | Free | Sleeping | Allocated => fail ProcessNotFound
    | BlockedException _ => panic
    | InException x =>
        Process_activate p ;;;
        arch Process_current ;;;
        arch (Process_set_tid EXCEPTION_TID) ;;;
        ret (set_state (InException x) p)
    | Setup setup =>
        Process_activate p ;;;
        assert_ (match tid with Some t => t =? INITIAL_TID | None => true end) ;;;
        cur <- arch Process_current;;
        arch (Process_setup_thread cur INITIAL_TID setup) ;;;
        arch (Process_set_tid INITIAL_TID) ;;;
        arch (with_inner_mut (set_inner_pid pid)) ;;;
        ret (set_state (Running 0) (set_current_thread INITIAL_TID p))
    | Ready ready_threads =>
        assert_ (negb (ready_threads =? 0)) ;;;
        new_thread <- choose_thread tid ready_threads (current_thread p);;
        assert_ (has_bit ready_threads new_thread) ;;;
        Process_activate p ;;;
        arch Process_current ;;;
        arch (Process_set_tid new_thread) ;;;
        ret (set_state (Running (clear_bit ready_threads new_thread))
               (set_current_thread new_thread p))
    | Running ready_threads =>
        let ready_threads := set_bit ready_threads (current_thread p) in
        new_thread <- choose_thread tid ready_threads (current_thread p);;
        (if negb (has_bit ready_threads new_thread) then fail InvalidThread else ret tt) ;;;
        arch Process_current ;;;
        arch (Process_set_tid new_thread) ;;;
        ret (set_state (Running (clear_bit ready_threads new_thread))
               (set_current_thread new_thread p))
    end;;
  put_process pid p'.

Definition unschedule_thread (pid tid : Z) : kop unit :=
  p <- get_process pid;;
  s <- match pstate p with
       | Running x =>
           if has_bit x tid then panic
           else if x =? 0 then ret Sleeping else ret (Ready x)
       | InException x => ret (BlockedException x)
       | _ => panic
       end;;
  put_process pid (set_state s p).

(** [thread_is_running]: [true] or a panic. *)
Definition thread_is_running (pid tid : Z) : kop bool :=
  p <- unwrap_result (get_process pid);;
  match pstate p with
  | Running x => if has_bit x tid then panic else ret true
  | _ => panic
  end.

Definition set_thread_result (pid tid : Z) (result : Result) : kop unit :=
  cur <- arch current_pid;;
  if cur =? pid then
    (arch Process_current ;;; arch (Process_set_thread_result tid result))
  else
    (target <- get_process pid;;
     Process_activate target ;;;
     arch Process_current ;;;
     arch (Process_set_thread_result tid result) ;;;
     current_process <- unwrap_result (get_process cur);;
     Process_activate current_process).

(** ** Servers by index *)

(** [server_from_sidx] and [server_from_sidx_mut]: an index equal to the length
    of the table passes the check and the access panics. *)
Definition server_from_sidx (sidx : Z) : kop (option Server) :=
  l <- gets servers;;
  if Z.of_nat (length l) <? sidx then ret None
  else unwrap (l !! Z.to_nat sidx).

(** Run an operation of the server at index [sidx], which exists. *)
Definition with_server {A} (sidx : Z) (f : Server -> outcome Error Server A) : kop A :=
  fun k =>
    match servers k !! Z.to_nat sidx with
    | Some (Some s) =>
        let put s' := set_servers (<[Z.to_nat sidx := Some s']> (servers k)) k in
        match f s with
        | ROk s' a => ROk (put s') a
        | RErr s' e => RErr (put s') e
        | RPanic => RPanic
        | RStuck => RStuck
        end
    | _ => RPanic
    end.

(** ** Switching between processes *)

Inductive PostActivateOp : Type :=
| Post_None
| Post_SetThreadResult (result : Result)
| Post_RememberServerMessage (sidx pid tid : Z) (message : Message) (client_address : option Z).

(** The [match lazy_arg] of both branches; the result is [sender_idx]. *)
Definition post_activate (lazy_arg : PostActivateOp) (new_tid : Z) : kop (option Z) :=
  match lazy_arg with
  | Post_RememberServerMessage sidx pid tid message client_address =>
      server <- server_from_sidx sidx;;
      unwrap server ;;;
      si <- with_server sidx (queue_response pid tid message client_address);;
      ret (Some (Z.of_nat si))
  | Post_SetThreadResult result =>
      arch Process_current ;;;
      arch (Process_set_thread_result new_tid result) ;;;
      ret None
  | Post_None => ret None
  end.

(** The first [match new.state]: whether and with which thread the new process
    can run. *)
Definition select_new_thread (new_pid new_tid : Z) : kop Z :=
  new <- get_process new_pid;;
  match pstate new with
  | Free => fail ProcessNotFound
  | Setup _ | Allocated => ret INITIAL_TID
  | InException _ => ret EXCEPTION_TID
  | Ready x =>
      assert_ (negb (x =? 0)) ;;;
      new_tid <- (if new_tid =? 0 then unwrap (find_next_thread x (current_thread new))
                  else ret new_tid);;
      if negb (has_bit x new_tid) then fail ProcessNotFound
      else put_process new_pid (set_current_thread new_tid new) ;;; ret new_tid
  | Running _ => panic
  | Sleeping | BlockedException _ => fail ProcessNotFound
  end.

(** The second [match new.state]: the state in which the new process runs. *)
Definition enter_process (new_pid new_tid : Z) : kop unit :=
  new <- get_process new_pid;;
  arch (MemoryMapping_activate (mapping new)) ;;;
  new <- get_process new_pid;;
  s <- match pstate new with
       | Setup thread_init =>
           unwrap_result (arch (Process_setup_process new_pid thread_init)) ;;;
           arch (with_inner_mut (set_inner_pid new_pid)) ;;;
           ret (Running 0)
       | Allocated =>
           arch (with_inner_mut (set_inner_pid new_pid)) ;;; ret (Running 0)
       | Free => panic
       | Ready x | Running x => ret (Running (clear_bit x new_tid))
       | Sleeping => ret (Running 0)
       | InException x => ret (InException x)
       | BlockedException _ => panic
       end;;
  put_process new_pid (set_state s new) ;;;
  Process_activate new.

(** The [match previous.state]: the state in which the process is left. *)
Definition leave_process (previous_pid previous_tid : Z) (can_resume : bool) : kop unit :=
  previous <- unwrap_result (get_process previous_pid);;
  s <- match pstate previous with
       | Running x =>
           if x =? 0 then ret (if can_resume then Ready (bit previous_tid) else Sleeping)
           else ret (if can_resume then Ready (set_bit x previous_tid) else Ready x)
       | InException x => ret (if can_resume then InException x else BlockedException x)
       | _ => panic
       end;;
  put_process previous_pid (set_state s (set_current_thread previous_tid previous)).

(** The branch for a switch within the current process; [None] is the early
    return when the thread does not change. *)
Definition switch_within (previous_tid new_pid new_tid : Z) (can_resume : bool)
    : kop (option Z) :=
  new <- get_process new_pid;;
  if previous_tid =? new_tid then
    (assert_ can_resume ;;;
     arch Process_current ;;;
     unwrap_result (arch (Process_set_tid new_tid)) ;;;
     put_process new_pid (set_current_thread new_tid new) ;;;
     ret None)
  else
    match pstate new with
    | Running x =>
        assert_ (negb (has_bit x (current_thread new))) ;;;
        let x := if can_resume then set_bit x (current_thread new) else x in
        new_tid <- (if new_tid =? 0 then unwrap (find_next_thread x (current_thread new))
                    else ret new_tid);;
        if negb (has_bit x new_tid) then fail ThreadNotAvailable
        else
          put_process new_pid
            (set_state (Running (clear_bit x new_tid)) (set_current_thread new_tid new)) ;;;
          ret (Some new_tid)
    | _ => panic
    end.

Definition activate_process_thread (previous_tid new_pid new_tid : Z) (can_resume : bool)
    (lazy_arg : PostActivateOp) : kop Z :=
  previous_pid <- arch current_pid;;
  if negb (new_pid =? previous_pid) then
    (new_tid <- select_new_thread new_pid new_tid;;
     enter_process new_pid new_tid ;;;
     sender_idx <- post_activate lazy_arg new_tid;;
     leave_process previous_pid previous_tid can_resume ;;;
     arch Process_current ;;;
     arch (Process_set_tid new_tid) ;;;
     ret (default new_tid sender_idx))
  else
    (sender_idx <- post_activate lazy_arg new_tid;;
     switched <- switch_within previous_tid new_pid new_tid can_resume;;
     match switched with
     | None => ret new_tid
     | Some new_tid =>
         arch Process_current ;;;
         arch (Process_set_tid new_tid) ;;;
         ret (default new_tid sender_idx)
     end).

(** ** Interrupt callbacks *)

Definition EXCEPTION_STACK_TOP : Z := 4294901760.

(** [finish_callback_and_resume] *)
Definition finish_callback_and_resume (pid tid : Z) : kop unit :=
  cur <- arch current_pid;;
  current <- unwrap_result (get_process cur);;
  s <- match pstate current with
       | Running x => ret (if x =? 0 then Sleeping else Ready x)
       | _ => panic
       end;;
  put_process cur (set_state s current) ;;;
  process <- get_process pid;;
  available_threads <-
    match pstate process with
    | Ready x => if has_bit x tid then ret (clear_bit x tid) else panic
    | _ => panic
    end;;
  let process := set_state (Running available_threads) process in
  put_process pid process ;;;
  arch (MemoryMapping_activate (mapping process)) ;;;
  Process_activate process ;;;
  arch Process_current ;;;
  arch (Process_set_tid tid) ;;;
  put_process pid (set_current_thread tid process).

(** [make_callback_to] for [CallbackType::Interrupt(irq_no, arg)]; the two swap
    callbacks exist only with the swap feature. *)
Definition make_callback_to (pid pc irq_no arg : Z) : kop unit :=
  cur <- arch current_pid;;
  current <- unwrap_result (get_process cur);;
  current <- (if current_thread current =? 0
              then (t <- arch current_tid;; ret (set_current_thread t current))
              else ret current);;
  s <- match pstate current with
       | Running x => ret (Ready (set_bit x (current_thread current)))
       | _ => panic
       end;;
  put_process cur (set_state s current) ;;;
  process <- get_process pid;;
  available_threads <-
    match pstate process with
    | Ready x | Running x | InException x => ret x
    | Sleeping | BlockedException _ => ret 0
    | Free | Setup _ | Allocated => panic
    end;;
  let process := set_state (Running available_threads) process in
  let process := if negb (current_thread process =? IRQ_TID)
                 then set_previous_thread (current_thread process) process else process in
  let process := set_current_thread IRQ_TID process in
  put_process pid process ;;;
  arch (MemoryMapping_activate (mapping process)) ;;;
  Process_activate process ;;;
  arch Process_current ;;;
  sp <- (if pid =? 1 then ret EXCEPTION_STACK_TOP
         else (t <- arch Process_current_thread;; ret (Thread_stack_pointer t)));;
  unwrap_result (arch (Process_set_tid IRQ_TID)) ;;;
  arch (modify (set_spp (pid =? 1))) ;;;
  arch (update_thread IRQ_TID (invoke_thread pc sp RETURN_FROM_ISR [irq_no; arg])).

(** One turn of the loop of [irq::handle] for a pending interrupt: a handler is
    called, an interrupt without one is masked. *)
Definition handle_irq (irq_no : nat) : kop bool :=
  s <- gets irqs;;
  h <- unwrap (IRQ_HANDLERS s !! irq_no);;
  match h with
  | Some (pid, f, arg) =>
      modify (fun k => set_irqs (disable_all_irqs (irqs k)) k) ;;;
      make_callback_to pid f (Z.of_nat irq_no) (get_or_0 arg) ;;;
      ret true
  | None => modify (fun k => set_irqs (disable_irq (Z.of_nat irq_no) (irqs k)) k) ;;; ret false
  end.

Fixpoint handle_irqs (irqs_pending : Z) (l : list nat) : kop Result :=
  match l with
  | [] => ret R_ResumeProcess
  | irq_no :: l =>
      if has_bit irqs_pending (Z.of_nat irq_no) then
        (called <- handle_irq irq_no;;
         if (called : bool) then ret R_ResumeProcess else handle_irqs irqs_pending l)
      else handle_irqs irqs_pending l
  end.

(** [irq::handle] *)
Definition irq_handle (irqs_pending : Z) : kop Result :=
  s <- gets irqs;;
  handle_irqs irqs_pending (seq 0 (length (IRQ_HANDLERS s))).

(** ** Exceptions *)

(** [begin_exception_handler]; [None] is its [None] result, and [ok()] keeps
    what was changed before it. *)
Definition begin_exception_handler (pid : Z) : kop (option ExceptionHandler) :=
  process <- ok (get_process pid);;
  match process with
  | None => ret None
  | Some process =>
      match exception_handler process with
      | None => ret None
      | Some handler =>
          let enter (s : ProcessState) : kop (option ExceptionHandler) :=
            put_process pid
              (set_current_thread EXCEPTION_TID
                (set_previous_thread (current_thread process) (set_state s process))) ;;;
            arch Process_current ;;;
            r <- ok (arch (Process_set_tid EXCEPTION_TID));;
            ret (match r with Some _ => Some handler | None => None end) in
          match pstate process with
          | Running x => enter (InException (set_bit x (current_thread process)))
          | Ready x => enter (InException x)
          | _ => ret None
          end
      end
  end.

Definition finish_exception_handler_and_resume (pid : Z) : kop unit :=
  process <- get_process pid;;
  match pstate process with
  | InException threads =>
      assert_ (has_bit threads (previous_thread process)) ;;;
      put_process pid
        (set_current_thread (previous_thread process)
          (set_state (Running (clear_bit threads (previous_thread process))) process)) ;;;
      arch Process_current ;;;
      arch (Process_set_tid (previous_thread process))
  | _ => fail ThreadNotAvailable
  end.

(** ** Threads *)

Definition create_thread (pid : Z) (thread_init : ThreadInit) : kop Z :=
  process <- get_process pid;;
  Process_activate process ;;;
  cur <- arch Process_current;;
  free <- arch Process_find_free_thread;;
  new_tid <- ok_or free ThreadNotAvailable;;
  arch (Process_setup_thread cur new_tid thread_init) ;;;
  s <- match pstate process with
       | Running x => ret (Running (set_bit x new_tid))
       | Allocated => arch (with_inner_mut (set_inner_pid pid)) ;;; ret (Ready (bit new_tid))
       | _ => panic
       end;;
  put_process pid (set_state s process) ;;;
  ret new_tid.

(** The thread that waits in [JoinThread] for [tid]. *)
Definition waits_for (waiting_threads tid : Z) (waiting_tid : Z) (t : Thread) : bool :=
  negb (has_bit waiting_threads waiting_tid) && (Thread_a0 t =? 36) && (Thread_a1 t =? tid).

Definition destroy_thread (pid tid : Z) : kop bool :=
  cur <- arch current_pid;;
  assert_ (pid =? cur) ;;;
  process <- get_process pid;;
  waiting_threads <- match pstate process with Running x => ret x | _ => panic end;;
  arch Process_current ;;;
  return_value <- ok (arch (Process_destroy_thread tid));;
  waiter <- arch (Process_find_thread (waits_for waiting_threads tid));;
  waiting_threads <-
    match waiter with
    | Some (waiting_tid, _) =>
        set_thread_result pid waiting_tid (R_Scalar1 (default 0 return_value)) ;;;
        ret (set_bit waiting_threads waiting_tid)
    | None => ret waiting_threads
    end;;
  process <- get_process pid;;
  let new_pid := if waiting_threads =? 0 then ppid process else pid in
  put_process pid
    (set_state (if waiting_threads =? 0 then Sleeping else Ready waiting_threads) process) ;;;
  switch_to_thread new_pid None ;;;
  ret (negb (new_pid =? pid)).

Definition join_thread (pid tid join_tid : Z) : kop Result :=
  cur <- arch current_pid;;
  assert_ (pid =? cur) ;;;
  if tid =? join_tid then fail ThreadNotAvailable
  else
    arch Process_current ;;;
    exists_ <- arch (Process_thread_exists join_tid);;
    if (exists_ : bool) then
      (p <- unwrap_result (get_process pid);;
       map_err (fun _ => ProcessNotFound)
         (activate_process_thread tid (ppid p) 0 false Post_None) ;;;
       ret R_ResumeProcess)
    else ret (R_Scalar1 0).
End Scheduler.
