(* ===== verification/SchedulerFacts.v ===== *)
(** * Facts about the scheduler

    The thread that the scheduler picks, and the invariants of the process
    table that its operations keep. *)

From Stdlib Require Import ZArith Lia Bool.
From stdpp Require Import base numbers list option gmap.
From S2P Require Import Prelude.
From S2P Require Import Abi.
From S2P Require Import Server.
From S2P Require Import Irq.
From S2P Require Import Machine.
From S2P Require Import Paging.
From S2P Require Import MemoryManager.
From S2P Require Import MemoryFacts.
From S2P Require Import Memory.
From S2P Require Import ArchProcess.
From S2P Require Import Scheduler.

#[local] Open Scope Z_scope.
#[local] Open Scope kernel_scope.

(** ** The de Bruijn lookup *)

Lemma debruijn_table (t : nat) :
  (t < 32)%nat ->
  nth (Z.to_nat (shr32 (mul32 (2 ^ Z.of_nat t) 125613361) 27)) MULTIPLY_DEBRUIJN_BIT_POSITION 0
  = Z.of_nat t.
Proof.
  intros Ht. do 32 (destruct t as [| t]; [reflexivity |]). lia.
Qed.

(** Below its lowest set bit [t] a mask is zero, so it is [2^t] times an odd
    number. *)
Lemma lowest_bit_mod (v t : Z) :
  lowest_bit v t -> v mod 2 ^ (t + 1) = 2 ^ t.
Proof.
  intros (Ht & Hset & Hlow). apply Z.bits_inj'. intros i Hi.
  rewrite Z.pow2_bits_eqb by lia. destruct (Z.lt_ge_cases i (t + 1)) as [Hlt | Hge].
  - rewrite Z.mod_pow2_bits_low by lia. destruct (Z.eqb_spec t i) as [<- |]; [done |].
    apply Hlow. lia.
  - rewrite Z.mod_pow2_bits_high by lia. symmetry. apply Z.eqb_neq. lia.
Qed.

Lemma pred_bits (v t i : Z) :
  0 < v -> lowest_bit v t -> t <= i ->
  Z.testbit (v - 1) i = (Z.testbit v i && negb (i =? t)).
Proof.
  intros Hv Hlow Hi. pose proof (lowest_bit_mod v t Hlow) as Hmod. destruct Hlow as (Ht & Hset & _).
  assert (Hp : 0 < 2 ^ t) by (apply Z.pow_pos_nonneg; lia).
  assert (Hp1 : 2 ^ (t + 1) = 2 * 2 ^ t) by (rewrite Z.pow_add_r by lia; lia).
  pose proof (Z.div_mod v (2 ^ (t + 1)) ltac:(lia)) as Hdm.
  assert (Hdiv : (v - 1) / 2 ^ (t + 1) = v / 2 ^ (t + 1))
    by (symmetry; apply (Z.div_unique _ _ _ (2 ^ t - 1)); lia).
  assert (Hmod' : (v - 1) mod 2 ^ (t + 1) = 2 ^ t - 1)
    by (symmetry; apply (Z.mod_unique _ _ (v / 2 ^ (t + 1))); lia).
  destruct (Z.eqb_spec i t) as [-> | Hne]; cbn.
  - rewrite andb_false_r. rewrite <- (Z.mod_pow2_bits_low (v - 1) (t + 1) t) by lia.
    rewrite Hmod'. apply (testbit_above _ t); lia.
  - rewrite andb_true_r. replace i with ((i - (t + 1)) + (t + 1)) by lia.
    rewrite <- !Z.div_pow2_bits by lia. by rewrite Hdiv.
Qed.

(** [!(v - 1) & v] isolates the lowest set bit. *)
Lemma isolate_lowest (v t : Z) :
  0 < v < 4294967296 -> lowest_bit v t -> Z.land (not32 (sub32 v 1)) v = 2 ^ t.
Proof.
  intros Hv Hlow. unfold sub32. rewrite u32_id by lia.
  apply Z.bits_inj'. intros i Hi. rewrite Z.land_spec, not32_spec, Z.pow2_bits_eqb by (destruct Hlow; lia).
  destruct (Z.lt_ge_cases i t) as [Hlt | Hge].
  - destruct Hlow as (Ht & _ & Hz). rewrite (Hz i) by lia. rewrite andb_false_r.
    symmetry. apply Z.eqb_neq. lia.
  - rewrite (pred_bits v t i) by (done || lia). destruct (Z.eqb_spec i t) as [-> | Hne].
    + destruct Hlow as (Ht & Hset & _). rewrite Hset, Z.eqb_refl.
      destruct (Z.ltb_spec t 32); [done | lia].
    + rewrite (proj2 (Z.eqb_neq t i)) by lia. cbn. by destruct (Z.testbit v i), (i <? 32).
Qed.

(** The table lookup counts the trailing zeros of every non-zero word. *)
Lemma trailing_zeros_spec (v t : Z) :
  0 < v < 4294967296 -> lowest_bit v t -> trailing_zeros v = t.
Proof.
  intros Hv Hlow. unfold trailing_zeros. rewrite (isolate_lowest v t) by done.
  destruct Hlow as (Ht & _). rewrite <- (Z2Nat.id t) by lia. apply debruijn_table. lia.
Qed.

Lemma upper_bits_spec (mask current i : Z) :
  0 <= mask < 4294967296 -> 0 <= current < 32 -> 0 <= i ->
  Z.testbit (Z.land mask (not32 (sub32 (shl32 2 current) 1))) i
  = Z.testbit mask i && (current <? i).
Proof.
  intros Hm Hc Hi. rewrite Z.land_spec.
  assert (Hs : sub32 (shl32 2 current) 1 = 2 ^ (current + 1) - 1).
  { unfold shl32. rewrite (Z.mod_small current 32), Z.shiftl_mul_pow2 by lia.
    rewrite Z.pow_add_r by lia. change (2 ^ 1) with 2. rewrite (Z.mul_comm (2 ^ current)).
    assert (Hpow : 0 < 2 ^ current) by (apply Z.pow_pos_nonneg; lia).
    destruct (Z.eq_dec current 31) as [-> | Hne]; [reflexivity |].
    assert (2 ^ current < 2 ^ 31) by (apply Z.pow_lt_mono_r; lia).
    change (2 ^ 31) with 2147483648 in *. unfold sub32. rewrite !u32_id by (rewrite ?u32_id; lia). done. }
  rewrite Hs. replace (2 ^ (current + 1) - 1) with (Z.ones (current + 1)) by (rewrite Z.ones_equiv; lia).
  rewrite not32_spec; [| | lia].
  - destruct (Z.ltb_spec current i).
    + rewrite Z.ones_spec_high by lia. destruct (Z.ltb_spec i 32); [done |].
      by rewrite (testbit_above mask 32) by lia.
    + rewrite Z.ones_spec_low by lia. done.
  - rewrite Z.ones_equiv. assert (2 ^ (current + 1) <= 2 ^ 32) by (apply Z.pow_le_mono_r; lia).
    assert (0 < 2 ^ (current + 1)) by (apply Z.pow_pos_nonneg; lia). lia.
Qed.

(** The next thread in round-robin order: the first ready thread after the
    current one or, when there is none, the first ready thread. *)
Definition round_robin (mask current t : Z) : Prop :=
  0 <= t < 32 /\ Z.testbit mask t = true /\
  ((current < t /\ forall j, current < j < t -> Z.testbit mask j = false) \/
   ((forall j, current < j < 32 -> Z.testbit mask j = false) /\
    forall j, 0 <= j < t -> Z.testbit mask j = false)).

Lemma single_bit (mask t j : Z) :
  0 < mask < 4294967296 -> lowest_bit mask t -> Z.land mask (mask - 1) = 0 ->
  t < j -> Z.testbit mask j = false.
Proof.
  intros Hm Hlow Hz Hj. destruct (Z.testbit mask j) eqn:E; [| done].
  assert (Hb : Z.testbit (Z.land mask (mask - 1)) j = true).
  { rewrite Z.land_spec, E, (pred_bits mask t j), E by (done || lia).
    by rewrite (proj2 (Z.eqb_neq j t)) by lia. }
  by rewrite Hz, Z.bits_0 in Hb.
Qed.

Lemma find_next_thread_round_robin (mask current : Z) :
  0 < mask < 4294967296 -> 0 <= current < 32 ->
  exists t, find_next_thread mask current = Some t /\ round_robin mask current t.
Proof.
  intros Hm Hc. unfold find_next_thread. rewrite (proj2 (Z.eqb_neq mask 0)) by lia.
  destruct (lowest_bit_exists mask Hm) as [l Hl]. pose proof Hl as (Hlr & Hlset & Hllow).
  eexists. split; [reflexivity |]. destruct (Z.eqb_spec (Z.land mask (mask - 1)) 0) as [Hz | Hnz].
  - rewrite (trailing_zeros_spec mask l) by done. split_and!; [lia | lia | done |].
    destruct (Z.lt_ge_cases current l).
    + left. split; [lia |]. intros j Hj. apply Hllow. lia.
    + right. split; [| done]. intros j Hj. apply (single_bit mask l); done || lia.
  - set (up := Z.land mask _).
    assert (Hup : forall i, 0 <= i -> Z.testbit up i = Z.testbit mask i && (current <? i))
      by (intros; apply upper_bits_spec; lia).
    assert (Hur : 0 <= up < 4294967296).
    { assert (0 <= up) by (apply Z.land_nonneg; lia). split; [done |].
      apply (bits_bounded up 32); [lia | done |]. intros i Hi. rewrite Hup by lia.
      by rewrite (testbit_above mask 32) by lia. }
    destruct (Z.eqb_spec up 0) as [Hu0 | Hun]; cbn [negb].
    + rewrite (trailing_zeros_spec mask l) by done. split_and!; [lia | lia | done |].
      right. split; [| done]. intros j Hj. specialize (Hup j ltac:(lia)).
      rewrite Hu0, Z.bits_0 in Hup. destruct (Z.testbit mask j); [| done].
      cbn in Hup. symmetry in Hup. zbool. lia.
    + destruct (lowest_bit_exists up) as [u Hu]; [lia |].
      rewrite (trailing_zeros_spec up u) by (done || lia). destruct Hu as (Hr & Hset & Hlow).
      rewrite Hup in Hset by lia. zbool. split_and!; [lia | lia | done |]. left.
      split; [done |]. intros j Hj. specialize (Hlow j ltac:(lia)). rewrite Hup in Hlow by lia.
      rewrite (proj2 (Z.ltb_lt current j)) in Hlow by lia. by rewrite andb_true_r in Hlow.
Qed.

(** ** Operations of the machine that keep the current process *)

(** The page of a process: it has room for 31 threads. *)
Definition impl_ok (p : ProcessImpl) : Prop :=
  length (threads p) = MAX_THREAD /\ 0 <= last_tid_allocated p < Z.of_nat MAX_THREAD.

Definition impls_ok {M} (m : Machine M) : Prop := map_Forall (fun _ => impl_ok) (impls m).

(** The step from [m] to [m'] keeps the current PID and the form of the
    processes' pages. *)
Definition frame {M} (m m' : Machine M) : Prop :=
  pt_current m' = pt_current m /\ (impls_ok m -> impls_ok m').

Lemma frame_refl {M} (m : Machine M) : frame m m.
Proof. by split. Qed.

Lemma frame_trans {M} (m1 m2 m3 : Machine M) : frame m1 m2 -> frame m2 m3 -> frame m1 m3.
Proof. intros [H1 H2] [H3 H4]. split; [congruence | auto]. Qed.

Lemma frame_put {M} (m : Machine M) p p' :
  impls m !! hardware_pid m = Some p -> (impl_ok p -> impl_ok p') ->
  frame m (set_impls (<[hardware_pid m := p']> (impls m)) m).
Proof.
  intros Hp Hok. split; [done |]. intros Hm. apply map_Forall_insert_2; [| done].
  apply Hok, (Hm _ _ Hp).
Qed.

(** [keeps fallible f]: [f] ends, it is a [frame] step, and it returns an error
    only if it is [fallible]. *)
Definition keeps {M A} (fallible : bool) (f : Machine M -> outcome Error (Machine M) A) : Prop :=
  forall m, sat (f m) (fun m' _ => frame m m') (fun m' _ => fallible = true /\ frame m m').

Create HintDb keeps discriminated.

Section Keeps.
Context {M : Type} {HM : MemOps M} {HL : MemLaws M}.

Implicit Type b : bool.

Lemma keeps_bind b {A B} (f : Machine M -> outcome Error (Machine M) A)
    (g : A -> Machine M -> outcome Error (Machine M) B) :
  keeps b f -> (forall a, keeps b (g a)) -> keeps b (bind f g).
Proof.
  intros Hf Hg m. apply sat_bind. eapply sat_mono; [apply Hf | | done].
  intros s a Hs. cbn in Hs. eapply sat_mono; [apply Hg | |]; cbn.
  - intros s' _ Hs'. by eapply frame_trans.
  - intros s' _ [? Hs']. split; [done | by eapply frame_trans].
Qed.

Lemma keeps_ret b {A} (a : A) : keeps b (ret (S := Machine M) a).
Proof. intros m. by sat_step. Qed.

Lemma keeps_fail {A} (e : Error) : keeps true (fail (S := Machine M) (A := A) e).
Proof. intros m. by sat_step. Qed.

Lemma keeps_gets b {A} (f : Machine M -> A) : keeps b (gets f).
Proof. intros m. by sat_step. Qed.

Lemma keeps_assert b (c : bool) : keeps b (M := M) (assert_ c).
Proof. intros m. by sat_step. Qed.

Lemma keeps_unwrap b {A} (o : option A) : keeps b (M := M) (unwrap o).
Proof. intros m. by sat_step. Qed.

Lemma keeps_unwrap_result b {A} (f : Machine M -> outcome Error (Machine M) A) :
  keeps true f -> keeps b (unwrap_result f).
Proof. intros Hf m. sat_step. eapply sat_mono; [apply Hf | done | done]. Qed.

Lemma keeps_if b {A} (c : bool) (f g : Machine M -> outcome Error (Machine M) A) :
  keeps b f -> keeps b g -> keeps b (if c then f else g).
Proof. by destruct c. Qed.

Lemma keeps_get_impl b : keeps b (get_impl (M := M)).
Proof. intros m. unfold get_impl. by sat_step. Qed.

Lemma keeps_set_spp b (c : bool) : keeps b (modify (set_spp (M := M) c)).
Proof. by intros m. Qed.

Lemma keeps_set_pt_table b (t : list bool) : keeps b (modify (set_pt_table (M := M) t)).
Proof. by intros m. Qed.

Lemma keeps_activate b (s : Z) : keeps b (MemoryMapping_activate (M := M) s).
Proof. by intros m. Qed.

Lemma keeps_Process_current b : keeps b (Process_current (M := M)).
Proof. intros m. unfold Process_current. by destruct (_ =? _). Qed.

Lemma keeps_arch_current_pid b : keeps b (arch_current_pid (M := M)).
Proof. intros m. unfold arch_current_pid. by sat_step. Qed.

Lemma impls_ok_core (m m' : Machine M) :
  core <$> impls m' = core <$> impls m -> impls_ok m -> impls_ok m'.
Proof.
  intros Hc Hm i p Hp.
  assert (Hi : (core <$> impls m) !! i = Some (core p)) by (by rewrite <- Hc, lookup_fmap, Hp).
  rewrite lookup_fmap in Hi. apply fmap_Some in Hi as (q & Hq & Heq).
  pose proof (Hm i q Hq) as [Hlen Hlast]. split.
  - change (length (threads (core p)) = MAX_THREAD). by rewrite Heq.
  - change (0 <= last_tid_allocated (core p) < Z.of_nat MAX_THREAD). by rewrite Heq.
Qed.

(** Operations on memory. *)
Lemma keeps_mem_op S {A} (f : Machine M -> outcome Error (Machine M) A) : mem_op S f -> keeps true f.
Proof.
  intros Hf m. eapply sat_mono; [apply Hf | |]; intros m' ? (Hc & _ & _ & Hi & _);
    [| split; [done |]]; (split; [done |]); by apply impls_ok_core.
Qed.

Lemma keeps_reserve virt size flags : keeps true (reserve_range (M := M) virt size flags).
Proof. apply (keeps_mem_op here). auto with mem_op. Qed.

#[local] Hint Resolve keeps_bind keeps_ret keeps_fail keeps_gets keeps_assert keeps_unwrap
  keeps_unwrap_result keeps_if keeps_get_impl keeps_set_spp keeps_set_pt_table
  keeps_activate keeps_Process_current keeps_arch_current_pid keeps_reserve : keeps.

#[local] Ltac keeps :=
  intros; repeat first [solve [eauto 8 with keeps] | apply keeps_bind; [| intros]].

(** An operation that reads the page of the current process and writes it back. *)
#[local] Ltac keeps_put :=
  intros m; repeat (unfold get_impl, put_impl, Process_thread; sat_step);
  try apply frame_refl; eapply frame_put; [done |]; intros [? ?]; split; cbn;
  rewrite ?length_insert, ?length_fmap; try done.

Lemma keeps_thread b tid : keeps b (Process_thread (M := M) tid).
Proof. unfold Process_thread. keeps. Qed.
#[local] Hint Resolve keeps_thread : keeps.

Lemma keeps_update_thread b tid f : keeps b (update_thread (M := M) tid f).
Proof. unfold update_thread. keeps_put. Qed.
#[local] Hint Resolve keeps_update_thread : keeps.

Lemma keeps_set_tid b tid : keeps b (Process_set_tid (M := M) tid).
Proof. unfold Process_set_tid. keeps_put. Qed.

Lemma keeps_retry b tid : keeps b (Process_retry_instruction (M := M) tid).
Proof. unfold Process_retry_instruction. keeps_put. Qed.

Lemma keeps_with_inner b {A} (f : ProcessInner -> A) : keeps b (with_inner (M := M) f).
Proof. unfold with_inner. keeps. Qed.

Lemma keeps_current_thread b : keeps b (Process_current_thread (M := M)).
Proof. unfold Process_current_thread. keeps. Qed.

Lemma keeps_current_tid b : keeps b (current_tid (M := M)).
Proof. unfold current_tid. keeps. Qed.

Lemma keeps_with_inner_mut b f : keeps b (with_inner_mut (M := M) f).
Proof. unfold with_inner_mut. keeps_put. Qed.

Lemma keeps_set_thread_result b tid r : keeps b (Process_set_thread_result (M := M) tid r).
Proof. unfold Process_set_thread_result. keeps. Qed.

Lemma keeps_thread_exists b tid : keeps b (Process_thread_exists (M := M) tid).
Proof. unfold Process_thread_exists. keeps. Qed.

Lemma keeps_setup_thread pid tid init : keeps true (Process_setup_thread (M := M) pid tid init).
Proof. unfold Process_setup_thread. keeps. Qed.

(** A write of the page between its read and what follows. *)
Lemma keeps_put_then b {A} (g : ProcessImpl -> ProcessImpl)
    (rest : Machine M -> outcome Error (Machine M) A) :
  (forall p, impl_ok p -> impl_ok (g p)) -> keeps b rest ->
  keeps b (p <- get_impl;; put_impl (g p) ;;; rest).
Proof.
  intros Hg Hr m. unfold get_impl, put_impl. repeat sat_step.
  assert (Hf : frame m (set_impls (<[hardware_pid m := g a]> (impls m)) m))
    by (eapply frame_put; eauto).
  eapply sat_mono; [apply Hr | |]; cbn.
  - intros s _ Hs. by eapply frame_trans.
  - intros s _ [? Hs]. split; [done | by eapply frame_trans].
Qed.

Lemma keeps_setup_process b pid init : keeps b (Process_setup_process (M := M) pid init).
Proof.
  unfold Process_setup_process. do 6 (apply keeps_bind; [eauto with keeps | intros]).
  apply (keeps_put_then b (fun p => mk_ProcessImpl _ _ _ _)); [| keeps].
  intros p [Hlen Hlast]. split; cbn; [| done]. by rewrite length_insert, length_fmap.
Qed.

Lemma keeps_destroy_thread tid : keeps true (Process_destroy_thread (M := M) tid).
Proof. unfold Process_destroy_thread. keeps. Qed.

Lemma keeps_find_thread b f : keeps b (Process_find_thread (M := M) f).
Proof. unfold Process_find_thread. keeps. Qed.

(** The first thread in the order of the search that is free. *)
Lemma find_free_inv (p : ProcessImpl) (f : nat -> bool) start n :
  List.find f (thread_order start (length (threads p))) = Some n ->
  (start <= length (threads p))%nat -> f n = true /\ (n < length (threads p))%nat.
Proof.
  intros Hf Hs. apply find_some in Hf as [Hin Hf]. split; [done |].
  unfold thread_order in Hin. apply in_app_iff in Hin as [Hin | Hin]; apply in_seq in Hin; lia.
Qed.

Lemma keeps_find_free_thread b : keeps b (Process_find_free_thread (M := M)).
Proof.
  intros m. unfold Process_find_free_thread, get_impl. repeat sat_step.
  destruct (List.find _ _) as [n |] eqn:Hf; unfold put_impl; repeat sat_step; [| apply frame_refl].
  apply Nat.leb_le in H0. apply find_free_inv in Hf as [_ Hn]; [| done].
  eapply frame_put; [done |]. intros [Hlen _]. split; cbn; [done |]. lia.
Qed.
End Keeps.

#[export] Hint Resolve keeps_activate keeps_Process_current keeps_set_tid keeps_current_thread
  keeps_current_tid keeps_with_inner_mut keeps_set_thread_result keeps_thread_exists
  keeps_setup_thread keeps_setup_process keeps_destroy_thread keeps_find_thread
  keeps_find_free_thread keeps_set_spp keeps_update_thread keeps_retry keeps_with_inner : keeps.

(** ** A small machine, for concrete runs

    A kernel whose process 1 is running and whose processes 2 and 3 are ready and
    asleep. *)

Definition example_process (pid cur : Z) (s : ProcessState) : Process :=
  mk_Process (example_satp pid) s pid 1 cur 2 None.

Definition free_process : Process := mk_Process 0 Free 1 1 0 0 None.

(** The threads 2, 3 and 4 exist. *)
Definition example_impl (pid : Z) : ProcessImpl :=
  mk_ProcessImpl 3 (set_inner_pid pid ProcessInner_default) 0
    (replicate 2 Thread_default ++ replicate 3 (mk_Thread (replicate 31 0) 65536)
     ++ replicate 26 Thread_default).

Definition example_machine : Machine Memory :=
  mk_Machine (example_satp 1) 1 (replicate 3 true ++ replicate 61 false)
    (<[1 := example_impl 1]> (<[2 := example_impl 2]> (<[3 := example_impl 3]> empty)))
    false example_memory.

Definition example_kernel : Kernel Memory :=
  mk_Kernel example_machine
    ([example_process 1 2 (Running 8); example_process 2 2 (Ready 4);
      example_process 3 2 Sleeping] ++ replicate 61 free_process)
    (Some example_server :: replicate 127 None)
    (mk_IrqState (replicate 32 None) 0 0 true).
