(* ===== verification/SchedulerInv.v ===== *)
(** * The scheduler's invariant

    Every process has a consistent set of ready threads and only the current
    process is running.  Each operation of the scheduler keeps this, also when
    it returns an error. *)

From Stdlib Require Import ZArith Lia Bool.
From stdpp Require Import base numbers list option gmap.
From S2P Require Import Prelude.
From S2P Require Import Abi.
From S2P Require Import Server.
From S2P Require Import ServerSpec.
From S2P Require Import Irq.
From S2P Require Import Machine.
From S2P Require Import Paging.
From S2P Require Import MemoryManager.
From S2P Require Import MemoryFacts.
From S2P Require Import Memory.
From S2P Require Import ArchProcess.
From S2P Require Import Scheduler.
From S2P Require Import SchedulerFacts.

#[local] Open Scope Z_scope.
#[local] Open Scope kernel_scope.

(** ** Well-formed processes *)

Definition tid_ok (t : Z) : Prop := 0 <= t < 32.
Definition mask_ok (x : Z) : Prop := 0 <= x < 4294967296.

(** A ready process has a ready thread; the thread that runs is not in the set
    of threads that are ready. *)
Definition process_ok (p : Process) : Prop :=
  tid_ok (current_thread p) /\ tid_ok (previous_thread p) /\
  match pstate p with
  | Ready x => mask_ok x /\ x <> 0
  | Running x => mask_ok x /\ Z.testbit x (current_thread p) = false
  | InException x | BlockedException x => mask_ok x
  | _ => True
  end.

Definition is_running (p : Process) : bool :=
  match pstate p with Running _ => true | _ => false end.

(** The process table is well formed and the processes that are running are
    among those at the indices [R]. *)
Record procs_ok (R : nat -> Prop) (l : list Process) : Prop := {
  procs_wf i p : l !! i = Some p ->
    process_ok p /\ (Process_free p = false -> proc_pid p = Z.of_nat i + 1);
  procs_running i p : l !! i = Some p -> is_running p = true -> R i
}.

(** The index of the process [pid]. *)
Definition index_of (pid : Z) (i : nat) : Prop := Z.of_nat i + 1 = pid.

Definition sched_ok {M} (k : Kernel M) : Prop :=
  procs_ok (index_of (pt_current (machine k))) (processes k).

Lemma index_of_pid pid : 1 <= pid -> index_of pid (pid_index pid).
Proof. unfold index_of, pid_index. lia. Qed.

Lemma index_of_inv pid i : index_of pid i -> i = pid_index pid.
Proof. unfold index_of, pid_index. lia. Qed.

#[export] Hint Resolve index_of_pid : xous.

Lemma procs_ok_insert (R R' : nat -> Prop) l i p :
  procs_ok R l -> (forall j, j <> i -> R j -> R' j) ->
  process_ok p -> proc_pid p = Z.of_nat i + 1 -> (is_running p = true -> R' i) ->
  procs_ok R' (<[i := p]> l).
Proof.
  intros [Hwf Hrun] HR Hp Hpid Hr.
  assert (Hcase : forall j q, <[i := p]> l !! j = Some q ->
            j = i /\ q = p \/ j <> i /\ l !! j = Some q).
  { intros j q Hq. destruct (decide (j = i)) as [-> | Hne].
    - apply list_lookup_insert_Some in Hq as [(_ & <- & _) | [? _]]; [by left | done].
    - rewrite list_lookup_insert_ne in Hq by done. auto. }
  split; intros j q Hq; destruct (Hcase j q Hq) as [[-> ->] | [Hne Hl]]; eauto.
Qed.

Lemma procs_ok_mono (R R' : nat -> Prop) l :
  procs_ok R l -> (forall i, R i -> R' i) -> procs_ok R' l.
Proof. intros [Hwf Hrun] HR. split; eauto. Qed.

(** ** Rules for the operations on the process table *)

Section Rules.
Context {M : Type} {HM : MemOps M} {HL : MemLaws M}.

Implicit Type k : Kernel M.

Lemma PID_new_inv x pid : PID_new (u8 x) = Some pid -> 1 <= pid <= 255.
Proof.
  pose proof (u8_range x). unfold PID_new, NonZero_new. destruct (_ =? _) eqn:E; [done |].
  intros [= <-]. zbool. lia.
Qed.

Lemma sat_get_process pid k Q X :
  (forall p, processes k !! pid_index pid = Some p -> 1 <= pid <= 255 ->
             MemoryMapping_get_pid (mapping p) = Some pid ->
             Process_free p = false -> Q k p) ->
  X k ProcessNotFound -> sat (get_process pid k) Q X.
Proof.
  intros HQ HX. unfold get_process. do 4 sat_step.
  destruct (decide _) as [Hm |]; [| done]. sat_step; [done |].
  apply HQ; try done. by apply (PID_new_inv _ _ Hm).
Qed.

Lemma sat_put_process pid p k Q X :
  Q (set_processes (<[pid_index pid := p]> (processes k)) k) tt -> sat (put_process pid p k) Q X.
Proof. done. Qed.

(** An operation of the machine that keeps the current process. *)
Lemma sat_arch {A} (f : Machine M -> outcome Error (Machine M) A) k Q X :
  keeps true f ->
  (forall m a, pt_current m = pt_current (machine k) -> (impls_ok (machine k) -> impls_ok m) ->
               Q (set_machine m k) a) ->
  (forall m e, pt_current m = pt_current (machine k) -> (impls_ok (machine k) -> impls_ok m) ->
               X (set_machine m k) e) ->
  sat (arch f k) Q X.
Proof.
  intros Hf HQ HX. apply sat_zoom. eapply sat_mono; [apply Hf | |]; cbn.
  - intros s a []. eauto.
  - intros s e [_ []]. eauto.
Qed.

(** One that cannot fail. *)
Lemma sat_arch_infallible {A} (f : Machine M -> outcome Error (Machine M) A) k Q X :
  keeps false f ->
  (forall m a, pt_current m = pt_current (machine k) -> (impls_ok (machine k) -> impls_ok m) ->
               Q (set_machine m k) a) ->
  sat (arch f k) Q X.
Proof.
  intros Hf HQ. apply sat_zoom. eapply sat_mono; [apply Hf | |]; cbn.
  - intros s a []. eauto.
  - by intros s e [].
Qed.

Lemma sat_current_pid k Q X :
  Q (set_machine (machine k) k) (pt_current (machine k)) -> sat (arch current_pid k) Q X.
Proof. done. Qed.

(** Activating a process: it becomes the current one, in its address space. *)
Lemma sat_activate p k Q X :
  (forall m, pt_current m = proc_pid p -> satp m = mapping p ->
             impls m = impls (machine k) -> Q (set_machine m k) tt) ->
  sat (Process_activate p k) Q X.
Proof.
  intros HQ. unfold Process_activate. sat_step. apply sat_zoom.
  unfold set_current_pid. destruct (pt_table _ !! _) as [[] |]; [| done ..]. cbn [sat].
  sat_step. apply sat_zoom. cbn. sat_step. apply sat_zoom. unfold Process_current.
  destruct (_ =? _); [| done]. cbn. by apply HQ.
Qed.

(** An operation of a server that exists. *)
Lemma sat_with_server {A} sidx (f : Server -> outcome Error Server A) s k Q X :
  servers k !! Z.to_nat sidx = Some (Some s) ->
  sat (f s)
    (fun s' a => Q (set_servers (<[Z.to_nat sidx := Some s']> (servers k)) k) a)
    (fun s' e => X (set_servers (<[Z.to_nat sidx := Some s']> (servers k)) k) e) ->
  sat (with_server sidx f k) Q X.
Proof. intros Hs Hf. unfold with_server. rewrite Hs. by destruct (f s). Qed.

Lemma sat_arch_current k Q X :
  (Q (set_machine (machine k) k) (pt_current (machine k))) -> sat (arch Process_current k) Q X.
Proof. intros HQ. apply sat_zoom. unfold Process_current. by destruct (_ =? _). Qed.
End Rules.

(** The next step of a run of a kernel operation. *)
Ltac kstep :=
  lazymatch goal with
  | |- sat (get_process _ _) _ _ => apply sat_get_process; [intros ? ? ? ? ? |]
  | |- sat (put_process _ _ _) _ _ => apply sat_put_process
  | |- sat (Process_activate _ _) _ _ => apply sat_activate; intros ? ? ? ?
  | |- sat (arch current_pid _) _ _ => apply sat_current_pid
  | |- sat (arch Process_current _) _ _ => apply sat_arch_current
  | |- sat (arch _ _) _ _ =>
      first [ apply sat_arch_infallible; [solve [auto with keeps] | intros ? ? ? ?]
            | apply sat_arch; [auto with keeps | intros ? ? ? ? | intros ? ? ? ?] ]
  | |- _ => sat_step
  end.

(** ** Sets of threads *)

Lemma mask_ok_set x t : mask_ok x -> tid_ok t -> mask_ok (set_bit x t).
Proof. apply set_bit_range. Qed.

Lemma mask_ok_clear x t : mask_ok x -> tid_ok t -> mask_ok (clear_bit x t).
Proof. apply clear_bit_range. Qed.

Lemma mask_ok_0 : mask_ok 0.
Proof. by split. Qed.

Lemma mask_ok_bit t : tid_ok t -> mask_ok (bit t).
Proof. intros Ht. apply (set_bit_range 0 t); [by split | done]. Qed.

Lemma set_bit_nonzero x t : tid_ok t -> set_bit x t <> 0.
Proof.
  intros Ht H. pose proof (set_bit_spec x t t Ht ltac:(destruct Ht; lia)) as Hs.
  by rewrite H, Z.bits_0, Z.eqb_refl, orb_true_r in Hs.
Qed.

Lemma bit_nonzero t : tid_ok t -> bit t <> 0.
Proof. intros Ht. apply (set_bit_nonzero 0 t Ht). Qed.

Lemma clear_bit_self x t : mask_ok x -> tid_ok t -> Z.testbit (clear_bit x t) t = false.
Proof.
  intros Hx Ht. rewrite clear_bit_spec by (done || (destruct Ht; lia)).
  by rewrite Z.eqb_refl, andb_false_r.
Qed.

Lemma set_bit_other x t c :
  tid_ok t -> tid_ok c -> t <> c -> Z.testbit x c = false -> Z.testbit (set_bit x t) c = false.
Proof.
  intros Ht Hc Hne Hx. rewrite set_bit_spec by (done || (destruct Hc; lia)).
  rewrite Hx. apply Z.eqb_neq. congruence.
Qed.

#[export] Hint Resolve mask_ok_set mask_ok_clear mask_ok_0 mask_ok_bit set_bit_nonzero
  bit_nonzero clear_bit_self set_bit_other Z.bits_0 : xous.

(** Well-formedness of a process whose state or threads were updated. *)
Ltac process_ok :=
  destruct_and?;   unfold process_ok; cbn [current_thread previous_thread pstate set_state set_current_thread
                          set_previous_thread];
  split_and!; eauto with xous; try done.

Section Preservation.
Context {M : Type} {HM : MemOps M} {HL : MemLaws M}.

Implicit Type k : Kernel M.

(** An update of the process at [pid] that keeps its PID. *)
Lemma procs_ok_put (R R' : nat -> Prop) l pid p p' :
  procs_ok R l -> l !! pid_index pid = Some p -> Process_free p = false ->
  (forall j, j <> pid_index pid -> R j -> R' j) ->
  proc_pid p' = proc_pid p -> process_ok p' -> (is_running p' = true -> R' (pid_index pid)) ->
  procs_ok R' (<[pid_index pid := p']> l).
Proof.
  intros Hl Hp Hf HR Hpid Hok Hr. eapply procs_ok_insert; try done.
  rewrite Hpid. by apply (procs_wf _ _ Hl _ _ Hp).
Qed.

Lemma procs_ok_get R l pid p : procs_ok R l -> l !! pid_index pid = Some p -> process_ok p.
Proof. intros Hl Hp. by apply (procs_wf _ _ Hl _ _ Hp). Qed.

Lemma procs_ok_pid R l pid p :
  procs_ok R l -> l !! pid_index pid = Some p -> Process_free p = false -> 1 <= pid ->
  proc_pid p = pid.
Proof.
  intros Hl Hp Hf Hpid. rewrite (proj2 (procs_wf _ _ Hl _ _ Hp) Hf). unfold pid_index. lia.
Qed.

Lemma ready_thread_procs (R : nat -> Prop) pid tid k :
  procs_ok R (processes k) -> tid_ok tid ->
  (forall p, processes k !! pid_index pid = Some p -> 1 <= pid -> is_running p = true ->
             tid <> current_thread p) ->
  sat (ready_thread pid tid k) (fun k' _ => procs_ok R (processes k') /\ machine k' = machine k)
    (fun k' _ => k' = k).
Proof.
  intros Hk Ht Hc. unfold ready_thread. kstep. kstep; [| done].
  pose proof (procs_ok_get _ _ _ _ Hk H) as (Hcur & Hprev & Hst).
  pose proof (procs_running _ _ Hk _ _ H) as Hrun. specialize (Hc _ H ltac:(lia)). unfold is_running in *.
  kstep. destruct (pstate p) as [| | | x | x | | x | x] eqn:Hs; try exact I;
    repeat kstep; try exact I; (split; [| done]);
    (eapply procs_ok_put; [exact Hk | done | done | done | done | process_ok |]); try done;
    intros _; by apply Hrun.
Qed.

Lemma ready_thread_ok pid tid k :
  sched_ok k -> tid_ok tid ->
  (forall p, processes k !! pid_index pid = Some p -> is_running p = true -> tid <> current_thread p) ->
  sat (ready_thread pid tid k) (fun k' _ => sched_ok k') (fun k' _ => sched_ok k').
Proof.
  intros Hk Ht Hc. eapply sat_mono; [apply (ready_thread_procs _ _ _ _ Hk Ht) | |]; [eauto | |].
  - intros k' _ [Hp Hm]. unfold sched_ok. by rewrite Hm.
  - by intros k' _ ->.
Qed.

Lemma set_last_thread_ok pid tid k :
  sched_ok k -> tid_ok tid ->
  sat (set_last_thread pid tid k) (fun k' _ => sched_ok k') (fun k' _ => sched_ok k').
Proof.
  intros Hk Ht. unfold set_last_thread. kstep. kstep; [| done].
  pose proof (procs_ok_get _ _ _ _ Hk H) as (Hcur & Hprev & Hst).
  destruct (pstate p) as [| | | x | x | | x | x] eqn:Hs; repeat kstep; try done.
  eapply procs_ok_put; [exact Hk | done | done | done | done | process_ok |].
  - by rewrite Hs.
  - unfold is_running. cbn. by rewrite Hs.
Qed.

(** After [unschedule_thread] no process is running. *)
Lemma unschedule_thread_ok pid tid k :
  sched_ok k ->
  sat (unschedule_thread pid tid k)
    (fun k' _ => sched_ok k' /\ (pid = pt_current (machine k) ->
                                 procs_ok (fun _ => False) (processes k')))
    (fun k' _ => sched_ok k').
Proof.
  intros Hk. unfold unschedule_thread. kstep. kstep; [| done].
  pose proof (procs_ok_get _ _ _ _ Hk H) as (Hcur & Hprev & Hst). kstep.
  destruct (pstate p) as [| | | x | x | | x | x] eqn:Hs; try exact I; repeat kstep; try exact I;
    zbool; (split; [| intros Heq];
    (eapply procs_ok_put; [exact Hk | done | done | | done | process_ok | done])); try done;
    intros j Hj ->%index_of_inv; by rewrite Heq in Hj.
Qed.

Lemma sched_ok_eq k k' :
  processes k' = processes k -> pt_current (machine k') = pt_current (machine k) ->
  sched_ok k -> sched_ok k'.
Proof. unfold sched_ok. by intros -> ->. Qed.

Lemma find_next_tid_ok mask current t :
  find_next_thread mask current = Some t -> mask_ok mask -> tid_ok current -> tid_ok t.
Proof.
  intros Hf Hm Hc. destruct (Z.eq_dec mask 0) as [-> | Hne]; [done |].
  destruct (find_next_thread_round_robin mask current) as (t' & Hf' & Hr & _);
    [destruct Hm; lia | done |].
  by replace t with t' by congruence.
Qed.

Lemma choose_thread_ok tid mask current k :
  (forall t, tid = Some t -> tid_ok t) -> mask_ok mask -> tid_ok current ->
  sat (choose_thread tid mask current k) (fun k' t => k' = k /\ tid_ok t) (fun _ _ => False).
Proof.
  intros Ht Hm Hc. unfold choose_thread. destruct tid as [t |]; [split; auto |].
  kstep. split; [done |]. by eapply find_next_tid_ok.
Qed.

(** [switch_to_thread] may be used when no other process is running; then its
    process is the current one. *)
Lemma switch_to_thread_ok pid tid k :
  procs_ok (fun i => index_of pid i /\ index_of (pt_current (machine k)) i) (processes k) ->
  (forall t, tid = Some t -> tid_ok t) ->
  sat (switch_to_thread pid tid k) (fun k' _ => sched_ok k') (fun k' _ => sched_ok k').
Proof.
  intros Hk Ht.
  assert (Hk' : sched_ok k) by (eapply procs_ok_mono; [exact Hk | by intros i [_ ?]]).
  unfold switch_to_thread. kstep. kstep; [| done].
  pose proof (procs_ok_get _ _ _ _ Hk H) as (Hcur & Hprev & Hst).
  pose proof (procs_ok_pid _ _ _ _ Hk H H2 ltac:(lia)) as Hpid.
  pose proof (procs_running _ _ Hk _ _ H) as Hrun. unfold is_running in Hrun.
  assert (Herr : forall k2, processes k2 = processes k ->
            pt_current (machine k2) = pid -> sched_ok k2).
  { intros k2 Hp Hm. unfold sched_ok. rewrite Hp, Hm.
    eapply procs_ok_mono; [exact Hk | by intros i [? _]]. }
  assert (Hfin : forall k2 p', processes k2 = processes k -> process_ok p' ->
            proc_pid p' = proc_pid p -> pt_current (machine k2) = pid ->
            sched_ok (set_processes (<[pid_index pid := p']> (processes k2)) k2)).
  { intros k2 p' Hp Hp' Hpp Hm. unfold sched_ok. cbn. rewrite Hp, Hm.
    eapply procs_ok_put; [exact Hk | done | done | | done | done |]; [by intros j ? [? _] |].
    intros _. apply index_of_pid. lia. }
  kstep. destruct (pstate p) as [| | init | x | x | | x | x] eqn:Hs; try exact I; try done.
  - (* Setup *)
    repeat kstep; try (apply Herr; [done | cbn in *; congruence]).
    apply Hfin; [done | process_ok | done | cbn in *; congruence].
  - (* Ready *)
    repeat kstep. eapply sat_mono; [apply choose_thread_ok; destruct_and?; done | | done].
    intros k2 t [-> Htt]. cbn. repeat kstep; try (apply Herr; [done | cbn in *; congruence]).
    apply Hfin; [done | process_ok | done | cbn in *; congruence].
  - (* Running *)
    destruct (Hrun eq_refl) as [Heq1 Heq2].
    repeat kstep. eapply sat_mono; [apply choose_thread_ok; destruct_and?; auto with xous | | done].
    intros k2 t [-> Htt]. cbn. repeat kstep; try done.
    all: try (apply (sched_ok_eq k); [done | cbn in *; congruence | done]).
    apply Hfin; [done | process_ok | done | cbn in *; congruence].
  - (* InException *)
    repeat kstep; try (apply Herr; [done | cbn in *; congruence]).
    apply Hfin; [done | process_ok | done | cbn in *; congruence].
Qed.

Lemma set_thread_result_ok pid tid r k :
  sched_ok k ->
  sat (set_thread_result pid tid r k)
    (fun k' _ => processes k' = processes k /\ pt_current (machine k') = pt_current (machine k))
    (fun k' _ => processes k' = processes k /\ pt_current (machine k') = pt_current (machine k)).
Proof.
  intros Hk. unfold set_thread_result. kstep. kstep. kstep.
  - repeat kstep. auto.
  - repeat kstep; try done. cbn in *. split; [done |].
    etrans; [eassumption |]. eapply procs_ok_pid; [exact Hk | done | done | lia].
Qed.

(** ** Switching between processes *)

Lemma select_new_thread_ok new_pid new_tid k :
  sched_ok k -> tid_ok new_tid -> new_pid <> pt_current (machine k) ->
  sat (select_new_thread new_pid new_tid k)
    (fun k' t => sched_ok k' /\ servers k' = servers k /\ machine k' = machine k /\ tid_ok t /\
       exists p, processes k' !! pid_index new_pid = Some p /\ Process_free p = false /\
                 (forall x, pstate p = Ready x -> current_thread p = t))
    (fun k' _ => sched_ok k' /\ servers k' = servers k).
Proof.
  intros Hk Ht Hne. unfold select_new_thread. kstep. kstep; [| done].
  pose proof (procs_ok_get _ _ _ _ Hk H) as (Hcur & Hprev & Hst).
  assert (Hfin : forall t x, pstate p = Ready x -> tid_ok t ->
    let k' := set_processes (<[pid_index new_pid := set_current_thread t p]> (processes k)) k in
    sched_ok k' /\ servers k' = servers k /\ machine k' = machine k /\ tid_ok t /\
    exists p, processes k' !! pid_index new_pid = Some p /\ Process_free p = false /\
              (forall x, pstate p = Ready x -> current_thread p = t)).
  { intros t x Hs Htt. cbn. rewrite Hs in Hst. split_and!; [| done | done | done |].
    - eapply procs_ok_put; [exact Hk | done | done | done | done | process_ok |].
      + by rewrite Hs.
      + unfold is_running. cbn. by rewrite Hs.
    - exists (set_current_thread t p). split_and!; [| done | done].
      apply list_lookup_insert_eq. by eapply lookup_lt_Some. }
  destruct (pstate p) as [| | init | x | x | | x | x] eqn:Hs; repeat kstep; try done;
    try (split_and!; [done | done | done | done | exists p; split_and!; [done | done | congruence]]).
  - apply (Hfin a x); [done |]. destruct Hst. by eapply find_next_tid_ok.
  - by apply (Hfin new_tid x).
Qed.

Lemma enter_process_ok new_pid new_tid k p :
  sched_ok k -> tid_ok new_tid -> new_pid <> pt_current (machine k) ->
  processes k !! pid_index new_pid = Some p ->
  (forall x, pstate p = Ready x -> current_thread p = new_tid) ->
  sat (enter_process new_pid new_tid k)
    (fun k' _ =>
       procs_ok (fun i => index_of new_pid i \/ index_of (pt_current (machine k)) i)
         (processes k') /\
       servers k' = servers k /\ pt_current (machine k') = new_pid /\
       forall i, i <> pid_index new_pid -> processes k' !! i = processes k !! i)
    (fun k' _ => sched_ok k' /\ servers k' = servers k).
Proof.
  intros Hk Ht Hne Hp Hready. unfold enter_process. kstep. kstep; [| done].
  kstep. kstep. kstep. kstep; [| by split; [apply (sched_ok_eq k) |]].
  cbn [processes set_machine] in *. assert (p1 = p) as -> by congruence.
  pose proof (procs_ok_get _ _ _ _ Hk Hp) as (Hcur & Hprev & Hst).
  pose proof (procs_ok_pid _ _ _ _ Hk Hp ltac:(done) ltac:(lia)) as Hpid.
  pose proof (procs_running _ _ Hk _ _ Hp) as Hrun. unfold is_running in Hrun.
  assert (Hfin : forall p' m, process_ok p' -> proc_pid p' = proc_pid p ->
     pt_current m = new_pid ->
     let k' := set_processes (<[pid_index new_pid := p']> (processes k)) (set_machine m k) in
     procs_ok (fun i => index_of new_pid i \/ index_of (pt_current (machine k)) i)
       (processes k') /\
     servers k' = servers k /\ pt_current (machine k') = new_pid /\
     forall i, i <> pid_index new_pid -> processes k' !! i = processes k !! i).
  { intros p' m' Hp' Hpp Hm'. cbn. split_and!; [| done | done |].
    - eapply procs_ok_put; [exact Hk | done | done | | done | done |]; cbn; auto.
      intros _. left. apply index_of_pid. lia.
    - intros i Hi. by rewrite list_lookup_insert_ne. }
  kstep. destruct (pstate p) as [| | init | x | x | | x | x] eqn:Hs; repeat kstep; try done.
  all: try (split; [apply (sched_ok_eq k); [done | cbn in *; congruence | done] | done]).
  all: match goal with
       | |- procs_ok _ (processes (set_machine ?m (set_processes (<[_ := ?p']> _) _))) /\ _ =>
           apply (Hfin p' m); [| done | cbn in *; congruence]
       end; try (by process_ok).
  - rewrite <- (Hready x eq_refl). process_ok.
  - by destruct Hne; rewrite <- (Hrun eq_refl); symmetry; apply index_of_pid; lia.
Qed.

Lemma leave_process_ok previous_pid previous_tid can_resume (R : nat -> Prop) k :
  procs_ok (fun i => R i \/ index_of previous_pid i) (processes k) -> tid_ok previous_tid ->
  sat (leave_process previous_pid previous_tid can_resume k)
    (fun k' _ => procs_ok R (processes k') /\ machine k' = machine k /\ servers k' = servers k)
    (fun _ _ => False).
Proof.
  intros Hk Ht. unfold leave_process. kstep. kstep. kstep; [| done].
  pose proof (procs_ok_get _ _ _ _ Hk H) as (Hcur & Hprev & Hst).
  kstep. destruct (pstate p) as [| | init | x | x | | x | x] eqn:Hs; repeat kstep; try done.
  all: split_and!; [| done | done]; cbn.
  all: eapply procs_ok_put; [exact Hk | done | done | by intros j ? [? | ->%index_of_inv] | done | | ];
    destruct can_resume; try done; zbool; process_ok.
Qed.

Definition is_remember (op : PostActivateOp) : bool :=
  match op with Post_RememberServerMessage _ _ _ _ _ => true | _ => false end.

(** The ring of a server's queue: its size and the bound on its head. *)
Definition ring_ok (s : Server) : Prop :=
  length (queue s) = QUEUE_LEN /\ (queue_head s < QUEUE_LEN)%nat.

Definition servers_ok (l : list (option Server)) : Prop :=
  forall i s, l !! i = Some (Some s) -> ring_ok s.

Lemma servers_ok_insert l i s : servers_ok l -> ring_ok s -> servers_ok (<[i := Some s]> l).
Proof.
  intros Hl Hs j t Hj. apply list_lookup_insert_Some in Hj as [(_ & [= <-] & _) | [_ Hj]];
    [done | by eapply Hl].
Qed.

Lemma queue_response_ring pid tid m addr s :
  ring_ok s ->
  sat (queue_response pid tid m addr s) (fun s' _ => ring_ok s')
    (fun s' e => s' = s /\ e = ServerQueueFull).
Proof.
  intros [Hlen Hh]. unfold queue_response. repeat sat_step. rewrite Hlen.
  assert (H0 : ring_dist (queue_head s) (queue_head s) = 0%nat)
    by (unfold ring_dist, QUEUE_LEN in *; lia).
  destruct (find_empty_round_spec s Hlen Hh QUEUE_LEN (queue_head s) Hh)
    as [(i & -> & Hi) | [-> Hfull]]; [rewrite H0; lia | | done].
  do 4 sat_step. destruct (decide _); repeat sat_step; split; cbn;
    rewrite ?length_insert, ?Hlen; try done.
  apply next_index_lt. unfold QUEUE_LEN. lia.
Qed.

(** What [post_activate] does to the process table and to the current process;
    only remembering a message can fail. *)
Lemma post_activate_ok la tid k :
  servers_ok (servers k) ->
  sat (post_activate la tid k)
    (fun k' si => processes k' = processes k /\
       pt_current (machine k') = pt_current (machine k) /\ servers_ok (servers k') /\
       (is_remember la = false -> si = None))
    (fun k' e => processes k' = processes k /\
       pt_current (machine k') = pt_current (machine k) /\ servers_ok (servers k') /\
       is_remember la = true /\ e = ServerQueueFull).
Proof.
  intros Hs. unfold post_activate. destruct la as [| r | sidx pid t m addr]; repeat kstep; try done.
  unfold server_from_sidx. repeat kstep; try done.
  subst. eapply sat_with_server; [done |].
  eapply sat_mono; [apply queue_response_ring; by eapply Hs | |].
  - intros s' i Hr. kstep. cbn. split_and!; [done | done | by apply servers_ok_insert | done].
  - intros s' e [-> ->]. cbn. split_and!; try done. apply servers_ok_insert; [done |]. by eapply Hs.
Qed.

(** The thread [tid] is not one of the ready threads of the current process. *)
Definition not_ready k (tid : Z) : Prop :=
  forall p x, processes k !! pid_index (pt_current (machine k)) = Some p ->
              pstate p = Running x -> Z.testbit x tid = false.

Lemma switch_within_ok previous_tid new_tid can_resume k :
  sched_ok k -> tid_ok new_tid -> not_ready k previous_tid ->
  sat (switch_within previous_tid (pt_current (machine k)) new_tid can_resume k)
    (fun k' r => sched_ok k' /\ servers k' = servers k /\
                 pt_current (machine k') = pt_current (machine k) /\
                 forall t, r = Some t -> tid_ok t)
    (fun k' _ => sched_ok k' /\ servers k' = servers k).
Proof.
  intros Hk Ht Hnr. unfold switch_within. kstep. kstep; [| done].
  pose proof (procs_ok_get _ _ _ _ Hk H) as (Hcur & Hprev & Hst). 
  pose proof (fun x => Hnr p x H) as Hnr'.
  assert (Hfin : forall k2 p', processes k2 = processes k ->
    pt_current (machine k2) = pt_current (machine k) -> process_ok p' -> proc_pid p' = proc_pid p ->
    sched_ok (set_processes
      (<[pid_index (pt_current (machine k)) := p']> (processes k2)) k2)).
  { intros k2 p' Hp Hm Hok Hpp. unfold sched_ok. cbn. rewrite Hp, Hm.
    eapply procs_ok_put; [exact Hk | done | done | done | done | done |].
    intros _. apply index_of_pid. lia. }
  destruct (previous_tid =? new_tid) eqn:Heq.
  - repeat kstep; try done. split; [| by split]. apply Hfin; try done. zbool. subst previous_tid.
    unfold process_ok. cbn. split_and!; [done | done |].
    destruct (pstate p) as [| | init | x | x | | x | x]; try done. split; [apply Hst | eauto].
  - destruct (pstate p) as [| | init | x | x | | x | x] eqn:Hs; try done. destruct Hst as [Hx Hxc].
    assert (Hx' : mask_ok (if can_resume then set_bit x (current_thread p) else x))
      by (destruct can_resume; auto with xous).
    kstep. kstep. kstep. kstep; repeat kstep; try done.
    + assert (tid_ok a) by (by eapply find_next_tid_ok).
      split; [apply Hfin; try done; process_ok | by split; [| split; [| intros t [= <-]]]].
    + split; [apply Hfin; try done; process_ok | by split; [| split; [| intros t [= <-]]]].
Qed.

(** ** Activating a process *)

(** The end of both branches. *)
Lemma resume_ok {A} tid (a : A) k :
  sched_ok k -> servers_ok (servers k) ->
  sat ((arch Process_current ;;; arch (Process_set_tid tid) ;;; ret a) k)
    (fun k' b => sched_ok k' /\ servers_ok (servers k') /\
                 pt_current (machine k') = pt_current (machine k) /\ b = a)
    (fun k' _ => sched_ok k' /\ servers_ok (servers k')).
Proof.
  intros Hk Hs. repeat kstep; split_and!; try done; by apply (sched_ok_eq k).
Qed.

(** What activation promises: the invariant, also after an error, except when
    the message could not be remembered. *)
Definition activate_post la (r : outcome Error (Kernel M) Z) (new_pid : Z) : Prop :=
  sat r
    (fun k' t => sched_ok k' /\ servers_ok (servers k') /\ pt_current (machine k') = new_pid /\
                 (is_remember la = false -> tid_ok t))
    (fun k' e => (sched_ok k' \/ is_remember la = true /\ e = ServerQueueFull) /\
                 servers_ok (servers k')).

Lemma activate_other_ok previous_tid new_pid new_tid can_resume la k :
  sched_ok k -> servers_ok (servers k) -> tid_ok previous_tid -> tid_ok new_tid ->
  new_pid <> pt_current (machine k) ->
  activate_post la (activate_process_thread previous_tid new_pid new_tid can_resume la k) new_pid.
Proof.
  intros Hk Hsv Hpt Hnt Hne. unfold activate_post, activate_process_thread. kstep. kstep.
  rewrite (proj2 (Z.eqb_neq _ _) Hne). cbn [negb]. kstep.
  eapply sat_mono; [by apply select_new_thread_ok | | by intros ? ? [? ->]; auto].
  intros k1 t (Hk1 & Hs1 & Hm1 & Ht & p & Hp & Hf & Hr). kstep. cbn in Hm1, Hs1.
  eapply sat_mono; [eapply enter_process_ok; try done; congruence | |].
  2: { intros k' e [? ->]. rewrite Hs1. auto. }
  intros k2 [] (Hk2 & Hs2 & Hc2 & Ho2). kstep.
  eapply sat_mono; [apply post_activate_ok; by rewrite Hs2, Hs1 | |].
  2: { intros k' e (_ & _ & ? & ? & ?). auto. }
  intros k3 si (Hp3 & Hc3 & Hs3 & Hsi). kstep.
  eapply sat_mono; [eapply (leave_process_ok _ _ _ (index_of new_pid)); [| done] | | done].
  { rewrite Hp3. eapply procs_ok_mono; [exact Hk2 |]. cbn. by rewrite Hm1. }
  intros k4 [] (Hk4 & Hm4 & Hs4).
  assert (Hc4 : pt_current (machine k4) = new_pid) by congruence.
  eapply sat_mono; [apply resume_ok | |].
  - unfold sched_ok. by rewrite Hc4.
  - by rewrite Hs4.
  - intros k' a (? & ? & Hc5 & ->). rewrite Hc5. split_and!; try done. intros Hla. by rewrite (Hsi Hla).
  - intros k' e []. auto.
Qed.

Lemma activate_same_ok previous_tid new_tid can_resume la k :
  sched_ok k -> servers_ok (servers k) -> tid_ok previous_tid -> tid_ok new_tid ->
  not_ready k previous_tid ->
  activate_post la
    (activate_process_thread previous_tid (pt_current (machine k)) new_tid can_resume la k)
    (pt_current (machine k)).
Proof.
  intros Hk Hsv Hpt Hnt Hnr. unfold activate_post, activate_process_thread. kstep. kstep.
  rewrite Z.eqb_refl. cbn [negb]. kstep.
  eapply sat_mono; [by apply post_activate_ok | |].
  2: { intros k' e (_ & _ & ? & ? & ?). auto. }
  intros k1 si (Hp1 & Hc1 & Hs1 & Hsi). kstep. cbn in Hp1, Hc1, Hs1. rewrite <- Hc1.
  eapply sat_mono; [apply switch_within_ok | |]; try done.
  - by apply (sched_ok_eq k).
  - intros p x. rewrite Hp1, Hc1. apply Hnr.
  - intros k2 sw (Hk2 & Hs2 & Hc2 & Hsw).
    assert (Hsv2 : servers_ok (servers k2)) by (by rewrite Hs2).
    destruct sw as [t |]; [| kstep; auto].
    eapply sat_mono; [by apply resume_ok | |].
    + intros k' a (? & ? & Hc5 & ->). rewrite Hc5. split_and!; try done. intros Hr. rewrite (Hsi Hr). auto.
    + intros k' e []. auto.
  - intros k2 e [? ->]. auto.
Qed.

Lemma activate_process_thread_ok previous_tid new_pid new_tid can_resume la k :
  sched_ok k -> servers_ok (servers k) -> tid_ok previous_tid -> tid_ok new_tid ->
  not_ready k previous_tid ->
  activate_post la (activate_process_thread previous_tid new_pid new_tid can_resume la k) new_pid.
Proof.
  intros. destruct (Z.eq_dec new_pid (pt_current (machine k))) as [-> |].
  - by apply activate_same_ok.
  - by apply activate_other_ok.
Qed.

(** ** Callbacks, exceptions and threads *)

(** When no process is running, the process that becomes the current one may
    be put into any well-formed state. *)
Lemma start_running l pid p p' k :
  procs_ok (fun _ => False) l -> l !! pid_index pid = Some p -> Process_free p = false ->
  1 <= pid -> process_ok p' -> proc_pid p' = proc_pid p ->
  processes k = <[pid_index pid := p']> l -> pt_current (machine k) = pid -> sched_ok k.
Proof.
  intros Hl Hp Hf Hpid Hok Hpp Hk Hc. unfold sched_ok. rewrite Hk, Hc.
  eapply procs_ok_put; try done. intros _. by apply index_of_pid.
Qed.

(** The state in which the current process is left when nothing runs. *)
Lemma stop_running p p' k :
  sched_ok k -> processes k !! pid_index (pt_current (machine k)) = Some p ->
  Process_free p = false -> process_ok p' -> proc_pid p' = proc_pid p -> is_running p' = false ->
  procs_ok (fun _ => False) (<[pid_index (pt_current (machine k)) := p']> (processes k)).
Proof.
  intros Hk Hp Hf Hok Hpp Hr. eapply procs_ok_put; [exact Hk | done | done | | done | done |].
  - by intros j ? ->%index_of_inv.
  - by rewrite Hr.
Qed.

Lemma idle_ok k : procs_ok (fun _ => False) (processes k) -> sched_ok k.
Proof. intros Hk. by eapply procs_ok_mono. Qed.

Lemma finish_callback_ok pid tid k :
  sched_ok k -> tid_ok tid ->
  sat (finish_callback_and_resume pid tid k) (fun k' _ => sched_ok k') (fun k' _ => sched_ok k').
Proof.
  intros Hk Ht. unfold finish_callback_and_resume. kstep. kstep. kstep. kstep. kstep; [| done].
  pose proof (procs_ok_get _ _ _ _ Hk H) as (Hcur & Hprev & Hst).
  kstep. destruct (pstate p) as [| | | x | x | | x | x] eqn:Hs; try exact I. kstep. kstep. kstep.
  cbn [machine set_machine processes] in *.
  assert (Hk1 : procs_ok (fun _ => False)
            (<[pid_index (pt_current (machine k)) := set_state (if x =? 0 then Sleeping else Ready x) p]>
               (processes k))).
  { apply (stop_running p); try done; [destruct (x =? 0) eqn:E; zbool; process_ok |].
    unfold is_running. cbn. by destruct (x =? 0). }
  set (l := <[_ := _]> (processes k)) in *. kstep. kstep; [| by apply idle_ok].
  pose proof (procs_ok_get _ _ _ _ Hk1 ltac:(done)) as (Hcur1 & Hprev1 & Hst1).
  kstep. destruct (pstate p0) as [| | | y | y | | y | y] eqn:Hs1; try exact I.
  kstep; [| done]. repeat kstep. cbn [processes set_processes set_machine machine] in *.
  pose proof (procs_ok_pid _ _ _ _ Hk1 ltac:(done) ltac:(done) ltac:(lia)) as Hpid.
  apply (start_running l pid p0 (set_current_thread tid (set_state (Running (clear_bit y tid)) p0)));
    [done | done | done | lia | process_ok | done | apply list_insert_insert_eq | cbn in *; congruence].
Qed.

(** The threads of a process that may be resumed. *)
Definition waiting_mask (p : Process) : Z :=
  match pstate p with Ready x | Running x | InException x => x | _ => 0 end.

(** No interrupt handler is running: the interrupted thread is not the one that
    handles interrupts, and that thread is in no set of ready threads.  The
    kernel calls a handler only with the interrupts disabled, so this holds
    whenever an interrupt arrives. *)
Definition no_irq_thread k : Prop :=
  forall i p, processes k !! i = Some p ->
    Z.testbit (waiting_mask p) IRQ_TID = false /\
    (is_running p = true -> current_thread p <> IRQ_TID).

Lemma interrupt_process_ok p x k :
  sched_ok k -> no_irq_thread k -> current_thread p <> IRQ_TID -> pstate p = Running x ->
  processes k !! pid_index (pt_current (machine k)) = Some p -> Process_free p = false ->
  let l := <[pid_index (pt_current (machine k)) :=
              set_state (Ready (set_bit x (current_thread p))) p]> (processes k) in
  procs_ok (fun _ => False) l /\
  (forall i q, l !! i = Some q -> Z.testbit (waiting_mask q) IRQ_TID = false).
Proof.
  intros Hk Hirq Hc Hs Hp Hf l.
  pose proof (procs_ok_get _ _ _ _ Hk Hp) as (Hcur & Hprev & Hst). rewrite Hs in Hst.
  split; [apply (stop_running p); try done; process_ok |].
  intros i q Hq. apply list_lookup_insert_Some in Hq as [(_ & <- & _) | [_ Hq]]; [| by eapply Hirq].
  unfold waiting_mask. cbn [pstate set_state]. apply set_bit_other; try done.
  destruct (Hirq _ _ Hp) as [Hm _]. unfold waiting_mask in Hm. by rewrite Hs in Hm.
Qed.

(** The threads that stay ready in a process whose handler is called. *)
Lemma available_threads_ok p k :
  process_ok p -> Z.testbit (waiting_mask p) IRQ_TID = false ->
  sat (match pstate p with
       | Ready x | Running x | InException x => ret x
       | Sleeping | BlockedException _ => ret 0
       | Free | Setup _ | Allocated => panic
       end k : outcome Error (Kernel M) Z)
    (fun k' a => k' = k /\ mask_ok a /\ Z.testbit a IRQ_TID = false) (fun _ _ => False).
Proof.
  intros (_ & _ & Hst) Hm. unfold waiting_mask in Hm.
  destruct (pstate p); try exact I; kstep; destruct_and?; auto using mask_ok_0.
Qed.

Lemma make_callback_ok pid pc irq_no arg k :
  sched_ok k -> no_irq_thread k ->
  sat (make_callback_to pid pc irq_no arg k) (fun k' _ => sched_ok k') (fun k' _ => sched_ok k').
Proof.
  intros Hk Hirq. unfold make_callback_to. kstep. kstep. kstep. kstep. kstep; [| done].
  cbn [machine set_machine processes] in *.
  destruct (Hirq _ _ H) as [_ Hthread]. unfold is_running in Hthread.
  destruct (pstate p) as [| | | x | x | | x | x] eqn:Hs;
    try (by repeat kstep; cbn [pstate set_current_thread]; rewrite Hs; repeat kstep).
  rewrite (proj2 (Z.eqb_neq (current_thread p) 0) (Hthread eq_refl)). repeat kstep. rewrite Hs. repeat kstep.
  all: cbn [machine set_machine processes set_processes] in *.
  all: destruct (interrupt_process_ok p x k) as [Hk1 Hirq1]; try done; auto.
  2: by apply idle_ok.
  set (l := <[_ := _]> (processes k)) in *.
  pose proof (procs_ok_get _ _ _ _ Hk1 ltac:(done)) as Hp0. pose proof Hp0 as (Hcur0 & Hprev0 & _).
  eapply sat_mono; [apply available_threads_ok; [done | by eapply Hirq1] | | done].
  intros k' x0 (-> & Hx0 & Hx0i). set (p' := set_current_thread _ _).
  assert (process_ok p' /\ proc_pid p' = proc_pid p0) as [Hp' Hpp]
    by (subst p'; destruct (negb _); (split; [process_ok | done])).
  pose proof (procs_ok_pid _ _ _ _ Hk1 ltac:(done) ltac:(done) ltac:(lia)) as Hpid.
  repeat kstep; apply (start_running l pid p0 p'); cbn in *; try done; lia || congruence.
Qed.

Lemma begin_exception_ok pid k :
  sched_ok k ->
  sat (begin_exception_handler pid k) (fun k' _ => sched_ok k') (fun k' _ => sched_ok k').
Proof.
  intros Hk. unfold begin_exception_handler. kstep. kstep. kstep; [| by kstep].
  destruct (exception_handler p); [| by kstep].
  pose proof (procs_ok_get _ _ _ _ Hk H) as (Hcur & Hprev & Hst).
  assert (Hfin : forall k2 p', processes k2 = <[pid_index pid := p']> (processes k) ->
            pt_current (machine k2) = pt_current (machine k) -> process_ok p' ->
            proc_pid p' = proc_pid p -> is_running p' = false -> sched_ok k2).
  { intros k2 p' Hp' Hc Hok Hpp Hr. unfold sched_ok. rewrite Hp', Hc.
    eapply procs_ok_put; try done. by rewrite Hr. }
  destruct (pstate p) as [| | | x | x | | x | x] eqn:Hs; repeat kstep; try done;
    (eapply Hfin; [done | cbn in *; congruence | process_ok | done | done]).
Qed.

Lemma finish_exception_ok k :
  sched_ok k ->
  sat (finish_exception_handler_and_resume (pt_current (machine k)) k)
    (fun k' _ => sched_ok k') (fun k' _ => sched_ok k').
Proof.
  intros Hk. unfold finish_exception_handler_and_resume. kstep. kstep; [| done].
  pose proof (procs_ok_get _ _ _ _ Hk H) as (Hcur & Hprev & Hst).
  destruct (pstate p) as [| | | x | x | | x | x] eqn:Hs; repeat kstep; try done.
  unfold sched_ok. cbn in *. rewrite H4.
  eapply procs_ok_put; [exact Hk | done | done | done | done | process_ok |].
  intros _. apply index_of_pid. lia.
Qed.

Lemma handle_irqs_ok pending l k :
  sched_ok k -> no_irq_thread k ->
  sat (handle_irqs pending l k) (fun k' _ => sched_ok k') (fun k' _ => sched_ok k').
Proof.
  revert k. induction l as [| n l IH]; intros k Hk Hirq; [done |].
  cbn [handle_irqs]. kstep; [| by apply IH]. unfold handle_irq. repeat kstep.
  destruct a as [[[pid f] arg] |]; repeat kstep; try done.
  - eapply sat_mono; [by apply make_callback_ok | | done]. intros k' [] Hk'. by repeat kstep.
  - by apply IH.
Qed.

(** ** Creating, ending and joining threads *)

(** The thread that runs in the current process exists. *)
Definition thread_alive k : Prop :=
  forall p impl th, processes k !! pid_index (pt_current (machine k)) = Some p ->
    impls (machine k) !! satp_asid (mapping p) = Some impl ->
    threads impl !! Z.to_nat (current_thread p) = Some th -> sepc th <> 0.

(** A free thread is not reserved, is in range and has no program counter. *)
Definition free_thread (m : Machine M) (t : Z) : Prop :=
  2 <= t < Z.of_nat MAX_THREAD /\
  exists p th, impls m !! hardware_pid m = Some p /\
               threads p !! Z.to_nat t = Some th /\ sepc th = 0.

Lemma find_free_thread_ok (m : Machine M) :
  impls_ok m ->
  sat (Process_find_free_thread m)
    (fun m' r => frame m m' /\ forall t, r = Some t -> free_thread m t) (fun _ _ => False).
Proof.
  intros Hm.
  assert (Hq : sat (Process_find_free_thread m)
                 (fun _ r => forall t, r = Some t -> free_thread m t) (fun _ _ => True)).
  { unfold Process_find_free_thread, get_impl. repeat sat_step.
    destruct (Hm _ _ H) as [Hlen _]. apply Nat.leb_le in H0.
    destruct (List.find _ _) as [n |] eqn:Hf; unfold put_impl; repeat sat_step; [| done].
    intros t [= <-]. apply find_free_inv in Hf as [Hf Hn]; [| done]. zbool.
    unfold IRQ_TID, EXCEPTION_TID in *. split; [lia |].
    destruct (threads a !! n) as [th |] eqn:Hth; [| done]. zbool.
    exists a, th. rewrite Nat2Z.id. auto. }
  eapply sat_mono; [exact (sat_and _ _ _ _ _ (keeps_find_free_thread false m) Hq) | done |].
  by intros ? ? [[] _].
Qed.

Lemma create_thread_ok init k :
  sched_ok k -> impls_ok (machine k) -> thread_alive k ->
  sat (create_thread (pt_current (machine k)) init k)
    (fun k' t => sched_ok k' /\ pt_current (machine k') = pt_current (machine k) /\ tid_ok t)
    (fun k' _ => sched_ok k').
Proof.
  intros Hk Himp Hal. unfold create_thread. kstep. kstep; [| done].
  pose proof (procs_ok_get _ _ _ _ Hk H) as (Hcur & Hprev & Hst).
  pose proof (procs_ok_pid _ _ _ _ Hk H H2 ltac:(lia)) as Hpid.
  kstep. apply sat_activate. intros m Hc Hsatp Him. kstep. kstep. kstep. apply sat_zoom.
  cbn [machine set_machine].
  eapply sat_mono; [apply find_free_thread_ok; unfold impls_ok; by rewrite Him | | done].
  intros m' free [[Hc' _] Hfree].
  assert (Herr : forall k2, processes k2 = processes k ->
            pt_current (machine k2) = pt_current (machine k) -> sched_ok k2)
    by (intros; by apply (sched_ok_eq k)).
  kstep. kstep; [| apply Herr; cbn; congruence].
  destruct (Hfree a H3) as (Hr & impl & th & Hi & Hth & Hsepc).
  assert (Hta : tid_ok a) by (unfold tid_ok, MAX_THREAD in *; lia).
  assert (Hne : a <> current_thread p).
  { intros ->. eapply Hal; [exact H | | exact Hth | exact Hsepc].
    rewrite <- Him, <- Hsatp. exact Hi. }
  repeat kstep; try (apply Herr; cbn in *; congruence).
  destruct (pstate p) as [| | | x | x | | x | x] eqn:Hs; repeat kstep; try done.
  all: split; [| split; [cbn in *; congruence | done]].
  all: unfold sched_ok; cbn in *; replace (pt_current _) with (pt_current (machine k)) by congruence.
  all: eapply procs_ok_put; [exact Hk | done | done | done | done | process_ok | try done].
  intros _. apply index_of_pid. lia.
Qed.

Lemma find_thread_ok (f : Z -> Thread -> bool) (m : Machine M) :
  impls_ok m ->
  sat (Process_find_thread f m)
    (fun m' r => m' = m /\ forall t th, r = Some (t, th) -> tid_ok t) (fun _ _ => False).
Proof.
  intros Hm. unfold Process_find_thread, get_impl. repeat sat_step. split; [done |].
  intros t th Hf. apply find_some in Hf as [Hin _]. destruct (Hm _ _ H) as [Hlen _].
  apply list_elem_of_In, elem_of_zip_l, list_elem_of_fmap in Hin as (n & -> & Hn).
  apply elem_of_seq in Hn. unfold tid_ok, MAX_THREAD in *. lia.
Qed.

(** The end of [destroy_thread]: the process gives up the processor. *)
Lemma give_up_ok w k :
  sched_ok k -> mask_ok w ->
  let pid := pt_current (machine k) in
  sat ((process <- get_process pid;;
        let new_pid := if w =? 0 then ppid process else pid in
        put_process pid (set_state (if w =? 0 then Sleeping else Ready w) process) ;;;
        switch_to_thread new_pid None ;;;
        ret (negb (new_pid =? pid))) k)
    (fun k' _ => sched_ok k') (fun k' _ => sched_ok k').
Proof.
  intros Hk Hw pid. kstep. kstep; [| done]. kstep. kstep. kstep.
  pose proof (procs_ok_get _ _ _ _ Hk H) as (Hcur & Hprev & Hst).
  kstep. eapply sat_mono; [apply switch_to_thread_ok; [| done] | by intros; kstep | done].
  eapply procs_ok_mono; [apply (stop_running p); try done |].
  - destruct (w =? 0) eqn:E; zbool; process_ok.
  - unfold is_running. cbn. by destruct (w =? 0).
  - done.
Qed.

Lemma destroy_thread_ok pid tid k :
  sched_ok k -> impls_ok (machine k) ->
  sat (destroy_thread pid tid k) (fun k' _ => sched_ok k') (fun k' _ => sched_ok k').
Proof.
  intros Hk Himp. unfold destroy_thread. kstep. kstep. kstep. kstep. zbool. subst pid.
  kstep. kstep; [| done]. pose proof (procs_ok_get _ _ _ _ Hk H) as (Hcur & Hprev & Hst).
  kstep. destruct (pstate p) as [| | | x | x | | x | x] eqn:Hs; try exact I. destruct Hst as [Hx _].
  kstep. kstep. kstep. kstep. cbn [processes machine set_machine] in *.
  eapply (sat_mono _ (fun k' _ => processes k' = processes k /\
            pt_current (machine k') = pt_current (machine k) /\ impls_ok (machine k'))
            _ (fun _ _ => False)); [by kstep; kstep; auto | | done].
  intros k1 v (Hp1 & Hc1 & Hi1). rewrite <- Hc1. kstep. apply sat_zoom.
  eapply sat_mono; [by apply find_thread_ok | | done].
  intros m' w [-> Hw]. kstep.
  eapply (sat_mono _ (fun k' w => processes k' = processes k /\
            pt_current (machine k') = pt_current (machine k) /\ mask_ok w)
            _ (fun k' _ => sched_ok k')); [| | done].
  - destruct w as [[t th] |]; [| by kstep]. kstep.
    eapply sat_mono; [apply set_thread_result_ok; by apply (sched_ok_eq k) | |]; cbn.
    + intros k2 _ [Hp2 Hc2]. split_and!; [congruence | congruence |]. eauto with xous.
    + intros k2 _ [Hp2 Hc2]. apply (sched_ok_eq k); congruence || done.
  - intros k2 w2 (Hp2 & Hc2 & Hw2). rewrite Hc1, <- Hc2. apply give_up_ok; [| done].
    by apply (sched_ok_eq k).
Qed.

Lemma join_thread_ok pid tid join_tid k :
  sched_ok k -> servers_ok (servers k) -> tid_ok tid -> not_ready k tid ->
  sat (join_thread pid tid join_tid k) (fun k' _ => sched_ok k') (fun k' _ => sched_ok k').
Proof.
  intros Hk Hsv Ht Hnr. unfold join_thread. kstep. kstep. kstep. kstep. zbool. subst pid.
  kstep; [done |]. kstep. kstep. kstep. kstep. kstep; [| kstep; by apply (sched_ok_eq k)]. kstep. kstep.
  cbn [processes set_machine machine] in *. kstep; [| done]. kstep. kstep.
  eapply sat_mono; [apply activate_process_thread_ok | |]; try done.
  - by apply (sched_ok_eq k).
  - intros q x. cbn in *. rewrite H. apply Hnr.
  - intros k' _ (? & _). by kstep.
  - by intros k' e [[? | [? _]] _].
Qed.

(** ** All operations *)

Inductive sched_op : Type :=
| Op_ready_thread (pid tid : Z)
| Op_set_last_thread (pid tid : Z)
| Op_unschedule_thread (pid tid : Z)
| Op_switch_to_thread (pid : Z) (tid : option Z)
| Op_set_thread_result (pid tid : Z) (result : Result)
| Op_activate (previous_tid new_pid new_tid : Z) (can_resume : bool) (lazy_arg : PostActivateOp)
| Op_make_callback (pid pc irq_no arg : Z)
| Op_finish_callback (pid tid : Z)
| Op_irq (irqs_pending : Z)
| Op_begin_exception (pid : Z)
| Op_finish_exception
| Op_create_thread (init : ThreadInit)
| Op_destroy_thread (pid tid : Z)
| Op_join_thread (pid tid join_tid : Z).

Definition discard {A} (f : Kernel M -> outcome Error (Kernel M) A)
    : Kernel M -> outcome Error (Kernel M) unit := f ;;; ret tt.

Definition run_sched (op : sched_op) : Kernel M -> outcome Error (Kernel M) unit :=
  match op with
  | Op_ready_thread pid tid => ready_thread pid tid
  | Op_set_last_thread pid tid => set_last_thread pid tid
  | Op_unschedule_thread pid tid => unschedule_thread pid tid
  | Op_switch_to_thread pid tid => switch_to_thread pid tid
  | Op_set_thread_result pid tid r => set_thread_result pid tid r
  | Op_activate pt np nt cr la => discard (activate_process_thread pt np nt cr la)
  | Op_make_callback pid pc n a => make_callback_to pid pc n a
  | Op_finish_callback pid tid => finish_callback_and_resume pid tid
  | Op_irq pending => discard (irq_handle pending)
  | Op_begin_exception pid => discard (begin_exception_handler pid)
  | Op_finish_exception =>
      fun k => finish_exception_handler_and_resume (pt_current (machine k)) k
  | Op_create_thread init => fun k => discard (create_thread (pt_current (machine k)) init) k
  | Op_destroy_thread pid tid => discard (destroy_thread pid tid)
  | Op_join_thread pid tid j => discard (join_thread pid tid j)
  end.

(** When the system calls use each operation: thread numbers are in range, a
    thread that is woken is not the one that runs, the processor is switched
    only from the thread that runs, and a process is switched to directly only
    when no other process is running. *)
Definition sched_pre k (op : sched_op) : Prop :=
  match op with
  | Op_ready_thread pid tid =>
      tid_ok tid /\ forall p, processes k !! pid_index pid = Some p ->
                              is_running p = true -> tid <> current_thread p
  | Op_set_last_thread _ tid | Op_finish_callback _ tid => tid_ok tid
  | Op_switch_to_thread pid tid =>
      (forall t, tid = Some t -> tid_ok t) /\
      forall i p, processes k !! i = Some p -> is_running p = true -> index_of pid i
  | Op_activate pt _ nt _ _ => tid_ok pt /\ tid_ok nt /\ not_ready k pt
  | Op_make_callback _ _ _ _ | Op_irq _ => no_irq_thread k
  | Op_create_thread _ => thread_alive k
  | Op_join_thread _ tid _ => tid_ok tid /\ not_ready k tid
  | _ => True
  end.

Definition remembers (op : sched_op) : bool :=
  match op with Op_activate _ _ _ _ la => is_remember la | _ => false end.

Lemma sat_discard {A} (f : Kernel M -> outcome Error (Kernel M) A) k (Q : Kernel M -> Prop) X :
  sat (f k) (fun k' _ => Q k') X -> sat (discard f k) (fun k' _ => Q k') X.
Proof. intros Hf. unfold discard. kstep. by eapply sat_mono; [exact Hf | |]. Qed.
End Preservation.

(** ** Deciding the invariant *)

Definition mask_okb (x : Z) : bool := (0 <=? x) && (x <? 4294967296).
Definition tid_okb (t : Z) : bool := (0 <=? t) && (t <? 32).

Definition process_okb (p : Process) : bool :=
  tid_okb (current_thread p) && tid_okb (previous_thread p) &&
  match pstate p with
  | Ready x => mask_okb x && negb (x =? 0)
  | Running x => mask_okb x && negb (Z.testbit x (current_thread p))
  | InException x | BlockedException x => mask_okb x
  | _ => true
  end.

(** The processes from index [i] on. *)
Fixpoint procs_okb (current : Z) (i : nat) (l : list Process) : bool :=
  match l with
  | [] => true
  | p :: l =>
      process_okb p && (Process_free p || (proc_pid p =? Z.of_nat i + 1))
      && (negb (is_running p) || (Z.of_nat i + 1 =? current)) && procs_okb current (S i) l
  end.

Lemma process_okb_spec p : process_okb p = true -> process_ok p.
Proof.
  unfold process_okb, process_ok, tid_okb, mask_okb, tid_ok, mask_ok. intros H. zbool.
  split_and!; try lia. destruct (pstate p); zbool; split_and?; try done; lia.
Qed.

Lemma procs_okb_spec current i l :
  procs_okb current i l = true ->
  forall j p, l !! j = Some p ->
    process_ok p /\ (Process_free p = false -> proc_pid p = Z.of_nat (i + j) + 1) /\
    (is_running p = true -> index_of current (i + j)).
Proof.
  revert i. induction l as [| q l IH]; intros i H j p Hj; [done |]. cbn in H.
  apply andb_prop in H as [H Hl]. apply andb_prop in H as [H Hr]. apply andb_prop in H as [Hq Hp].
  destruct j as [| j].
  - cbn in Hj. injection Hj as <-. rewrite Nat.add_0_r. split_and!; [by apply process_okb_spec | |].
    + intros Hf. rewrite Hf in Hp. by apply Z.eqb_eq.
    + intros Hf. rewrite Hf in Hr. by apply Z.eqb_eq.
  - cbn in Hj. rewrite <- Nat.add_succ_comm. by apply IH.
Qed.

Lemma sched_okb_spec {M} (k : Kernel M) :
  procs_okb (pt_current (machine k)) 0 (processes k) = true -> sched_ok k.
Proof.
  intros H. split; intros i p Hp; destruct (procs_okb_spec _ _ _ H i p Hp) as (? & ? & ?); auto.
Qed.

Lemma example_servers_ok : servers_ok (servers example_kernel).
Proof.
  intros [| i] s Hs; cbn in Hs; [injection Hs as <-; split; [reflexivity | apply Nat.lt_0_succ] |].
  apply (lookup_replicate_1 127) in Hs as [? _]. done.
Qed.

Lemma example_impls_ok : impls_ok (machine example_kernel).
Proof.
  assert (Hok : forall pid, impl_ok (example_impl pid)) by (intros pid; split; [reflexivity | by split]).
  unfold impls_ok. cbn [machine example_kernel example_machine impls].
  repeat (apply map_Forall_insert_2; [apply Hok |]). apply map_Forall_empty.
Qed.

Section Invariant.
Context {M : Type} {HM : MemOps M} {HL : MemLaws M}.

(** C2.  Operations of the scheduler that are called as [sched_pre] says keep its
    invariant: in every process the set of ready threads is well formed and does not
    contain the thread that runs, a process that is ready has a ready thread, and only
    the current process is running.  The queues of the servers and the pages of the
    threads are assumed to be well formed.  [sched_pre] asks for thread numbers below 32, that
    a thread that is woken is not the running one, that [switch_to_thread] is called
    when no other process is running, that a switch or a join is made by a thread that
    is not in the set of ready ones, that a callback is made when no process has the
    interrupt thread ready, and that the thread that creates one has a context.  The
    invariant holds whether the operation succeeds or returns an error (unless it
    panics, which stops the machine), with one exception: when
    [activate_process_thread] cannot remember the message because the server's queue
    is full. *)
Theorem scheduler_invariant (op : sched_op) (k : Kernel M) :
  sched_ok k -> servers_ok (servers k) -> impls_ok (machine k) -> sched_pre k op ->
  sat (run_sched op k)
    (fun k' _ => sched_ok k')
    (fun k' e => sched_ok k' \/ remembers op = true /\ e = ServerQueueFull).
Proof.
  intros Hk Hsv Hi Hpre.
  assert (Hweak : forall r : outcome Error (Kernel M) unit,
    sat r (fun k' _ => sched_ok k') (fun k' _ => sched_ok k') ->
    sat r (fun k' _ => sched_ok k')
      (fun k' e => sched_ok k' \/ remembers op = true /\ e = ServerQueueFull))
    by (intros r Hr; eapply sat_mono; [exact Hr | done | auto]).
  destruct op; cbn [sched_pre run_sched remembers] in *; destruct_and?;
    lazymatch goal with
    | |- sat (discard (activate_process_thread _ _ _ _ _) _) _ _ => idtac
    | _ => apply Hweak; try apply sat_discard
    end.
  - by apply ready_thread_ok.
  - by apply set_last_thread_ok.
  - eapply sat_mono; [by apply unschedule_thread_ok | by intros ? ? [] | done].
  - apply switch_to_thread_ok; [| done]. split; [apply Hk |].
    intros i p Hp Hr. split; [eauto | by eapply procs_running].
  - eapply sat_mono; [by apply set_thread_result_ok | |]; intros k' ? []; by apply (sched_ok_eq k).
  - apply sat_discard. eapply sat_mono; [by apply activate_process_thread_ok | |].
    + by intros ? ? [].
    + by intros ? ? [? _].
  - by apply make_callback_ok.
  - by apply finish_callback_ok.
  - unfold irq_handle. do 2 kstep. by apply handle_irqs_ok.
  - by apply begin_exception_ok.
  - by apply finish_exception_ok.
  - eapply sat_mono; [by apply create_thread_ok | by intros k' t [? _] | done].
  - by apply destroy_thread_ok.
  - by apply join_thread_ok.
Qed.
End Invariant.

(** Process 1 is preempted in favour of the ready thread of process 2. *)
Lemma scheduler_invariant_witness :
  sched_ok example_kernel /\
  sat (run_sched (Op_activate 2 2 2 true Post_None) example_kernel)
    (fun k' _ => sched_ok k')
    (fun k' e => sched_ok k' \/ remembers (Op_activate 2 2 2 true Post_None) = true /\
                                e = ServerQueueFull).
Proof.
  assert (Hk : sched_ok example_kernel) by (apply sched_okb_spec; vm_compute; reflexivity).
  split; [exact Hk |]. apply (scheduler_invariant (Op_activate 2 2 2 true Post_None) example_kernel).
  - exact Hk.
  - apply example_servers_ok.
  - apply example_impls_ok.
  - split; [by split | split; [by split |]]. intros p x Hp Hs.
    vm_compute in Hp. injection Hp as <-. injection Hs as <-. reflexivity.
Defined.
