(* ===== verification/ContextSwitch.v ===== *)
(** * What a context switch does

    The thread that round-robin scheduling picks, the exact effect of switching
    to a ready process, of storing a result into a thread of another process and
    of allocating a thread, and the switch, to deliver a message to a full queue, that
    leaves two processes running. *)

From Stdlib Require Import ZArith Lia Bool.
From stdpp Require Import base numbers list option gmap.
From S2P Require Import Prelude.
From S2P Require Import Abi.
From S2P Require Import Server.
From S2P Require Import ServerSpec.
From S2P Require Import Irq.
From S2P Require Import Machine.
From S2P Require Import Paging.
From S2P Require Import MemoryManager.
From S2P Require Import MemoryFacts.
From S2P Require Import Memory.
From S2P Require Import ArchProcess.
From S2P Require Import Scheduler.
From S2P Require Import SchedulerFacts.
From S2P Require Import SchedulerInv.

#[local] Open Scope Z_scope.
#[local] Open Scope kernel_scope.

(** ** Fairness of the choice of a thread *)

(** The thread that runs after [n] switches, when the set of threads that can
    run stays [mask]. *)
Fixpoint nth_thread (n : nat) (mask current : Z) : option Z :=
  match n with
  | O => Some current
  | S n => find_next_thread mask current ≫= nth_thread n mask
  end.

(** How far [t] is behind [current] in round-robin order. *)
Definition round_dist (current t : Z) : Z := (t - current - 1) mod 32.

Lemma round_robin_closer mask current t u :
  tid_ok current -> tid_ok t -> Z.testbit mask t = true -> round_robin mask current u -> u <> t ->
  round_dist u t < round_dist current t.
Proof.
  unfold tid_ok, round_dist. intros Hc Ht Hb (Hu & _ & Hcase) Hne.
  assert (Hpos : 0 <= t - u - 1 + (if u <? t then 0 else 32) < 32) by (case_if; zbool; lia).
  assert (Hpos' : 0 <= t - current - 1 + (if current <? t then 0 else 32) < 32)
    by (case_if; zbool; lia).
  assert (Hm : forall x, x mod 32 = (x + (if u <? t then 0 else 32)) mod 32)
    by (intros x; case_if; [by rewrite Z.add_0_r | by rewrite <- (Z_mod_plus_full x 1 32)]).
  assert (Hm' : forall x, x mod 32 = (x + (if current <? t then 0 else 32)) mod 32)
    by (intros x; case_if; [by rewrite Z.add_0_r | by rewrite <- (Z_mod_plus_full x 1 32)]).
  rewrite (Hm (t - u - 1)), (Hm' (t - current - 1)), !Z.mod_small by done.
  destruct Hcase as [[Hlt Hbetween] | [Habove Hbelow]].
  - destruct (Z.ltb_spec u t), (Z.ltb_spec current t); try lia.
    by rewrite Hbetween in Hb by lia.
  - destruct (Z.ltb_spec u t), (Z.ltb_spec current t); try lia;
      try (by rewrite Habove in Hb by lia); by rewrite Hbelow in Hb by lia.
Qed.

Lemma nth_thread_reaches mask t (n : nat) :
  mask_ok mask -> tid_ok t -> Z.testbit mask t = true ->
  forall current, tid_ok current -> round_dist current t < Z.of_nat n ->
  exists m, (1 <= m <= n)%nat /\ nth_thread m mask current = Some t.
Proof.
  intros Hm Ht Hb. assert (Hpos : 0 < mask < 4294967296).
  { destruct Hm. destruct (Z.eq_dec mask 0) as [-> |]; [by rewrite Z.bits_0 in Hb | lia]. }
  induction n as [| n IH]; intros current Hc Hd.
  { pose proof (Z.mod_pos_bound (t - current - 1) 32 ltac:(lia)). unfold round_dist in Hd. lia. }
  destruct (find_next_thread_round_robin mask current Hpos Hc) as (u & Hu & Hrr).
  destruct (Z.eq_dec u t) as [-> | Hne].
  - exists 1%nat. split; [lia |]. cbn. by rewrite Hu.
  - destruct (IH u) as (m & Hm' & Hn); [by destruct Hrr | |].
    { pose proof (round_robin_closer mask current t u Hc Ht Hb Hrr Hne). lia. }
    exists (S m). split; [lia |]. cbn. by rewrite Hu.
Qed.

(** C24.  The scheduler's choice of the next thread, which it makes with a de
    Bruijn table, is round robin: it is the first ready thread after the
    current one or, if there is none, the first ready thread.  It is therefore
    fair: while the set of ready threads stays the same, every one of them gets
    its turn within 32 switches. *)
Theorem find_next_thread_fair (mask current : Z) :
  0 < mask < 4294967296 -> 0 <= current < 32 ->
  (exists u, find_next_thread mask current = Some u /\ round_robin mask current u) /\
  forall t, 0 <= t < 32 -> Z.testbit mask t = true ->
            exists n, (1 <= n <= 32)%nat /\ nth_thread n mask current = Some t.
Proof.
  intros Hm Hc. split; [by apply find_next_thread_round_robin |]. intros t Ht Hb.
  apply nth_thread_reaches; try done; [unfold mask_ok; lia |].
  apply Z.mod_pos_bound. lia.
Qed.

Lemma find_next_thread_fair_witness :
  find_next_thread 84 4 = Some 6 /\ exists n, (1 <= n <= 32)%nat /\ nth_thread n 84 4 = Some 2.
Proof.
  split; [vm_compute; reflexivity |].
  apply (find_next_thread_fair 84 4); vm_compute; done || split; done.
Defined.

(** ** Runs that succeed *)

Section Runs.
Context {M : Type} {HM : MemOps M}.

Implicit Type k : Kernel M.

(** The process [pid] is [p]; its address space and its page are set up. *)
Record process_at k (pid : Z) (p : Process) : Prop := {
  at_lookup : processes k !! pid_index pid = Some p;
  at_live : Process_free p = false;
  at_pid : proc_pid p = pid;
  at_range : 1 <= pid <= 255;
  at_asid : satp_asid (mapping p) = pid;
  at_table : pt_table (machine k) !! Z.to_nat (pid - 1) = Some true
}.

Lemma get_process_at k pid p : process_at k pid p -> get_process pid k = ROk k p.
Proof.
  intros [Hl Hf Hp Hr Ha _]. unfold get_process, bind, gets, unwrap. rewrite Hl.
  unfold MemoryMapping_get_pid, PID_new. rewrite Ha, u8_id, NonZero_new_Some by lia.
  rewrite decide_True by done. by rewrite Hf.
Qed.

Lemma activate_run k p :
  satp_asid (mapping p) = proc_pid p ->
  pt_table (machine k) !! Z.to_nat (proc_pid p - 1) = Some true ->
  Process_activate p k
  = ROk (set_machine (set_satp (mapping p) (set_pt_current (proc_pid p) (machine k))) k) tt.
Proof.
  intros Ha Ht. unfold Process_activate, arch, bind, zoom, set_current_pid.
  rewrite Ht. cbn. unfold Process_current, hardware_pid. cbn. by rewrite Ha, Z.eqb_refl.
Qed.

(** The other processes do not matter. *)
Lemma process_at_put k pid p i q :
  process_at k pid p -> i <> pid_index pid ->
  process_at (set_processes (<[i := q]> (processes k)) k) pid p.
Proof. intros [? ? ? ? ? ?] Hi. split; try done. cbn. by rewrite list_lookup_insert_ne. Qed.

Lemma process_at_machine k pid p m :
  process_at k pid p -> pt_table m = pt_table (machine k) -> process_at (set_machine m k) pid p.
Proof. intros [? ? ? ? ? ?] Hm. split; try done. cbn. by rewrite Hm. Qed.

Lemma process_at_set k pid p p' :
  process_at k pid p -> mapping p' = mapping p -> proc_pid p' = proc_pid p ->
  Process_free p' = false ->
  process_at (set_processes (<[pid_index pid := p']> (processes k)) k) pid p'.
Proof.
  intros [Hl ? ? ? ? ?] Hm Hp Hf. split; try done; cbn; try congruence.
  apply list_lookup_insert_eq. by eapply lookup_lt_Some.
Qed.

Lemma set_tid_run (m : Machine M) tid p :
  impls m !! hardware_pid m = Some p -> 0 <= tid <= Z.of_nat (length (threads p)) -> tid <> 255 ->
  Process_set_tid tid m
  = ROk (set_impls (<[hardware_pid m := set_hardware_thread (tid + 1) p]> (impls m)) m) tt.
Proof.
  intros Hp Hr Hs. unfold Process_set_tid, bind, get_impl, unwrap. rewrite Hp.
  unfold fixup_irq, IRQ_TID_SENTINAL. rewrite (proj2 (Z.eqb_neq tid 255)) by lia.
  cbn. rewrite (proj2 (Z.leb_le _ _)) by lia. done.
Qed.

Lemma select_run k pid tid n y :
  process_at k pid n -> pstate n = Ready y -> y <> 0 -> has_bit y tid = true -> tid <> 0 ->
  select_new_thread pid tid k
  = ROk (set_processes (<[pid_index pid := set_current_thread tid n]> (processes k)) k) tid.
Proof.
  intros Hn Hs Hy Hb Ht. unfold select_new_thread, bind. rewrite (get_process_at _ _ _ Hn), Hs.
  rewrite (proj2 (Z.eqb_neq y 0)), (proj2 (Z.eqb_neq tid 0)) by done. cbn. by rewrite Hb.
Qed.

Lemma enter_run k pid tid n y :
  process_at k pid n -> pstate n = Ready y ->
  enter_process pid tid k
  = ROk (mk_Kernel (set_satp (mapping n) (set_pt_current pid (machine k)))
           (<[pid_index pid := set_state (Running (clear_bit y tid)) n]> (processes k))
           (servers k) (irqs k)) tt.
Proof.
  intros Hn Hs. unfold enter_process, bind. rewrite (get_process_at _ _ _ Hn).
  unfold arch, zoom, MemoryMapping_activate, modify.
  rewrite (get_process_at (set_machine _ k) pid n) by (by apply process_at_machine). rewrite Hs. cbn.
  destruct Hn as [Hl Hf Hp Hr Ha Ht]. rewrite activate_run; cbn; rewrite ?Hp; done.
Qed.

Lemma leave_run k pid tid can_resume p x :
  process_at k pid p -> pstate p = Running x ->
  leave_process pid tid can_resume k
  = ROk (set_processes
           (<[pid_index pid :=
                set_state (if can_resume then Ready (if x =? 0 then bit tid else set_bit x tid)
                           else if x =? 0 then Sleeping else Ready x)
                  (set_current_thread tid p)]> (processes k)) k) tt.
Proof.
  intros Hp Hs. unfold leave_process, bind, unwrap_result. rewrite (get_process_at _ _ _ Hp), Hs.
  by destruct (x =? 0), can_resume.
Qed.

Lemma resume_run {A} k tid (v : A) p :
  pt_current (machine k) = hardware_pid (machine k) ->
  impls (machine k) !! hardware_pid (machine k) = Some p ->
  0 <= tid <= Z.of_nat (length (threads p)) -> tid <> 255 ->
  (arch Process_current ;;; arch (Process_set_tid tid) ;;; ret v) k
  = ROk (set_machine
           (set_impls (<[pt_current (machine k) := set_hardware_thread (tid + 1) p]>
                         (impls (machine k))) (machine k)) k) v.
Proof.
  intros Hc Hp Hr Hs. unfold bind, arch, zoom, Process_current. rewrite Hc, Z.eqb_refl.
  cbn [machine set_machine]. by rewrite (set_tid_run _ tid p).
Qed.

(** Switching from a running process [p], whose ready threads are [x], to the thread
    [new_tid] of another process [n], whose ready threads are [y]. *)
Record can_switch k (new_pid new_tid : Z) (p : Process) (x : Z) (n : Process) (y : Z) : Prop := {
  cs_previous : process_at k (pt_current (machine k)) p;
  cs_running : pstate p = Running x;
  cs_new : process_at k new_pid n;
  cs_ready : pstate n = Ready y;
  cs_thread : y <> 0 /\ has_bit y new_tid = true /\ 0 < new_tid < 32;
  cs_other : new_pid <> pt_current (machine k)
}.

(** The new process runs, in its address space, and the previous one as well. *)
Definition entered k (new_pid new_tid : Z) (n : Process) (y : Z) : Kernel M :=
  mk_Kernel (set_satp (mapping n) (set_pt_current new_pid (machine k)))
    (<[pid_index new_pid := set_state (Running (clear_bit y new_tid)) (set_current_thread new_tid n)]> (processes k))
    (servers k) (irqs k).

(** The part of the switch before [lazy_arg] is looked at. *)
Lemma switch_enters k previous_tid new_pid new_tid can_resume lazy_arg p x n y :
  can_switch k new_pid new_tid p x n y ->
  activate_process_thread previous_tid new_pid new_tid can_resume lazy_arg k
  = (sender_idx <- post_activate lazy_arg new_tid;;
     leave_process (pt_current (machine k)) previous_tid can_resume ;;;
     arch Process_current ;;;
     arch (Process_set_tid new_tid) ;;;
     ret (default new_tid sender_idx)) (entered k new_pid new_tid n y).
Proof.
  intros [Hp Hs Hn Hsn (Hy & Hb & Ht) Hne]. unfold activate_process_thread, bind at 1.
  change (arch current_pid k) with (ROk (E := Error) (set_machine (machine k) k) (pt_current (machine k))).
  replace (set_machine (machine k) k) with k by (by destruct k). cbv iota beta.
  rewrite (proj2 (Z.eqb_neq _ _) Hne). cbn [negb].
  rewrite (bind_ROk _ _ _ _ _ (select_run k new_pid new_tid n y Hn Hsn Hy Hb ltac:(lia))).
  assert (Hn1 : process_at (set_processes (<[pid_index new_pid := set_current_thread new_tid n]> (processes k)) k) new_pid
                  (set_current_thread new_tid n)) by (apply (process_at_set _ _ n); try done; apply Hn).
  rewrite (bind_ROk _ _ _ _ _ (enter_run _ new_pid new_tid _ y Hn1 Hsn)). unfold entered. cbn [machine processes servers irqs set_processes].
  by rewrite list_insert_insert_eq.
Qed.

(** The previous process is still there. *)
Lemma entered_previous k k2 new_pid new_tid p x n y :
  can_switch k new_pid new_tid p x n y ->
  processes k2 = processes (entered k new_pid new_tid n y) -> machine k2 = machine (entered k new_pid new_tid n y) ->
  process_at k2 (pt_current (machine k)) p.
Proof.
  intros [Hp _ Hn _ _ Hne] E1 E2. pose proof (at_range _ _ _ Hp). pose proof (at_range _ _ _ Hn).
  destruct Hp. split; try done; rewrite ?E1, ?E2; cbn; [| done]. rewrite list_lookup_insert_ne; [done |]. unfold pid_index. lia.
Qed.

(** C16.  Switching to a ready thread of another process, without a result to store or
    a message to remember.  The thread of the process that is left becomes ready if
    it can resume; otherwise only the process's other ready threads stay so, and
    without one the process sleeps.  The new process runs, its thread is taken from
    its ready threads, and the processor uses its address space and its thread
    context.  Nothing else of the kernel or the machine changes: not the servers, the
    interrupts, the memory, the table of pages in use or the mode bit. *)
Theorem context_switch k previous_tid new_pid new_tid can_resume p x n y impl :
  can_switch k new_pid new_tid p x n y ->
  impls (machine k) !! new_pid = Some impl -> new_tid <= Z.of_nat (length (threads impl)) ->
  activate_process_thread previous_tid new_pid new_tid can_resume Post_None k
  = ROk (mk_Kernel
           (mk_Machine (mapping n) new_pid (pt_table (machine k))
              (<[new_pid := set_hardware_thread (new_tid + 1) impl]> (impls (machine k)))
              (supervisor (machine k)) (memory (machine k)))
           (<[pid_index (pt_current (machine k)) :=
                set_state (if can_resume then Ready (if x =? 0 then bit previous_tid
                                                     else set_bit x previous_tid)
                           else if x =? 0 then Sleeping else Ready x)
                  (set_current_thread previous_tid p)]>
              (<[pid_index new_pid :=
                   set_state (Running (clear_bit y new_tid)) (set_current_thread new_tid n)]>
                 (processes k)))
           (servers k) (irqs k)) new_tid.
Proof.
  intros Hcs Hi Hlen. rewrite (switch_enters _ _ _ _ _ _ _ _ _ _ Hcs).
  pose proof (entered_previous k _ _ _ _ _ _ _ Hcs eq_refl eq_refl) as Hp.
  rewrite (bind_ROk _ _ _ (entered k new_pid new_tid n y) None eq_refl).
  rewrite (bind_ROk _ _ _ _ _ (leave_run _ _ previous_tid can_resume p x Hp (cs_running _ _ _ _ _ _ _ Hcs))).
  destruct Hcs as [_ _ Hn _ (_ & _ & Ht) _]. assert (Hasid : satp_asid (mapping n) = new_pid) by apply Hn.
  rewrite (resume_run _ new_tid new_tid impl); cbn; unfold hardware_pid; cbn; rewrite ?Hasid; [| done | done | lia | lia].
  by destruct (machine k).
Qed.

(** C36.  A blocking message to a server with a full queue.  The client's process runs,
    a thread of the server's process is ready, and every entry of the server's queue
    is in use: [activate_process_thread] has made the server's process the current
    and running one when it finds the queue full, and returns the error without
    stopping the client's process.  Two processes are then running, and the invariant
    of the scheduler is broken. *)
Theorem activate_queue_full k previous_tid new_pid new_tid can_resume sidx sv pid tid message addr p x n y :
  can_switch k new_pid new_tid p x n y ->
  0 <= sidx -> servers k !! Z.to_nat sidx = Some (Some sv) ->
  length (queue sv) = QUEUE_LEN -> (queue_head sv < QUEUE_LEN)%nat ->
  (forall i, queue sv !! i <> Some QM_Empty) ->
  exists k', activate_process_thread previous_tid new_pid new_tid can_resume
               (Post_RememberServerMessage sidx pid tid message addr) k = RErr k' ServerQueueFull
    /\ processes k' = processes (entered k new_pid new_tid n y) /\ pt_current (machine k') = new_pid
    /\ (pstate <$> processes k' !! pid_index (pt_current (machine k))) = Some (Running x)
    /\ (pstate <$> processes k' !! pid_index new_pid) = Some (Running (clear_bit y new_tid)) /\ ~ sched_ok k'.
Proof.
  intros Hcs H0 Hsv Hlen Hh Hfull. rewrite (switch_enters _ _ _ _ _ _ _ _ _ _ Hcs).
  set (k2 := entered k new_pid new_tid n y).
  assert (Hq : queue_response pid tid message addr sv = RErr sv ServerQueueFull).
  { unfold queue_response, bind, gets. rewrite Hlen.
    destruct (find_empty_round_spec sv Hlen Hh QUEUE_LEN (queue_head sv) Hh) as [(i & _ & Hi) | [-> _]];
      [unfold ring_dist, QUEUE_LEN in *; lia | by destruct (Hfull i) | done]. }
  assert (Hpost : post_activate (Post_RememberServerMessage sidx pid tid message addr) new_tid k2 = RErr k2 ServerQueueFull).
  { unfold post_activate, server_from_sidx, bind, gets, unwrap, with_server. change (servers k2) with (servers k).
    pose proof (lookup_lt_Some _ _ _ Hsv). destruct (Z.ltb_spec (Z.of_nat (length (servers k))) sidx); [lia |].
    rewrite Hsv. change (servers k2) with (servers k). rewrite Hsv, Hq. f_equal. unfold k2, entered, set_servers. cbn. by rewrite (list_insert_id _ _ _ Hsv). }
  exists k2. split; [unfold bind at 1; by rewrite Hpost |].
  pose proof (entered_previous k k2 _ _ _ _ _ _ Hcs eq_refl eq_refl) as Hp2. pose proof (at_lookup _ _ _ Hp2) as Hl.
  destruct Hcs as [Hp Hs Hn _ _ Hne].
  assert (Hrun : processes k2 !! pid_index new_pid = Some (set_state (Running (clear_bit y new_tid)) (set_current_thread new_tid n)))
    by (apply list_lookup_insert_eq; eapply lookup_lt_Some; apply Hn).
  split_and!; [done | done | by rewrite Hl; cbn; rewrite Hs | by rewrite Hrun |].
  intros Hok. assert (Hr : is_running p = true) by (unfold is_running; by rewrite Hs).
  pose proof (procs_running _ _ Hok _ _ Hl Hr) as E. cbn in E. pose proof (at_range _ _ _ Hp). pose proof (at_range _ _ _ Hn).
  unfold index_of, pid_index in *. cbn in E. lia.
Qed.
End Runs.

Lemma example_can_switch :
  can_switch example_kernel 2 2 (example_process 1 2 (Running 8)) 8 (example_process 2 2 (Ready 4)) 4.
Proof. split; try reflexivity; try done; split; vm_compute; done. Qed.

Lemma context_switch_witness :
  exists k',
    activate_process_thread 2 2 2 true Post_None example_kernel = ROk k' 2 /\
    processes k' !! 0%nat = Some (example_process 1 2 (Ready 12)) /\
    processes k' !! 1%nat = Some (example_process 2 2 (Running 0)) /\
    pt_current (machine k') = 2.
Proof.
  eexists. split; [apply (context_switch example_kernel 2 2 2 true _ _ _ _ (example_impl 2) example_can_switch) |].
  - reflexivity.
  - vm_compute. done.
  - split_and!; reflexivity.
Defined.

(** ** Results *)

Section Results.
Context {M : Type} {HM : MemOps M}.

Implicit Type k : Kernel M.

Lemma set_registers_lookup (vals : list Z) (i : nat) (t : Thread) (j : nat) :
  (i + length vals <= length (registers t))%nat ->
  registers (set_registers i vals t) !! j
  = if decide (i <= j < i + length vals)%nat then vals !! (j - i)%nat else registers t !! j.
Proof.
  revert i t. induction vals as [| v vals IH]; intros i t Hlen; cbn in *.
  - rewrite decide_False by lia. done.
  - rewrite IH by (cbn; rewrite length_insert; lia). cbn.
    destruct (decide (j = i)) as [-> | Hne].
    + rewrite decide_False, decide_True by lia. rewrite Nat.sub_diag. cbn.
      apply list_lookup_insert_eq. lia.
    + destruct (decide (S i <= j < S (i + length vals))%nat),
        (decide (i <= j < i + S (length vals))%nat); try lia.
      * replace (j - i)%nat with (S (j - S i)) by lia. done.
      * apply list_lookup_insert_ne. lia.
Qed.

Lemma set_registers_sepc vals i t : sepc (set_registers i vals t) = sepc t.
Proof. revert i t. induction vals as [| v vals IH]; intros; cbn; [done |]. by rewrite IH. Qed.

Lemma update_thread_run (m : Machine M) tid f p t :
  impls m !! hardware_pid m = Some p -> threads p !! Z.to_nat tid = Some t ->
  0 <= tid -> tid <> 255 ->
  update_thread tid f m
  = ROk (set_impls (<[hardware_pid m := set_threads (<[Z.to_nat tid := f t]> (threads p)) p]>
                      (impls m)) m) tt.
Proof.
  intros Hp Ht Hr Hs. unfold update_thread, Process_thread, bind, get_impl, unwrap. rewrite !Hp.
  unfold fixup_irq, IRQ_TID_SENTINAL. rewrite (proj2 (Z.eqb_neq tid 255)) by lia. cbn.
  pose proof (lookup_lt_Some _ _ _ Ht). rewrite (proj2 (Z.leb_le _ _)) by lia. cbn.
  rewrite Ht. cbn. by rewrite ?Hp.
Qed.

(**  Storing the result of a system call into a thread of another process:
    the eight words of the encoded result are in the argument registers of that
    thread, its other registers, its program counter and everything else are
    unchanged, and the current process and its address space are what they were. *)
Lemma set_thread_result_other k pid tid result p c impl t :
  process_at k pid p -> process_at k (pt_current (machine k)) c ->
  satp (machine k) = mapping c -> pid <> pt_current (machine k) ->
  impls (machine k) !! pid = Some impl -> threads impl !! Z.to_nat tid = Some t ->
  0 <= tid -> tid <> 255 -> length (registers t) = 31%nat ->
  exists k' t',
    set_thread_result pid tid result k = ROk k' tt /\
    k' = set_machine (set_impls (<[pid := set_threads (<[Z.to_nat tid := t']> (threads impl)) impl]>
                                   (impls (machine k))) (machine k)) k /\
    sepc t' = sepc t /\
    forall i, registers t' !! i = if decide (9 <= i < 17)%nat
                                  then args8_list (Result_to_args result) !! (i - 9)%nat
                                  else registers t !! i.
Proof.
  intros Hp Hc Hsatp Hne Hi Ht Htid Htid' Hlen.
  set (t' := set_registers 9 (args8_list (Result_to_args result)) t).
  eexists _, t'. split; [| split; [reflexivity |]].
  - unfold set_thread_result, bind at 1.
    change (arch current_pid k) with (ROk (E := Error) (set_machine (machine k) k) (pt_current (machine k))).
    replace (set_machine (machine k) k) with k by (by destruct k). cbv iota beta.
    rewrite (proj2 (Z.eqb_neq _ _) (not_eq_sym Hne)). unfold bind. rewrite (get_process_at _ _ _ Hp).
    destruct Hp as [Hl Hf Hpp Hr Ha Htab].
    rewrite activate_run by (by rewrite Hpp). rewrite Hpp.
    unfold arch at 1, zoom, Process_current, hardware_pid. cbn -[set_registers]. rewrite Ha, Z.eqb_refl.
    unfold arch, zoom, Process_set_thread_result.
    rewrite (update_thread_run _ tid _ impl t); [| | done | done | done].
    2: { cbn. unfold hardware_pid. cbn. by rewrite Ha. }
    unfold unwrap_result, hardware_pid. cbn -[set_registers get_process Process_activate]. rewrite Ha.
    rewrite (get_process_at _ _ c) by (by repeat apply process_at_machine).
    rewrite activate_run by (cbn; rewrite ?(at_pid _ _ _ Hc); apply Hc).
    rewrite (at_pid _ _ _ Hc), <- Hsatp. by destruct k as [[] ? ? ?].
  - split; [apply set_registers_sepc |]. intros i. subst t'.
    rewrite set_registers_lookup by (cbn; lia). done.
Qed.
End Results.

(** ** Allocating a thread *)

(** The threads of a page that can be allocated. *)
Definition allocatable (p : ProcessImpl) (t : Z) : Prop :=
  2 <= t < Z.of_nat (length (threads p)) /\
  exists th, threads p !! Z.to_nat t = Some th /\ sepc th = 0.

Lemma thread_order_complete (start len n : nat) :
  (start <= len)%nat -> (n < len)%nat -> In n (thread_order start len).
Proof.
  intros Hs Hn. unfold thread_order. apply in_app_iff.
  destruct (Nat.lt_ge_cases n start); [right | left]; apply in_seq; lia.
Qed.

(**  Allocating a thread finds a thread whenever there is one: the result is
    a thread that is not in use and is neither the interrupt nor the exception
    thread, and [None] is returned only when every other thread is in use.  The
    search starts where the previous one stopped, and the page changes only in
    the place where the next search starts. *)
Lemma find_free_thread_spec {M} (m : Machine M) (p : ProcessImpl) :
  impls m !! hardware_pid m = Some p -> impl_ok p ->
  (exists t, allocatable p t /\
     Process_find_free_thread m
     = ROk (set_impls (<[hardware_pid m := set_last_tid t p]> (impls m)) m) (Some t)) \/
  ((forall t, ~ allocatable p t) /\ Process_find_free_thread m = ROk m None).
Proof.
  intros Hp [Hlen Hlast]. unfold Process_find_free_thread, bind, get_impl, unwrap. rewrite Hp.
  assert (Hstart : (Z.to_nat (last_tid_allocated p) <= length (threads p))%nat) by lia.
  rewrite (proj2 (Nat.leb_le _ _) Hstart). cbn [assert_].
  set (free := fun tid : nat => _ && _ && _).
  assert (Hfree : forall n, (n < length (threads p))%nat ->
            free n = true <-> allocatable p (Z.of_nat n)).
  { intros n Hn. unfold free, allocatable, IRQ_TID, EXCEPTION_TID. rewrite Nat2Z.id.
    destruct (lookup_lt_is_Some_2 (threads p) n Hn) as [th Hth]. rewrite Hth. split.
    - intros Hf. zbool. split; [lia | eauto].
    - intros [? (th' & [= <-] & ->)]. andb_split; [| | done]; apply negb_true_iff, Z.eqb_neq; lia. }
  destruct (List.find free _) as [n |] eqn:Hf.
  - left. apply find_free_inv in Hf as [Hf Hn]; [| done]. exists (Z.of_nat n).
    split; [by apply Hfree | done].
  - right. split; [| done]. intros t Ht.
    assert (Hn : (Z.to_nat t < length (threads p))%nat) by (destruct Ht; lia).
    eapply find_none in Hf; [| by apply thread_order_complete].
    apply not_true_iff_false in Hf. apply Hf, Hfree; [done |].
    rewrite Z2Nat.id by (destruct Ht; lia). done.
Qed.

(** ** A switch that leaves two processes running *)

(** A server of process 2 whose queue is full of messages that wait for a
    reply, and a thread of it that is ready to receive. *)
Definition full_server : Server :=
  mk_Server (mk_SID 1 2 3 4) 2 0 0 0 0
    (replicate QUEUE_LEN (QM_WaitingReturnScalar 3 2 0 0)) 4 4284481536.

Definition full_kernel : Kernel Memory := set_servers (Some full_server :: replicate 127 None) example_kernel.

(** Process 1 sends it a blocking message. *)
Lemma activate_queue_full_witness :
  exists k', activate_process_thread 2 2 2 false
               (Post_RememberServerMessage 0 1 2 (BlockingScalar (mk_ScalarMessage 1 2 3 4 5)) None) full_kernel
             = RErr k' ServerQueueFull /\ ~ sched_ok k'.
Proof.
  destruct (activate_queue_full full_kernel 2 2 2 false 0 full_server 1 2 (BlockingScalar (mk_ScalarMessage 1 2 3 4 5)) None
              (example_process 1 2 (Running 8)) 8 (example_process 2 2 (Ready 4)) 4) as (k' & E & _ & _ & _ & _ & Hno).
  - split; try reflexivity; try done; split; vm_compute; done.
  - lia.
  - reflexivity.
  - reflexivity.
  - apply Nat.ltb_lt. reflexivity.
  - intros i Hi. apply (lookup_replicate_1 QUEUE_LEN) in Hi as [? _]. discriminate.
  - exists k'. split; [exact E | exact Hno].
Defined.
