(* ===== verification/Transfer.v ===== *)
(** * Memory that moves between processes

    Models [send_memory], [lend_memory] and [return_memory] of
    src/kernel/src/services.rs, for the baremetal build. *)

From Stdlib Require Import ZArith Lia Bool.
From stdpp Require Import base numbers list option gmap.
From S2P Require Import Prelude.
From S2P Require Import Abi.
From S2P Require Import Server.
From S2P Require Import Irq.
From S2P Require Import Machine.
From S2P Require Import Paging.
From S2P Require Import MemoryManager.
From S2P Require Import ArchProcess.
From S2P Require Import Scheduler.

#[local] Open Scope Z_scope.
#[local] Open Scope kernel_scope.

Section Transfer.
Context {M : Type} {HM : MemOps M}.

#[local] Notation "'op' A" := (Machine M -> outcome Error (Machine M) A) (at level 10, A at level 9).
#[local] Notation "'kop' A" := (Kernel M -> outcome Error (Kernel M) A) (at level 10, A at level 9).

(** The byte offsets [offset * 4] of [(0..len / 4).step_by(PAGE_SIZE / 4)]. *)
Definition page_offsets (len : Z) : list Z := map (fun o => o * 4) (step_by 0 (len / 4) 1024).

(** [for offset in ...] of a move within one process. *)
Definition ensure_pages (src_virt len : Z) : kop unit :=
  for_each (page_offsets len) (fun off =>
    arch (ensure_page_exists (add32 src_virt off))).

(** The loops over the pages of a transfer.  [f] transfers one page; the last
    error is kept and the loop goes on.  With [ensure], a page that does not
    exist ends the loop. *)
Fixpoint transfer_pages (ensure : bool) (src_virt dest_virt : Z)
    (f : Z -> Z -> kop unit) (offsets : list Z) (error : option Error) : kop (option Error) :=
  match offsets with
  | [] => ret error
  | off :: offsets =>
      let src := add32 src_virt off in
      let dest := add32 dest_virt off in
      assert_ (page_aligned src) ;;;
      assert_ (page_aligned dest) ;;;
      (if ensure then arch (ensure_page_exists src) else ret tt) ;;;
      r <- attempt (f src dest);;
      transfer_pages ensure src_virt dest_virt f offsets
        (match r with inl e => Some e | inr _ => error end)
  end.

(** An address for the memory in the process that receives it. *)
Definition find_destination (src_mapping dest_mapping dest_virt len : Z) : kop Z :=
  arch (MemoryMapping_activate dest_mapping) ;;;
  r <- attempt (arch (find_virtual_address dest_virt len MT_Messages));;
  arch (MemoryMapping_activate src_mapping) ;;;
  match r with inl e => fail e | inr v => ret v end.

Definition send_memory (src_virt dest_pid dest_virt len : Z) : kop Z :=
  if len =? 0 then fail BadAddress
  else if negb (page_aligned len) then fail BadAddress
  else if negb (page_aligned src_virt) then fail BadAddress
  else if negb (page_aligned dest_virt) then fail BadAddress
  else if USER_AREA_END <? add32 dest_virt len then fail BadAddress
  else
    current_pid <- arch current_pid;;
    if current_pid =? dest_pid then (ensure_pages src_virt len ;;; ret src_virt)
    else
      src <- get_process current_pid;;
      dest <- get_process dest_pid;;
      dest_virt <- find_destination (mapping src) (mapping dest) dest_virt len;;
      error <- transfer_pages true src_virt dest_virt
                 (fun s d => arch (move_page current_pid (mapping src) s dest_pid (mapping dest) d))
                 (page_offsets len) None;;
      match error with None => ret dest_virt | Some _ => panic end.

Definition lend_memory (src_virt dest_pid dest_virt len : Z) (mutable : bool) : kop Z :=
  if len =? 0 then fail BadAddress
  else if negb (page_aligned len) then fail BadAlignment
  else if negb (page_aligned src_virt) then fail BadAlignment
  else if negb (page_aligned dest_virt) then fail BadAlignment
  else
    current_pid <- arch current_pid;;
    if current_pid =? dest_pid then
      (for_each (page_offsets len) (fun off =>
         assert_ (page_aligned (add32 src_virt off)) ;;;
         arch (ensure_page_exists (add32 src_virt off))) ;;;
       ret src_virt)
    else
      src <- get_process current_pid;;
      dest <- get_process dest_pid;;
      dest_virt <- find_destination (mapping src) (mapping dest) dest_virt len;;
      error <- transfer_pages true src_virt dest_virt
                 (fun s d => arch (lend_page (mapping src) s dest_pid (mapping dest) d mutable) ;;; ret tt)
                 (page_offsets len) None;;
      match error with None => ret dest_virt | Some _ => panic end.

Definition return_memory (src_virt dest_pid dest_virt len : Z) : kop Z :=
  if len =? 0 then fail BadAddress
  else if negb (page_aligned len) then fail BadAddress
  else if negb (page_aligned src_virt) then fail BadAddress
  else if negb (page_aligned dest_virt) then fail BadAddress
  else
    current_pid <- arch current_pid;;
    if current_pid =? dest_pid then ret src_virt
    else
      src <- get_process current_pid;;
      dest <- get_process dest_pid;;
      error <- transfer_pages false src_virt dest_virt
                 (fun s d => arch (unlend_page (mapping src) s dest_pid (mapping dest) d) ;;; ret tt)
                 (page_offsets len) None;;
      match error with None => ret dest_virt | Some e => fail e end.
End Transfer.
