(* ===== verification/TransferFacts.v ===== *)
(** * Facts about memory transfers

    A transfer returns to the address space it started from on every path, the
    addresses it picks are unused, and the two ways in which it does not do what
    its documentation says. *)

From Stdlib Require Import ZArith Lia Bool.
From stdpp Require Import base numbers list option gmap.
From S2P Require Import Prelude.
From S2P Require Import Abi.
From S2P Require Import Server.
From S2P Require Import Irq.
From S2P Require Import Machine.
From S2P Require Import Paging.
From S2P Require Import MemoryManager.
From S2P Require Import MemoryFacts.
From S2P Require Import Memory.
From S2P Require Import ArchProcess.
From S2P Require Import Scheduler.
From S2P Require Import SchedulerFacts.
From S2P Require Import SchedulerInv.
From S2P Require Import ContextSwitch.
From S2P Require Import Transfer.

#[local] Open Scope Z_scope.
#[local] Open Scope kernel_scope.

(** ** The address space is restored *)

(** The connection maps of the processes' pages. *)
Definition conns {M} (m : Machine M) : gmap Z (list (option Z)) :=
  (fun p => connection_map (inner p)) <$> impls m.

Lemma conns_core {M} (m m' : Machine M) : core <$> impls m' = core <$> impls m -> conns m' = conns m.
Proof.
  intros Hc. unfold conns.
  assert (Hcore : forall m : Machine M, (fun p => connection_map (inner p)) <$> impls m
                   = (fun p => connection_map (inner p)) <$> (core <$> impls m))
    by (intros; by rewrite <- map_fmap_compose).
  by rewrite !Hcore, Hc.
Qed.

(** The address space of the process that is current. *)
Definition own_space {M} (k : Kernel M) (s : Z) : Prop :=
  exists p, processes k !! pid_index (pt_current (machine k)) = Some p /\ s = mapping p.

(** The process that is current is the one whose address space is active. *)
Definition current_space {M} (k : Kernel M) : Prop :=
  forall s, own_space k s -> satp (machine k) = s.

(** [k'] differs from [k] in the memory and in the places where the searches of
    the processes start; the active address space is the same or the one of the
    current process. *)
Definition same_space {M} (k k' : Kernel M) : Prop :=
  processes k' = processes k /\ servers k' = servers k /\ irqs k' = irqs k /\
  mem_step (own_space k) (machine k) (machine k').

Section Restore.
Context {M : Type} {HM : MemOps M} {HL : MemLaws M}.

Implicit Type k : Kernel M.

Lemma same_space_refl k : same_space k k.
Proof. split_and!; try done. apply mem_step_refl. Qed.

Lemma same_space_own k k' s : same_space k k' -> own_space k' s -> own_space k s.
Proof. intros (Hp & _ & _ & Hc & _) (p & Hk & ->). exists p. by rewrite <- Hp, <- Hc. Qed.

Lemma same_space_trans k1 k2 k3 : same_space k1 k2 -> same_space k2 k3 -> same_space k1 k3.
Proof.
  intros H12 H23. pose proof (same_space_own k1 k2) as Hown. specialize (fun s => Hown s H12).
  destruct H12 as (? & ? & ? & H12), H23 as (? & ? & ? & H23). split_and!; try congruence.
  eapply mem_step_trans; [exact H12 |]. by eapply mem_step_mono.
Qed.

(** Every outcome of the run is in the same address space. *)
Definition restores {A} (r : outcome Error (Kernel M) A) k : Prop :=
  sat r (fun k' _ => same_space k k') (fun k' _ => same_space k k').

Lemma restores_arch (S : Z -> Prop) {A} (f : Machine M -> outcome Error (Machine M) A) k :
  mem_op S f -> (forall s, S s -> own_space k s) -> restores (arch f k) k.
Proof.
  intros Hf HS. apply sat_zoom. eapply sat_mono; [apply Hf | |]; intros m' ? Hm;
    (split_and!; [done | done | done | by eapply mem_step_mono]).
Qed.

Lemma restores_bind {A B} (f : Kernel M -> outcome Error (Kernel M) A)
    (g : A -> Kernel M -> outcome Error (Kernel M) B) k :
  restores (f k) k -> (forall a k', same_space k k' -> restores (g a k') k') ->
  restores (bind f g k) k.
Proof.
  intros Hf Hg. unfold restores. sat_step. eapply sat_mono; [exact Hf | | done]. intros k' a Hk. cbn in Hk.
  eapply sat_mono; [by apply Hg | |]; intros k2 ? H2; by eapply same_space_trans.
Qed.

Lemma restores_ret {A} (a : A) k : restores (ret a k) k.
Proof. apply same_space_refl. Qed.

Lemma restores_fail {A} e k : restores (A := A) (fail e k) k.
Proof. apply same_space_refl. Qed.

Lemma restores_assert b k : restores (assert_ b k) k.
Proof. apply sat_assert. intros. apply same_space_refl. Qed.

Lemma restores_attempt {A} (f : Kernel M -> outcome Error (Kernel M) A) k :
  restores (f k) k -> restores (attempt f k) k.
Proof. intros Hf. by apply sat_attempt. Qed.

Lemma restores_for_each {A} (l : list A) (f : A -> Kernel M -> outcome Error (Kernel M) unit) k :
  (forall x k', same_space k k' -> restores (f x k') k') -> restores (for_each l f k) k.
Proof.
  revert k. induction l as [| x l IH]; intros k Hf; [apply restores_ret |].
  apply restores_bind; [apply Hf, same_space_refl |]. intros [] k1 H1. apply IH. intros y k2 H2.
  apply Hf. by eapply same_space_trans.
Qed.

Lemma restores_ensure a k : restores (arch (ensure_page_exists a) k) k.
Proof. by apply (restores_arch here); [apply mem_op_ensure |]. Qed.

Lemma restores_transfer ensure src dest f l e k :
  (forall s d k', same_space k k' -> restores (f s d k') k') ->
  restores (transfer_pages ensure src dest f l e k) k.
Proof.
  revert e k. induction l as [| o l IH]; intros e k Hf; [apply restores_ret |]. cbn [transfer_pages].
  apply restores_bind; [apply restores_assert |]. intros _ k1 H1.
  apply restores_bind; [apply restores_assert |]. intros _ k2 H2.
  apply restores_bind; [destruct ensure; [apply restores_ensure | apply restores_ret] |].
  intros _ k3 H3. assert (H : same_space k k3) by (eapply same_space_trans; [exact H1 |]; by eapply same_space_trans).
  apply restores_bind; [by apply restores_attempt, Hf |]. intros r k4 H4. apply IH.
  intros s d k5 H5. apply Hf. eapply same_space_trans; [exact H |]. by eapply same_space_trans.
Qed.

(** ** Searching the address space of another process *)

Lemma find_destination_space src dest virt len k :
  own_space k src -> restores (find_destination src dest virt len k) k.
Proof.
  intros Hs. unfold restores, find_destination. sat_step. apply sat_zoom. cbn. sat_step. sat_step.
  apply sat_zoom. eapply sat_mono; [apply (mem_op_find_virtual_address anywhere) | |];
    intros m1 r (? & ? & ? & ? & _); sat_step; apply sat_zoom; cbn; repeat sat_step;
    (split_and!; try done; split_and!; try done; by right).
Qed.

Lemma restores_get_process {B} pid (g : Process -> Kernel M -> outcome Error (Kernel M) B) k :
  (forall p, processes k !! pid_index pid = Some p -> restores (g p k) k) ->
  restores (bind (get_process pid) g k) k.
Proof.
  intros Hg. unfold restores. sat_step. apply sat_get_process; [| apply same_space_refl].
  intros. by apply Hg.
Qed.

(** The common course of a transfer to another process. *)
Lemma restores_current_pid {B} (g : Z -> Kernel M -> outcome Error (Kernel M) B) k :
  restores (g (pt_current (machine k)) k) k -> restores (bind (arch current_pid) g k) k.
Proof. unfold bind, arch, zoom, current_pid, gets. by destruct k. Qed.

Lemma restores_error (v : Z) (error : option Error) (h : Error -> Kernel M -> outcome Error (Kernel M) Z) k :
  (forall e, restores (h e k) k) ->
  restores (match error with None => ret v | Some e => h e end k) k.
Proof. intros Hh. destruct error; [apply Hh | apply restores_ret]. Qed.

(** One page; the operation ends in the address space of the current process. *)
Lemma restores_page src {A} (f : Machine M -> outcome Error (Machine M) A) k k' :
  mem_op (eq src) f -> own_space k src -> same_space k k' -> restores (arch f k') k'.
Proof.
  intros Hf (p & Hp & ->) (Hpk & _ & _ & Hc & _). apply (restores_arch (eq (mapping p))); [done |].
  intros s <-. exists p. by rewrite Hpk, Hc.
Qed.

#[local] Ltac guards := repeat (case_if; [apply restores_fail |]).

Lemma send_memory_space src_virt dest_pid dest_virt len k :
  restores (send_memory src_virt dest_pid dest_virt len k) k.
Proof.
  unfold send_memory. guards. apply restores_current_pid. case_if.
  { apply restores_bind; [| intros; apply restores_ret]. apply restores_for_each. intros off k' _.
    apply restores_ensure. }
  apply restores_get_process. intros src Hsrc. apply restores_get_process. intros dest Hdest.
  assert (Hown : own_space k (mapping src)) by (by exists src).
  apply restores_bind; [by apply find_destination_space |]. intros v k1 Hk1.
  apply restores_bind; [| intros e k2 _; apply (restores_error v e (fun _ => panic)); done].
  apply restores_transfer. intros s d k2 Hk2.
  apply (restores_page (mapping src) _ k); [apply mem_op_move_page | done | by eapply same_space_trans].
Qed.

Lemma lend_memory_space src_virt dest_pid dest_virt len mutable k :
  restores (lend_memory src_virt dest_pid dest_virt len mutable k) k.
Proof.
  unfold lend_memory. guards. apply restores_current_pid. case_if.
  { apply restores_bind; [| intros; apply restores_ret]. apply restores_for_each. intros off k' _.
    apply restores_bind; [apply restores_assert |]. intros _ k2 _. apply restores_ensure. }
  apply restores_get_process. intros src Hsrc. apply restores_get_process. intros dest Hdest.
  assert (Hown : own_space k (mapping src)) by (by exists src).
  apply restores_bind; [by apply find_destination_space |]. intros v k1 Hk1.
  apply restores_bind; [| intros e k2 _; apply (restores_error v e (fun _ => panic)); done].
  apply restores_transfer. intros s d k2 Hk2. apply restores_bind; [| intros; apply restores_ret].
  apply (restores_page (mapping src) _ k); [apply mem_op_lend_page | done | by eapply same_space_trans].
Qed.

Lemma return_memory_space src_virt dest_pid dest_virt len k :
  restores (return_memory src_virt dest_pid dest_virt len k) k.
Proof.
  unfold return_memory. guards. apply restores_current_pid. case_if; [apply restores_ret |].
  apply restores_get_process. intros src Hsrc. apply restores_get_process. intros dest Hdest.
  assert (Hown : own_space k (mapping src)) by (by exists src).
  apply restores_bind; [| intros e k2 _; apply (restores_error dest_virt e fail); intros; apply restores_fail].
  apply restores_transfer. intros s d k2 Hk2. apply restores_bind; [| intros; apply restores_ret].
  by apply (restores_page (mapping src) _ k); [apply mem_op_unlend_page | |].
Qed.

(** In the address space of the current process. *)
Lemma restores_exactly {A} (r : outcome Error (Kernel M) A) k :
  current_space k -> restores r k ->
  sat r (fun k' _ => same_space k k' /\ satp (machine k') = satp (machine k))
        (fun k' _ => same_space k k' /\ satp (machine k') = satp (machine k)).
Proof.
  intros Hc Hr. eapply sat_mono; [exact Hr | |]; intros k' ? Hk; (split; [exact Hk |]);
    destruct Hk as (_ & _ & _ & _ & _ & _ & _ & [Hs | Hs]); [done | | done |];
    symmetry; by apply Hc.
Qed.
End Restore.

(** The run ends in the address space in which it began, and only the memory and
    the places where searches for an address start have changed. *)
Definition back_in_place {M A} (r : outcome Error (Kernel M) A) (k : Kernel M) : Prop :=
  sat r (fun k' _ => same_space k k' /\ satp (machine k') = satp (machine k))
        (fun k' _ => same_space k k' /\ satp (machine k') = satp (machine k)).

(** C32.  Sending, lending and returning memory end, and on every path, errors
    included, the kernel is back in the address space of the process that made
    the call: only the memory and the places where the processes' next
    searches for an address start have changed. *)
Theorem transfer_restores_space {M} {HM : MemOps M} {HL : MemLaws M} (k : Kernel M)
    (src_virt dest_pid dest_virt len : Z) (mutable : bool) :
  current_space k ->
  back_in_place (send_memory src_virt dest_pid dest_virt len k) k /\
  back_in_place (lend_memory src_virt dest_pid dest_virt len mutable k) k /\
  back_in_place (return_memory src_virt dest_pid dest_virt len k) k.
Proof.
  intros Hc. split_and!; apply restores_exactly; try done;
    [apply send_memory_space | apply lend_memory_space | apply return_memory_space].
Qed.

Lemma transfer_restores_space_witness :
  (exists k' v, lend_memory 4096 2 0 8192 true example_kernel = ROk k' v) /\
  back_in_place (lend_memory 4096 2 0 8192 true example_kernel) example_kernel.
Proof.
  split; [eexists _, _; vm_compute; reflexivity |].
  refine (proj1 (proj2 (transfer_restores_space example_kernel 4096 2 0 8192 true _))).
  intros s (p & Hp & ->). vm_compute in Hp. injection Hp as <-. reflexivity.
Defined.

(** ** The address that is found *)

(** The page at [a] is unused. *)
Definition available {M} {HM : MemOps M} (m : Machine M) (a : Z) : Prop :=
  address_available a m = ROk m true.

(** The pages of the [size] bytes from [v] on are unused. *)
Definition unused {M} {HM : MemOps M} (m : Machine M) (v size : Z) : Prop :=
  forall a, v <= a < v + size -> (a - v) mod PAGE_SIZE = 0 -> available m a.

(** The kernel can read the page tables of the active address space. *)
Definition readable {M} {HM : MemOps M} (m : Machine M) : Prop :=
  forall a, address_available a m <> RPanic.

Section Search.
Context {M : Type} {HM : MemOps M} {HL : MemLaws M}.

Implicit Type m : Machine M.

Lemma address_available_returns m a :
  readable m -> exists b, address_available a m = ROk m b.
Proof.
  intros Hr. pose proof (reads_address_available a m) as Hs. specialize (Hr a).
  unfold address_available, bind, attempt, ret in *.
  destruct (virt_to_phys a m) as [m' p | m' e | |]; cbn in Hs; try done; subst; eauto.
Qed.

Lemma all_free_spec m pages :
  readable m ->
  exists b, all_free pages m = ROk m b /\ (b = true <-> forall a, In a pages -> available m a).
Proof.
  intros Hr. induction pages as [| a pages IH]; cbn [all_free]; [by exists true |].
  destruct (address_available_returns m a Hr) as [b Hb]. unfold bind. rewrite Hb.
  destruct b.
  - destruct IH as (b & -> & IH). exists b. split; [done |]. rewrite IH. split.
    + intros H c [<- | Hc]; auto.
    + intros H c Hc. apply H. by right.
  - exists false. split; [done |]. split; [done |]. intros H. specialize (H a (or_introl eq_refl)).
    unfold available in H. congruence.
Qed.

(** The pages from [start] on, of [size] bytes. *)
Lemma range_free_spec m start size :
  readable m -> 0 <= start -> 0 <= size -> start + size < 4294967296 ->
  exists b, all_free (step_by start (add32 start size) PAGE_SIZE) m = ROk m b /\
            (b = true <-> unused m start size).
Proof.
  intros Hr Hs Hz Hw. destruct (all_free_spec m (step_by start (add32 start size) PAGE_SIZE) Hr)
    as (b & Hb & Hiff). exists b. split; [done |]. rewrite Hiff. unfold unused, add32.
  rewrite u32_id by lia. split.
  - intros H a Ha Hm. apply H, step_by_In; done || lia.
  - intros H a [Ha Hm]%step_by_In; [by apply H | done].
Qed.

Lemma search_range_spec m size starts :
  readable m -> 0 <= size -> (forall v, In v starts -> 0 <= v /\ v + size < 4294967296) ->
  exists o, search_range size starts m = ROk m o /\
    match o with
    | Some v => In v starts /\ unused m v size
    | None => forall v, In v starts -> ~ unused m v size
    end.
Proof.
  intros Hr Hz. induction starts as [| v starts IH]; intros Hin; cbn [search_range]; [by exists None |].
  destruct (Hin v (or_introl eq_refl)) as [Hv Hw].
  destruct (range_free_spec m v size Hr Hv Hz Hw) as (b & Hb & Hiff). unfold bind. rewrite Hb.
  destruct b.
  - exists (Some v). split; [done |]. split; [by left | by apply Hiff].
  - destruct IH as (o & -> & Ho); [intros w Hw'; apply Hin; by right |]. exists o. split; [done |].
    destruct o as [w |]; [by destruct Ho; split; [right |] |].
    intros w [<- | Hw']; [| by apply Ho]. intros Hu. by apply Hiff in Hu.
Qed.

(** The same for the starts [from..to]. *)
Lemma search_between m size from to :
  readable m -> 0 <= from -> 0 <= size -> to + size < 4294967296 ->
  exists o, search_range size (step_by from to PAGE_SIZE) m = ROk m o /\
    match o with
    | Some v => from <= v < to /\ (v - from) mod PAGE_SIZE = 0 /\ unused m v size
    | None => forall v, from <= v < to -> (v - from) mod PAGE_SIZE = 0 -> ~ unused m v size
    end.
Proof.
  intros Hr Hf Hz Hw. destruct (search_range_spec m size (step_by from to PAGE_SIZE)) as (o & Ho & Hs);
    [done | done | intros v [? ?]%step_by_In; [lia | done] |].
  exists o. split; [done |]. destruct o as [v |].
  - destruct Hs as [[? ?]%step_by_In ?]; done.
  - intros v Hv Hm. by apply Hs, step_by_In.
Qed.

(** The region for messages of the process whose page is [i]. *)
Definition messages_ok (i : ProcessInner) : Prop :=
  0 <= mem_message_base i <= 2147483648 /\
  mem_message_base i <= mem_message_last i <= mem_message_base i + 4194304 /\
  (mem_message_last i - mem_message_base i) mod PAGE_SIZE = 0.

(** Looking for room for a message: the address that is returned is a page
    of the region for messages, at an offset that is a whole number of pages,
    and all the pages it needs are unused; only the place where the next search
    starts changes.  If no address is returned, then nothing has changed and
    there is no room for the message at any page whose end is inside the
    region. *)
Lemma find_virtual_address_messages m p size :
  readable m -> impls m !! hardware_pid m = Some p -> messages_ok (inner p) ->
  0 < size <= 4194304 ->
  let base := mem_message_base (inner p) in
  match find_virtual_address 0 size MT_Messages m with
  | ROk m' v =>
      base <= v < base + 4194304 /\ (v - base) mod PAGE_SIZE = 0 /\ unused m v size /\
      m' = set_impls (<[hardware_pid m := set_inner (set_message_last v (inner p)) p]> (impls m)) m
  | RErr m' e =>
      m' = m /\ e = BadAddress /\
      forall v, base <= v -> v + size < base + 4194304 -> (v - base) mod PAGE_SIZE = 0 ->
                ~ unused m v size
  | _ => False
  end.
Proof.
  intros Hread Hp (Hb & Hl & Ha) Hs base. unfold find_virtual_address, bind, get_impl, unwrap.
  cbn [negb Z.eqb]. rewrite Hp. unfold add32, sub32. fold base in Hb, Hl, Ha |- *.
  rewrite (u32_id (base + 4194304)), (u32_id (base + 4194304 - size)) by lia.
  set (last := mem_message_last (inner p)) in *.
  assert (Hmod : forall v, (v - last) mod PAGE_SIZE = 0 <-> (v - base) mod PAGE_SIZE = 0).
  { intros v. replace (v - base) with ((v - last) + (last - base)) by lia.
    rewrite Z.add_mod, Ha, Z.add_0_r, Z.mod_mod by done. done. }
  destruct (search_between m size last (base + 4194304 - size)) as ([v |] & -> & H1);
    [done | lia | lia | lia | |].
  { destruct H1 as (Hr & Hm & Hu). unfold put_impl, modify, ret.
    split_and!; [lia | lia | by apply Hmod | done | done]. }
  destruct (search_between m size base last) as ([v |] & -> & H2); [done | lia | lia | lia | |].
  { destruct H2 as (Hr & Hm & Hu). unfold put_impl, modify, ret. split_and!; done || lia. }
  unfold fail. split_and!; [done | done |]. intros v Hv1 Hv2 Hm.
  destruct (Z.lt_ge_cases v last); [apply H2; lia | apply H1; [lia | by apply Hmod]].
Qed.
End Search.

(** Whether the page tables can be read, by trying all entries. *)
Definition readsb {M} {HM : MemOps M} (m : Machine M) (a : Z) (f : Z -> bool) : bool :=
  match rd a m with ROk _ v => f v | _ => false end.

Definition indices : list Z := map Z.of_nat (seq 0 1024).

Definition readableb {M} {HM : MemOps M} (m : Machine M) : bool :=
  forallb (fun v1 => readsb m (l1_entry v1) (fun l1 =>
    negb (has_flag l1 MMU_VALID) ||
    forallb (fun v0 => readsb m (l0_entry v1 v0) (fun _ => true)) indices)) indices.

Lemma indices_In n : 0 <= n < 1024 -> In n indices.
Proof.
  intros Hn. apply in_map_iff. exists (Z.to_nat n). split; [lia |]. apply in_seq. lia.
Qed.

Lemma readableb_spec {M} {HM : MemOps M} {HL : MemLaws M} (m : Machine M) :
  readableb m = true -> readable m.
Proof.
  intros H a. unfold readableb in H. rewrite forallb_forall in H.
  specialize (H _ (indices_In _ (vpn1_range a))). unfold readsb in H.
  unfold address_available, virt_to_phys, attempt, bind.
  pose proof (reads_rd (M := M) (l1_entry (vpn1 a)) m) as Hs.
  destruct (rd (l1_entry (vpn1 a)) m) as [m' l1 | | |]; try done. cbn in Hs. subst m'.
  destruct (has_flag l1 MMU_VALID); [| done]. cbn [negb orb] in H |- *.
  rewrite forallb_forall in H. specialize (H _ (indices_In _ (vpn0_range a))).
  destruct (rd (l0_entry (vpn1 a) (vpn0 a)) m) as [m' e | | |]; try done. repeat case_if; done.
Qed.

(** ** Divergences *)

(** The region for messages of process 1 with only its last three pages unused:
    a leaf table, in the first free page, whose other entries are reserved.  The
    last message was placed two pages before the end. *)
Definition crowded_space : list (Z * Z) :=
  (example_page 0 + 256 * 4, make_entry (example_page 24) MMU_VALID) ::
  (example_page 1 + 256 * 4, make_entry (example_page 24) space_flags) ::
  map (fun i => (example_page 24 + Z.of_nat i * 4, MMU_R)) (seq 0 1021).

Definition crowded_machine : Machine Memory :=
  mk_Machine (satp example_machine) 1 (pt_table example_machine)
    (<[1 := set_inner (set_message_last (DEFAULT_MESSAGE_BASE + 4194304 - 8192)
                         (inner (example_impl 1))) (example_impl 1)]> (impls example_machine))
    false (set_words (list_to_map crowded_space ∪ words example_memory) example_memory).

(**  The second loop of the search does not leave room for the message: a
    message of four pages is placed so that it ends one page after the region
    for messages. *)
Lemma message_past_region :
  returns (find_virtual_address 0 16384 MT_Messages crowded_machine)
    (fun _ v => v + 16384 = DEFAULT_MESSAGE_BASE + 4194304 + 4096).
Proof. vm_compute. reflexivity. Qed.

(** Memory that is lent cannot be lent again, whether one of the two loans
    is mutable or not: the second call returns [BadAddress], where the
    documentation says [ShareViolation] for a mutable loan. *)
Theorem lend_shared_refused (first second : bool) :
  returns (lend_memory 4096 2 0 4096 first example_kernel)
    (fun k' _ => fails_with (lend_memory 4096 2 0 4096 second k') BadAddress).
Proof. destruct first, second; vm_compute; reflexivity. Qed.

(** The example with no free page. *)
Definition exhausted_kernel : Kernel Memory :=
  set_machine (set_memory (set_allocations (replicate 64 (Some 1)) example_memory) example_machine)
    example_kernel.

(** Lending memory to a process that has no page table for its messages yet
    stops the kernel when no page is free, although the documentation says that
    the memory is attached to the lender again. *)
Theorem lend_out_of_memory_panics (mutable : bool) :
  lend_memory 4096 2 0 4096 mutable exhausted_kernel = RPanic.
Proof. destruct mutable; vm_compute; reflexivity. Qed.

(** The leaf entry for [virt] in the address space of process [pid]. *)
Definition leaf_of (pid virt : Z) (k : Kernel Memory) : Z :=
  walk_leaf (example_satp pid) virt (memory (machine k)).

(** A call that fails half way keeps what it has lent: of three pages, of
    which the third does not exist, the first two stay lent when [BadAddress] is
    returned.  The process has lost them, since no server will return them. *)
Lemma lend_error_keeps_loan (mutable : bool) :
  match lend_memory 8192 2 0 12288 mutable example_kernel with
  | RErr k' e =>
      e = BadAddress /\
      forallb (fun v => has_flag (leaf_of 1 v k') MMU_S && negb (has_flag (leaf_of 1 v k') MMU_VALID))
        [8192; 12288] = true
  | _ => False
  end.
Proof. destruct mutable; vm_compute; split_and!; reflexivity. Qed.

(** A process can lend a page of the kernel: the page at 12288 is not
    accessible to process 1, but after the loan it is mapped for the user, and
    writable, in process 2.  The pages of a process's message queues are such
    pages. *)
Lemma kernel_page_lent_example :
  has_flag (leaf_of 1 12288 example_kernel) MMU_USER = false /\
  returns (lend_memory 12288 2 0 4096 true example_kernel) (fun k' v =>
    has_flag (leaf_of 2 v k') MMU_USER = true /\ has_flag (leaf_of 2 v k') MMU_W = true /\
    entry_page (leaf_of 2 v k') = entry_page (leaf_of 1 12288 example_kernel)).
Proof. vm_compute. split_and!; reflexivity. Qed.
