(* ===== verification/Services.v ===== *)
(** * Servers, connections and the life of a process

    Models the rest of the operations of [SystemServices] in
    src/kernel/src/services.rs (creating, connecting to and destroying servers,
    creating and terminating processes), [Server::destroy] of
    src/kernel/src/server.rs and [Process::create] of
    src/kernel/src/arch/riscv/process.rs, for the baremetal build.

    A connection number is an index into the connection map of the active
    process plus 2, and an entry of that map is the index of a server plus 2;
    the entry 1 is a tombstone. *)

From Stdlib Require Import ZArith Lia Bool.
From stdpp Require Import base numbers list option gmap.
From S2P Require Import Prelude.
From S2P Require Import Abi.
From S2P Require Import Server.
From S2P Require Import Irq.
From S2P Require Import Machine.
From S2P Require Import Paging.
From S2P Require Import MemoryManager.
From S2P Require Import ArchProcess.
From S2P Require Import Scheduler.
From S2P Require Import Transfer.

#[local] Open Scope Z_scope.
#[local] Open Scope kernel_scope.

(** ** Looking up servers *)

Definition sid_of (slot : option Server) : option SID :=
  match slot with Some s => Some (server_sid s) | None => None end.

(** The first slot of a table that satisfies [f]. *)
Definition find_slot (f : Server -> bool) (l : list (option Server)) : option nat :=
  find_index (fun slot => match slot with Some s => f s | None => false end) l.

(** The loop of [connect_to_server] over the connection map, from index [idx]
    on: an existing connection to [sid] or the first free slot.  [None] is an
    access beyond the table of servers. *)
Fixpoint scan_connections (servers : list (option Server)) (sid : SID)
    (connection_map : list (option Z)) (idx : nat) (slot_idx : option nat)
    : option (nat + option nat) :=
  match connection_map with
  | [] => Some (inr slot_idx)
  | None :: rest =>
      scan_connections servers sid rest (S idx)
        (match slot_idx with None => Some idx | Some s => Some s end)
  | Some server_idx :: rest =>
      if server_idx <? 2 then scan_connections servers sid rest (S idx) slot_idx
      else
        match servers !! Z.to_nat (server_idx - 2) with
        | None => None
        | Some slot =>
            if decide (sid_of slot = Some sid) then Some (inl idx)
            else scan_connections servers sid rest (S idx) slot_idx
        end
  end.

Section Services.
Context {M : Type} {HM : MemOps M}.

#[local] Notation "'op' A" := (Machine M -> outcome Error (Machine M) A) (at level 10, A at level 9).
#[local] Notation "'kop' A" := (Kernel M -> outcome Error (Kernel M) A) (at level 10, A at level 9).

(** The page of the active process, which must be the current one's. *)
Definition current_inner : kop ProcessImpl :=
  pid <- arch current_pid;;
  p <- arch get_impl;;
  assert_ (pid =? inner_pid (inner p)) ;;;
  ret p.

Definition put_connection (p : ProcessImpl) (i : nat) (v : option Z) : kop unit :=
  arch (put_impl (set_inner
    (set_connection_map (<[i := v]> (connection_map (inner p))) (inner p)) p)).

Definition connect_to_server (sid : SID) : kop Z :=
  p <- current_inner;;
  l <- gets servers;;
  found <- unwrap (scan_connections l sid (connection_map (inner p)) 0 None);;
  match found with
  | inl connection_idx => ret (Z.of_nat connection_idx + 2)
  | inr slot_idx =>
      slot_idx <- ok_or slot_idx OutOfMemory;;
      match find_slot (fun s => bool_decide (server_sid s = sid)) l with
      | None => fail ServerNotFound
      | Some server_idx =>
          v <- unwrap (NonZero_new (u8 (u8 (Z.of_nat server_idx) + 2)));;
          put_connection p slot_idx (Some v) ;;;
          ret (Z.of_nat slot_idx + 2)
      end
  end.

Definition disconnect_from_server (cid : Z) : kop unit :=
  if cid <? 2 then fail ServerNotFound
  else
    let slot_idx := Z.to_nat (cid - 2) in
    p <- current_inner;;
    match connection_map (inner p) !! slot_idx with
    | None | Some None => fail ServerNotFound
    | Some (Some _) => put_connection p slot_idx None
    end.

Definition sidx_from_sid (sid : SID) (pid : Z) : kop (option nat) :=
  l <- gets servers;;
  ret (find_slot (fun s => (server_pid s =? pid) && bool_decide (server_sid s = sid)) l).

Definition sidx_from_cid (cid : Z) : kop (option Z) :=
  if cid <? 2 then ret None
  else
    p <- current_inner;;
    l <- gets servers;;
    ret (match connection_map (inner p) !! Z.to_nat (cid - 2) with
         | Some (Some server_idx) =>
             if server_idx <? 2 then None
             else if Z.of_nat (length l) <=? server_idx - 2 then None
             else Some (server_idx - 2)
         | _ => None
         end).

(** ** Creating servers *)

Definition create_server_with_address (pid : Z) (sid : SID) (connect : bool) : kop (SID * Z) :=
  p <- get_process pid;;
  assert_ (ppid p =? 1) ;;;
  l <- gets servers;;
  match find_index (fun slot => match slot with None => true | Some _ => false end) l with
  | None => fail ServerNotFound
  | Some i =>
      slot <- unwrap (l !! i);;
      page <- arch (map_zeroed_page pid false);;
      match MemoryRange_new page PAGE_SIZE with
      | Err e => fail e
      | Ok backing =>
          match Server_init slot pid sid backing with
          | Err _ => panic
          | Ok server =>
              modify (fun k => set_servers (<[i := Some server]> (servers k)) k) ;;;
              cid <- (if connect then connect_to_server sid else ret 0);;
              ret (sid, cid)
          end
      end
  end.

(** [create_server_id], for the four words of the random number generator. *)
Definition create_server_id (r0 r1 r2 r3 : Z) : SID := SID_from_u32 r0 r1 r2 r3.

Definition create_server (r0 r1 r2 r3 : Z) (pid : Z) (connect : bool) : kop (SID * Z) :=
  create_server_with_address pid (create_server_id r0 r1 r2 r3) connect.

Definition connect_process_to_server (target_pid : Z) (sid : SID) : kop Z :=
  original_pid <- arch current_pid;;
  process <- get_process target_pid;;
  Process_activate process ;;;
  result <- attempt (connect_to_server sid);;
  process <- get_process original_pid;;
  Process_activate process ;;;
  match result with inl e => fail e | inr cid => ret cid end.

(** ** Messages to a server *)

(** [queue_server_message]: the address space is the server's while its queue
    is changed. *)
Definition queue_server_message (sidx pid thread : Z) (message : Message)
    (original_address : option Z) : kop nat :=
  current_pid <- arch current_pid;;
  server <- server_from_sidx sidx;;
  server <- ok_or server ServerNotFound;;
  server_process <- get_process (server_pid server);;
  arch (MemoryMapping_activate (mapping server_process)) ;;;
  result <- attempt (with_server sidx (queue_message pid thread message original_address));;
  current_process <- unwrap_result (get_process current_pid);;
  arch (MemoryMapping_activate (mapping current_process)) ;;;
  match result with inl e => fail e | inr i => ret i end.

Definition remember_server_message (sidx current_pid current_thread : Z) (message : Message)
    (client_address : option Z) : kop nat :=
  server <- server_from_sidx sidx;;
  server <- ok_or server ServerNotFound;;
  server_process <- get_process (server_pid server);;
  arch (MemoryMapping_activate (mapping server_process)) ;;;
  result <- attempt (with_server sidx
                       (queue_response current_pid current_thread message client_address));;
  current_process <- unwrap_result (get_process current_pid);;
  arch (MemoryMapping_activate (mapping current_process)) ;;;
  match result with inl e => fail e | inr i => ret i end.

(** ** Destroying servers *)

(** Unmap the pages of [virt..virt + size]; an error is unwrapped. *)
Definition unmap_pages (virt size : Z) : kop unit :=
  for_each (step_by virt (add32 virt size) PAGE_SIZE) (fun addr =>
    unwrap_result (arch (unmap_page addr)) ;;; ret tt).

(** What [Server::destroy] does with one entry of the queue. *)
Definition destroy_entry (entry : QueuedMessage) : kop unit :=
  match entry with
  | QM_WaitingForget _ _ _ _ _ _ | QM_WaitingReturnMemory _ _ _ _ _ _
  | QM_WaitingReturnScalar _ _ _ _ => panic
  | QM_Empty | QM_ScalarMessage _ _ _ _ _ _ _ _ _ => ret tt
  | QM_MemoryMessageSend _ _ _ _ _ server_memory_addr memory_length _ _ =>
      unmap_pages server_memory_addr memory_length
  | QM_BlockingScalarTerminated pid tid _ _ _ _ _ _ _
  | QM_BlockingScalarMessage pid tid _ _ _ _ _ _ _ =>
      pid <- unwrap (PID_new pid);;
      unwrap_result (set_thread_result pid tid (R_Error ServerNotFound)) ;;;
      unwrap_result (ready_thread pid tid)
  | QM_MemoryMessageROLend client_pid client_tid _ client_addr _ server_addr buf_size _ _
  | QM_MemoryMessageRWLend client_pid client_tid _ client_addr _ server_addr buf_size _ _
  | QM_MemoryMessageROLendTerminated client_pid client_tid _ client_addr _ server_addr buf_size _ _
  | QM_MemoryMessageRWLendTerminated client_pid client_tid _ client_addr _ server_addr buf_size _ _ =>
      client_pid <- unwrap (PID_new client_pid);;
      unwrap_result (return_memory server_addr client_pid client_addr buf_size) ;;;
      unwrap_result (ready_thread client_pid client_tid) ;;;
      unwrap_result (set_thread_result client_pid client_tid (R_Error ServerNotFound))
  end.

(** The [while let] over the threads that wait for a message; every turn takes
    one of at most 32 threads. *)
Fixpoint wake_threads (fuel : nat) (pid : Z) (s : Server) : kop unit :=
  match fuel with
  | O => fun _ => RStuck
  | S fuel =>
      match take_available_thread s with
      | ROk s (Some tid) =>
          unwrap_result (ready_thread pid tid) ;;;
          unwrap_result (set_thread_result pid tid (R_Error ServerNotFound)) ;;;
          wake_threads fuel pid s
      | ROk _ None => ret tt
      | RErr _ e => fail e
      | RPanic => panic
      | RStuck => fun _ => RStuck
      end
  end.

(** [Server::destroy]: the server itself when it still holds messages of
    clients. *)
Definition Server_destroy (s : Server) : kop (option Server) :=
  if existsb QueuedMessage_is_in_server (queue s) then ret (Some s)
  else
    for_each (queue s) destroy_entry ;;;
    server_pid <- arch current_pid;;
    wake_threads 33 server_pid s ;;;
    unmap_pages (queue_ptr s) (Z.of_nat (length (queue s))) ;;;
    ret None.

(** A loop over the processes that are not free: each is activated and its
    connection map changed. *)
Definition for_each_connection_map (f : option Z -> option Z) : kop unit :=
  l <- gets processes;;
  for_each l (fun process =>
    if Process_free process then ret tt
    else
      Process_activate process ;;;
      arch (with_inner_mut (fun i => set_connection_map (map f (connection_map i)) i))).

Definition destroy_server (pid : Z) (sid : SID) : kop unit :=
  l <- gets servers;;
  let idx := find_slot (fun s => bool_decide (server_sid s = sid) && (server_pid s =? pid)) l in
  server_idx <- ok_or idx ServerNotFound;;
  slot <- unwrap (l !! server_idx);;
  server <- unwrap slot;;
  modify (fun k => set_servers (<[server_idx := None]> (servers k)) k) ;;;
  kept <- Server_destroy server;;
  (match kept with
   | Some server =>
       modify (fun k => set_servers (<[server_idx := Some server]> (servers k)) k) ;;;
       fail ServerQueueFull
   | None => ret tt
   end) ;;;
  pid <- arch current_pid;;
  for_each_connection_map (fun c =>
    match c with
    | Some v => if v =? u8 (Z.of_nat server_idx + 2) then None else Some v
    | None => None
    end) ;;;
  process <- unwrap_result (get_process pid);;
  Process_activate process.

(** ** The end of a process *)

(** [Process::terminate] *)
Definition Process_terminate (p : Process) : kop Process :=
  if Process_free p then fail ProcessNotFound
  else
    unwrap_result (arch (release_all_memory_for_process (proc_pid p))) ;;;
    modify (fun k => set_irqs (release_interrupts_for_pid (proc_pid p) (irqs k)) k) ;;;
    arch (Process_destroy (proc_pid p)) ;;;
    ret (set_state Free p).

(** The first loop of [terminate_process], for the server at [idx]. *)
Definition detach_server (target_pid : Z) (idx : nat) : kop unit :=
  l <- gets servers;;
  match l !! idx with
  | Some (Some server) =>
      (if server_pid server =? target_pid then
         for_each_connection_map (fun c =>
           match c with
           | Some v => Some (if v =? u8 (u8 (Z.of_nat idx) + 2) then 1 else v)
           | None => None
           end)
       else ret tt) ;;;
      l <- gets processes;;
      process <- unwrap (l !! pid_index (server_pid server));;
      Process_activate process ;;;
      modify (fun k => set_servers
        (<[idx := Some (discard_messages_for_pid target_pid server)]> (servers k)) k)
  | _ => ret tt
  end.

Definition terminate_process (target_pid : Z) : kop Z :=
  l <- gets servers;;
  for_each (seq 0 (length l)) (detach_server target_pid) ;;;
  modify (fun k => set_servers
    (map (fun slot => match slot with
                      | Some s => if server_pid s =? target_pid then None else Some s
                      | None => None
                      end) (servers k)) k) ;;;
  process <- get_process target_pid;;
  Process_activate process ;;;
  let parent_pid := ppid process in
  process <- Process_terminate process;;
  put_process target_pid process ;;;
  unwrap_result (switch_to_thread parent_pid None) ;;;
  ret parent_pid.

(** [shutdown] *)
Definition shutdown : kop unit :=
  l <- gets servers;;
  for_each (seq 0 (length l)) (fun server_idx =>
    l <- gets servers;;
    match l !! server_idx with
    | Some (Some server) =>
        modify (fun k => set_servers (<[server_idx := None]> (servers k)) k) ;;;
        kept <- Server_destroy server;;
        match kept with Some _ => panic | None => ret tt end
    | _ => ret tt
    end) ;;;
  l <- gets processes;;
  for_each (seq 0 (length l)) (fun i =>
    l <- gets processes;;
    process <- unwrap (l !! i);;
    if Process_free process then ret tt
    else
      Process_activate process ;;;
      process <- unwrap_result (Process_terminate process);;
      modify (fun k => set_processes (<[i := process]> (processes k)) k)).

(** ** The start of a process *)

(** [arch::process::Process::create], for the random words of the new server's
    identifier. *)
Definition Process_create (r0 r1 r2 r3 : Z) (pid : Z) (init_data : ProcessInit)
    : kop ProcessStartup :=
  current_pid <- arch current_pid;;
  process <- get_process pid;;
  arch (MemoryMapping_activate (mapping process)) ;;;
  let server_id := create_server_id r0 r1 r2 r3 in
  let initial_thread :=
    mk_ThreadInit (pi_start init_data) (pi_stack init_data)
      (sid0 server_id) (sid1 server_id) (sid2 server_id) (sid3 server_id) in
  unwrap_result (arch (Process_setup_process pid initial_thread)) ;;;
  create_server_with_address pid server_id false ;;;
  current <- get_process current_pid;;
  arch (MemoryMapping_activate (mapping current)) ;;;
  cid <- connect_process_to_server current_pid server_id;;
  send_memory (MemoryRange_as_ptr (pi_text init_data)) pid (pi_text_destination init_data)
    (MemoryRange_len (pi_text init_data)) ;;;
  ret (mk_ProcessStartup pid cid).

Definition create_process (r0 r1 r2 r3 : Z) (init_process : ProcessInit) : kop ProcessStartup :=
  l <- gets processes;;
  match find_index Process_free l with
  | None => fail ProcessNotFound
  | Some idx =>
      entry <- unwrap (l !! idx);;
      new_pid <- (match pid_from_usize (Z.of_nat idx + 1) with Ok p => ret p | Err e => fail e end);;
      let put (p : Process) : kop unit :=
        modify (fun k => set_processes (<[idx := p]> (processes k)) k) in
      let entry := mk_Process (mapping entry) Allocated new_pid 1 (current_thread entry)
                     (previous_thread entry) (exception_handler entry) in
      put entry ;;;
      satp <- map_err (fun _ => InternalError)
                (arch (MemoryMapping_allocate (mapping entry) new_pid));;
      put (mk_Process satp Allocated new_pid 1 (current_thread entry) (previous_thread entry)
             (exception_handler entry)) ;;;
      startup <- unwrap_result (Process_create r0 r1 r2 r3 new_pid init_process);;
      l <- gets processes;;
      p <- unwrap (l !! idx);;
      put (set_state (Ready (bit INITIAL_TID)) p) ;;;
      ret startup
  end.
End Services.
