(* ===== verification/ServicesFacts.v ===== *)
(** * Facts about servers, connections and processes

    Connecting to a server and looking the connection up again, the absence of
    connections to servers that do not exist, and what happens to the slot of a
    process that was terminated. *)

From Stdlib Require Import ZArith Lia Bool.
From stdpp Require Import base numbers list option gmap.
From S2P Require Import Prelude.
From S2P Require Import Abi.
From S2P Require Import Server.
From S2P Require Import Irq.
From S2P Require Import Machine.
From S2P Require Import Paging.
From S2P Require Import MemoryManager.
From S2P Require Import MemoryFacts.
From S2P Require Import Memory.
From S2P Require Import ArchProcess.
From S2P Require Import Scheduler.
From S2P Require Import SchedulerFacts.
From S2P Require Import SchedulerInv.
From S2P Require Import ContextSwitch.
From S2P Require Import Transfer.
From S2P Require Import TransferFacts.
From S2P Require Import Services.

#[local] Open Scope Z_scope.
#[local] Open Scope kernel_scope.

(** ** Looking up servers *)

(** The slot [i] holds a server whose identifier is [sid]. *)
Definition serves (l : list (option Server)) (i : nat) (sid : SID) : Prop :=
  exists s, l !! i = Some (Some s) /\ server_sid s = sid.

Lemma find_slot_Some f l i :
  find_slot f l = Some i -> exists s, l !! i = Some (Some s) /\ f s = true.
Proof. intros [([s |] & Hl & Hf) _]%find_index_Some; [eauto | done]. Qed.

Lemma find_slot_None f l i s : find_slot f l = None -> l !! i = Some (Some s) -> f s = false.
Proof. intros Hn Hl. apply (proj1 (find_index_None _ _) Hn _ _ Hl). Qed.

Lemma sid_of_serves l i slot sid :
  l !! i = Some slot -> sid_of slot = Some sid <-> serves l i sid.
Proof.
  intros Hl. unfold serves. destruct slot as [s |]; cbn; rewrite Hl.
  - split; [intros [= <-]; eauto | intros (t & [= <-] & <-); done].
  - split; [done | by intros (t & ? & _)].
Qed.

(** Every connection of a map is a tombstone or within the table of servers. *)
Definition map_ok (n : nat) (cm : list (option Z)) : Prop :=
  forall c v, cm !! c = Some (Some v) -> 1 <= v < Z.of_nat n + 2.

(** The connection [c] of a map leads to a server [sid]. *)
Definition connects (l : list (option Server)) (cm : list (option Z)) (c : nat) (sid : SID) : Prop :=
  exists v, cm !! c = Some (Some v) /\ 2 <= v /\ serves l (Z.to_nat (v - 2)) sid.

(** Whether an entry of the map leads to a server [sid]. *)
Definition leads_to (l : list (option Server)) (sid : SID) (e : option Z) : bool :=
  match e with
  | Some v => negb (v <? 2) && bool_decide (sid_of <$> l !! Z.to_nat (v - 2) = Some (Some sid))
  | None => false
  end.

Lemma leads_to_connects l sid cm c e :
  cm !! c = Some e -> leads_to l sid e = true <-> connects l cm c sid.
Proof.
  intros Hc. unfold leads_to, connects. rewrite Hc. destruct e as [v |]; [| split; [done | by intros (v & ? & _)]].
  rewrite andb_true_iff, negb_true_iff, Z.ltb_ge, bool_decide_eq_true, fmap_Some. split.
  - intros [Hv (slot & Hl & Hs)]. exists v. split_and!; [done | done |].
    by apply (sid_of_serves l _ slot).
  - intros (v' & [= <-] & Hv & s & Hl & Hs). split; [done |]. exists (Some s). cbn.
    split; congruence.
Qed.

Definition is_free (e : option Z) : bool := match e with None => true | Some _ => false end.

#[local] Ltac finish_scan :=
  repeat match goal with |- context [find_index ?f ?l] => destruct (find_index f l) end;
  try match goal with s : option nat |- _ => destruct s end;
  cbn; repeat f_equal; lia.

(** What the scan of the connection map finds: the first connection to the
    server or, if there is none, the first free slot. *)
Lemma scan_connections_eq l sid cm idx slot :
  map_ok (length l) cm ->
  scan_connections l sid cm idx slot
  = Some (match find_index (leads_to l sid) cm with
          | Some c => inl (idx + c)%nat
          | None => inr (match slot with
                         | Some s => Some s
                         | None => (fun c => idx + c)%nat <$> find_index is_free cm
                         end)
          end).
Proof.
  revert idx slot. induction cm as [| e cm IH]; intros idx slot Hok; [by destruct slot |].
  assert (Hok' : map_ok (length l) cm) by (intros c v Hv; by apply (Hok (S c) v)).
  destruct e as [v |]; cbn [scan_connections find_index leads_to is_free].
  - assert (Hv : 1 <= v < Z.of_nat (length l) + 2) by (by apply (Hok 0%nat)).
    destruct (Z.ltb_spec v 2); cbn [negb andb]; [rewrite IH by done; finish_scan |].
    destruct (lookup_lt_is_Some_2 l (Z.to_nat (v - 2))) as [slot' Hs]; [lia |].
    rewrite Hs. cbn [fmap option_fmap option_map]. case_decide as Hd.
    + rewrite bool_decide_true by congruence. by rewrite Nat.add_0_r.
    + rewrite bool_decide_false by congruence. rewrite IH by done. finish_scan.
  - rewrite IH by done. finish_scan.
Qed.

(** ** Connecting *)

Section Connect.
Context {M : Type} {HM : MemOps M}.

Implicit Type k : Kernel M.

(** The page [p] of the active address space is the one of the current process,
    and its connections are within the table of servers. *)
Record active_page k (p : ProcessImpl) : Prop := {
  ap_page : impls (machine k) !! hardware_pid (machine k) = Some p;
  ap_pid : inner_pid (inner p) = pt_current (machine k);
  ap_map : map_ok (length (servers k)) (connection_map (inner p))
}.

Lemma set_machine_same k : set_machine (machine k) k = k.
Proof. by destruct k. Qed.

Lemma current_inner_run k p : active_page k p -> current_inner k = ROk k p.
Proof.
  intros [Hp Hpid _]. unfold current_inner, bind, arch, zoom, current_pid, gets, get_impl, unwrap.
  cbn. rewrite Hp. cbn. rewrite Hpid, Z.eqb_refl. cbn. by rewrite !set_machine_same.
Qed.

(** The server that the connection [cid] of a map leads to. *)
Definition target (n : nat) (cm : list (option Z)) (cid : Z) : option Z :=
  if cid <? 2 then None
  else match cm !! Z.to_nat (cid - 2) with
       | Some (Some v) =>
           if v <? 2 then None else if Z.of_nat n <=? v - 2 then None else Some (v - 2)
       | _ => None
       end.

Lemma sidx_from_cid_run k p cid :
  active_page k p ->
  sidx_from_cid cid k = ROk k (target (length (servers k)) (connection_map (inner p)) cid).
Proof.
  intros Hp. unfold sidx_from_cid, target. destruct (cid <? 2); [done |].
  unfold bind. by rewrite (current_inner_run _ _ Hp).
Qed.

(** The kernel after the connection [c] of the active process was set to [v]. *)
Definition set_connection k (p : ProcessImpl) (c : nat) (v : option Z) : Kernel M :=
  set_machine (set_impls (<[hardware_pid (machine k) :=
    set_inner (set_connection_map (<[c := v]> (connection_map (inner p))) (inner p)) p]>
      (impls (machine k))) (machine k)) k.

Lemma set_connection_page k p c v :
  active_page k p -> (forall x, v = Some x -> 1 <= x < Z.of_nat (length (servers k)) + 2) ->
  active_page (set_connection k p c v)
    (set_inner (set_connection_map (<[c := v]> (connection_map (inner p))) (inner p)) p).
Proof.
  intros [Hp Hpid Hm] Hv. split; cbn; [apply lookup_insert_eq | done |].
  intros j x Hj. apply list_lookup_insert_Some in Hj as [(_ & -> & _) | [_ Hj]]; eauto.
Qed.

Lemma connects_target l cm c sid :
  map_ok (length l) cm -> connects l cm c sid ->
  exists i, target (length l) cm (Z.of_nat c + 2) = Some (Z.of_nat i) /\ serves l i sid.
Proof.
  intros Hok (v & Hv & Hge & Hs). exists (Z.to_nat (v - 2)). split; [| done].
  specialize (Hok _ _ Hv). unfold target. destruct (Z.ltb_spec (Z.of_nat c + 2) 2); [lia |].
  replace (Z.to_nat (Z.of_nat c + 2 - 2)) with c by lia. rewrite Hv.
  destruct (Z.ltb_spec v 2); [lia |]. destruct (Z.leb_spec (Z.of_nat (length l)) (v - 2)); [lia |].
  f_equal. lia.
Qed.

(** A map in which connection [c] is the first to [sid]. *)
Lemma connect_existing k p c sid :
  active_page k p -> connects (servers k) (connection_map (inner p)) c sid ->
  (forall j, (j < c)%nat -> ~ connects (servers k) (connection_map (inner p)) j sid) ->
  connect_to_server sid k = ROk k (Z.of_nat c + 2).
Proof.
  intros Hp Hc Hmin. unfold connect_to_server, bind. rewrite (current_inner_run _ _ Hp).
  unfold gets. rewrite scan_connections_eq by apply Hp.
  assert (find_index (leads_to (servers k) sid) (connection_map (inner p)) = Some c) as ->; [| done].
  apply find_index_Some. pose proof Hc as (v & Hv & _). split.
  - exists (Some v). split; [done |]. by apply (leads_to_connects _ _ (connection_map (inner p)) c).
  - intros j e Hj He. apply not_true_is_false. intros Hl. apply (Hmin j Hj).
    by apply (leads_to_connects _ _ _ _ e).
Qed.

Lemma target_insert n cm c v cid :
  cid <> Z.of_nat c + 2 -> target n (<[c := v]> cm) cid = target n cm cid.
Proof.
  intros Hne. unfold target. destruct (Z.ltb_spec cid 2); [done |].
  rewrite list_lookup_insert_ne by lia. done.
Qed.

(** What connecting promises. *)
Definition connect_post (sid : SID) k (p : ProcessImpl) (r : outcome Error (Kernel M) Z) : Prop :=
  match r with
  | ROk k' cid =>
      servers k' = servers k /\
      (exists i, sidx_from_cid cid k' = ROk k' (Some (Z.of_nat i)) /\ serves (servers k) i sid) /\
      connect_to_server sid k' = ROk k' cid /\
      forall c sidx, c <> cid -> sidx_from_cid c k = ROk k sidx -> sidx_from_cid c k' = ROk k' sidx
  | RErr k' e =>
      k' = k /\
      (e = OutOfMemory /\ (forall c, connection_map (inner p) !! c <> Some None) /\
       (forall c, ~ connects (servers k) (connection_map (inner p)) c sid) \/
       e = ServerNotFound /\ forall i, ~ serves (servers k) i sid)
  | _ => False
  end.

(** The kernel with a new connection [c] to the server [i]. *)
Lemma connect_new k p c i sid :
  active_page k p -> serves (servers k) i sid -> (i < length (servers k) <= 253)%nat ->
  connection_map (inner p) !! c = Some None ->
  (forall j, ~ connects (servers k) (connection_map (inner p)) j sid) ->
  connect_post sid k p (ROk (set_connection k p c (Some (Z.of_nat i + 2))) (Z.of_nat c + 2)).
Proof.
  intros Hp Hs Hi Hc Hno. set (k' := set_connection k p c (Some (Z.of_nat i + 2))).
  set (cm' := <[c := Some (Z.of_nat i + 2)]> (connection_map (inner p))).
  set (p' := set_inner (set_connection_map cm' (inner p)) p).
  assert (Hp' : active_page k' p') by (apply set_connection_page; [done | intros x [= <-]; lia]).
  assert (Hcm : cm' !! c = Some (Some (Z.of_nat i + 2)))
    by (apply list_lookup_insert_eq; by eapply lookup_lt_Some).
  assert (Hconn : connects (servers k') cm' c sid).
  { exists (Z.of_nat i + 2). split_and!; [done | lia |].
    by replace (Z.to_nat (Z.of_nat i + 2 - 2)) with i by lia. }
  split_and!; [done | | |].
  - rewrite (sidx_from_cid_run _ _ _ Hp').
    destruct (connects_target _ _ _ _ (ap_map _ _ Hp') Hconn) as (j & -> & Hj). by exists j.
  - apply (connect_existing k' p'); [done | done |]. intros j Hj (v & Hv & Hrest).
    cbn in Hv. unfold cm' in Hv. rewrite list_lookup_insert_ne in Hv by lia. apply (Hno j). by exists v.
  - intros cid sidx Hne. rewrite (sidx_from_cid_run _ _ _ Hp), (sidx_from_cid_run _ _ _ Hp').
    intros [= <-]. f_equal. by apply target_insert.
Qed.

(** The four ways in which connecting ends. *)
Lemma connect_cases sid k p :
  active_page k p -> (length (servers k) <= 253)%nat ->
  let cm := connection_map (inner p) in
  (exists c, connect_to_server sid k = ROk k (Z.of_nat c + 2) /\ connects (servers k) cm c sid)
  \/ (forall c, ~ connects (servers k) cm c sid)
     /\ ((exists c i, connect_to_server sid k = ROk (set_connection k p c (Some (Z.of_nat i + 2))) (Z.of_nat c + 2)
            /\ cm !! c = Some None /\ serves (servers k) i sid)
         \/ connect_to_server sid k = RErr k OutOfMemory /\ (forall c, cm !! c <> Some None)
         \/ connect_to_server sid k = RErr k ServerNotFound /\ forall i, ~ serves (servers k) i sid).
Proof.
  intros Hp Hlen cm. pose proof (ap_map _ _ Hp) as Hok. fold cm in Hok.
  destruct (find_index (leads_to (servers k) sid) cm) as [c |] eqn:Hc.
  { left. exists c. apply find_index_Some in Hc as [(e & He & Hl) Hmin].
    apply (leads_to_connects _ _ _ _ _ He) in Hl. split; [| done].
    apply (connect_existing k p); [done | done |]. intros j Hj Hcon.
    pose proof Hcon as (v & Hv & _). apply (leads_to_connects _ _ _ _ _ Hv) in Hcon.
    by rewrite (Hmin j _ Hj Hv) in Hcon. }
  right. split.
  { intros c Hcon. pose proof Hcon as (v & Hv & _). apply (leads_to_connects _ _ _ _ _ Hv) in Hcon.
    by rewrite (proj1 (find_index_None _ _) Hc _ _ Hv) in Hcon. }
  unfold connect_to_server, bind. rewrite (current_inner_run _ _ Hp). unfold gets. fold cm.
  rewrite scan_connections_eq, Hc by done. cbn [unwrap].
  destruct (find_index is_free cm) as [c |] eqn:Hfree; cbn.
  - apply find_index_Some in Hfree as [([v |] & Hfree & ?) _]; [done |].
    destruct (find_slot _ _) as [i |] eqn:Hi.
    + left. exists c, i. apply find_slot_Some in Hi as (s & Hi & Hs%bool_decide_eq_true).
      pose proof (lookup_lt_Some _ _ _ Hi). rewrite (u8_id (Z.of_nat i)), u8_id by lia.
      rewrite NonZero_new_Some by lia. split_and!; [done | done | by exists s].
    + right. right. split; [done |]. intros i (s & Hs & <-).
      apply (find_slot_None _ _ _ _ Hi) in Hs. by rewrite bool_decide_true in Hs.
  - right. left. split; [done |]. intros c Hcc. by apply (proj1 (find_index_None _ _) Hfree) in Hcc.
Qed.

(** Connecting to a server always ends in one of three ways.  It returns a
    connection number that the kernel resolves to a server with the requested
    identifier; asking again gives the same number, and every other connection
    of the process resolves as before.  Or it finds no server with that
    identifier, or there is no such connection and no free slot for one; then
    nothing has changed. *)
Lemma connect_to_server_run sid k p :
  active_page k p -> (length (servers k) <= 253)%nat ->
  connect_post sid k p (connect_to_server sid k).
Proof.
  intros Hp Hlen. pose proof (ap_map _ _ Hp) as Hok.
  destruct (connect_cases sid k p Hp Hlen) as [(c & E & Hc) | [Hno [(c & i & E & Hc & Hs) | [[E Hfull] | [E Hs]]]]]; rewrite E.
  - split_and!; [done | | done | done]. rewrite (sidx_from_cid_run _ _ _ Hp).
    destruct (connects_target _ _ _ _ Hok Hc) as (j & -> & Hj). by exists j.
  - apply connect_new; try done. pose proof Hs as (s & Hi & _). pose proof (lookup_lt_Some _ _ _ Hi). lia.
  - split; [done |]. by left.
  - split; [done |]. by right.
Qed.
End Connect.

(** ** Disconnecting *)

Section Disconnect.
Context {M : Type} {HM : MemOps M}.

Implicit Type k : Kernel M.

(** The connection [cid] of the map is in use. *)
Definition in_use (cm : list (option Z)) (cid : Z) : bool :=
  negb (cid <? 2) && match cm !! Z.to_nat (cid - 2) with Some (Some _) => true | _ => false end.

Lemma disconnect_run k p cid :
  active_page k p ->
  disconnect_from_server cid k
  = if in_use (connection_map (inner p)) cid
    then ROk (set_connection k p (Z.to_nat (cid - 2)) None) tt
    else RErr k ServerNotFound.
Proof.
  intros Hp. unfold disconnect_from_server, in_use. destruct (cid <? 2); [done |].
  unfold bind. rewrite (current_inner_run _ _ Hp).
  by destruct (connection_map (inner p) !! Z.to_nat (cid - 2)) as [[] |].
Qed.

Lemma not_in_use_target n cm cid : in_use cm cid = false -> target n cm cid = None.
Proof.
  unfold in_use, target. destruct (cid <? 2); [done |].
  by destruct (cm !! Z.to_nat (cid - 2)) as [[] |].
Qed.

Lemma in_use_clear cm cid : in_use (<[Z.to_nat (cid - 2) := None]> cm) cid = false.
Proof.
  unfold in_use. destruct (cid <? 2); [done |]. cbn.
  destruct (decide (Z.to_nat (cid - 2) < length cm)%nat) as [Hlt | Hge].
  - by rewrite list_lookup_insert_eq.
  - by rewrite lookup_ge_None_2 by (rewrite length_insert; lia).
Qed.
End Disconnect.

(** Disconnecting makes the connection number invalid and leaves every
    other connection as it was; a number that is not a connection is refused
    and nothing changes. *)
Lemma disconnect_from_server_spec {M} {HM : MemOps M} (cid : Z) (k : Kernel M) (p : ProcessImpl) :
  active_page k p ->
  match disconnect_from_server cid k with
  | ROk k' _ =>
      servers k' = servers k /\ sidx_from_cid cid k' = ROk k' None /\
      disconnect_from_server cid k' = RErr k' ServerNotFound /\
      forall c sidx, c <> cid -> sidx_from_cid c k = ROk k sidx -> sidx_from_cid c k' = ROk k' sidx
  | RErr k' e => k' = k /\ e = ServerNotFound /\ sidx_from_cid cid k = ROk k None
  | _ => False
  end.
Proof.
  intros Hp. rewrite (disconnect_run _ _ _ Hp).
  destruct (in_use (connection_map (inner p)) cid) eqn:Hu.
  2: { by rewrite (sidx_from_cid_run _ _ _ Hp), not_in_use_target. }
  assert (Hcid : 2 <= cid) by (unfold in_use in Hu; zbool; lia).
  pose proof (set_connection_page k p (Z.to_nat (cid - 2)) None Hp ltac:(done)) as Hp'.
  split_and!; [done | | |].
  - by rewrite (sidx_from_cid_run _ _ _ Hp'), not_in_use_target by apply in_use_clear.
  - rewrite (disconnect_run _ _ _ Hp'). cbn [inner set_inner connection_map set_connection_map].
    by rewrite in_use_clear.
  - intros c sidx Hne. rewrite (sidx_from_cid_run _ _ _ Hp), (sidx_from_cid_run _ _ _ Hp').
    intros [= <-]. f_equal. apply target_insert. lia.
Qed.

(** The example after process 1 has connected to the server. *)
Definition connected_kernel : Kernel Memory := set_connection example_kernel (example_impl 1) 0 (Some 2).
