(* ===== verification/ConnectionInv.v ===== *)
(** * No connection to a server that does not exist

    Every entry of the connection map of a live process is a tombstone or leads
    to a slot that holds a server.  Destroying a server and terminating a process
    keep this, whatever their outcome. *)

From Stdlib Require Import ZArith Lia Bool.
From stdpp Require Import base numbers list option gmap.
From S2P Require Import Prelude.
From S2P Require Import Abi.
From S2P Require Import Server.
From S2P Require Import Irq.
From S2P Require Import Machine.
From S2P Require Import Paging.
From S2P Require Import MemoryManager.
From S2P Require Import MemoryFacts.
From S2P Require Import Memory.
From S2P Require Import ArchProcess.
From S2P Require Import Scheduler.
From S2P Require Import SchedulerFacts.
From S2P Require Import SchedulerInv.
From S2P Require Import Transfer.
From S2P Require Import TransferFacts.
From S2P Require Import Services.
From S2P Require Import ServicesFacts.

#[local] Open Scope Z_scope.
#[local] Open Scope kernel_scope.

(** ** Operations that keep the connections *)

(** Which processes are live, and their address spaces. *)
Definition live {M} (k : Kernel M) : list (bool * Z) :=
  (fun p => (Process_free p, mapping p)) <$> processes k.

(** The connections, the servers and the live processes are the same. *)
Definition quiet {M} (k k' : Kernel M) : Prop :=
  conns (machine k') = conns (machine k) /\ live k' = live k /\ servers k' = servers k.

Lemma quiet_refl {M} (k : Kernel M) : quiet k k.
Proof. done. Qed.

Lemma quiet_trans {M} (k1 k2 k3 : Kernel M) : quiet k1 k2 -> quiet k2 k3 -> quiet k1 k3.
Proof. intros (? & ? & ?) (? & ? & ?). split_and!; congruence. Qed.

(** Every outcome of the run is quiet. *)
Definition stays {M A} (r : outcome Error (Kernel M) A) (k : Kernel M) : Prop :=
  sat r (fun k' _ => quiet k k') (fun k' _ => quiet k k').

(** The operation of the machine keeps the connections. *)
Definition mstays {M A} (f : Machine M -> outcome Error (Machine M) A) : Prop :=
  forall m, sat (f m) (fun m' _ => conns m' = conns m) (fun m' _ => conns m' = conns m).

Create HintDb stays discriminated.

Section Stays.
Context {M : Type} {HM : MemOps M} {HL : MemLaws M}.

Implicit Type k : Kernel M.

Lemma stays_bind {A B} (f : Kernel M -> outcome Error (Kernel M) A)
    (g : A -> Kernel M -> outcome Error (Kernel M) B) k :
  stays (f k) k -> (forall a k', quiet k k' -> stays (g a k') k') -> stays (bind f g k) k.
Proof.
  intros Hf Hg. unfold stays. sat_step. eapply sat_mono; [exact Hf | | done]. intros k' a Hk.
  cbn in Hk. eapply sat_mono; [by apply Hg | |]; intros k2 ? H2; by eapply quiet_trans.
Qed.

Lemma stays_ret {A} (a : A) k : stays (ret a k) k.
Proof. done. Qed.

Lemma stays_fail {A} e k : stays (A := A) (fail e k) k.
Proof. done. Qed.

Lemma stays_panic {A} k : stays (A := A) (panic k) k.
Proof. done. Qed.

Lemma stays_assert b k : stays (assert_ b k) k.
Proof. by apply sat_assert. Qed.

Lemma stays_unwrap {A} (o : option A) k : stays (unwrap o k) k.
Proof. by apply sat_unwrap. Qed.

Lemma stays_gets {A} (f : Kernel M -> A) k : stays (gets f k) k.
Proof. done. Qed.

Lemma stays_unwrap_result {A} (f : Kernel M -> outcome Error (Kernel M) A) k :
  stays (f k) k -> stays (unwrap_result f k) k.
Proof. intros Hf. apply sat_unwrap_result. by eapply sat_mono; [exact Hf | |]. Qed.

Lemma stays_attempt {A} (f : Kernel M -> outcome Error (Kernel M) A) k :
  stays (f k) k -> stays (attempt f k) k.
Proof. intros Hf. by apply sat_attempt. Qed.

Lemma stays_for_each {A} (l : list A) (f : A -> Kernel M -> outcome Error (Kernel M) unit) k :
  (forall x k', stays (f x k') k') -> stays (for_each l f k) k.
Proof.
  intros Hf. revert k. induction l as [| x l IH]; intros k; [done |].
  apply stays_bind; [apply Hf | auto].
Qed.

Lemma stays_get_process pid k : stays (get_process pid k) k.
Proof. by apply sat_get_process. Qed.

Lemma stays_arch {A} (f : Machine M -> outcome Error (Machine M) A) k :
  mstays f -> stays (arch f k) k.
Proof. intros Hf. apply sat_zoom. eapply sat_mono; [apply Hf | |]; cbn; intros ? ? H; done. Qed.

Lemma sat_arch_conns {A} (f : Machine M -> outcome Error (Machine M) A) k Q X :
  mstays f ->
  (forall m a, conns m = conns (machine k) -> Q (set_machine m k) a) ->
  (forall m e, conns m = conns (machine k) -> X (set_machine m k) e) ->
  sat (arch f k) Q X.
Proof. intros Hf HQ HX. apply sat_zoom. eapply sat_mono; [apply Hf | |]; cbn; auto. Qed.

Lemma sat_activate_conns p k Q X :
  (forall m, conns m = conns (machine k) -> Q (set_machine m k) tt) ->
  sat (Process_activate p k) Q X.
Proof. intros HQ. apply sat_activate. intros m _ _ Him. apply HQ. unfold conns. by rewrite Him. Qed.

Lemma stays_restores {A} (r : outcome Error (Kernel M) A) k : restores r k -> stays r k.
Proof.
  intros Hr. eapply sat_mono; [exact Hr | |]; intros k' ? (Hp & Hs & _ & _ & _ & _ & Hc & _);
    (split_and!; [by apply conns_core | unfold live; by rewrite Hp | done]).
Qed.

(** Operations on memory. *)
Lemma mstays_mem_op S {A} (f : Machine M -> outcome Error (Machine M) A) : mem_op S f -> mstays f.
Proof.
  intros Hf m. eapply sat_mono; [apply Hf | |]; intros m' ? (_ & _ & _ & Hc & _); by apply conns_core.
Qed.

Lemma mstays_unmap_page virt : mstays (unmap_page (M := M) virt).
Proof. apply (mstays_mem_op here). auto with mem_op. Qed.

Lemma mstays_release_process pid : mstays (release_all_memory_for_process (M := M) pid).
Proof. apply (mstays_mem_op here). auto with mem_op. Qed.

Lemma stays_activate p k : stays (Process_activate p k) k.
Proof.
  apply sat_activate. intros m _ _ Him. split_and!; [| done | done]. unfold conns. cbn.
  by rewrite Him.
Qed.

(** A process whose state changes, but which stays live. *)
Lemma quiet_put pid p p' k :
  processes k !! pid_index pid = Some p -> mapping p' = mapping p ->
  Process_free p' = Process_free p ->
  quiet k (set_processes (<[pid_index pid := p']> (processes k)) k).
Proof.
  intros Hp Hm Hf. split_and!; [done | | done]. unfold live. cbn. rewrite list_fmap_insert.
  apply list_insert_id. by rewrite list_lookup_fmap, Hp, Hm, Hf.
Qed.

Lemma mstays_bind {A B} (f : Machine M -> outcome Error (Machine M) A)
    (g : A -> Machine M -> outcome Error (Machine M) B) :
  mstays f -> (forall a, mstays (g a)) -> mstays (bind f g).
Proof.
  intros Hf Hg m. sat_step. eapply sat_mono; [apply Hf | | done]. intros m' a Hm. cbn in Hm.
  eapply sat_mono; [apply Hg | |]; cbn; intros; congruence.
Qed.

Lemma mstays_current : mstays (Process_current (M := M)).
Proof. intros m. unfold Process_current. by destruct (_ =? _). Qed.

Lemma mstays_current_pid : mstays (current_pid (M := M)).
Proof. by intros m. Qed.

Lemma mstays_mapping s : mstays (MemoryMapping_activate (M := M) s).
Proof. by intros m. Qed.

(** An update of the active page that keeps its connections. *)
Lemma mstays_put (m : Machine M) p p' :
  impls m !! hardware_pid m = Some p ->
  connection_map (inner p') = connection_map (inner p) ->
  conns (set_impls (<[hardware_pid m := p']> (impls m)) m) = conns m.
Proof. intros Hp Hc. unfold conns. cbn. by eapply fmap_insert_same. Qed.

#[local] Ltac mput :=
  intros m; repeat (unfold get_impl, put_impl, Process_thread; sat_step); try done;
  try (by eapply mstays_put).

Lemma mstays_update_thread tid f : mstays (update_thread (M := M) tid f).
Proof. unfold update_thread. mput. Qed.

Lemma mstays_set_tid tid : mstays (Process_set_tid (M := M) tid).
Proof. unfold Process_set_tid. mput. Qed.

Lemma mstays_inner_pid pid : mstays (with_inner_mut (M := M) (set_inner_pid pid)).
Proof. unfold with_inner_mut. mput. Qed.

Lemma mstays_thread tid : mstays (Process_thread (M := M) tid).
Proof. unfold Process_thread. mput. Qed.

Lemma mstays_setup_thread pid tid init : mstays (Process_setup_thread (M := M) pid tid init).
Proof.
  unfold Process_setup_thread. apply mstays_bind; [apply mstays_thread |]. intros _.
  intros m. sat_step; [done |]. sat_step. sat_step. exact (mstays_update_thread _ _ (set_spp _ m)).
Qed.
End Stays.

#[export] Hint Resolve stays_ret stays_fail stays_panic stays_assert stays_unwrap stays_gets
  stays_get_process stays_activate stays_arch mstays_current mstays_current_pid mstays_mapping
  mstays_update_thread mstays_set_tid mstays_inner_pid mstays_setup_thread mstays_unmap_page
  mstays_release_process : stays.

(** Steps through a run whose operations are all quiet. *)
Ltac stays :=
  repeat first
    [ solve [auto with stays]
    | apply stays_bind; [| intros]
    | apply stays_unwrap_result
    | apply stays_attempt
    | lazymatch goal with |- stays ((if ?b then _ else _) _) _ => destruct b end
    | lazymatch goal with |- stays ((match ?x with _ => _ end) _) _ => destruct x end ].

(** The next step of a run, tracking the connections. *)
Ltac qstep :=
  lazymatch goal with
  | |- sat (get_process _ _) _ _ => apply sat_get_process; [intros ? ? ? ? ? |]
  | |- sat (put_process _ _ _) _ _ => apply sat_put_process
  | |- sat (Process_activate _ _) _ _ => apply sat_activate_conns; intros ? ?
  | |- sat (arch current_pid _) _ _ => apply sat_current_pid; rewrite set_machine_same
  | |- sat (arch _ _) _ _ =>
      apply sat_arch_conns; [auto with stays | intros ? ? ? | intros ? ? ?]
  | |- _ => sat_step
  end.

Section Quiet.
Context {M : Type} {HM : MemOps M} {HL : MemLaws M}.

Implicit Type k : Kernel M.

Lemma ready_thread_stays pid tid k : stays (ready_thread pid tid k) k.
Proof.
  unfold ready_thread, stays. kstep. kstep; [| done]. kstep. unfold Process_free in *.
  destruct (pstate p) eqn:Hs; repeat kstep; try done;
    (eapply quiet_put; [done | done |]; unfold Process_free; cbn; by rewrite Hs).
Qed.

Lemma set_thread_result_stays pid tid r k : stays (set_thread_result pid tid r k) k.
Proof. unfold set_thread_result, Process_set_thread_result. stays. Qed.
#[local] Hint Resolve ready_thread_stays set_thread_result_stays : stays.

Lemma unmap_pages_stays virt size k : stays (unmap_pages virt size k) k.
Proof.
  apply stays_for_each. intros a k'. stays.
Qed.

Lemma return_memory_stays src_virt dest_pid dest_virt len k :
  stays (return_memory src_virt dest_pid dest_virt len k) k.
Proof. apply stays_restores, return_memory_space. Qed.
#[local] Hint Resolve unmap_pages_stays return_memory_stays : stays.

(** Quiet runs that return no error. *)
Definition calm {A} (r : outcome Error (Kernel M) A) k : Prop :=
  sat r (fun k' _ => quiet k k') (fun _ _ => False).

Lemma calm_bind {A B} (f : Kernel M -> outcome Error (Kernel M) A)
    (g : A -> Kernel M -> outcome Error (Kernel M) B) k :
  calm (f k) k -> (forall a k', quiet k k' -> calm (g a k') k') -> calm (bind f g k) k.
Proof.
  intros Hf Hg. unfold calm. sat_step. eapply sat_mono; [exact Hf | | done]. intros k' a Hk.
  cbn in Hk. eapply sat_mono; [by apply Hg | | done]. intros k2 ? H2. by eapply quiet_trans.
Qed.

Lemma calm_ret {A} (a : A) k : calm (ret a k) k.
Proof. done. Qed.

Lemma calm_unwrap {A} (o : option A) k : calm (unwrap o k) k.
Proof. by apply sat_unwrap. Qed.

Lemma calm_unwrap_result {A} (f : Kernel M -> outcome Error (Kernel M) A) k :
  stays (f k) k -> calm (unwrap_result f k) k.
Proof. intros Hf. apply sat_unwrap_result. by eapply sat_mono; [exact Hf | |]. Qed.

Lemma calm_for_each {A} (l : list A) (f : A -> Kernel M -> outcome Error (Kernel M) unit) k :
  (forall x k', calm (f x k') k') -> calm (for_each l f k) k.
Proof.
  intros Hf. revert k. induction l as [| x l IH]; intros k; [done |].
  apply calm_bind; [apply Hf | auto].
Qed.

#[local] Ltac calm :=
  repeat first
    [ apply calm_ret | apply calm_unwrap | apply calm_unwrap_result; solve [auto with stays]
    | apply calm_bind; [| intros] | done ].

Lemma unmap_pages_calm virt size k : calm (unmap_pages virt size k) k.
Proof.
  apply calm_for_each. intros a k'. apply calm_bind; [| intros; apply calm_ret].
  apply calm_unwrap_result. auto with stays.
Qed.

Lemma destroy_entry_calm e k : calm (destroy_entry e k) k.
Proof. destruct e; cbn [destroy_entry]; try apply unmap_pages_calm; calm. Qed.

(** Every turn takes the lowest thread, so the fuel is enough. *)
Lemma wake_threads_calm fuel pid s k :
  mask_ok (Server.ready_threads s) -> (1 <= fuel)%nat ->
  (forall j, 0 <= j < 33 - Z.of_nat fuel -> Z.testbit (Server.ready_threads s) j = false) ->
  calm (wake_threads fuel pid s k) k.
Proof.
  revert s k. induction fuel as [| fuel IH]; intros s k Hm Hf Hlow; [lia |]. cbn [wake_threads].
  unfold take_available_thread. destruct (Z.eqb_spec (Server.ready_threads s) 0) as [| Hne]; [done |].
  destruct (lowest_bit_exists (Server.ready_threads s)) as [t Ht]; [unfold mask_ok in Hm; lia |].
  pose proof Ht as (Hr & Hset & Hmin). change 1 with (bit 0).
  rewrite (available_loop_spec 32 0 t) by (done || lia).
  assert (Htl : 33 - Z.of_nat (S fuel) <= t).
  { destruct (Z.lt_ge_cases t (33 - Z.of_nat (S fuel))) as [Hlt |]; [| lia].
    rewrite Hlow in Hset by lia. done. }
  calm. apply IH; [by apply mask_ok_clear | lia |].
  intros j Hj. cbn [Server.ready_threads set_ready_threads].
  rewrite clear_bit_spec by (done || lia). destruct (Z.eqb_spec j t); [by rewrite andb_false_r |].
  rewrite Hmin by lia. done.
Qed.

Lemma Server_destroy_calm s k :
  mask_ok (Server.ready_threads s) ->
  sat (Server_destroy s k) (fun k' r => quiet k k' /\ (r = None \/ r = Some s)) (fun _ _ => False).
Proof.
  intros Hm. unfold Server_destroy. destruct (existsb _ _); [sat_step; split; [done | by right] |].
  sat_step. eapply sat_mono; [apply calm_for_each; intros; apply destroy_entry_calm | | done].
  intros k1 [] Hk1. sat_step. apply sat_current_pid. rewrite set_machine_same. sat_step.
  eapply sat_mono; [apply wake_threads_calm; [done | lia | lia] | | done].
  intros k2 [] Hk2. sat_step. eapply sat_mono; [apply unmap_pages_calm | | done].
  intros k3 [] Hk3. sat_step. split; [| by left].
  eapply quiet_trans; [exact Hk1 |]. by eapply quiet_trans.
Qed.

(** What follows from the equality of the connection maps. *)
Lemma quiet_machine m k : conns m = conns (machine k) -> quiet k (set_machine m k).
Proof. done. Qed.

Lemma switch_to_thread_stays pid tid k : stays (switch_to_thread pid tid k) k.
Proof.
  unfold switch_to_thread, choose_thread, stays. qstep. qstep; [| done].
  assert (Hfin : forall k' p', processes k' = processes k -> conns (machine k') = conns (machine k) ->
            servers k' = servers k -> mapping p' = mapping p -> Process_free p' = false ->
            quiet k (set_processes (<[pid_index pid := p']> (processes k')) k')).
  { intros k' p' Hp Hc Hs Hm Hf. apply (quiet_trans _ k').
    - split_and!; [done | unfold live; by rewrite Hp | done].
    - apply (quiet_put pid p); congruence. }
  qstep. destruct (pstate p) eqn:Hs; try exact I; try (by repeat qstep);
    try (destruct tid); repeat qstep; cbn [machine set_machine] in *;
    first [ apply Hfin; cbn; congruence || done
          | apply (quiet_trans _ _ _ (quiet_refl k)); split_and!; [cbn; congruence | done | done] ].
Qed.
End Quiet.

(** ** Changing all connection maps *)

(** The connections of the address space [a] satisfy [P]. *)
Definition map_all {M} (P : Z -> Prop) (m : Machine M) (a : Z) : Prop :=
  forall cm c v, conns m !! satp_asid a = Some cm -> cm !! c = Some (Some v) -> P v.

(** The connections of all live processes satisfy [P]. *)
Definition conn_all {M} (P : Z -> Prop) (k : Kernel M) : Prop :=
  forall i a, live k !! i = Some (false, a) -> map_all P (machine k) a.

Lemma conn_all_quiet {M} P (k k' : Kernel M) : quiet k k' -> conn_all P k -> conn_all P k'.
Proof.
  intros (Hc & Hl & _) Hk i a Hi cm c v. rewrite Hc. rewrite Hl in Hi. by apply (Hk i).
Qed.

Lemma conn_all_impl {M} (P P' : Z -> Prop) (k : Kernel M) :
  (forall v, P v -> P' v) -> conn_all P k -> conn_all P' k.
Proof. intros HP Hk i a Hi cm c v Hcm Hv. apply HP. by apply (Hk i a Hi cm c). Qed.

Section Maps.
Context {M : Type} {HM : MemOps M}.

Implicit Type k : Kernel M.

Context (f : option Z -> option Z) (Old New : Z -> Prop).
Context (Hf : forall v w, Old v -> f (Some v) = Some w -> New w).
Context (Hf0 : f None = None) (Hsub : forall v, New v -> Old v).

(** The connections of the active address space go through [f]. *)
Definition map_step (m m' : Machine M) : Prop :=
  exists cm, conns m !! hardware_pid m = Some cm /\
             conns m' = <[hardware_pid m := map f cm]> (conns m).

Lemma with_inner_mut_step (m : Machine M) :
  sat (with_inner_mut (fun i => set_connection_map (map f (connection_map i)) i) m)
    (fun m' _ => map_step m m') (fun _ _ => False).
Proof.
  unfold with_inner_mut, get_impl, put_impl. repeat sat_step.
  exists (connection_map (inner a)). unfold conns. cbn. rewrite lookup_fmap, H, fmap_insert. done.
Qed.

Lemma map_step_all (m m' : Machine M) a :
  map_step m m' -> map_all Old m a ->
  map_all Old m' a /\ (map_all New m a -> map_all New m' a) /\
  (satp_asid a = hardware_pid m -> map_all New m' a).
Proof.
  intros (cm0 & Hcm0 & Hm') Ho.
  assert (Hcase : forall cm c v, conns m' !! satp_asid a = Some cm -> cm !! c = Some (Some v) ->
            (satp_asid a = hardware_pid m /\ New v) \/
            (satp_asid a <> hardware_pid m /\ conns m !! satp_asid a = Some cm)).
  { intros cm c v. rewrite Hm'. destruct (decide (satp_asid a = hardware_pid m)) as [Heq | Hne].
    - rewrite Heq, lookup_insert_eq. intros [= <-]. rewrite list_lookup_fmap, fmap_Some.
      intros ([w |] & Hw & Hv); [| by rewrite Hf0 in Hv]. left. split; [done |].
      apply (Hf w); [| done]. apply (Ho cm0 c); [by rewrite Heq | done].
    - rewrite lookup_insert_ne by done. auto. }
  split_and!.
  - intros cm c v Hcm Hv. destruct (Hcase cm c v Hcm Hv) as [[_ ?] | [_ ?]]; eauto.
  - intros Hn cm c v Hcm Hv. destruct (Hcase cm c v Hcm Hv) as [[_ ?] | [_ ?]]; eauto.
  - intros Heq cm c v Hcm Hv. destruct (Hcase cm c v Hcm Hv) as [[_ ?] | [? _]]; done.
Qed.

(** The body of the loop, for one live process. *)
Definition map_body (process : Process) : Kernel M -> outcome Error (Kernel M) unit :=
  if Process_free process then ret tt
  else
    Process_activate process ;;;
    arch (with_inner_mut (fun i => set_connection_map (map f (connection_map i)) i)).

Lemma map_body_ok p k :
  conn_all Old k -> (exists i, processes k !! i = Some p) ->
  sat (map_body p k)
    (fun k' _ => conn_all Old k' /\ processes k' = processes k /\ servers k' = servers k /\
       (Process_free p = false -> map_all New (machine k') (mapping p)) /\
       forall q, (exists i, processes k !! i = Some q) -> Process_free q = false ->
                 map_all New (machine k) (mapping q) -> map_all New (machine k') (mapping q))
    (fun _ _ => False).
Proof.
  intros Ho [i Hi]. unfold map_body. destruct (Process_free p) eqn:Hfree; [by sat_step |].
  sat_step. apply sat_activate. intros m Hc Hsatp Him. apply sat_zoom.
  eapply sat_mono; [apply with_inner_mut_step | | done]. intros m' [] Hstep.
  assert (Hsame : forall P a, map_all P (machine k) a -> map_all P m a)
    by (intros P a Ha; unfold map_all, conns in *; by rewrite Him).
  assert (Hold : forall j q, processes k !! j = Some q -> Process_free q = false ->
            map_all Old m (mapping q)).
  { intros j q Hq Hqf. apply Hsame, (Ho j). unfold live. by rewrite list_lookup_fmap, Hq, <- Hqf. }
  split_and!; [| done | done | |].
  - intros j a Hj. apply (map_step_all m m' a Hstep). by apply Hsame, (Ho j).
  - intros _. apply (map_step_all m m' _ Hstep (Hold _ _ Hi Hfree)).
    unfold hardware_pid. cbn. by rewrite Hsatp.
  - intros q [j Hj] Hqf Hn.
    by apply (proj1 (proj2 (map_step_all m m' _ Hstep (Hold _ _ Hj Hqf)))), Hsame.
Qed.

Lemma for_each_map_ok k :
  conn_all Old k ->
  sat (for_each_connection_map f k)
    (fun k' _ => conn_all New k' /\ processes k' = processes k /\ servers k' = servers k)
    (fun _ _ => False).
Proof.
  intros Hk. unfold for_each_connection_map. sat_step. sat_step.
  assert (Hgen : forall l pre k', processes k = pre ++ l -> conn_all Old k' ->
    (forall p, p ∈ pre -> Process_free p = false -> map_all New (machine k') (mapping p)) ->
    servers k' = servers k -> processes k' = processes k ->
    sat (for_each l map_body k')
      (fun k2 _ => conn_all New k2 /\ processes k2 = processes k /\ servers k2 = servers k)
      (fun _ _ => False)).
  2: { apply (Hgen _ []); try done. by intros p Hp%not_elem_of_nil. }
  induction l as [| p l IH]; intros pre k' Hp Ho Hn Hs Hpk; cbn [for_each].
  { sat_step. split_and!; [| done | done].
    intros i a Hi. unfold live in Hi. rewrite list_lookup_fmap in Hi.
    apply fmap_Some in Hi as (q & Hq & [= Hfree ->]). rewrite Hpk, Hp, app_nil_r in Hq.
    apply Hn; [by eapply list_elem_of_lookup_2 | done]. }
  sat_step. eapply sat_mono; [apply map_body_ok; [done |] | | done].
  { exists (length pre). by rewrite Hpk, Hp, list_lookup_middle. }
  intros k2 [] (Ho2 & Hp2 & Hs2 & Hnew & Hkeep).
  apply (IH (pre ++ [p])); [by rewrite Hp, <- app_assoc | done | | congruence | congruence].
  intros q [Hq | ->%list_elem_of_singleton]%elem_of_app Hqf; [| by apply Hnew].
  apply Hkeep; [| done | by apply Hn]. apply list_elem_of_lookup in Hq as [j Hj].
  exists j. rewrite Hpk, Hp. by apply lookup_app_l_Some.
Qed.
End Maps.

(** ** The invariant *)

(** The entry [v] of a connection map is a tombstone or leads to a server. *)
Definition refers (l : list (option Server)) (v : Z) : Prop :=
  v = 1 \/ 2 <= v /\ exists s, l !! Z.to_nat (v - 2) = Some (Some s).

Definition conn_ok {M} (k : Kernel M) : Prop := conn_all (refers (servers k)) k.

(** The masks of the threads that wait for a message are 32 bits wide, and the
    index of a server fits an entry of a connection map. *)
Definition table_ok (l : list (option Server)) : Prop :=
  (length l <= 253)%nat /\ forall i s, l !! i = Some (Some s) -> mask_ok (Server.ready_threads s).

Section Destroy.
Context {M : Type} {HM : MemOps M} {HL : MemLaws M}.

Implicit Type k : Kernel M.

Lemma refers_remove l i v :
  (i < length l)%nat -> refers l v -> v <> Z.of_nat i + 2 -> refers (<[i := None]> l) v.
Proof.
  intros Hi [-> | [Hv [s Hs]]] Hne; [by left |]. right. split; [done |]. exists s.
  rewrite list_lookup_insert_ne by lia. done.
Qed.

(** Disconnecting every process from the server [i], which is gone. *)
Lemma disconnect_all_ok l i k :
  (i < length l <= 253)%nat -> conn_all (refers l) k -> servers k = <[i := None]> l ->
  sat (for_each_connection_map (fun c =>
         match c with
         | Some v => if v =? u8 (Z.of_nat i + 2) then None else Some v
         | None => None
         end) k)
    (fun k' _ => conn_ok k' /\ processes k' = processes k /\ servers k' = servers k)
    (fun _ _ => False).
Proof.
  intros Hi Hk Hs. rewrite (u8_id (Z.of_nat i + 2)) by lia.
  eapply sat_mono; [apply (for_each_map_ok _ (refers l) (refers (<[i := None]> l))) | | done].
  - intros v w Hv. destruct (Z.eqb_spec v (Z.of_nat i + 2)) as [| Hne]; [done |].
    intros [= <-]. apply refers_remove; done || lia.
  - done.
  - intros v [-> | [Hv [s Hl]]]; [by left |]. right. split; [done |]. exists s.
    by apply list_lookup_insert_Some in Hl as [(_ & ? & _) | [_ ?]].
  - done.
  - intros k' [] (Hk' & Hp' & Hs'). unfold conn_ok. rewrite Hs', Hs. done.
Qed.

Lemma destroy_server_ok pid sid k :
  conn_ok k -> table_ok (servers k) ->
  sat (destroy_server pid sid k)
    (fun k' _ => conn_ok k' /\ exists i, sid_of <$> servers k !! i = Some (Some sid) /\
                                        servers k' = <[i := None]> (servers k))
    (fun k' _ => conn_ok k' /\ servers k' = servers k).
Proof.
  intros Hk [Hlen Hmask]. unfold destroy_server. do 3 qstep. qstep; [| done].
  rename a into i. apply find_slot_Some in H as (s & Hi & Hsid). zbool.
  apply bool_decide_eq_true in H. pose proof (lookup_lt_Some _ _ _ Hi) as Hlt.
  rewrite Hi. repeat qstep. simplify_eq.
  eapply sat_mono; [apply Server_destroy_calm; by eapply Hmask | | done].
  intros k1 kept [(Hc & Hl & Hs) Hkept]. sat_step. cbn in Hs.
  assert (Hold : conn_all (refers (servers k)) k1)
    by (apply (conn_all_quiet _ (set_servers (<[i := None]> (servers k)) k)); done).
  destruct Hkept as [-> | ->].
  - repeat qstep. eapply sat_mono; [apply (disconnect_all_ok (servers k) i); [lia | done | done] | | done].
    intros k2 [] (Hk2 & Hp2 & Hs2). repeat qstep; [| done]. split.
    + by apply (conn_all_quiet _ k2).
    + exists i. rewrite Hi. cbn in *. split; congruence.
  - repeat qstep. cbn. rewrite Hs, list_insert_insert_eq, list_insert_id by done.
    split; [exact Hold | done].
Qed.

(** ** Terminating a process *)

(** As [refers], and the servers below the index [n] are not of the process
    [t]. *)
Definition detached (t : Z) (n : nat) (l : list (option Server)) (v : Z) : Prop :=
  v = 1 \/ 2 <= v /\ exists s, l !! Z.to_nat (v - 2) = Some (Some s) /\
                                ((Z.to_nat (v - 2) < n)%nat -> server_pid s <> t).

Lemma detached_S t n l v slot :
  l !! n = Some slot -> detached t n l v ->
  match slot with Some s => server_pid s <> t \/ v <> Z.of_nat n + 2 | None => True end ->
  detached t (S n) l v.
Proof.
  intros Hn [-> | (Hv & s & Hs & Hpid)] Hslot; [by left |]. right. split; [done |]. exists s.
  split; [done |]. intros Hlt. destruct (decide (Z.to_nat (v - 2) = n)) as [Heq | Hne].
  - rewrite Heq, Hn in Hs. injection Hs as ->. destruct Hslot; [done | lia].
  - apply Hpid. lia.
Qed.

Lemma detached_insert t n l i s s' v :
  l !! i = Some (Some s) -> server_pid s' = server_pid s -> detached t n l v ->
  detached t n (<[i := Some s']> l) v.
Proof.
  intros Hi Hpid [-> | (Hv & r & Hr & Hd)]; [by left |]. right. split; [done |].
  destruct (decide (Z.to_nat (v - 2) = i)) as [Heq | Hne].
  - exists s'. rewrite Heq in *. rewrite list_lookup_insert_eq by (by eapply lookup_lt_Some).
    split; [done |]. rewrite Hpid. intros Hlt. replace s with r by congruence. auto.
  - exists r. by rewrite list_lookup_insert_ne by done.
Qed.

Lemma detach_server_ok t n k :
  (n < length (servers k) <= 253)%nat -> conn_all (detached t n (servers k)) k ->
  sat (detach_server t n k)
    (fun k' _ => conn_all (detached t (S n) (servers k')) k' /\ live k' = live k /\
                 length (servers k') = length (servers k))
    (fun _ _ => False).
Proof.
  intros Hn Hk. unfold detach_server. qstep. qstep.
  destruct (lookup_lt_is_Some_2 (servers k) n) as [slot Hslot]; [lia |]. rewrite Hslot.
  destruct slot as [server |].
  2: { qstep. split_and!; [| done | done]. eapply conn_all_impl; [| exact Hk].
       intros v Hv. by eapply detached_S. }
  qstep.
  eapply (sat_mono _ (fun k1 _ => conn_all (detached t (S n) (servers k)) k1 /\
            processes k1 = processes k /\ servers k1 = servers k) _ (fun _ _ => False)).
  3: done.
  - destruct (server_pid server =? t) eqn:Hpid; zbool.
    + rewrite (u8_id (Z.of_nat n)), u8_id by lia.
      apply (for_each_map_ok _ (detached t n (servers k))); [| done | | done].
      * intros v w Hv [= <-]. destruct (Z.eqb_spec v (Z.of_nat n + 2)); [by left |].
        eapply detached_S; [done | done | by right].
      * intros v [-> | (Hv & s & Hs & Hd)]; [by left |]. right. split; [done |]. exists s.
        split; [done |]. intros Hlt. apply Hd. lia.
    + qstep. split_and!; [| done | done]. eapply conn_all_impl; [| exact Hk].
      intros v Hv. eapply detached_S; [done | done |]. by left.
  - intros k1 [] (Hk1 & Hp1 & Hs1). repeat qstep.
    split_and!; [| unfold live; cbn; by rewrite Hp1 | cbn; by rewrite length_insert, Hs1].
    apply (conn_all_impl (detached t (S n) (servers k))).
    + intros v Hv. cbn. rewrite Hs1. by eapply detached_insert.
    + by apply (conn_all_quiet _ k1 (set_machine m k1)).
Qed.

Lemma detach_all_ok t n i k :
  (i + n = length (servers k))%nat -> (length (servers k) <= 253)%nat ->
  conn_all (detached t i (servers k)) k ->
  sat (for_each (seq i n) (detach_server t) k)
    (fun k' _ => conn_all (detached t (length (servers k')) (servers k')) k' /\ live k' = live k)
    (fun _ _ => False).
Proof.
  revert i k. induction n as [| n IH]; intros i k Hn Hlen Hk; cbn [seq for_each].
  { sat_step. split; [| done]. by replace (length (servers k)) with i by lia. }
  sat_step. eapply sat_mono; [apply detach_server_ok; [lia | done] | | done].
  intros k1 [] (Hk1 & Hl1 & Hlen1).
  eapply sat_mono; [apply IH; [lia | lia | done] | | done]. intros k2 [] [Hk2 Hl2].
  split; [done | congruence].
Qed.

(** The servers of the process are removed. *)
Lemma remove_servers_ok t k :
  conn_all (detached t (length (servers k)) (servers k)) k ->
  conn_ok (set_servers (map (fun slot => match slot with
                                         | Some s => if server_pid s =? t then None else Some s
                                         | None => None
                                         end) (servers k)) k).
Proof.
  intros Hk. unfold conn_ok. apply (conn_all_impl (detached t (length (servers k)) (servers k)));
    [| exact Hk].
  intros v [-> | (Hv & s & Hs & Hd)]; [by left |]. right. split; [done |]. exists s. cbn.
  rewrite list_lookup_fmap, Hs. cbn. rewrite (proj2 (Z.eqb_neq _ _)); [done |].
  apply Hd. by eapply lookup_lt_Some.
Qed.

(** A process that is no longer live takes nothing with it. *)
Lemma conn_all_free P i p k k' :
  conns (machine k') = conns (machine k) -> processes k' = <[i := p]> (processes k) ->
  Process_free p = true -> conn_all P k -> conn_all P k'.
Proof.
  intros Hc Hp Hf Hk j a Hj cm c v. rewrite Hc. unfold live in Hj. rewrite Hp, list_lookup_fmap in Hj.
  apply fmap_Some in Hj as (q & Hq & [= Hqf ->]).
  apply list_lookup_insert_Some in Hq as [(-> & <- & _) | [_ Hq]]; [congruence |].
  apply (Hk j). unfold live. rewrite list_lookup_fmap, Hq. by cbn; rewrite <- Hqf.
Qed.

(** No slot holds a server of [t], and [t] is not live; its slot keeps the
    mapping. *)
Definition gone (t : Z) k : Prop :=
  (forall i s, servers k !! i = Some (Some s) -> server_pid s <> t) /\
  exists p, processes k !! pid_index t = Some p /\ Process_free p = true /\
            MemoryMapping_get_pid (mapping p) = Some t.

Lemma Process_terminate_ok p k :
  Process_free p = false ->
  sat (Process_terminate p k)
    (fun k' p' => p' = set_state Free p /\ conns (machine k') = conns (machine k) /\
                  processes k' = processes k /\ servers k' = servers k)
    (fun _ _ => False).
Proof.
  intros Hf. unfold Process_terminate. rewrite Hf. qstep. qstep. qstep; [| done].
  qstep. qstep. qstep. apply sat_zoom. unfold Process_destroy. repeat sat_step. cbn. done.
Qed.

Lemma terminate_process_ok t k :
  conn_ok k -> (length (servers k) <= 253)%nat ->
  sat (terminate_process t k)
    (fun k' _ => conn_ok k' /\ gone t k') (fun k' _ => conn_ok k').
Proof.
  intros Hk Hlen. unfold terminate_process. qstep. qstep. qstep.
  eapply sat_mono; [apply (detach_all_ok t _ 0); [lia | done |] | | done].
  { eapply conn_all_impl; [| exact Hk]. intros v [-> | [Hv [s Hs]]]; [by left |]. right.
    split; [done |]. exists s. split; [done | lia]. }
  intros k1 [] [Hk1 Hl1]. apply remove_servers_ok in Hk1. do 4 qstep; [| done].
  set (k2 := set_servers _ k1) in *. repeat qstep.
  eapply sat_mono; [by apply Process_terminate_ok | | done].
  intros k3 p' (-> & Hc3 & Hp3 & Hs3). cbn in Hc3, Hp3, Hs3. repeat qstep.
  set (k4 := set_processes _ k3).
  assert (Hk4 : conn_ok k4).
  { unfold conn_ok. cbn. rewrite Hs3.
    apply (conn_all_free _ (pid_index t) (set_state Free p) k2); [etrans; [exact Hc3 | eassumption] | | done | done].
    cbn. by rewrite Hp3. }
  eapply sat_mono; [apply switch_to_thread_stays | | done]. intros k5 [] Hq. qstep.
  pose proof Hq as (_ & Hl5 & Hs5). split.
  { unfold conn_ok. rewrite Hs5. by apply (conn_all_quiet _ k4). }
  split.
  - intros i s. rewrite Hs5. cbn. rewrite Hs3. cbn. rewrite list_lookup_fmap, fmap_Some.
    intros ([s' |] & _ & Hs'); [| done]. destruct (Z.eqb_spec (server_pid s') t); congruence.
  - assert (Hlive : live k5 !! pid_index t = Some (true, mapping p)).
    { rewrite Hl5. unfold live. rewrite list_lookup_fmap. cbn.
      rewrite list_lookup_insert_eq; [done |]. rewrite Hp3. by eapply lookup_lt_Some. }
    unfold live in Hlive. rewrite list_lookup_fmap in Hlive.
    apply fmap_Some in Hlive as (q & Hq' & [= Hf Hmap]). exists q.
    split_and!; [done | done | congruence].
Qed.
End Destroy.

(** ** Deciding the invariant *)

Definition refersb (l : list (option Server)) (e : option Z) : bool :=
  match e with
  | Some v => (v =? 1) || ((2 <=? v) && match l !! Z.to_nat (v - 2) with Some (Some _) => true | _ => false end)
  | None => true
  end.

Definition conn_okb {M} (k : Kernel M) : bool :=
  forallb (fun p => Process_free p ||
    match impls (machine k) !! satp_asid (mapping p) with
    | Some page => forallb (refersb (servers k)) (connection_map (inner page))
    | None => true
    end) (processes k).

Lemma refersb_spec l v : refersb l (Some v) = true -> refers l v.
Proof.
  cbn. intros [Hv | Hv]%orb_prop; [left; by zbool | right]. zbool. split; [lia |].
  destruct (l !! Z.to_nat (v - 2)) as [[s |] |]; [eauto | done | done].
Qed.

Lemma conn_okb_spec {M} (k : Kernel M) : conn_okb k = true -> conn_ok k.
Proof.
  intros H i a Hi cm c v Hcm Hv. unfold live in Hi. rewrite list_lookup_fmap in Hi.
  apply fmap_Some in Hi as (p & Hp & [= Hf ->]). unfold conn_okb in H. rewrite forallb_forall in H.
  specialize (H p). rewrite <- list_elem_of_In in H.
  specialize (H ltac:(by eapply list_elem_of_lookup_2)). rewrite <- Hf in H. cbn in H.
  unfold conns in Hcm. rewrite lookup_fmap in Hcm. apply fmap_Some in Hcm as (page & Hpage & ->).
  rewrite Hpage, forallb_forall in H. apply refersb_spec, H.
  rewrite <- list_elem_of_In. by eapply list_elem_of_lookup_2.
Qed.

(** Process 1 is connected to the server of process 3, which is current. *)
Definition server_kernel : Kernel Memory :=
  mk_Kernel
    (mk_Machine (example_satp 3) 3 (pt_table example_machine)
       (impls (machine connected_kernel)) false example_memory)
    ([example_process 1 2 (Ready 4); example_process 2 2 (Ready 4);
      example_process 3 3 (Running 0)] ++ replicate 61 free_process)
    (servers connected_kernel) (irqs connected_kernel).

(** C13.  Destroying a server leaves no connection to it: if every connection of
    a live process leads to a server that exists, then this holds afterwards as
    well, in every process.  On success one slot that held a server with the
    given identifier is empty and the others are as before; on an error the
    table of servers is as before.  Waking the threads that wait in the server
    always ends. *)
Theorem destroy_server_no_stale {M} {HM : MemOps M} {HL : MemLaws M} (pid : Z) (sid : SID)
    (k : Kernel M) :
  conn_ok k -> table_ok (servers k) ->
  sat (destroy_server pid sid k)
    (fun k' _ => conn_ok k' /\ exists i, sid_of <$> servers k !! i = Some (Some sid) /\
                                        servers k' = <[i := None]> (servers k))
    (fun k' _ => conn_ok k' /\ servers k' = servers k).
Proof. apply destroy_server_ok. Qed.

Lemma destroy_server_no_stale_witness :
  (exists k', destroy_server 3 (mk_SID 1 2 3 4) server_kernel = ROk k' tt) /\
  sat (destroy_server 3 (mk_SID 1 2 3 4) server_kernel)
    (fun k' _ => conn_ok k' /\ exists i, sid_of <$> servers server_kernel !! i = Some (Some (mk_SID 1 2 3 4)) /\
                                        servers k' = <[i := None]> (servers server_kernel))
    (fun k' _ => conn_ok k' /\ servers k' = servers server_kernel).
Proof.
  split; [eexists; vm_compute; reflexivity |].
  apply (destroy_server_no_stale 3 (mk_SID 1 2 3 4) server_kernel).
  - apply conn_okb_spec. vm_compute. reflexivity.
  - split; [apply (Nat.leb_le 128 253); reflexivity |]. intros [| i] s Hs; cbn in Hs.
    + injection Hs as <-. by split.
    + apply (lookup_replicate_1 127) in Hs as [? _]. done.
Defined.

(** C14.  Terminating a process leaves no connection to its servers: if every
    connection of a live process leads to a server that exists, then this holds
    afterwards as well, also if an error is returned.  On success the process is
    no longer live and no slot holds one of its servers. *)
Theorem terminate_process_no_stale {M} {HM : MemOps M} {HL : MemLaws M} (t : Z) (k : Kernel M) :
  conn_ok k -> (length (servers k) <= 253)%nat ->
  sat (terminate_process t k) (fun k' _ => conn_ok k' /\ gone t k') (fun k' _ => conn_ok k').
Proof. apply terminate_process_ok. Qed.

Lemma terminate_process_no_stale_witness :
  (exists k', terminate_process 3 server_kernel = ROk k' 1) /\
  sat (terminate_process 3 server_kernel)
    (fun k' _ => conn_ok k' /\ gone 3 k') (fun k' _ => conn_ok k').
Proof.
  split; [eexists; vm_compute; reflexivity |].
  apply (terminate_process_no_stale 3 server_kernel).
  - apply conn_okb_spec. vm_compute. reflexivity.
  - apply (Nat.leb_le 128 253). reflexivity.
Defined.

(** ** The slot of a process that was terminated *)

(** The slot of a terminated process is lost.  Termination keeps the
    slot's address space, so creating a process in that slot returns
    [InternalError]; the slot is left [Allocated] and is not tried again. *)
Lemma terminated_slot_lost {M} {HM : MemOps M} {HL : MemLaws M} (t : Z) (k k' : Kernel M)
    (parent r0 r1 r2 r3 : Z) (init : ProcessInit) :
  conn_ok k -> (length (servers k) <= 253)%nat -> 1 <= t <= 64 ->
  terminate_process t k = ROk k' parent ->
  find_index Process_free (processes k') = Some (pid_index t) ->
  exists k'' p,
    create_process r0 r1 r2 r3 init k' = RErr k'' InternalError /\
    processes k'' !! pid_index t = Some p /\ pstate p = Allocated.
Proof.
  intros Hk Hlen Ht Hrun Hfirst.
  pose proof (sat_returns _ _ _ _ _ Hrun (terminate_process_ok t k Hk Hlen)) as (_ & _ & p & Hp & Hf & Hm).
  assert (Hmap : mapping p <> 0) by (intros H0; by rewrite H0 in Hm).
  unfold create_process, bind, gets. rewrite Hfirst, Hp. cbn [unwrap].
  unfold pid_from_usize. replace (Z.of_nat (pid_index t) + 1) with t by (unfold pid_index; lia).
  destruct (Z.ltb_spec 255 t); [lia |]. unfold PID_new. rewrite u8_id, NonZero_new_Some by lia. cbn.
  unfold map_err, arch, zoom, MemoryMapping_allocate. cbn.
  rewrite (proj2 (Z.eqb_neq _ _) Hmap). cbn. eexists _, _. split; [done |]. cbn.
  rewrite list_lookup_insert_eq by (by eapply lookup_lt_Some). done.
Qed.

Definition after_termination : Kernel Memory :=
  match terminate_process 3 server_kernel with ROk k _ => k | _ => server_kernel end.

Definition example_init : ProcessInit :=
  mk_ProcessInit (mk_MemoryRange 2147418112 65536) (mk_MemoryRange 65536 4096) 65536 65536.

(** A server of process 1, which nothing uses. *)
Definition idle_servers : list (option Server) :=
  Some (mk_Server (mk_SID 9 9 9 9) 1 0 0 0 0 (replicate QUEUE_LEN QM_Empty) 0 12288)
  :: replicate 127 None.

Definition after_lost_slot : Kernel Memory :=
  match create_process 5 6 7 8 example_init after_termination with
  | RErr k _ => set_servers idle_servers k
  | _ => server_kernel
  end.

(** Once a slot is lost this way, destroying any server stops the kernel: the
    loop over the processes activates the slot, which is not in the table of
    processes.  Before, the same call succeeds. *)
Theorem destroy_server_panics :
  destroy_server 1 (mk_SID 9 9 9 9) after_lost_slot = RPanic /\
  exists k', destroy_server 1 (mk_SID 9 9 9 9) (set_servers idle_servers after_termination) = ROk k' tt.
Proof. split; [vm_compute; reflexivity | eexists; vm_compute; reflexivity]. Qed.
