(* ===== verification/Waiting.v ===== *)
(** * Who waits at a server

    The threads that a server records: those of its own process that wait for a
    message, and the clients whose message is queued or not yet answered.  The
    operations of Server.v never record a thread that was not there before,
    except the one they are given, and always end. *)

From Stdlib Require Import ZArith Lia Bool.
From stdpp Require Import base numbers list option.
From S2P Require Import Prelude.
From S2P Require Import Abi.
From S2P Require Import Server.
From S2P Require Import ServerSpec.
From S2P Require Import SchedulerInv.

#[local] Open Scope Z_scope.
#[local] Open Scope kernel_scope.

(** The client that is woken when an entry of the queue is answered or
    discarded. *)
Definition entry_client (m : QueuedMessage) : option (Z * Z) :=
  match m with
  | QM_BlockingScalarMessage pid tid _ _ _ _ _ _ _
  | QM_BlockingScalarTerminated pid tid _ _ _ _ _ _ _
  | QM_MemoryMessageROLend pid tid _ _ _ _ _ _ _
  | QM_MemoryMessageRWLend pid tid _ _ _ _ _ _ _
  | QM_MemoryMessageROLendTerminated pid tid _ _ _ _ _ _ _
  | QM_MemoryMessageRWLendTerminated pid tid _ _ _ _ _ _ _
  | QM_WaitingReturnMemory pid tid _ _ _ _
  | QM_WaitingReturnScalar pid tid _ _ => Some (pid, tid)
  | QM_Empty | QM_ScalarMessage _ _ _ _ _ _ _ _ _ | QM_MemoryMessageSend _ _ _ _ _ _ _ _ _
  | QM_WaitingForget _ _ _ _ _ _ => None
  end.

(** The thread [c] waits for an answer of [s]. *)
Definition waits (s : Server) (c : Z * Z) : Prop :=
  exists m, m ∈ queue s /\ entry_client m = Some c.

(** The thread [c] is recorded by [s]. *)
Definition recorded (s : Server) (c : Z * Z) : Prop :=
  waits s c \/ c.1 = server_pid s /\ Z.testbit (Server.ready_threads s) c.2 = true.

Definition client_ok (c : Z * Z) : Prop := 1 <= c.1 <= 255 /\ tid_ok c.2.

Record server_wf (s : Server) : Prop := {
  wf_ring : ring_ok s;
  wf_tail : (queue_tail s < QUEUE_LEN)%nat;
  wf_ready : mask_ok (Server.ready_threads s);
  wf_waits c : waits s c -> client_ok c
}.

(** [s'] is [s] with another queue, in which nobody waits but those who waited
    in [s] and the thread [extra]. *)
Record requeued (extra : option (Z * Z)) (s s' : Server) : Prop := {
  rq_wf : ring_ok s' /\ (queue_tail s' < QUEUE_LEN)%nat;
  rq_ready : Server.ready_threads s' = Server.ready_threads s;
  rq_pid : server_pid s' = server_pid s;
  rq_waits c : waits s' c -> waits s c \/ extra = Some c
}.

Lemma requeued_wf extra s s' :
  server_wf s -> requeued extra s s' -> (forall c, extra = Some c -> client_ok c) -> server_wf s'.
Proof.
  intros [? ? Hr Hw] [[? ?] Hr' _ Hw'] He. split; [done | done | by rewrite Hr' |].
  intros c [? | ?]%Hw'; auto.
Qed.

Lemma requeued_refl s : server_wf s -> requeued None s s.
Proof. intros []. split; auto. Qed.

Lemma requeued_recorded extra s s' c :
  requeued extra s s' -> recorded s' c -> recorded s c \/ extra = Some c.
Proof.
  intros [_ Hr Hp Hw] [[? | ?]%Hw | [Hc Hb]]; [by left; left | by right |].
  left. right. by rewrite <- Hr, <- Hp.
Qed.

(** An entry that replaces another one. *)
Lemma waits_insert i m s c :
  waits (queue_set i m s) c -> waits s c \/ entry_client m = Some c.
Proof.
  intros (m' & Hin & Hc). cbn in Hin. apply list_elem_of_lookup in Hin as [j Hj].
  apply list_lookup_insert_Some in Hj as [(_ & <- & _) | [_ Hj]]; [by right |].
  left. exists m'. split; [by eapply list_elem_of_lookup_2 | done].
Qed.

(** The queue of [s'] is that of [s] with [m] at [i]; head and tail are in
    range. *)
Lemma requeued_set i m s s' extra :
  server_wf s -> queue s' = <[i := m]> (queue s) ->
  (queue_head s' < QUEUE_LEN)%nat -> (queue_tail s' < QUEUE_LEN)%nat ->
  Server.ready_threads s' = Server.ready_threads s -> server_pid s' = server_pid s ->
  (forall c, entry_client m = Some c -> waits s c \/ extra = Some c) ->
  requeued extra s s'.
Proof.
  intros [[Hl Hh] Ht _ _] Hq Hh' Ht' Hr Hp Hm. split; [| done | done |].
  - split; [| done]. split; [by rewrite Hq, length_insert | done].
  - intros c Hc. assert (waits (queue_set i m s) c) as [? | ?]%waits_insert; auto.
    destruct Hc as (m' & Hin & Hm'). exists m'. split; [| done]. cbn. by rewrite <- Hq.
Qed.

Lemma waits_at s i m c : queue s !! i = Some m -> entry_client m = Some c -> waits s c.
Proof. intros Hi Hc. exists m. split; [by eapply list_elem_of_lookup_2 | done]. Qed.

Lemma next_lt i : (next_index QUEUE_LEN i < QUEUE_LEN)%nat.
Proof. apply next_index_lt. unfold QUEUE_LEN. lia. Qed.

(** ** Threads of the server *)

Lemma take_available_wf s :
  server_wf s ->
  match take_available_thread s with
  | ROk s' None => s' = s
  | ROk s' (Some t) =>
      tid_ok t /\ Z.testbit (Server.ready_threads s) t = true /\
      s' = set_ready_threads (clear_bit (Server.ready_threads s) t) s
  | _ => False
  end.
Proof.
  intros [_ _ Hm _]. unfold take_available_thread.
  destruct (Z.eqb_spec (Server.ready_threads s) 0) as [| Hne]; [done |].
  destruct (lowest_bit_exists (Server.ready_threads s)) as [t Ht]; [unfold mask_ok in Hm; lia |].
  pose proof Ht as (Hr & Hset & _). change 1 with (bit 0).
  by rewrite (available_loop_spec 32 0 t) by (done || lia).
Qed.

Lemma set_ready_wf s x : server_wf s -> mask_ok x -> server_wf (set_ready_threads x s).
Proof. intros [? ? ? Hw] Hx. split; [done | done | done |]. intros c Hc. by apply Hw. Qed.

(** ** Messages *)

Lemma message_entry_client pid tid g m a :
  tid_ok tid ->
  entry_client (message_entry pid tid g m a)
  = if Message_is_blocking m then Some (pid, tid) else None.
Proof. intros Ht. destruct m; cbn; rewrite ?u8_id; try done; unfold tid_ok in Ht; lia. Qed.

Lemma queue_message_wf pid tid m a s :
  server_wf s -> tid_ok tid ->
  sat (queue_message pid tid m a s)
    (fun s' _ => requeued (if Message_is_blocking m then Some (pid, tid) else None) s s')
    (fun s' e => s' = s /\ e = ServerQueueFull).
Proof.
  intros Hs Ht. pose proof Hs as [[Hl Hh] Htl _ _].
  destruct (choose_slot s Hl Hh) as (o & Hslot & Ho).
  unfold queue_message. do 2 sat_step. unfold id. sat_step; [by sat_step |].
  rewrite <- bind_assoc. sat_step. rewrite Hslot. cbn [sat].
  destruct o as [i |]; [| by sat_step].
  do 5 sat_step. destruct (decide _); repeat sat_step;
    (eapply (requeued_set i); [done | reflexivity | | done | done | done |]);
    try (intros c; rewrite message_entry_client by done; by right).
  - cbn. rewrite length_insert, Hl. apply next_lt.
  - done.
Qed.

Lemma response_entry_client pid tid m a c :
  tid_ok tid -> entry_client (response_entry pid tid m a) = Some c -> c = (pid, tid).
Proof. intros Ht. destruct m; cbn; try done; rewrite ?u8_id; try congruence; unfold tid_ok in Ht; lia. Qed.

Lemma queue_response_wf pid tid m a s :
  server_wf s -> tid_ok tid ->
  sat (queue_response pid tid m a s) (fun s' _ => requeued (Some (pid, tid)) s s')
    (fun s' e => s' = s /\ e = ServerQueueFull).
Proof.
  intros Hs Ht. pose proof Hs as [[Hl Hh] Htl _ _]. unfold queue_response. repeat sat_step. rewrite Hl.
  assert (H0 : ring_dist (queue_head s) (queue_head s) = 0%nat)
    by (unfold ring_dist, QUEUE_LEN in *; lia).
  destruct (find_empty_round_spec s Hl Hh QUEUE_LEN (queue_head s) Hh)
    as [(i & -> & Hi) | [-> Hfull]]; [rewrite H0; lia | | done].
  do 4 sat_step. destruct (decide _); repeat sat_step;
    (eapply (requeued_set i); [done | reflexivity | | done | done | done |]);
    try (intros c Hc; right; f_equal; symmetry; by eapply response_entry_client).
  - cbn. rewrite length_insert, Hl. apply next_lt.
  - done.
Qed.

(** ** Receiving *)

(** The entry left for the reply has the same client as the message. *)
Lemma take_entry_client sidx i g m e r :
  take_entry sidx i g m = Take_reply e r -> entry_client r = entry_client m.
Proof.
  unfold take_entry, with_sender, memory_envelope.
  destruct m; try done; repeat case_match; intros; simplify_eq; done.
Qed.

Lemma finish_take_wf i m m' s :
  server_wf s -> queue s !! i = Some m ->
  (entry_client m' = None \/ entry_client m' = entry_client m) -> requeued None s (finish_take i m' s).
Proof.
  intros Hs Hm Hc. pose proof Hs as [[Hl Hh] Htl _ _].
  apply (requeued_set i m'); try done; unfold finish_take; cbn; repeat case_decide; try done.
  - cbn. rewrite length_insert, Hl. apply next_lt.
  - intros c E. left. destruct Hc as [Hc | Hc]; [congruence |]. rewrite Hc in E. by eapply waits_at.
Qed.

Lemma take_loop_wf sidx s :
  server_wf s ->
  forall fuel i, (i < QUEUE_LEN)%nat -> fuel = (QUEUE_LEN - ring_dist (queue_tail s) i)%nat ->
  sat (take_loop fuel sidx i s) (fun s' _ => requeued None s s') (fun _ _ => False).
Proof.
  intros Hs fuel. pose proof Hs as [[Hl Hh] Htl _ _].
  induction fuel as [| fuel IH]; intros i Hi Hf.
  { pose proof (ring_dist_lt (queue_tail s) i). lia. }
  cbn [take_loop]. destruct (queue s !! i) as [m |] eqn:Hm; [| done].
  destruct (take_entry sidx i (head_generation s) m) eqn:He; cbn [sat]; try done.
  - rewrite Hl, next_index_mod by done. case_decide as Hback; [by apply requeued_refl |].
    apply IH; [unfold QUEUE_LEN; lia | unfold ring_dist, QUEUE_LEN in *; lia].
  - by apply requeued_refl.
  - eapply finish_take_wf; [done | done | by left].
  - eapply finish_take_wf; [done | done | right; by eapply take_entry_client].
Qed.

Lemma take_next_wf sidx s :
  server_wf s ->
  sat (take_next_message sidx s) (fun s' _ => requeued None s s') (fun _ _ => False).
Proof.
  intros Hs. unfold take_next_message. case_match; [by apply requeued_refl |].
  pose proof Hs as [[Hl Hh] Htl _ _]. rewrite Hl. apply take_loop_wf; [done | done |].
  unfold ring_dist, QUEUE_LEN in *. lia.
Qed.

(** ** Replies *)

(** The client of a message that is answered. *)
Definition waiting_client (w : WaitingMessage) : option (Z * Z) :=
  match w with
  | WM_BorrowedMemory pid tid _ _ _ | WM_ScalarMessage pid tid => Some (pid, tid)
  | _ => None
  end.

Lemma waiting_fields_client m pid tid g sa ca len forget is_memory :
  waiting_fields m = Some (pid, tid, g, sa, ca, len, forget, is_memory) ->
  is_memory && forget = true \/ entry_client m = Some (pid, tid).
Proof. destruct m; cbn; try done; intros; simplify_eq; auto. Qed.

Lemma finish_reply_client pid tid sa ca len forget is_memory s (P : Server -> Prop) c :
  P s -> (is_memory && forget = true \/ c = (pid, tid) /\ client_ok c) ->
  sat (finish_reply pid tid sa ca len forget is_memory s)
    (fun s' w => P s' /\ forall c', waiting_client w = Some c' -> c' = c /\ is_memory && forget = false)
    (fun s' _ => P s').
Proof.
  intros HP Hc. unfold finish_reply, lift_result.
  assert (Hpid : is_memory && forget = false -> PID_new (u8 pid) = Some pid /\ c = (pid, tid)).
  { intros Hf. destruct Hc as [| [-> [Hr _]]]; [congruence |]. cbn in Hr. rewrite u8_id by lia.
    unfold PID_new, NonZero_new. by rewrite (proj2 (Z.eqb_neq _ _)) by lia. }
  destruct is_memory, forget; cbn in *; try (destruct Hpid as [Hpid ->]; [done |]); repeat sat_step.
  1: destruct (MemoryRange_new sa len); repeat sat_step; try done.
  all: try (destruct (NonZero_new sa); repeat sat_step); (split; [done |]);
    cbn; intros ? Hc'; try done; injection Hc' as <-; split; congruence.
Qed.

Lemma take_waiting_wf i buf s :
  server_wf s ->
  sat (take_waiting_message i buf s)
    (fun s' w => requeued None s s' /\ forall c, waiting_client w = Some c -> waits s c)
    (fun s' _ => requeued None s s').
Proof.
  intros Hs. pose proof Hs as [[Hl Hh] Htl _ Hw]. unfold take_waiting_message. do 4 sat_step.
  2: by apply requeued_refl.
  rename a into m. destruct (waiting_fields m) as [[[[[[[[pid tid] g] sa] ca] len] fg] im] |] eqn:Hf.
  2: { sat_step. split; [by apply requeued_refl | done]. }
  sat_step. eapply (sat_mono _ (fun s' _ => s' = s) _ (fun s' _ => s' = s)).
  { destruct buf; [| done]. by repeat sat_step. }
  2: { intros s' e ->. by apply requeued_refl. }
  intros s' [] ->. do 4 sat_step.
  destruct (free_tail i (length (queue s)) (queue_set i QM_Empty s)) as (t & Ht & E);
    cbn [queue queue_set set_queue queue_head queue_tail]; rewrite ?length_insert; try done; try lia.
  sat_step. cbn [queue_tail queue_set set_queue] in *. rewrite E. cbn [sat].
  assert (Hrq : requeued None s (set_queue_tail t (queue_set i QM_Empty s))).
  { by apply (requeued_set i QM_Empty). }
  eapply sat_mono; [apply (finish_reply_client _ _ _ _ _ _ _ _ (requeued None s) (pid, tid)); [done |] | |].
  - destruct (waiting_fields_client _ _ _ _ _ _ _ _ _ Hf) as [? | Hc]; [by left |]. right.
    split; [done |]. apply Hw. by eapply waits_at.
  - intros s' w [Hs' Hc]. split; [done |]. intros c Hcw. destruct (Hc c Hcw) as [-> Hfg].
    destruct (waiting_fields_client _ _ _ _ _ _ _ _ _ Hf) as [? | ?]; [congruence | by eapply waits_at].
  - done.
Qed.
