(* ===== verification/Syscall.v ===== *)
(** * System calls

    Models src/kernel/src/syscall.rs for the baremetal build without swap, v2p,
    raw-trng and bao1x: the delivery of messages, replies, the blocking calls and
    the dispatcher.  The state of a run is the kernel of Scheduler.v with the
    statics of syscall.rs and of src/kernel/src/arch/riscv/irq.rs. *)

From Stdlib Require Import ZArith Lia Bool.
From stdpp Require Import base numbers list option gmap.
From S2P Require Import Prelude.
From S2P Require Import Abi.
From S2P Require Import SysCallAbi.
From S2P Require Import Server.
From S2P Require Import Irq.
From S2P Require Import Machine.
From S2P Require Import Paging.
From S2P Require Import MemoryManager.
From S2P Require Import ArchProcess.
From S2P Require Import Scheduler.
From S2P Require Import Transfer.
From S2P Require Import Services.

#[local] Open Scope Z_scope.
#[local] Open Scope kernel_scope.

(** The kernel with the process and thread that called [SwitchTo] last, those
    that were switched to, the thread that an interrupt has suspended and whether
    an interrupt is being handled. *)
Record System (M : Type) : Type := mk_System {
  kernel : Kernel M;
  SWITCHTO_CALLER : option (Z * Z);
  ORIGINAL_PID : Z;
  ORIGINAL_TID : Z;
  PREVIOUS_PAIR : option (Z * Z);
  HANDLING_IRQ : bool
}.
Arguments mk_System {M}.
Arguments kernel {M}.
Arguments SWITCHTO_CALLER {M}.
Arguments ORIGINAL_PID {M}.
Arguments ORIGINAL_TID {M}.
Arguments PREVIOUS_PAIR {M}.
Arguments HANDLING_IRQ {M}.

Inductive ExecutionType : Type := Blocking | NonBlocking.

Definition set_heap_size (v : Z) (p : ProcessInner) : ProcessInner :=
  mk_ProcessInner (mem_default_base p) (mem_default_last p) (mem_message_base p)
    (mem_message_last p) (mem_heap_base p) v (mem_heap_max p) (connection_map p) (inner_pid p).
Definition set_heap_max (v : Z) (p : ProcessInner) : ProcessInner :=
  mk_ProcessInner (mem_default_base p) (mem_default_last p) (mem_message_base p)
    (mem_message_last p) (mem_heap_base p) (mem_heap_size p) v (connection_map p) (inner_pid p).

Section Syscall.
Context {M : Type} {HM : MemOps M}.

#[local] Notation "'kop' A" := (Kernel M -> outcome Error (Kernel M) A) (at level 10, A at level 9).
#[local] Notation "'sop' A" := (System M -> outcome Error (System M) A) (at level 10, A at level 9).

Definition set_kernel (k : Kernel M) (s : System M) : System M :=
  mk_System k (SWITCHTO_CALLER s) (ORIGINAL_PID s) (ORIGINAL_TID s) (PREVIOUS_PAIR s)
    (HANDLING_IRQ s).
Definition set_switchto_caller (c : option (Z * Z)) (s : System M) : System M :=
  mk_System (kernel s) c (ORIGINAL_PID s) (ORIGINAL_TID s) (PREVIOUS_PAIR s) (HANDLING_IRQ s).
Definition set_original (pid tid : Z) (s : System M) : System M :=
  mk_System (kernel s) (SWITCHTO_CALLER s) pid tid (PREVIOUS_PAIR s) (HANDLING_IRQ s).
Definition set_previous_pair (p : option (Z * Z)) (s : System M) : System M :=
  mk_System (kernel s) (SWITCHTO_CALLER s) (ORIGINAL_PID s) (ORIGINAL_TID s) p (HANDLING_IRQ s).
Definition set_handling_irq (b : bool) (s : System M) : System M :=
  mk_System (kernel s) (SWITCHTO_CALLER s) (ORIGINAL_PID s) (ORIGINAL_TID s) (PREVIOUS_PAIR s) b.

(** [SystemServices::with_mut], and the same for one operation of the machine. *)
Definition ss {A} (f : kop A) : sop A := zoom kernel set_kernel f.
Definition mm {A} (f : Machine M -> outcome Error (Machine M) A) : sop A := ss (arch f).

(** [reset_switchto_caller] *)
Definition reset_switchto_caller : sop unit := modify (set_switchto_caller None).

(** [SWITCHTO_CALLER.take().unwrap()] *)
Definition take_switchto_caller : sop (Z * Z) :=
  c <- gets SWITCHTO_CALLER;;
  reset_switchto_caller ;;;
  unwrap c.

(** Switch to another process and note which thread had the quantum; any error of
    the switch is reported as [ProcessNotFound]. *)
Definition switch_away (tid new_pid new_tid : Z) (can_resume : bool) (op : PostActivateOp)
    : sop Result :=
  result <- attempt (ss (activate_process_thread tid new_pid new_tid can_resume op));;
  original_pid <- gets ORIGINAL_PID;;
  original_tid <- gets ORIGINAL_TID;;
  pid <- unwrap (PID_new original_pid);;
  ok (ss (set_last_thread pid original_tid)) ;;;
  match result with inl _ => fail ProcessNotFound | inr _ => ret R_ResumeProcess end.

Definition do_yield (tid : Z) : sop Result :=
  ' (parent_pid, parent_ctx) <- take_switchto_caller;;
  switch_away tid parent_pid parent_ctx true Post_None.

Definition retry_syscall (tid : Z) : sop Result :=
  mm Process_current ;;;
  mm (Process_retry_instruction tid) ;;;
  do_yield tid.

(** Wait for an event in the parent process. *)
Definition sleep_in_parent (pid tid : Z) : sop Result :=
  process <- ss (unwrap_result (get_process pid));;
  reset_switchto_caller ;;;
  switch_away tid (ppid process) 0 false Post_None.

(** ** Sending *)

(** The memory of a message, handed to the server's process. *)
Definition translate_message (server_pid : Z) (message : Message) : kop Message :=
  let translate (transfer : Z -> Z -> kop Z) (ctor : MemoryMessage -> Message)
      (msg : MemoryMessage) : kop Message :=
    let buf := mm_buf msg in
    new_virt <- transfer (MemoryRange_as_ptr buf) (MemoryRange_len buf);;
    buf <- lift_result (MemoryRange_new new_virt (MemoryRange_len buf));;
    ret (ctor (mk_MemoryMessage (mm_id msg) buf (mm_offset msg) (mm_valid msg))) in
  match message with
  | Scalar _ | BlockingScalar _ => ret message
  | Move msg => translate (fun a len => send_memory a server_pid 0 len) Move msg
  | MutableBorrow msg =>
      translate (fun a len => lend_memory a server_pid 0 len true) MutableBorrow msg
  | Borrow msg => translate (fun a len => lend_memory a server_pid 0 len false) Borrow msg
  end.

Definition client_address (message : Message) : option Z :=
  match message with
  | Scalar _ | BlockingScalar _ => None
  | Move msg | MutableBorrow msg | Borrow msg => NonZero_new (MemoryRange_as_ptr (mm_buf msg))
  end.

Definition envelope (sidx idx pid : Z) (message : Message) : MessageEnvelope :=
  mk_MessageEnvelope (SenderID_to_sender (mk_SenderID sidx idx (Some pid))) message.

(** A blocking message for the waiting thread [server_tid]: the server runs at
    once or, if it cannot, the process that switched to the client. *)
Definition deliver_blocking (pid tid sidx server_pid server_tid : Z) (message : Message)
    (address : option Z) (runnable : bool) : sop Result :=
  if negb runnable then
    remembered <- attempt (ss (remember_server_message sidx pid tid message address));;
    match remembered with
    | inl e => ss (with_server sidx (return_available_thread server_tid)) ;;; fail e
    | inr idx =>
        ' (ppid, ptid) <- take_switchto_caller;;
        switch_away tid ppid ptid false
          (Post_SetThreadResult (R_MessageEnvelope (envelope sidx (Z.of_nat idx) pid message)))
    end
  else
    idx <- map_err (fun _ => ProcessNotFound)
             (ss (activate_process_thread tid server_pid server_tid false
                    (Post_RememberServerMessage sidx pid tid message address)));;
    ret (R_MessageEnvelope (envelope sidx idx pid message)).

Definition send_message (pid tid cid : Z) (message : Message) : sop Result :=
  sidx <- ss (sidx_from_cid cid);;
  sidx <- ok_or sidx ServerNotFound;;
  server <- ss (server_from_sidx sidx);;
  server <- unwrap server;;
  let server_pid := server_pid server in
  let address := client_address message in
  let blocking := Message_is_blocking message in
  message <- ss (translate_message server_pid message);;
  server <- ss (server_from_sidx sidx);;
  unwrap server ;;;
  available <- ss (with_server sidx take_available_thread);;
  match available with
  | Some server_tid =>
      woken <- attempt (ss (ready_thread server_pid server_tid));;
      match woken with
      | inl e => ss (with_server sidx (return_available_thread server_tid)) ;;; fail e
      | inr _ =>
          runnable <- ss (unwrap_result (runnable server_pid (Some server_tid)));;
          if blocking then
            deliver_blocking pid tid sidx server_pid server_tid message address runnable
          else
            ss (set_thread_result server_pid server_tid
                  (R_MessageEnvelope (envelope sidx 0 pid message))) ;;;
            ret R_Ok
      end
  | None =>
      ss (queue_server_message sidx pid tid message address) ;;;
      if blocking then sleep_in_parent pid tid else ret R_Ok
  end.

(** ** Replying *)

(** The server of a sender word, which must belong to the caller. *)
Definition own_server (server_pid : Z) (sender : SenderID) : kop unit :=
  server <- server_from_sidx (sender_sidx sender);;
  server <- ok_or server ServerNotFound;;
  if negb (Server.server_pid server =? server_pid) then fail ServerNotFound else ret tt.

(** Unmap every page of a range; the first error is reported at the end. *)
Fixpoint unmap_each (pages : list Z) (result : option Error) : sop (option Error) :=
  match pages with
  | [] => ret result
  | addr :: pages =>
      r <- attempt (mm (unmap_page addr));;
      unmap_each pages
        (match r, result with inl e, None => Some e | _, _ => result end)
  end.

Definition unmap_range (range : MemoryRange) : sop Result :=
  let virt := MemoryRange_as_ptr range in
  let size := MemoryRange_len range in
  if negb (page_aligned virt) then fail BadAlignment
  else
    result <- unmap_each (step_by virt (add32 virt size) PAGE_SIZE) None;;
    match result with None => ret R_Ok | Some e => fail e end.

(** Whether the server goes on after a reply: in an interrupt, when the client
    cannot run, or in the quantum of the server. *)
Definition stay_in_server (server_pid : Z) (in_irq : bool) (client_pid client_tid : Z) : sop bool :=
  if in_irq then ret true
  else
    r <- ss (runnable client_pid (Some client_tid));;
    original_pid <- gets ORIGINAL_PID;;
    original_tid <- gets ORIGINAL_TID;;
    ret (negb r || ((original_pid =? server_pid) && (original_tid =? client_tid))).

(** Leave the server, which stays ready, with [server_result] and run the client
    with [client_result]. *)
Definition switch_to_client (server_pid server_tid client_pid client_tid : Z)
    (server_result client_result : Result) : sop Result :=
  ss (unschedule_thread server_pid server_tid) ;;;
  ss (ready_thread server_pid server_tid) ;;;
  ss (set_thread_result server_pid server_tid server_result) ;;;
  ss (switch_to_thread client_pid (Some client_tid)) ;;;
  ret client_result.

(** The end of a reply, which is the same for memory and for scalars. *)
Definition finish_return (server_pid server_tid : Z) (in_irq : bool) (client_pid client_tid : Z)
    (return_value : Result) : sop Result :=
  ss (ready_thread client_pid client_tid) ;;;
  stay <- stay_in_server server_pid in_irq client_pid client_tid;;
  if (stay : bool) then ss (set_thread_result client_pid client_tid return_value) ;;; ret R_Ok
  else switch_to_client server_pid server_tid client_pid client_tid R_Ok return_value.

(** [return_memory] of syscall.rs *)
Definition return_memory_call (server_pid server_tid : Z) (in_irq : bool) (sender : MessageSender)
    (buf : MemoryRange) (offset valid : option Z) : sop Result :=
  let sender := SenderID_from_sender sender in
  ss (own_server server_pid sender) ;;;
  result <- ss (with_server (sender_sidx sender)
                  (take_waiting_message (Z.to_nat (sender_idx sender)) (Some buf)));;
  match result with
  | WM_BorrowedMemory client_pid client_tid server_addr client_addr len =>
      ss (return_memory server_addr client_pid client_addr len) ;;;
      finish_return server_pid server_tid in_irq client_pid client_tid
        (R_MemoryReturned offset valid)
  | WM_MovedMemory => ret R_Ok
  | WM_ForgetMemory range => unmap_range range
  | WM_ScalarMessage _ _ | WM_None => fail DoubleFree
  end.

Definition return_result (server_pid server_tid : Z) (in_irq : bool) (sender : MessageSender)
    (return_value : Result) : sop Result :=
  let sender := SenderID_from_sender sender in
  ss (own_server server_pid sender) ;;;
  result <- ss (with_server (sender_sidx sender)
                  (take_waiting_message (Z.to_nat (sender_idx sender)) None));;
  match result with
  | WM_ScalarMessage client_pid client_tid =>
      finish_return server_pid server_tid in_irq client_pid client_tid return_value
  | _ => fail DoubleFree
  end.

(** What [reply_and_receive_next] answers to the sender: its process, its thread
    and the result. *)
Definition reply_response (waiting : WaitingMessage) (arg0 arg1 arg2 arg3 arg4 scalar_type : Z)
    : kop (Z * Z * Result) :=
  match waiting with
  | WM_ScalarMessage pid tid =>
      ret (pid, tid,
           if scalar_type =? 1 then R_Scalar1 arg1
           else if scalar_type =? 2 then R_Scalar2 arg1 arg2
           else R_Scalar5 arg0 arg1 arg2 arg3 arg4)
  | WM_BorrowedMemory pid tid server_addr client_addr len =>
      return_memory server_addr pid client_addr len ;;;
      ret (pid, tid, R_MemoryReturned (NonZero_new arg3) (NonZero_new arg4))
  | WM_ForgetMemory _ | WM_MovedMemory | WM_None => fail DoubleFree
  end.

Definition reply_and_receive_next (server_pid server_tid : Z) (in_irq : bool)
    (sender : MessageSender) (arg0 arg1 arg2 arg3 arg4 scalar_type : Z) : sop Result :=
  let sender := SenderID_from_sender sender in
  ss (own_server server_pid sender) ;;;
  waiting <- ss (with_server (sender_sidx sender)
                   (take_waiting_message (Z.to_nat (sender_idx sender)) None));;
  next_message <- ss (with_server (sender_sidx sender) (take_next_message (sender_sidx sender)));;
  (match next_message with
   | None => ss (with_server (sender_sidx sender) (park_thread server_tid))
   | Some _ => ret tt
   end) ;;;
  ' (client_pid, client_tid, result) <-
    ss (reply_response waiting arg0 arg1 arg2 arg3 arg4 scalar_type);;
  ss (ready_thread client_pid client_tid) ;;;
  match next_message with
  | Some msg =>
      stay <- stay_in_server server_pid in_irq client_pid client_tid;;
      if (stay : bool) then
        ss (set_thread_result client_pid client_tid result) ;;; ret (R_MessageEnvelope msg)
      else
        switch_to_client server_pid server_tid client_pid client_tid (R_MessageEnvelope msg) result
  | None =>
      map_err (fun _ => ProcessNotFound)
        (ss (activate_process_thread server_tid client_pid client_tid false
               (Post_SetThreadResult result))) ;;;
      ret R_ResumeProcess
  end.

(** ** Receiving *)

Definition receive_message (pid tid : Z) (sid : SID) (blocking : ExecutionType) : sop Result :=
  running <- ss (thread_is_running pid tid);;
  assert_ running ;;;
  sidx <- ss (sidx_from_sid sid pid);;
  sidx <- ok_or sidx ServerNotFound;;
  let sidx := Z.of_nat sidx in
  server <- ss (server_from_sidx sidx);;
  server <- ok_or server ServerNotFound;;
  if negb (Server.server_pid server =? pid) then fail ServerNotFound
  else
    msg <- ss (with_server sidx (take_next_message sidx));;
    match msg, blocking with
    | Some msg, _ => ret (R_MessageEnvelope msg)
    | None, NonBlocking => ret R_None
    | None, Blocking =>
        ss (with_server sidx (park_thread tid)) ;;;
        reset_switchto_caller ;;;
        process <- ss (unwrap_result (get_process pid));;
        switch_away tid (ppid process) 0 false Post_None
    end.

(** ** Memory *)

Definition map_memory (pid : Z) (phys virt : option Z) (size : Z) (req_flags : MemoryFlags)
    : sop Result :=
  let phys_ptr := get_or_0 phys in
  let virt_ptr := get_or_0 virt in
  if negb (pid =? 1) && match virt with Some v => USER_AREA_END <=? v | None => false end
  then fail BadAddress
  else if negb (page_aligned size) then fail BadAlignment
  else
    range <- mm (map_range phys_ptr virt_ptr size pid req_flags MT_Default);;
    (if negb (phys_ptr =? 0) then
       let start := MemoryRange_as_ptr range in
       let len := MemoryRange_len range in
       main <- gets (fun s => mm_is_main_memory phys_ptr (memory (machine (kernel s))));;
       (if (main : bool) then mm (bzero start (add32 start (len / 4 * 4))) else ret tt) ;;;
       for_each (step_by start (add32 start len) PAGE_SIZE) (fun page =>
         mm (unwrap_result (hand_page_to_user page)))
     else ret tt) ;;;
    ret (R_MemoryRange range).

Definition increase_heap (delta : Z) (flags : MemoryFlags) : sop Result :=
  if negb (page_aligned delta) then fail BadAlignment
  else
    i <- mm (with_inner id);;
    if delta =? 0 then
      range <- mm (unwrap_result (lift_result (MemoryRange_new (mem_heap_base i)
                     (if mem_heap_size i =? 0 then 4096 else mem_heap_size i))));;
      ret (R_MemoryRange range)
    else if mem_heap_max i <? add32 (mem_heap_size i) delta then fail OutOfMemory
    else
      let start := add32 (mem_heap_base i) (mem_heap_size i) in
      mm (with_inner_mut (set_heap_size (add32 (mem_heap_size i) delta))) ;;;
      range <- mm (reserve_range start delta flags);;
      ret (R_MemoryRange range).

Definition decrease_heap (delta : Z) : sop Result :=
  if negb (page_aligned delta) then fail BadAlignment
  else
    i <- mm (with_inner id);;
    if mem_heap_size i <? delta then fail OutOfMemory
    else
      let end_ := add32 (mem_heap_base i) (mem_heap_size i) in
      let length := mem_heap_size i - delta in
      mm (with_inner_mut (set_heap_size length)) ;;;
      for_each (step_by (sub32 end_ delta) end_ PAGE_SIZE) (fun page =>
        mm (unwrap_result (unmap_page page)) ;;; ret tt) ;;;
      range <- mm (unwrap_result (lift_result (MemoryRange_new (mem_heap_base i) length)));;
      ret (R_MemoryRange range).

Definition adjust_process_limit (index current new : Z) : sop Result :=
  if index =? 1 then
    i <- mm (with_inner id);;
    let max := if mem_heap_max i =? current then new else mem_heap_max i in
    mm (with_inner_mut (set_heap_max max)) ;;;
    ret (R_Scalar2 index max)
  else if index =? 2 then
    i <- mm (with_inner id);;
    let size := if (mem_heap_size i =? current) && (new <? mem_heap_max i) then new
                else mem_heap_size i in
    mm (with_inner_mut (set_heap_size size)) ;;;
    ret (R_Scalar2 index size)
  else fail InvalidLimit.

(** ** Switching and threads *)

Definition switch_to (pid tid new_pid new_tid : Z) : sop Result :=
  c <- gets SWITCHTO_CALLER;;
  assert_ (match c with None => true | Some _ => false end) ;;;
  modify (set_switchto_caller (Some (pid, tid))) ;;;
  new_tid <- ss (activate_process_thread tid new_pid new_tid true Post_None);;
  modify (set_original new_pid new_tid) ;;;
  ret R_ResumeProcess.

Definition return_to_parent : sop Result :=
  c <- gets SWITCHTO_CALLER;;
  reset_switchto_caller ;;;
  (match c with
   | Some p => modify (set_previous_pair (Some p))
   | None => ret tt
   end) ;;;
  ret R_ResumeProcess.

Definition create_thread_call (pid tid : Z) (init : ThreadInit) : sop Result :=
  new_tid <- ss (create_thread pid init);;
  ss (unwrap_result (switch_to_thread pid (Some new_tid))) ;;;
  ss (unwrap_result (set_thread_result pid tid (R_ThreadID new_tid))) ;;;
  ret R_ResumeProcess.

Definition terminate_call (pid tid : Z) : sop Result :=
  ss (unschedule_thread pid tid) ;;;
  ss (terminate_process pid) ;;;
  reset_switchto_caller ;;;
  ret R_ResumeProcess.

Definition join_call (pid tid other_tid : Z) : sop Result :=
  r <- ss (join_thread pid tid other_tid);;
  (if decide (r = R_ResumeProcess) then reset_switchto_caller else ret tt) ;;;
  ret r.

(** Retry the call later when [f] fails with [e]. *)
Definition or_retry (tid : Z) (e : Error) (f : sop Result) : sop Result :=
  r <- attempt f;;
  match r with
  | inr o => ret o
  | inl e' => if decide (e' = e) then retry_syscall tid else fail e'
  end.

(** An operation on the interrupts. *)
Definition with_irqs {A} (f : IrqState -> outcome Error IrqState A) : kop A :=
  zoom irqs set_irqs f.

(** ** The dispatcher *)

(** The words that the random number generator gives in this call. *)
Context (r0 r1 r2 r3 : Z).

Definition handle_inner (pid tid : Z) (in_irq : bool) (call : SysCall) : sop Result :=
  match call with
  | Sys_MapMemory phys virt size req_flags => map_memory pid phys virt size req_flags
  | Sys_UnmapMemory range => unmap_range range
  | Sys_IncreaseHeap delta flags => increase_heap delta flags
  | Sys_DecreaseHeap delta => decrease_heap delta
  | Sys_SwitchTo new_pid new_tid => switch_to pid tid new_pid new_tid
  | Sys_ClaimInterrupt no callback arg =>
      ss (with_irqs (interrupt_claim no pid callback arg)) ;;; ret R_Ok
  | Sys_FreeInterrupt no => ss (with_irqs (interrupt_free no pid)) ;;; ret R_Ok
  | Sys_Yield => do_yield tid
  | Sys_ReturnToParent _ _ => return_to_parent
  | Sys_ReceiveMessage sid => receive_message pid tid sid Blocking
  | Sys_TryReceiveMessage sid => receive_message pid tid sid NonBlocking
  | Sys_WaitEvent => sleep_in_parent pid tid
  | Sys_CreateThread init => create_thread_call pid tid init
  | Sys_CreateProcess init =>
      startup <- ss (create_process r0 r1 r2 r3 init);; ret (R_NewProcess startup)
  | Sys_CreateServerWithAddress name =>
      ' (sid, cid) <- ss (create_server_with_address pid name true);; ret (R_NewServerID sid cid)
  | Sys_CreateServer =>
      ' (sid, cid) <- ss (create_server r0 r1 r2 r3 pid true);; ret (R_NewServerID sid cid)
  | Sys_CreateServerId => ret (R_ServerID (create_server_id r0 r1 r2 r3))
  | Sys_TryConnect sid => cid <- ss (connect_to_server sid);; ret (R_ConnectionID cid)
  | Sys_ReturnMemory sender buf offset valid =>
      return_memory_call pid tid in_irq sender buf offset valid
  | Sys_ReturnScalar1 sender arg => return_result pid tid in_irq sender (R_Scalar1 arg)
  | Sys_ReturnScalar2 sender arg1 arg2 =>
      return_result pid tid in_irq sender (R_Scalar2 arg1 arg2)
  | Sys_ReturnScalar5 sender arg1 arg2 arg3 arg4 arg5 =>
      return_result pid tid in_irq sender (R_Scalar5 arg1 arg2 arg3 arg4 arg5)
  | Sys_ReplyAndReceiveNext sender a0 a1 a2 a3 a4 scalar_type =>
      reply_and_receive_next pid tid in_irq sender a0 a1 a2 a3 a4 scalar_type
  | Sys_TrySendMessage cid message => send_message pid tid cid message
  | Sys_TerminateProcess _ => terminate_call pid tid
  | Sys_Shutdown => ss shutdown ;;; ret R_Ok
  | Sys_GetProcessId => ret (R_ProcessID pid)
  | Sys_GetThreadId => ret (R_ThreadID tid)
  | Sys_Connect sid =>
      or_retry tid ServerNotFound
        (cid <- ss (connect_to_server sid);; ret (R_ConnectionID cid))
  | Sys_ConnectForProcess target_pid sid =>
      or_retry tid ServerNotFound
        (cid <- ss (connect_process_to_server target_pid sid);; ret (R_ConnectionID cid))
  | Sys_SendMessage cid message => or_retry tid ServerQueueFull (send_message pid tid cid message)
  | Sys_Disconnect cid => ss (disconnect_from_server cid) ;;; ret R_Ok
  | Sys_DestroyServer sid => ss (destroy_server pid sid) ;;; ret R_Ok
  | Sys_JoinThread other_tid => join_call pid tid other_tid
  | Sys_UpdateMemoryFlags range flags target =>
      match target with
      | Some _ => fail ProcessNotChild
      | None => mm (update_memory_flags range flags) ;;; ret R_Ok
      end
  | Sys_AdjustProcessLimit index current new => adjust_process_limit index current new
  | Sys_PlatformSpecific _ _ _ _ _ _ _ => panic
  | Sys_SetMemRegion _ _ _ _ | Sys_ReadyThreads _ | Sys_SetExceptionHandler _ _
  | Sys_VirtToPhys _ | Sys_VirtToPhysPid _ _ | Sys_RegisterSwapper _ _ _ _ _ _
  | Sys_SwapOp _ _ _ _ _ _ _ | Sys_RawTrng _ _ _ _ _ _ _ | Sys_Invalid _ _ _ _ _ _ _ =>
      fail UnhandledSyscall
  end.

Definition handle (pid tid : Z) (in_irq : bool) (call : SysCall) : sop Result :=
  if in_irq && negb (SysCall_can_call_from_interrupt call) then fail InvalidSyscall
  else handle_inner pid tid in_irq call.
End Syscall.
