(* ===== verification/SyscallInv.v ===== *)
(** * System calls keep the kernel's invariant

    The invariant of the scheduler and the well-formedness of the servers'
    queues survive every system call, whatever its arguments and its outcome.
    The rules for the operations of the kernel are in terms of the thread that
    makes the call, which runs until the processor is given away. *)

From Stdlib Require Import ZArith Lia Bool.
From stdpp Require Import base numbers list option gmap.
From S2P Require Import Prelude.
From S2P Require Import Abi.
From S2P Require Import SysCallAbi.
From S2P Require Import Server.
From S2P Require Import Irq.
From S2P Require Import Machine.
From S2P Require Import Paging.
From S2P Require Import MemoryManager.
From S2P Require Import MemoryFacts.
From S2P Require Import Memory.
From S2P Require Import ArchProcess.
From S2P Require Import Scheduler.
From S2P Require Import SchedulerFacts.
From S2P Require Import SchedulerInv.
From S2P Require Import Transfer.
From S2P Require Import TransferFacts.
From S2P Require Import Services.
From S2P Require Import ServicesFacts.
From S2P Require Import ConnectionInv.
From S2P Require Import Waiting.
From S2P Require Import Syscall.

#[local] Open Scope Z_scope.
#[local] Open Scope kernel_scope.

(** ** The invariant *)

Definition table_wf (l : list (option Server)) : Prop :=
  forall i s, l !! i = Some (Some s) -> server_wf s.

Definition inv {M} (k : Kernel M) : Prop := sched_ok k /\ table_wf (servers k).

(** The thread [tid] of the process [pid] runs; an exception handler counts as
    running. *)
Definition runs {M} (pid tid : Z) (k : Kernel M) : Prop :=
  pt_current (machine k) = pid /\
  exists p, processes k !! pid_index pid = Some p /\ current_thread p = tid /\
            MemoryMapping_get_pid (mapping p) = Some pid /\
            match pstate p with Running _ | InException _ => True | _ => False end.

(** No server records the thread as waiting. *)
Definition unrecorded (c : Z * Z) (l : list (option Server)) : Prop :=
  forall i s, l !! i = Some (Some s) -> ~ recorded s c.

(** The processes, the servers and the current process are the same. *)
Definition still {M} (k k' : Kernel M) : Prop :=
  processes k' = processes k /\ servers k' = servers k /\
  pt_current (machine k') = pt_current (machine k).

Definition stills {M A} (r : outcome Error (Kernel M) A) (k : Kernel M) : Prop :=
  sat r (fun k' _ => still k k') (fun k' _ => still k k').

Lemma still_trans {M} (k1 k2 k3 : Kernel M) : still k1 k2 -> still k2 k3 -> still k1 k3.
Proof. intros (? & ? & ?) (? & ? & ?). split_and!; congruence. Qed.

Lemma still_inv {M} (k k' : Kernel M) : still k k' -> inv k -> inv k'.
Proof. intros (Hp & Hs & Hc) [Hk Ht]. split; [by apply (sched_ok_eq k) | by rewrite Hs]. Qed.

Lemma still_runs {M} pid tid (k k' : Kernel M) : still k k' -> runs pid tid k -> runs pid tid k'.
Proof. intros (Hp & Hs & Hc) [Hr Hk]. split; [congruence | by rewrite Hp]. Qed.

Lemma table_wf_insert l i s : table_wf l -> server_wf s -> table_wf (<[i := Some s]> l).
Proof.
  intros Hl Hs j t Hj. apply list_lookup_insert_Some in Hj as [(_ & [= <-] & _) | [_ Hj]];
    [done | by eapply Hl].
Qed.

Lemma table_wf_remove l i : table_wf l -> table_wf (<[i := None]> l).
Proof.
  intros Hl j t Hj. apply list_lookup_insert_Some in Hj as [(_ & ? & _) | [_ Hj]]; [done | by eapply Hl].
Qed.

Lemma unrecorded_insert c l i s :
  unrecorded c l -> ~ recorded s c -> unrecorded c (<[i := Some s]> l).
Proof.
  intros Hl Hs j t Hj. apply list_lookup_insert_Some in Hj as [(_ & [= <-] & _) | [_ Hj]];
    [done | by eapply Hl].
Qed.

Lemma table_wf_servers_ok l : table_wf l -> servers_ok l.
Proof. intros Hl i s Hs. apply (Hl i s Hs). Qed.

Section Stills.
Context {M : Type} {HM : MemOps M} {HL : MemLaws M}.

Implicit Type k : Kernel M.

Lemma stills_arch {A} (f : Machine M -> outcome Error (Machine M) A) k :
  keeps true f -> stills (arch f k) k.
Proof. intros Hf. apply sat_arch; [done | |]; intros; by split_and!. Qed.

Lemma stills_restores {A} (r : outcome Error (Kernel M) A) k : restores r k -> stills r k.
Proof. intros Hr. eapply sat_mono; [exact Hr | |]; intros k' ? (? & ? & _ & ? & _); by split_and!. Qed.

Lemma stills_set_thread_result pid tid r k : inv k -> stills (set_thread_result pid tid r k) k.
Proof.
  intros [Hk _]. eapply sat_mono; [exact (sat_and _ _ _ _ _ (set_thread_result_ok pid tid r k Hk)
    (set_thread_result_stays pid tid r k)) | |]; intros k' ? [[? ?] (_ & _ & ?)]; by split_and!.
Qed.

(** ** Waking a thread that does not run *)

(** No thread runs. *)
Definition stopped k : Prop := procs_ok (fun _ => False) (processes k) /\ table_wf (servers k).

Lemma stopped_inv k : stopped k -> inv k.
Proof. intros [Hk Ht]. split; [by apply idle_ok | done]. Qed.

Lemma ready_thread_stopped cp ct k :
  stopped k -> tid_ok ct ->
  sat (ready_thread cp ct k) (fun k' _ => stopped k' /\ machine k' = machine k)
    (fun k' _ => stopped k').
Proof.
  intros [Hk Ht] Hct.
  eapply sat_mono; [exact (sat_and _ _ _ _ _ (ready_thread_procs _ cp ct k Hk Hct ltac:(
      intros p Hp _ Hr; by destruct (procs_running _ _ Hk _ _ Hp Hr)))
    (ready_thread_stays cp ct k)) | |].
  - intros k' _ [[Hp Hm] (_ & _ & Hs)]. split; [| done]. split; [done | by rewrite Hs].
  - by intros k' _ [-> _].
Qed.

(** The state of the process that runs is changed so that it goes on. *)
Lemma runs_put pid tid cp p p' k :
  runs pid tid k -> processes k !! pid_index cp = Some p -> mapping p' = mapping p ->
  current_thread p' = current_thread p ->
  (match pstate p with Running _ | InException _ => True | _ => False end ->
   match pstate p' with Running _ | InException _ => True | _ => False end) ->
  runs pid tid (set_processes (<[pid_index cp := p']> (processes k)) k).
Proof.
  intros [Hc (q & Hq & Ht & Hm & Hs)] Hp Hmap Hcur Hst. split; [done |]. cbn.
  destruct (decide (pid_index pid = pid_index cp)) as [Heq | Hne].
  - rewrite Heq in *. exists p'. rewrite list_lookup_insert_eq by (by eapply lookup_lt_Some).
    simplify_eq. split_and!; [done | congruence | congruence | by apply Hst].
  - exists q. by rewrite list_lookup_insert_ne by done.
Qed.

Lemma ready_thread_runs pid tid cp ct k :
  inv k -> runs pid tid k -> tid_ok ct -> (cp, ct) <> (pid, tid) ->
  sat (ready_thread cp ct k)
    (fun k' _ => inv k' /\ runs pid tid k' /\ servers k' = servers k)
    (fun k' _ => k' = k).
Proof.
  intros [Hk Ht] Hr Hct Hne. pose proof Hr as [Hc (q & Hq & Hqt & Hqm & Hqs)].
  assert (Hrun : sat (ready_thread cp ct k) (fun k' _ => runs pid tid k' /\ servers k' = servers k)
                   (fun _ _ => True)).
  { unfold ready_thread. kstep. kstep; [| done]. kstep.
    destruct (pstate p) eqn:Hs; repeat kstep; try done; (split; [| done]);
      (eapply runs_put; [done | done | done | done |]); rewrite Hs; done. }
  eapply sat_mono; [exact (sat_and _ _ _ _ _ (ready_thread_procs _ cp ct k Hk Hct ltac:(
      intros p Hp Hcp Hpr;
      pose proof (procs_running _ _ Hk _ _ Hp Hpr) as Hi%index_of_inv;
      rewrite Hc in Hi; intros ->; apply Hne;
      assert (pid = cp) as -> by (apply PID_new_inv in Hqm; unfold pid_index in Hi; lia);
      congruence)) Hrun) | |].
  - intros k' _ [[Hp Hm] [Hr' Hs]]. split_and!; [| done | done]. split; [| by rewrite Hs].
    unfold sched_ok. by rewrite Hm.
  - by intros k' _ [-> _].
Qed.
End Stills.

(** ** Giving the processor away *)

(** The run leaves the table of servers as it is. *)
Definition unserved {M A} (r : outcome Error (Kernel M) A) (k : Kernel M) : Prop :=
  sat r (fun k' _ => servers k' = servers k) (fun k' _ => servers k' = servers k).

Section Unserved.
Context {M : Type} {HM : MemOps M} {HL : MemLaws M}.

Implicit Type k : Kernel M.

Lemma unserved_bind {A B} (f : Kernel M -> outcome Error (Kernel M) A)
    (g : A -> Kernel M -> outcome Error (Kernel M) B) k :
  unserved (f k) k -> (forall a k', unserved (g a k') k') -> unserved (bind f g k) k.
Proof.
  intros Hf Hg. unfold unserved. sat_step. eapply sat_mono; [exact Hf | | done]. intros k' a Hk.
  cbn in Hk. eapply sat_mono; [apply Hg | |]; cbn; intros; congruence.
Qed.

Lemma unserved_arch {A} (f : Machine M -> outcome Error (Machine M) A) k :
  keeps true f -> unserved (arch f k) k.
Proof. intros Hf. by apply sat_arch. Qed.

Lemma unserved_unwrap_result {A} (f : Kernel M -> outcome Error (Kernel M) A) k :
  unserved (f k) k -> unserved (unwrap_result f k) k.
Proof. intros Hf. apply sat_unwrap_result. by eapply sat_mono; [exact Hf | |]. Qed.

Lemma unserved_ok {A} (f : Kernel M -> outcome Error (Kernel M) A) k :
  unserved (f k) k -> unserved (ok f k) k.
Proof. intros Hf. by apply sat_ok. Qed.
End Unserved.

Ltac unserved :=
  repeat first
    [ by apply sat_activate
    | apply unserved_bind; [| intros]
    | apply unserved_unwrap_result
    | apply unserved_ok
    | apply unserved_arch; solve [auto with keeps]
    | by apply sat_get_process | by apply sat_unwrap | by apply sat_assert
    | by apply sat_arch_current
    | lazymatch goal with |- unserved ((if ?b then _ else _) _) _ => destruct b end
    | lazymatch goal with |- unserved ((match ?x with _ => _ end) _) _ => destruct x end
    | done ].

Section Activate.
Context {M : Type} {HM : MemOps M} {HL : MemLaws M}.

Implicit Type k : Kernel M.

Lemma select_new_thread_servers pid tid k : unserved (select_new_thread pid tid k) k.
Proof. unfold select_new_thread. unserved. Qed.

Lemma enter_process_servers pid tid k : unserved (enter_process pid tid k) k.
Proof. unfold enter_process. unserved. Qed.

Lemma leave_process_servers pid tid cr k : unserved (leave_process pid tid cr k) k.
Proof. unfold leave_process. unserved. Qed.

Lemma switch_within_servers pt np nt cr k : unserved (switch_within pt np nt cr k) k.
Proof. unfold switch_within. unserved. Qed.

(** The message of a client that is remembered. *)
Definition remembered (la : PostActivateOp) : Prop :=
  match la with Post_RememberServerMessage _ pid tid _ _ => client_ok (pid, tid) | _ => True end.

Lemma post_activate_table la tid k :
  remembered la -> table_wf (servers k) ->
  sat (post_activate la tid k) (fun k' _ => table_wf (servers k')) (fun k' _ => table_wf (servers k')).
Proof.
  intros Hla Hk. unfold post_activate. destruct la as [| r | sidx pid t m addr]; repeat kstep; try done.
  unfold server_from_sidx. repeat kstep; try done. subst.
  eapply sat_with_server; [done |].
  match goal with H : servers k !! _ = Some (Some ?s) |- _ => pose proof (Hk _ s H) as Hs end.
  eapply sat_mono; [apply queue_response_wf; [done | apply Hla] | |].
  - intros s' i Hr. kstep. cbn. apply table_wf_insert; [done |].
    eapply requeued_wf; [exact Hs | exact Hr |]. by intros c [= <-].
  - intros s' e [-> ->]. cbn. by apply table_wf_insert.
Qed.

Lemma activate_table pt np nt cr la k :
  remembered la -> table_wf (servers k) ->
  sat (activate_process_thread pt np nt cr la k)
    (fun k' _ => table_wf (servers k')) (fun k' _ => table_wf (servers k')).
Proof.
  intros Hla Hk.
  assert (Hbind : forall {A B} (f : Kernel M -> outcome Error (Kernel M) A)
     (g : A -> Kernel M -> outcome Error (Kernel M) B) k, unserved (f k) k -> table_wf (servers k) ->
     (forall a k', table_wf (servers k') ->
        sat (g a k') (fun k' _ => table_wf (servers k')) (fun k' _ => table_wf (servers k'))) ->
     sat (bind f g k) (fun k' _ => table_wf (servers k')) (fun k' _ => table_wf (servers k'))).
  { intros A B f g k1 Hf Hk1 Hg. sat_step. eapply sat_mono; [exact Hf | |]; cbn.
    - intros k' a Hs. apply Hg. by rewrite Hs.
    - intros k' e Hs. by rewrite Hs. }
  unfold activate_process_thread. kstep. kstep. kstep.
  - apply Hbind; [apply select_new_thread_servers | done |]. intros t k1 H1.
    apply Hbind; [apply enter_process_servers | done |]. intros _ k2 H2.
    sat_step. eapply sat_mono; [by apply post_activate_table | | done]. intros k3 si H3.
    apply Hbind; [apply leave_process_servers | done |]. intros _ k4 H4. by repeat kstep.
  - sat_step. eapply sat_mono; [by apply post_activate_table | | done]. intros k3 si H3.
    apply Hbind; [apply switch_within_servers | done |]. intros [t |] k4 H4; by repeat kstep.
Qed.

Context (pid tid : Z).

Lemma runs_not_ready k : inv k -> runs pid tid k -> tid_ok tid /\ not_ready k tid.
Proof.
  intros [Hk _] [Hc (p & Hp & Ht & _)]. destruct (procs_wf _ _ Hk _ _ Hp) as [Hok _]. split.
  - rewrite <- Ht. apply Hok.
  - intros q x Hq Hs. rewrite Hc in Hq. simplify_eq. destruct Hok as (_ & _ & Hst).
    rewrite Hs in Hst. apply Hst.
Qed.

Lemma runs_client_ok k : inv k -> runs pid tid k -> client_ok (pid, tid).
Proof.
  intros Hk Hr. split; [| by apply (runs_not_ready k)].
  destruct Hr as [_ (p & _ & _ & Hm & _)]. apply PID_new_inv in Hm. cbn. lia.
Qed.

Lemma activate_inv np nt cr la k :
  inv k -> runs pid tid k -> tid_ok nt -> remembered la ->
  sat (activate_process_thread tid np nt cr la k)
    (fun k' t => inv k' /\ (is_remember la = false -> tid_ok t))
    (fun k' e => inv k' \/ is_remember la = true /\ e = ServerQueueFull).
Proof.
  intros Hk Hr Hnt Hla. pose proof (runs_not_ready k Hk Hr) as [Ht Hnr].
  eapply sat_mono; [refine (sat_and _ _ _ _ _ (activate_process_thread_ok tid np nt cr la k _ _ _ _ _)
    (activate_table tid np nt cr la k Hla _)) | |]; try done; try apply Hk.
  - apply table_wf_servers_ok, Hk.
  - intros k' t [(? & _ & _ & ?) ?]. by split.
  - intros k' e [[[? | ?] _] ?]; [by left | by right].
Qed.
End Activate.

(** ** The state of a system call *)

Section Calls.
Context {M : Type} {HM : MemOps M} {HL : MemLaws M}.

Implicit Types (k : Kernel M) (s : System M).

Definition pair_ok (o : option (Z * Z)) : Prop := forall p t, o = Some (p, t) -> tid_ok t.

Definition statics_ok s : Prop :=
  tid_ok (ORIGINAL_TID s) /\ pair_ok (SWITCHTO_CALLER s) /\ pair_ok (PREVIOUS_PAIR s).

Definition sys_inv s : Prop := inv (kernel s) /\ statics_ok s.

Context (pid tid : Z).

(** The thread that made the call runs. *)
Definition calling s : Prop := sys_inv s /\ runs pid tid (kernel s).

Definition sstill s s' : Prop :=
  still (kernel s) (kernel s') /\ ORIGINAL_TID s' = ORIGINAL_TID s /\
  SWITCHTO_CALLER s' = SWITCHTO_CALLER s /\ PREVIOUS_PAIR s' = PREVIOUS_PAIR s.

Lemma sstill_calling s s' : sstill s s' -> calling s -> calling s'.
Proof.
  intros (Hk & Ho & Hc & Hp) [[Hi Hst] Hr]. split; [| by eapply still_runs].
  split; [by eapply still_inv |]. unfold statics_ok. by rewrite Ho, Hc, Hp.
Qed.

Lemma sstill_servers s s' : sstill s s' -> servers (kernel s') = servers (kernel s).
Proof. by intros ((_ & ? & _) & _). Qed.

Lemma sat_ss {A} (f : Kernel M -> outcome Error (Kernel M) A) s Q X :
  sat (f (kernel s)) (fun k a => Q (set_kernel k s) a) (fun k e => X (set_kernel k s) e) ->
  sat (ss f s) Q X.
Proof. apply sat_zoom. Qed.

Lemma sat_ss_still {A} (f : Kernel M -> outcome Error (Kernel M) A) s Q X :
  stills (f (kernel s)) (kernel s) -> (forall s' a, sstill s s' -> Q s' a) ->
  (forall s' e, sstill s s' -> X s' e) -> sat (ss f s) Q X.
Proof. intros Hf HQ HX. apply sat_ss. eapply sat_mono; [exact Hf | |]; intros; [apply HQ | apply HX]; done. Qed.

Lemma sat_mm {A} (f : Machine M -> outcome Error (Machine M) A) s Q X :
  keeps true f -> (forall s' a, sstill s s' -> Q s' a) ->
  (forall s' e, sstill s s' -> X s' e) -> sat (mm f s) Q X.
Proof. intros Hf. apply sat_ss_still. by apply stills_arch. Qed.

(** Any error of the switch is [ProcessNotFound]. *)
Lemma switch_away_inv np nt cr la s :
  calling s -> tid_ok nt -> is_remember la = false ->
  sat (switch_away tid np nt cr la s) (fun s' _ => sys_inv s')
    (fun s' e => sys_inv s' /\ e = ProcessNotFound).
Proof.
  intros [[Hk (Ho & Hc & Hpp)] Hr] Hnt Hla. unfold switch_away. sat_step. sat_step. apply sat_ss.
  assert (Hrem : remembered la) by (by destruct la).
  assert (Hend : forall k (r : Error + Z), inv k ->
    sat ((original_pid <- gets ORIGINAL_PID;; original_tid <- gets ORIGINAL_TID;;
          p <- unwrap (PID_new original_pid);; ok (ss (set_last_thread p original_tid)) ;;;
          match r with inl _ => fail ProcessNotFound | inr _ => ret R_ResumeProcess end)
         (set_kernel k s) : outcome Error (System M) Result)
      (fun s' _ => sys_inv s') (fun s' e => sys_inv s' /\ e = ProcessNotFound)).
  { intros k r Hk'. repeat sat_step. apply sat_ss. cbn.
    assert (Hfin : forall k1, sched_ok k1 /\ servers k1 = servers k -> sys_inv (set_kernel k1 (set_kernel k s))).
    { intros k1 [Hs Hsv]. split; [split; [done |]; cbn; rewrite Hsv; apply Hk' |]. by split_and!. }
    assert (Hun : unserved (set_last_thread a (ORIGINAL_TID s) k) k).
    { unfold set_last_thread, unserved. sat_step. apply sat_get_process; [| done]. intros p ? ? ? ?.
      destruct (pstate p); repeat kstep; done. }
    eapply sat_mono; [exact (sat_and _ _ _ _ _ (set_last_thread_ok a _ k (proj1 Hk') Ho) Hun) | |];
      intros k1 ? H1; apply Hfin in H1; destruct r; sat_step; by auto. }
  eapply sat_mono; [by eapply activate_inv | |].
  - intros k t [Hk' _]. by apply (Hend k (inr t)).
  - intros k e [Hk' | [? _]]; [by apply (Hend k (inl e)) | congruence].
Qed.

Lemma take_switchto_inv s :
  calling s ->
  sat (take_switchto_caller s) (fun s' c => calling s' /\ tid_ok c.2) (fun _ _ => False).
Proof.
  intros [[Hk (Ho & Hc & Hpp)] Hr]. unfold take_switchto_caller, reset_switchto_caller. repeat sat_step.
  destruct a as [p t]. split; [| by eapply Hc]. split; [| done]. split; [done |]. by split_and!.
Qed.

Lemma reset_calling s : calling s -> calling (set_switchto_caller None s).
Proof. intros [[Hk (Ho & Hc & Hpp)] Hr]. split; [| done]. split; [done |]. by split_and!. Qed.

Lemma do_yield_inv s :
  calling s ->
  sat (do_yield tid s) (fun s' _ => sys_inv s') (fun s' e => sys_inv s' /\ e = ProcessNotFound).
Proof.
  intros Hs. unfold do_yield. sat_step. eapply sat_mono; [by apply take_switchto_inv | | done].
  intros s' [p t] [Hs' Ht]. by apply switch_away_inv.
Qed.

Lemma sleep_in_parent_inv s :
  calling s ->
  sat (sleep_in_parent pid tid s) (fun s' _ => sys_inv s')
    (fun s' e => sys_inv s' /\ e = ProcessNotFound).
Proof.
  intros Hs. unfold sleep_in_parent, reset_switchto_caller. sat_step. apply sat_ss. sat_step.
  apply sat_get_process; [| done]. intros p _ _ _ _. do 2 sat_step.
  apply switch_away_inv; [| done | done]. by apply reset_calling.
Qed.

Lemma retry_inv s :
  calling s ->
  sat (retry_syscall tid s) (fun s' _ => sys_inv s') (fun s' _ => sys_inv s').
Proof.
  intros Hs. unfold retry_syscall. sat_step. apply sat_mm; [auto with keeps | |].
  - intros s1 _ H1. sat_step. apply sat_mm; [auto with keeps | |].
    + intros s2 _ H2. eapply sat_mono; [apply do_yield_inv | done |].
      * eapply sstill_calling; [exact H2 |]. by eapply sstill_calling.
      * by intros s' e [? ?].
    + intros s2 e H2. by apply (sstill_calling s1 s2 H2), (sstill_calling s s1 H1).
  - intros s1 e H1. by apply (sstill_calling s s1 H1).
Qed.

(** ** Calls that only change memory *)

(** Every outcome leaves the scheduler and the servers alone. *)
Definition sstills {A} (r : outcome Error (System M) A) s : Prop :=
  sat r (fun s' _ => sstill s s') (fun s' _ => sstill s s').

Lemma sstill_refl s : sstill s s.
Proof. done. Qed.

Lemma sstill_trans s1 s2 s3 : sstill s1 s2 -> sstill s2 s3 -> sstill s1 s3.
Proof.
  intros (Ha & ? & ? & ?) (Hb & ? & ? & ?). split; [by eapply still_trans |]. split_and!; congruence.
Qed.

Lemma sstills_bind {A B} (f : System M -> outcome Error (System M) A)
    (g : A -> System M -> outcome Error (System M) B) s :
  sstills (f s) s -> (forall a s', sstills (g a s') s') -> sstills (bind f g s) s.
Proof.
  intros Hf Hg. unfold sstills. sat_step. eapply sat_mono; [exact Hf | | done]. intros s' a Hs.
  cbn in Hs. eapply sat_mono; [apply Hg | |]; intros s2 ? H2; by eapply sstill_trans.
Qed.

Lemma sstills_mm {A} (f : Machine M -> outcome Error (Machine M) A) s :
  keeps true f -> sstills (mm f s) s.
Proof. intros Hf. by apply sat_mm. Qed.

Lemma sstills_attempt {A} (f : System M -> outcome Error (System M) A) s :
  sstills (f s) s -> sstills (attempt f s) s.
Proof. intros Hf. by apply sat_attempt. Qed.

Lemma sstills_for_each {A} (l : list A) (f : A -> System M -> outcome Error (System M) unit) s :
  (forall x s', sstills (f x s') s') -> sstills (for_each l f s) s.
Proof.
  intros Hf. revert s. induction l as [| x l IH]; intros s; [done |].
  apply sstills_bind; [apply Hf | auto].
Qed.

#[local] Hint Extern 4 (keeps true _) => apply (keeps_mem_op here); solve [mem_op] : keeps.

#[local] Ltac sstills :=
  repeat first
    [ apply sstills_mm; solve [auto with keeps]
    | apply sstills_bind; [| intros]
    | apply sstills_attempt
    | apply sstills_for_each; intros
    | lazymatch goal with |- sstills ((if ?b then _ else _) _) _ => destruct b end
    | lazymatch goal with |- sstills ((match ?x with _ => _ end) _) _ => destruct x end
    | done ].

Lemma map_memory_still p phys virt size flags s : sstills (map_memory p phys virt size flags s) s.
Proof. unfold map_memory. sstills. Qed.

Lemma unmap_each_still l r s : sstills (unmap_each l r s) s.
Proof.
  revert r s. induction l as [| a l IH]; intros r s; [done |]. cbn [unmap_each].
  apply sstills_bind; [sstills | auto].
Qed.

Lemma unmap_range_still range s : sstills (unmap_range range s) s.
Proof.
  unfold unmap_range. cbv zeta. case_if; [done |].
  apply sstills_bind; [apply unmap_each_still |]. intros []; done.
Qed.

Lemma increase_heap_still delta flags s : sstills (increase_heap delta flags s) s.
Proof. unfold increase_heap. sstills. Qed.

Lemma decrease_heap_still delta s : sstills (decrease_heap delta s) s.
Proof. unfold decrease_heap. sstills. Qed.

Lemma adjust_limit_still i c n s : sstills (adjust_process_limit i c n s) s.
Proof. unfold adjust_process_limit. sstills. Qed.

(** ** Operations of a server *)

Lemma sat_server {A} sidx (f : Server -> outcome Error Server A) k Q X :
  table_wf (servers k) ->
  (forall srv, servers k !! Z.to_nat sidx = Some (Some srv) -> server_wf srv ->
     sat (f srv) (fun srv' a => Q (set_servers (<[Z.to_nat sidx := Some srv']> (servers k)) k) a)
                 (fun srv' e => X (set_servers (<[Z.to_nat sidx := Some srv']> (servers k)) k) e)) ->
  sat (with_server sidx f k) Q X.
Proof.
  intros Hk Hf. destruct (servers k !! Z.to_nat sidx) as [[srv |] |] eqn:Hs.
  - apply (sat_with_server _ _ srv); [done |]. apply Hf; [done | by eapply Hk].
  - unfold with_server. by rewrite Hs.
  - unfold with_server. by rewrite Hs.
Qed.

Lemma sat_server_from_sidx sidx k Q X :
  (forall r, (forall srv, r = Some srv -> servers k !! Z.to_nat sidx = Some (Some srv)) -> Q k r) ->
  sat (server_from_sidx sidx k) Q X.
Proof.
  intros HQ. unfold server_from_sidx. repeat sat_step; [by apply HQ |]. apply HQ. by intros srv ->.
Qed.

Lemma inv_put_server i srv k : inv k -> server_wf srv -> inv (set_servers (<[i := Some srv]> (servers k)) k).
Proof. intros [Hk Ht] Hs. split; [done |]. by apply table_wf_insert. Qed.

Lemma requeued_inv extra i srv srv' k :
  inv k -> servers k !! i = Some (Some srv) -> requeued extra srv srv' ->
  (forall c, extra = Some c -> client_ok c) ->
  inv (set_servers (<[i := Some srv']> (servers k)) k).
Proof.
  intros Hk Hs Hr Hc. apply inv_put_server; [done |]. eapply requeued_wf; [| done | done].
  by eapply (proj2 Hk).
Qed.

(** The end of the operations that visit the address space of the server. *)
Lemma visit_server_inv sidx p (f : Server -> outcome Error Server nat) k :
  (forall srv, server_wf srv -> sat (f srv) (fun srv' _ => server_wf srv') (fun srv' _ => server_wf srv')) ->
  inv k -> runs pid tid k ->
  sat ((result <- attempt (with_server sidx f);;
        current_process <- unwrap_result (get_process p);;
        arch (MemoryMapping_activate (mapping current_process)) ;;;
        match result with inl e => fail e | inr i => ret i end) k)
    (fun k' _ => inv k' /\ runs pid tid k') (fun k' _ => inv k' /\ runs pid tid k').
Proof.
  intros Hf Hk Hr. sat_step. sat_step. apply sat_server; [apply Hk |]. intros srv Hs Hwf.
  assert (Hend : forall (r : Error + nat) srv', server_wf srv' ->
    sat ((current_process <- unwrap_result (get_process p);;
          arch (MemoryMapping_activate (mapping current_process)) ;;;
          match r with inl e => fail e | inr i => ret i end)
           (set_servers (<[Z.to_nat sidx := Some srv']> (servers k)) k))
      (fun k' _ => inv k' /\ runs pid tid k') (fun k' _ => inv k' /\ runs pid tid k')).
  { intros r srv' Hs'. do 3 kstep; [| done].
    set (k1 := set_servers _ k) in *. kstep. kstep. assert (H1' : still k1 (set_machine m k1)) by done.
    assert (Hk1 : inv k1) by (by apply inv_put_server).
    destruct r; kstep; (split; [by eapply still_inv | by apply (still_runs _ _ k1)]). }
  eapply sat_mono; [by apply Hf | |]; intros srv' r Hs';
    [by apply (Hend (inr r) srv') | by apply (Hend (inl r) srv')].
Qed.

Lemma queue_server_message_inv sidx m a k :
  inv k -> runs pid tid k ->
  sat (queue_server_message sidx pid tid m a k)
    (fun k' _ => inv k' /\ runs pid tid k') (fun k' _ => inv k' /\ runs pid tid k').
Proof.
  intros Hk Hr. pose proof (runs_client_ok pid tid k Hk Hr) as Hc. unfold queue_server_message.
  kstep. apply sat_current_pid. rewrite set_machine_same. kstep. apply sat_server_from_sidx.
  intros r _. kstep. kstep; [| done]. kstep. kstep; [| done].
  kstep. kstep. apply visit_server_inv; [| by apply (still_inv k) | by apply (still_runs _ _ k)].
  intros srv Hs.
  eapply sat_mono; [apply queue_message_wf; [done | apply Hc] | |].
  - intros srv' i H'. cbn in H'. eapply requeued_wf; [done | done |]. intros c. destruct (Message_is_blocking m); [by intros [= <-] | done].
  - by intros srv' e [-> _].
Qed.

Lemma remember_server_message_inv sidx m a k :
  inv k -> runs pid tid k ->
  sat (remember_server_message sidx pid tid m a k)
    (fun k' _ => inv k' /\ runs pid tid k') (fun k' _ => inv k' /\ runs pid tid k').
Proof.
  intros Hk Hr. pose proof (runs_client_ok pid tid k Hk Hr) as Hc. unfold remember_server_message.
  kstep. apply sat_server_from_sidx. intros r _. kstep. kstep; [| done]. kstep. kstep; [| done].
  kstep. kstep. apply visit_server_inv; [| by apply (still_inv k) | by apply (still_runs _ _ k)].
  intros srv Hs.
  eapply sat_mono; [apply queue_response_wf; [done | apply Hc] | |].
  - intros srv' i H'. cbn in H'. eapply requeued_wf; [done | done |]. by intros c [= <-].
  - by intros srv' e [-> _].
Qed.

Lemma translate_message_still server_pid m k : stills (translate_message server_pid m k) k.
Proof.
  assert (Hlift : forall (r : Kernel M -> outcome Error (Kernel M) Z) ctor msg k,
    stills (r k) k ->
    stills ((new_virt <- r;;
             buf <- lift_result (MemoryRange_new new_virt (MemoryRange_len (mm_buf msg)));;
             ret (ctor (mk_MemoryMessage (mm_id msg) buf (mm_offset msg) (mm_valid msg)) : Message)) k) k).
  { intros r ctor msg k' Hr. unfold stills. sat_step. eapply sat_mono; [exact Hr | | done].
    intros k1 v H1. unfold lift_result. destruct (MemoryRange_new _ _); repeat sat_step; done. }
  destruct m; cbn [translate_message]; try done; apply Hlift; apply stills_restores;
    apply lend_memory_space || apply send_memory_space.
Qed.

(** ** Operations that leave the scheduler and the servers alone *)

Lemma stills_bind {A B} (f : Kernel M -> outcome Error (Kernel M) A)
    (g : A -> Kernel M -> outcome Error (Kernel M) B) k :
  stills (f k) k -> (forall a k', stills (g a k') k') -> stills (bind f g k) k.
Proof.
  intros Hf Hg. unfold stills. sat_step. eapply sat_mono; [exact Hf | | done]. intros k' a Hk.
  cbn in Hk. eapply sat_mono; [apply Hg | |]; intros k2 ? H2; by eapply still_trans.
Qed.

Lemma stills_put_impl p k : stills (arch (put_impl p) k) k.
Proof. done. Qed.

#[local] Ltac stills :=
  repeat first
    [ apply stills_put_impl
    | apply stills_bind; [| intros]
    | apply stills_arch; solve [auto with keeps | apply keeps_get_impl]
    | by apply sat_get_process | by apply sat_unwrap | by apply sat_assert | by apply sat_ok_or
    | lazymatch goal with |- stills ((if ?b then _ else _) _) _ => destruct b end
    | lazymatch goal with |- stills ((match ?x with _ => _ end) _) _ => destruct x end
    | done ].

Lemma current_inner_still k : stills (current_inner k) k.
Proof. unfold current_inner. stills. Qed.

Lemma sidx_from_cid_still cid k : stills (sidx_from_cid cid k) k.
Proof.
  unfold sidx_from_cid. destruct (cid <? 2); [done |].
  apply stills_bind; [apply current_inner_still |]. intros. stills.
Qed.

Lemma connect_to_server_still sid k : stills (connect_to_server sid k) k.
Proof.
  unfold connect_to_server, put_connection.
  apply stills_bind; [apply current_inner_still |]. intros. stills.
Qed.

Lemma disconnect_still cid k : stills (disconnect_from_server cid k) k.
Proof.
  unfold disconnect_from_server, put_connection. destruct (cid <? 2); [done |].
  apply stills_bind; [apply current_inner_still |]. intros. stills.
Qed.

Lemma runnable_still p t k : stills (runnable p t k) k.
Proof. unfold runnable. stills. Qed.

(** ** Sending *)

Lemma take_available_inv sidx k :
  inv k -> runs pid tid k -> unrecorded (pid, tid) (servers k) ->
  sat (with_server sidx take_available_thread k)
    (fun k' r => inv k' /\ runs pid tid k' /\
       forall t, r = Some t -> tid_ok t /\
         forall srv, servers k !! Z.to_nat sidx = Some (Some srv) ->
                     (server_pid srv, t) <> (pid, tid))
    (fun _ _ => False).
Proof.
  intros Hk Hr Hu. apply sat_server; [apply Hk |]. intros srv Hs Hwf.
  pose proof (take_available_wf srv Hwf) as Ht.
  destruct (take_available_thread srv) as [srv' [t |] | | |]; cbn [sat]; try done.
  - destruct Ht as (Htok & Hb & ->). split_and!; [| done |].
    + apply inv_put_server; [done |]. apply set_ready_wf; [done |]. apply mask_ok_clear; [apply Hwf | done].
    + intros t' [= <-]. split; [done |]. intros srv0 Hs0 [= Hp Ht].
      apply (Hu _ srv Hs). right. cbn. replace srv with srv0 by congruence. rewrite <- Ht.
      replace srv0 with srv in * by congruence. by split.
  - subst srv'. split_and!; [by apply inv_put_server | done | done].
Qed.

Lemma return_available_inv sidx t s :
  calling s -> tid_ok t ->
  sat (ss (with_server sidx (return_available_thread t)) s) (fun s' _ => calling s')
    (fun _ _ => False).
Proof.
  intros [[Hk Hst] Hr] Ht. apply sat_ss, sat_server; [apply Hk |]. intros srv Hs Hwf.
  unfold return_available_thread. case_match; [done |]. cbn [sat]. split; [| done]. split; [| done].
  apply inv_put_server; [done |]. apply set_ready_wf; [done |]. apply mask_ok_set; [apply Hwf | done].
Qed.

Lemma deliver_blocking_inv sidx sp st m a runnable s :
  calling s -> tid_ok st ->
  sat (deliver_blocking pid tid sidx sp st m a runnable s) (fun s' _ => sys_inv s')
    (fun s' e => calling s' \/ e = ProcessNotFound).
Proof.
  intros Hs Ht. pose proof Hs as [[Hk Hst] Hr]. unfold deliver_blocking. destruct runnable; cbn [negb].
  - sat_step. sat_step. apply sat_ss.
    eapply sat_mono; [apply (activate_inv pid tid); [done | done | done |] | |].
    + by eapply runs_client_ok.
    + intros k' i [Hk' _]. sat_step. by split.
    + intros k' e _. by right.
  - sat_step. sat_step. apply sat_ss.
    eapply sat_mono; [by apply remember_server_message_inv | |].
    + intros k' i [Hk' Hr']. sat_step.
      eapply sat_mono; [apply take_switchto_inv; by split | | done].
      intros s2 [p t] [H2 Ht2]. eapply sat_mono; [by apply switch_away_inv | done |].
      intros s3 e [_ ->]. by right.
    + intros k' e [Hk' Hr']. sat_step.
      eapply sat_mono; [apply return_available_inv; [by split | done] | | done].
      intros s2 [] H2. sat_step. by left.
Qed.

(** A message for a thread of the server that waits for one. *)
Lemma send_to_thread_inv sidx sp st m a (blocking : bool) s k :
  inv k -> runs pid tid k -> statics_ok s -> tid_ok st -> (sp, st) <> (pid, tid) ->
  sat ((woken <- attempt (ss (ready_thread sp st));;
        match woken with
        | inl e => ss (with_server sidx (return_available_thread st)) ;;; fail e
        | inr _ =>
            runnable <- ss (unwrap_result (runnable sp (Some st)));;
            if blocking then deliver_blocking pid tid sidx sp st m a runnable
            else
              ss (set_thread_result sp st (R_MessageEnvelope (envelope sidx 0 pid m))) ;;; ret R_Ok
        end) (set_kernel k s))
    (fun s' _ => sys_inv s') (fun s' e => calling s' \/ e = ProcessNotFound).
Proof.
  intros Hk Hr Hst Ht Hne. sat_step. sat_step. apply sat_ss.
  eapply sat_mono; [by apply ready_thread_runs | |].
  - intros k1 [] (Hk1 & Hr1 & _). sat_step.
    apply sat_ss. sat_step. eapply sat_mono; [apply runnable_still | | done].
    intros k2 b H2. assert (Hc2 : calling (set_kernel k2 (set_kernel k1 (set_kernel k s)))).
    { split; [| exact (still_runs _ _ _ _ H2 Hr1)]. split; [exact (still_inv _ _ H2 Hk1) | exact Hst]. }
    destruct blocking; [by apply deliver_blocking_inv |]. sat_step.
    apply sat_ss_still; [apply stills_set_thread_result, Hc2 | |].
    + intros s3 _ H3. sat_step. by apply (sstill_calling _ _ H3).
    + intros s3 e H3. left. by apply (sstill_calling _ _ H3).
  - intros k1 e ->. sat_step.
    eapply sat_mono; [apply return_available_inv; [by split | done] | | done].
    intros s2 [] H2. sat_step. by left.
Qed.

Lemma send_message_inv cid m s :
  calling s -> unrecorded (pid, tid) (servers (kernel s)) ->
  sat (send_message pid tid cid m s) (fun s' _ => sys_inv s')
    (fun s' e => calling s' \/ e = ProcessNotFound).
Proof.
  intros Hs Hu. unfold send_message. sat_step.
  apply sat_ss_still; [apply sidx_from_cid_still | | intros; left; by eapply sstill_calling].
  intros s1 sidx H1. sat_step. sat_step; [| left; by eapply sstill_calling]. sat_step.
  apply sat_ss, sat_server_from_sidx. intros r Hsrv. do 2 sat_step. cbv zeta.
  assert (Hs1 : calling (set_kernel (kernel s1) s1)) by (by apply (sstill_calling s s1)).
  set (s1' := set_kernel (kernel s1) s1) in *. sat_step.
  apply sat_ss_still; [apply translate_message_still | | intros; left; by eapply sstill_calling].
  intros s2 m' H2. sat_step. apply sat_ss, sat_server_from_sidx. intros r2 _. do 2 sat_step. sat_step.
  assert (Hs2 : calling s2) by (by eapply sstill_calling).
  assert (Hsv2 : servers (kernel s2) = servers (kernel s)).
  { etrans; [by eapply sstill_servers |]. by apply sstill_servers. }
  apply sat_ss. eapply sat_mono; [apply take_available_inv; [apply Hs2 | apply Hs2 | cbn; by rewrite Hsv2] | | done].
  intros k3 [t |] (Hk3 & Hr3 & Ht).
  - destruct (Ht t eq_refl) as [Htok Hne]. apply send_to_thread_inv; try done; [apply Hs2 |].
    apply Hne. cbn. rewrite Hsv2, <- (sstill_servers s s1 H1). by apply Hsrv.
  - sat_step. apply sat_ss. eapply sat_mono; [by apply queue_server_message_inv | |].
    + intros k4 i [Hk4 Hr4]. destruct (Message_is_blocking m); [| sat_step; by split; [| apply Hs2]].
      eapply sat_mono; [apply sleep_in_parent_inv | done | intros s' e [_ ->]; by right].
      by split; [split; [| apply Hs2] |].
    + intros k4 e [Hk4 Hr4]. left. by split; [split; [| apply Hs2] |].
Qed.

(** ** Replying *)

Lemma own_server_still sp sender k : stills (own_server sp sender k) k.
Proof. unfold own_server, server_from_sidx. stills. Qed.

(** The client of a message that is taken out waits, so it is not the thread
    that runs. *)
Lemma take_waiting_inv sidx i buf k :
  inv k -> runs pid tid k -> unrecorded (pid, tid) (servers k) ->
  sat (with_server sidx (take_waiting_message i buf) k)
    (fun k' w => inv k' /\ runs pid tid k' /\ unrecorded (pid, tid) (servers k') /\
       forall c, waiting_client w = Some c -> client_ok c /\ c <> (pid, tid))
    (fun k' _ => inv k' /\ runs pid tid k').
Proof.
  intros Hk Hr Hu. apply sat_server; [apply Hk |]. intros srv Hs Hwf.
  eapply sat_mono; [by apply take_waiting_wf | |].
  - intros srv' w [Hq Hc]. split; [by eapply requeued_inv |]. split; [done |]. split.
    + apply unrecorded_insert; [done |]. intros Hrec.
      destruct (requeued_recorded _ _ _ _ Hq Hrec); [by eapply Hu | done].
    + intros c Hcw. specialize (Hc c Hcw). split; [by apply Hwf |]. intros ->.
      apply (Hu _ _ Hs). by left.
  - intros srv' e Hq. cbn in Hq. split; [by eapply requeued_inv | done].
Qed.

Lemma take_next_inv sidx i k :
  inv k -> runs pid tid k ->
  sat (with_server sidx (take_next_message i) k) (fun k' _ => inv k' /\ runs pid tid k')
    (fun _ _ => False).
Proof.
  intros Hk Hr. apply sat_server; [apply Hk |]. intros srv Hs Hwf.
  eapply sat_mono; [by apply take_next_wf | | done].
  intros srv' w Hq. cbn in Hq. split; [by eapply requeued_inv | done].
Qed.

Lemma park_inv sidx k :
  inv k -> runs pid tid k ->
  sat (with_server sidx (park_thread tid) k) (fun k' _ => inv k' /\ runs pid tid k')
    (fun _ _ => False).
Proof.
  intros Hk Hr. apply sat_server; [apply Hk |]. intros srv Hs Hwf. unfold park_thread. repeat sat_step.
  split; [| done]. apply inv_put_server; [done |]. apply set_ready_wf; [done |].
  apply mask_ok_set; [apply Hwf | by apply (runs_client_ok pid tid k)].
Qed.

Lemma unschedule_inv k :
  inv k -> runs pid tid k ->
  sat (unschedule_thread pid tid k) (fun k' _ => stopped k') (fun k' _ => inv k').
Proof.
  intros [Hk Ht] [Hc _].
  assert (Hun : unserved (unschedule_thread pid tid k) k).
  { unfold unschedule_thread, unserved. kstep. kstep; [| done]. kstep.
    destruct (pstate p); repeat kstep; done. }
  eapply sat_mono; [exact (sat_and _ _ _ _ _ (unschedule_thread_ok pid tid k Hk) Hun) | |].
  - intros k' [] [[_ Hs] Hsv]. split; [by apply Hs | by rewrite Hsv].
  - intros k' e [? Hsv]. split; [done | by rewrite Hsv].
Qed.

Lemma switch_to_inv cp t k :
  stopped k -> (forall t', t = Some t' -> tid_ok t') ->
  sat (switch_to_thread cp t k) (fun k' _ => inv k') (fun k' _ => inv k').
Proof.
  intros [Hk Ht] Htid.
  eapply sat_mono; [refine (sat_and _ _ _ _ _ (switch_to_thread_ok cp t k _ Htid)
    (switch_to_thread_stays cp t k)) | |].
  - by eapply procs_ok_mono.
  - intros k' [] [? (_ & _ & Hs)]. split; [done | by rewrite Hs].
  - intros k' e [? (_ & _ & Hs)]. split; [done | by rewrite Hs].
Qed.

Lemma still_stopped k k' : still k k' -> stopped k -> stopped k'.
Proof. intros (Hp & Hs & _) [Hk Ht]. split; [by rewrite Hp | by rewrite Hs]. Qed.

Lemma switch_to_client_inv cp ct r1 r2 s :
  calling s -> tid_ok ct ->
  sat (switch_to_client pid tid cp ct r1 r2 s) (fun s' _ => sys_inv s') (fun s' _ => sys_inv s').
Proof.
  intros [[Hk Hst] Hr] Hct. pose proof (runs_client_ok pid tid _ Hk Hr) as [_ Ht].
  unfold switch_to_client. sat_step. apply sat_ss.
  eapply sat_mono; [by apply unschedule_inv | | by intros; split]. intros k1 [] H1.
  sat_step. apply sat_ss.
  eapply sat_mono; [by apply ready_thread_stopped | | intros; split; [by apply stopped_inv | done]].
  intros k2 [] [H2 _]. sat_step. apply sat_ss.
  eapply sat_mono; [apply stills_set_thread_result; by apply stopped_inv | |].
  2: { intros k3 e H3. cbn in H3. split; [| done]. by eapply stopped_inv, still_stopped. }
  intros k3 [] H3. cbn in H3. sat_step. apply sat_ss.
  eapply sat_mono; [apply switch_to_inv; [by eapply still_stopped | by intros ? [= <-]] | | by intros; split].
  intros k4 [] H4. sat_step. by split.
Qed.

Lemma stay_in_server_still in_irq cp ct s : sstills (stay_in_server pid in_irq cp ct s) s.
Proof.
  unfold stay_in_server. destruct in_irq; [done |]. unfold sstills. sat_step.
  apply sat_ss_still; [apply runnable_still | | done]. intros s' r Hs. by repeat sat_step.
Qed.

Lemma finish_return_inv in_irq cp ct r s :
  calling s -> tid_ok ct -> (cp, ct) <> (pid, tid) ->
  sat (finish_return pid tid in_irq cp ct r s) (fun s' _ => sys_inv s') (fun s' _ => sys_inv s').
Proof.
  intros [[Hk Hst] Hr] Hct Hne. unfold finish_return. sat_step. apply sat_ss.
  eapply sat_mono; [by apply (ready_thread_runs pid tid) | | by intros k' e ->].
  intros k1 [] (Hk1 & Hr1 & _). sat_step.
  assert (Hs1 : calling (set_kernel k1 s)) by (split; [by split | done]).
  eapply sat_mono; [apply stay_in_server_still | | intros s2 e H2; by apply (sstill_calling _ _ H2)].
  intros s2 stay H2. cbn in H2. pose proof (sstill_calling _ _ H2 Hs1) as Hs2.
  destruct stay; [| by apply switch_to_client_inv]. sat_step.
  apply sat_ss_still; [apply stills_set_thread_result, Hs2 | |]; intros s3 ? H3; [sat_step |];
    by apply (sstill_calling _ _ H3).
Qed.

Lemma return_memory_call_inv in_irq sender buf o v s :
  calling s -> unrecorded (pid, tid) (servers (kernel s)) ->
  sat (return_memory_call pid tid in_irq sender buf o v s)
    (fun s' _ => sys_inv s') (fun s' _ => sys_inv s').
Proof.
  intros Hs Hu. unfold return_memory_call. cbv zeta. sat_step.
  apply sat_ss_still; [apply own_server_still | | intros; by eapply sstill_calling].
  intros s1 [] H1. pose proof (sstill_calling _ _ H1 Hs) as [[Hk1 Hst1] Hr1]. sat_step. apply sat_ss.
  eapply sat_mono; [apply take_waiting_inv; [done | done | by rewrite (sstill_servers _ _ H1)] | |
                    by intros k e [? _]].
  intros k2 w (Hk2 & Hr2 & _ & Hc). assert (Hs2 : calling (set_kernel k2 s1)) by (split; [by split | done]).
  destruct w as [| cp ct sa ca len | | cp ct | r]; try (sat_step; by apply Hs2).
  - destruct (Hc (cp, ct) eq_refl) as [[_ Hct] Hne]. sat_step.
    apply sat_ss_still; [apply stills_restores, return_memory_space | |].
    + intros s3 v3 H3. apply finish_return_inv; [by eapply sstill_calling | done | done].
    + intros s3 e H3. by apply (sstill_calling _ _ H3).
  - eapply sat_mono; [apply unmap_range_still | |]; intros s3 ? H3; by apply (sstill_calling _ _ H3).
Qed.

Lemma return_result_inv in_irq sender r s :
  calling s -> unrecorded (pid, tid) (servers (kernel s)) ->
  sat (return_result pid tid in_irq sender r s) (fun s' _ => sys_inv s') (fun s' _ => sys_inv s').
Proof.
  intros Hs Hu. unfold return_result. cbv zeta. sat_step.
  apply sat_ss_still; [apply own_server_still | | intros; by eapply sstill_calling].
  intros s1 [] H1. pose proof (sstill_calling _ _ H1 Hs) as [[Hk1 Hst1] Hr1]. sat_step. apply sat_ss.
  eapply sat_mono; [apply take_waiting_inv; [done | done | by rewrite (sstill_servers _ _ H1)] | |
                    by intros k e [? _]].
  intros k2 w (Hk2 & Hr2 & _ & Hc). assert (Hs2 : calling (set_kernel k2 s1)) by (split; [by split | done]).
  destruct w as [| cp ct sa ca len | | cp ct | range]; try (sat_step; by apply Hs2).
  destruct (Hc (cp, ct) eq_refl) as [[_ Hct] Hne]. by apply finish_return_inv.
Qed.

Lemma reply_response_still w a0 a1 a2 a3 a4 ty k :
  sat (reply_response w a0 a1 a2 a3 a4 ty k)
    (fun k' r => still k k' /\ waiting_client w = Some r.1) (fun k' _ => still k k').
Proof.
  destruct w; cbn [reply_response waiting_client]; try done. sat_step.
  eapply sat_mono; [apply stills_restores, return_memory_space | | done]. intros k' v Hk. by sat_step.
Qed.

Lemma reply_and_receive_inv in_irq sender a0 a1 a2 a3 a4 ty s :
  calling s -> unrecorded (pid, tid) (servers (kernel s)) ->
  sat (reply_and_receive_next pid tid in_irq sender a0 a1 a2 a3 a4 ty s)
    (fun s' _ => sys_inv s') (fun s' _ => sys_inv s').
Proof.
  intros Hs Hu. unfold reply_and_receive_next. cbv zeta. sat_step.
  apply sat_ss_still; [apply own_server_still | | intros; by eapply sstill_calling].
  intros s1 [] H1. pose proof (sstill_calling _ _ H1 Hs) as [[Hk1 Hst1] Hr1]. sat_step. apply sat_ss.
  eapply sat_mono; [apply take_waiting_inv; [done | done | by rewrite (sstill_servers _ _ H1)] | |
                    by intros k e [? _]].
  intros k2 w (Hk2 & Hr2 & _ & Hc). sat_step. apply sat_ss.
  eapply sat_mono; [by apply take_next_inv | | done]. intros k3 msg [Hk3 Hr3]. sat_step.
  eapply (sat_mono _ (fun s' _ => calling s') _ (fun _ _ => False)); [| | done].
  { destruct msg; [sat_step; by split; [split |] |]. apply sat_ss.
    eapply sat_mono; [by apply park_inv | | done]. intros k4 [] [? ?]. by split; [split |]. }
  intros s4 [] Hs4. sat_step. apply sat_ss.
  eapply sat_mono; [apply reply_response_still | |].
  2: { intros k5 e H5. split; [by eapply still_inv; [exact H5 | apply Hs4] | apply Hs4]. }
  intros k5 [[cp ct] r] [H5 Hcl]. cbn in H5, Hcl. destruct (Hc (cp, ct) Hcl) as [[_ Hct] Hne].
  cbn in Hct. sat_step. apply sat_ss.
  eapply sat_mono; [apply (ready_thread_runs pid tid); try done | |].
  { eapply still_inv; [exact H5 | apply Hs4]. }
  { eapply still_runs; [exact H5 | apply Hs4]. }
  2: { intros k6 e ->. split; [by eapply still_inv; [exact H5 | apply Hs4] | apply Hs4]. }
  intros k6 [] (Hk6 & Hr6 & _).
  assert (Hs6 : calling (set_kernel k6 (set_kernel k5 s4))) by (split; [split; [done | apply Hs4] | done]).
  destruct msg as [msg |].
  - sat_step. eapply sat_mono; [apply stay_in_server_still | | intros s7 e H7; by apply (sstill_calling _ _ H7)].
    intros s7 stay H7. cbn in H7. pose proof (sstill_calling _ _ H7 Hs6) as Hs7.
    destruct stay; [| by apply switch_to_client_inv]. sat_step.
    apply sat_ss_still; [apply stills_set_thread_result, Hs7 | |]; intros s8 ? H8; [sat_step |];
      by apply (sstill_calling _ _ H8).
  - sat_step. sat_step. apply sat_ss.
    eapply sat_mono; [apply (activate_inv pid tid); done | |].
    + intros k7 t7 [Hk7 _]. sat_step. split; [done | apply Hs4].
    + intros k7 e [Hk7 | [? _]]; [| done]. split; [done | apply Hs4].
Qed.

(** ** Receiving *)

Lemma receive_message_inv sid blocking s :
  calling s ->
  sat (receive_message pid tid sid blocking s) (fun s' _ => sys_inv s') (fun s' _ => sys_inv s').
Proof.
  intros Hs. unfold receive_message. sat_step. apply sat_ss. unfold thread_is_running.
  sat_step. sat_step. apply sat_get_process; [| done]. intros p _ _ _ _.
  destruct (pstate p); try exact I. sat_step; [exact I |]. repeat sat_step.
  assert (Hs1 : calling (set_kernel (kernel s) s)) by exact Hs. set (s1 := set_kernel _ s) in *.
  apply sat_ss_still; [unfold sidx_from_sid; stills | | intros s2 e H2; by apply (sstill_calling _ _ H2)].
  intros s2 sidx H2. pose proof (sstill_calling _ _ H2 Hs1) as Hs2. sat_step. sat_step; [| by apply Hs2].
  sat_step. apply sat_ss, sat_server_from_sidx. intros r _. sat_step. sat_step; [| by apply Hs2].
  sat_step; [sat_step; by apply Hs2 |]. sat_step. apply sat_ss.
  eapply sat_mono; [apply take_next_inv; apply Hs2 | | done]. intros k3 msg [Hk3 Hr3].
  assert (Hst : statics_ok s2) by apply Hs2.
  destruct msg, blocking; try (sat_step; by split).
  sat_step. apply sat_ss. eapply sat_mono; [by apply park_inv | | done]. intros k4 [] [Hk4 Hr4].
  unfold reset_switchto_caller. sat_step. sat_step. sat_step. apply sat_ss. sat_step.
  apply sat_get_process; [| done]. intros q _ _ _ _.
  eapply sat_mono; [apply switch_away_inv; [| done | done] | done | by intros s' e [? _]].
  split; [split; [exact Hk4 | split_and!; [apply Hst | done | apply Hst]] | exact Hr4].
Qed.

(** ** Creating servers and processes *)

Lemma Server_init_wf p sid page backing srv :
  MemoryRange_new page PAGE_SIZE = Ok backing -> Server_init None p sid backing = Ok srv ->
  server_wf srv.
Proof.
  unfold MemoryRange_new. intros Hb [= <-].
  assert (MemoryRange_len backing = 4096) as Hlen.
  { destruct (NonZero_new page); [| done]. cbn in Hb. by injection Hb as <-. }
  rewrite Hlen. change (Z.to_nat (4096 / 32)) with QUEUE_LEN. split.
  - split; [apply length_replicate | apply Nat.lt_0_succ].
  - apply Nat.lt_0_succ.
  - apply mask_ok_0.
  - intros c (m & Hm & Hc). cbn [queue] in Hm. apply elem_of_replicate in Hm as [-> _]. done.
Qed.

(** The processes are the same and the caller runs. *)
Definition served k k' : Prop := inv k' /\ runs pid tid k' /\ processes k' = processes k.

Lemma served_still k k1 k2 : served k k1 -> still k1 k2 -> served k k2.
Proof.
  intros (Hk & Hr & Hp) H. split; [by eapply still_inv |]. split; [by eapply still_runs |].
  destruct H as [Hp' _]. congruence.
Qed.

Lemma create_server_inv p sid connect k :
  inv k -> runs pid tid k ->
  sat (create_server_with_address p sid connect k)
    (fun k' _ => served k k') (fun k' _ => served k k').
Proof.
  intros Hk Hr. assert (Hv0 : served k k) by by split; [| split].
  unfold create_server_with_address. kstep. kstep; [| done]. do 4 kstep.
  destruct (find_index _ (servers k)) as [i |] eqn:Hi; [| by kstep].
  apply find_index_Some in Hi as [(slot & Hslot & Hfree) _].
  destruct slot; [done |]. rewrite Hslot. do 3 kstep.
  simplify_eq. apply sat_arch; [auto with keeps | | intros; by eapply served_still].
  intros m page Hm _. set (k1 := set_machine m k).
  assert (Hv1 : served k k1) by (by eapply served_still).
  destruct (MemoryRange_new page PAGE_SIZE) as [backing | e] eqn:Hb; [| by kstep].
  destruct (Server_init None p sid backing) as [srv | e] eqn:Hsrv; [| done]. kstep. kstep.
  set (k2 := set_servers _ k1).
  assert (Hv2 : served k k2).
  { destruct Hv1 as (Hk1 & Hr1 & Hp1). split; [| done]. apply inv_put_server; [done |].
    by eapply Server_init_wf. }
  kstep. destruct connect; [| by repeat kstep].
  eapply sat_mono; [apply connect_to_server_still | |]; intros k3 ? Hv3; repeat kstep; by eapply served_still.
Qed.

(** The process of the caller is found. *)
Lemma get_own k k' :
  inv k -> runs pid tid k -> processes k' = processes k ->
  exists p, get_process pid k' = ROk k' p /\ proc_pid p = pid /\
            processes k !! pid_index pid = Some p.
Proof.
  intros [Hk _] [_ (p & Hp & _ & Hm & Hs)] Hpr. exists p.
  assert (Hf : Process_free p = false) by (unfold Process_free; by destruct (pstate p)).
  split_and!; [| | done].
  - unfold get_process, bind, gets, unwrap. rewrite Hpr, Hp, decide_True, Hf by done. done.
  - apply (procs_ok_pid _ _ _ _ Hk Hp Hf). apply PID_new_inv in Hm. lia.
Qed.

(** Back in the process of the caller. *)
Lemma come_back {B} (g : Process -> Kernel M -> outcome Error (Kernel M) B) k k' Q X :
  inv k -> runs pid tid k -> processes k' = processes k -> servers k' = servers k ->
  (forall p k2, still k k2 -> sat (g p k2) Q X) ->
  sat ((process <- get_process pid;; Process_activate process ;;; g process) k') Q X.
Proof.
  intros Hk Hr Hp Hs Hg. destruct (get_own k k' Hk Hr Hp) as (p & Hget & Hpid & _).
  sat_step. rewrite Hget. cbn [sat]. sat_step. apply sat_activate. intros m Hm _ _. apply Hg.
  split_and!; [done | done |]. cbn. rewrite Hm, Hpid. symmetry. apply Hr.
Qed.

Lemma connect_process_inv target sid k :
  inv k -> runs pid tid k -> stills (connect_process_to_server target sid k) k.
Proof.
  intros Hk Hr. unfold connect_process_to_server, stills. kstep. apply sat_current_pid.
  rewrite set_machine_same. replace (pt_current (machine k)) with pid by (symmetry; apply Hr).
  kstep. kstep; [| done]. kstep. kstep. kstep. kstep.
  eapply sat_mono; [apply connect_to_server_still | |]; intros k2 r (Hp2 & Hs2 & _);
    (eapply (come_back _ k); [done | done | done | done |]); intros q k3 Hv3; by sat_step.
Qed.

Lemma keeps_allocate old p : keeps true (MemoryMapping_allocate (M := M) old p).
Proof.
  unfold MemoryMapping_allocate. destruct (negb _); [apply keeps_fail |].
  repeat (apply keeps_bind; [by apply (keeps_mem_op here); mem_op | intros]).
  intros m. repeat sat_step. split; [done |]. intros Hm.
  apply map_Forall_insert_2; [| done]. by split; [reflexivity |].
Qed.

Lemma Process_create_inv r0 r1 r2 r3 p init k :
  inv k -> runs pid tid k ->
  sat (Process_create r0 r1 r2 r3 p init k) (fun k' _ => served k k') (fun _ _ => True).
Proof.
  intros Hk Hr. assert (Hv0 : served k k) by by split; [| split].
  unfold Process_create. kstep. apply sat_current_pid. rewrite set_machine_same.
  replace (pt_current (machine k)) with pid by (symmetry; apply Hr).
  kstep. kstep; [| done]. kstep. kstep. kstep. kstep. kstep.
  match goal with |- sat (_ ?k') _ _ => set (k1 := k') end.
  assert (Hv1 : served k k1)
    by (apply (served_still k k); [done |]; split_and!; [done | done | cbn in *; congruence]).
  destruct Hv1 as (Hk1 & Hr1 & Hp1). kstep.
  eapply sat_mono; [by apply create_server_inv | | done]. intros k2 [] (Hk2 & Hr2 & Hp2).
  destruct (get_own k2 k2 Hk2 Hr2 eq_refl) as (q & Hget & Hpid & Hq).
  kstep. rewrite Hget. cbn [sat]. kstep. kstep. set (k3 := set_machine _ k2).
  assert (Hk3 : inv k3) by (by apply (still_inv k2)). assert (Hr3 : runs pid tid k3) by (by apply (still_runs _ _ k2)).
  kstep. eapply sat_mono; [by apply connect_process_inv | | done]. intros k4 cid Hv4. cbn in Hv4. kstep.
  eapply sat_mono; [apply stills_restores, send_memory_space | | done]. intros k5 v Hv5. cbn in Hv5. kstep.
  apply (served_still _ k4); [| done]. apply (served_still _ k3); [| done].
  split; [done |]. split; [done |]. cbn. congruence.
Qed.

Lemma put_new_inv idx p q k :
  inv k -> runs pid tid k -> processes k !! idx = Some p -> idx <> pid_index pid ->
  process_ok q -> proc_pid q = Z.of_nat idx + 1 -> is_running q = false ->
  inv (set_processes (<[idx := q]> (processes k)) k) /\
  runs pid tid (set_processes (<[idx := q]> (processes k)) k).
Proof.
  intros [Hk Ht] [Hc (c & Hcp & Hrest)] Hp Hne Hok Hpid Hrun. split.
  - split; [| done]. apply (procs_ok_insert _ _ _ _ _ Hk); try done. by rewrite Hrun.
  - split; [done |]. exists c. cbn. by rewrite list_lookup_insert_ne.
Qed.

Lemma create_process_inv r0 r1 r2 r3 init k :
  inv k -> runs pid tid k ->
  sat (create_process r0 r1 r2 r3 init k) (fun k' _ => inv k' /\ runs pid tid k')
    (fun k' _ => inv k' /\ runs pid tid k').
Proof.
  intros Hk Hr. unfold create_process. do 2 kstep.
  destruct (find_index Process_free (processes k)) as [idx |] eqn:Hi; [| by kstep].
  apply find_index_Some in Hi as [(p & Hp & Hfree) _]. rewrite Hp. kstep. kstep. simplify_eq.
  rename a into p. kstep. unfold pid_from_usize.
  destruct (255 <? Z.of_nat idx + 1) eqn:Hlt; [by kstep |]. zbool. rewrite u8_id by lia.
  unfold PID_new, NonZero_new. rewrite (proj2 (Z.eqb_neq _ _)) by lia. kstep. cbv zeta.
  assert (Hidx : idx <> pid_index pid).
  { intros ->. destruct Hr as [_ (c & Hc & _ & _ & Hs)]. assert (c = p) as -> by congruence.
    unfold Process_free in Hfree. by destruct (pstate p). }
  assert (Hok : forall satp st, process_ok (mk_Process satp st (Z.of_nat idx + 1) 1 (current_thread p)
             (previous_thread p) (exception_handler p)) <->
             match st with Ready x => mask_ok x /\ x <> 0 | Running x => mask_ok x /\ Z.testbit x (current_thread p) = false
                         | InException x | BlockedException x => mask_ok x | _ => True end).
  { intros satp st. destruct (procs_wf _ _ (proj1 Hk) _ _ Hp) as [(? & ? & _) _].
    unfold process_ok. cbn. tauto. }
  kstep. kstep. set (e1 := mk_Process _ _ _ _ _ _ _) at 1.
  destruct (put_new_inv idx p e1 k) as [Hk1 Hr1]; try done; [by apply Hok |].
  set (k1 := set_processes _ k) in *.
  do 2 kstep. apply sat_arch; [apply keeps_allocate | |].
  2: { intros m e Hm _. split; [by apply (still_inv k1) | by apply (still_runs _ _ k1)]. }
  intros m satp Hm _. set (k2 := set_machine m k1).
  assert (Hk2 : inv k2) by (by apply (still_inv k1)). assert (Hr2 : runs pid tid k2) by (by apply (still_runs _ _ k1)).
  assert (Hlook : processes k2 !! idx = Some e1).
  { cbn. apply list_lookup_insert_eq. by eapply lookup_lt_Some. }
  kstep. kstep. set (e2 := mk_Process _ _ _ _ _ _ _).
  destruct (put_new_inv idx e1 e2 k2) as [Hk3 Hr3]; try done; [by apply Hok |].
  set (k3 := set_processes _ k2) in *. kstep. kstep.
  eapply sat_mono; [by apply Process_create_inv | | done]. intros k4 startup (Hk4 & Hr4 & Hp4).
  assert (Hlook4 : processes k4 !! idx = Some e2).
  { rewrite Hp4. cbn. apply list_lookup_insert_eq. by apply lookup_lt_Some in Hlook. }
  do 4 kstep. simplify_eq. kstep. kstep. kstep.
  apply (put_new_inv idx e2); try done. by apply Hok.
Qed.

(** ** Destroying servers *)

Lemma unmap_pages_still virt size k : stills (unmap_pages virt size k) k.
Proof.
  unfold unmap_pages. generalize (step_by virt (add32 virt size) PAGE_SIZE) as l.
  intros l. revert k. induction l as [| a l IH]; intros k; [done |].
  apply stills_bind; [| auto]. apply stills_bind; [| done]. apply sat_unwrap_result.
  eapply sat_mono; [apply stills_arch; auto with keeps | done | done].
Qed.

(** The caller runs, with the table of servers as in [k]. *)
Definition kept k k' : Prop := inv k' /\ runs pid tid k' /\ servers k' = servers k.

Lemma kept_still k k1 k2 : kept k k1 -> still k1 k2 -> kept k k2.
Proof.
  intros (Hk & Hr & Hs) H. split; [by eapply still_inv |]. split; [by eapply still_runs |].
  destruct H as (_ & Hs' & _). congruence.
Qed.

Lemma wake_kept cp ct k k' :
  kept k k' -> tid_ok ct -> (cp, ct) <> (pid, tid) ->
  sat (unwrap_result (ready_thread cp ct) k') (fun k2 _ => kept k k2) (fun _ _ => False).
Proof.
  intros (Hk & Hr & Hs) Ht Hne. sat_step.
  eapply sat_mono; [by apply (ready_thread_runs pid tid) | | done].
  intros k2 [] (? & ? & ?). split; [done |]. split; [done | congruence].
Qed.

Lemma result_kept cp ct r k k' :
  kept k k' -> sat (unwrap_result (set_thread_result cp ct r) k') (fun k2 _ => kept k k2) (fun _ _ => False).
Proof.
  intros Hk. sat_step. eapply sat_mono; [apply stills_set_thread_result, Hk | | done].
  intros k2 [] H2. by eapply kept_still.
Qed.

Lemma destroy_entry_inv e k k' :
  kept k k' -> (forall c, entry_client e = Some c -> client_ok c /\ c <> (pid, tid)) ->
  sat (destroy_entry e k') (fun k2 _ => kept k k2) (fun _ _ => False).
Proof.
  intros Hk Hc.
  assert (Hun : forall v n, sat (unmap_pages v n k') (fun k2 _ => kept k k2) (fun _ _ => False)).
  { intros v n. eapply sat_mono; [exact (sat_and _ _ _ _ _ (unmap_pages_still v n k') (unmap_pages_calm v n k')) | |].
    - intros k2 [] [H2 _]. by eapply kept_still.
    - by intros k2 e' [_ ?]. }
  assert (Hpid : forall p t, entry_client e = Some (p, t) ->
            PID_new p = Some p /\ tid_ok t /\ (p, t) <> (pid, tid)).
  { intros p t E. destruct (Hc _ E) as [[Hp Ht] Hne]. cbn in Hp, Ht. split; [| done].
    unfold PID_new, NonZero_new. by rewrite (proj2 (Z.eqb_neq _ _)) by lia. }
  destruct e; cbn [destroy_entry entry_client] in *; try exact I; try (by sat_step); try apply Hun;
    destruct (Hpid _ _ eq_refl) as (-> & Ht & Hne); sat_step; cbn [unwrap sat ret].
  all: try (sat_step; eapply sat_mono; [by apply result_kept | | done]; intros k2 [] H2; by apply wake_kept).
  all: sat_step; sat_step; eapply sat_mono; [apply stills_restores, return_memory_space | | done];
    intros k2 v2 H2; sat_step; eapply sat_mono; [apply wake_kept; [by eapply kept_still | done | done] | | done];
    intros k3 [] H3; by apply result_kept.
Qed.

Lemma wake_threads_inv fuel srv k k' :
  kept k k' -> mask_ok (Server.ready_threads srv) -> Z.testbit (Server.ready_threads srv) tid = false ->
  (1 <= fuel)%nat ->
  (forall j, 0 <= j < 33 - Z.of_nat fuel -> Z.testbit (Server.ready_threads srv) j = false) ->
  sat (wake_threads fuel pid srv k') (fun k2 _ => kept k k2) (fun _ _ => False).
Proof.
  revert srv k'. induction fuel as [| fuel IH]; intros srv k' Hk Hm Hme Hf Hlow; [lia |].
  cbn [wake_threads]. unfold take_available_thread.
  destruct (Z.eqb_spec (Server.ready_threads srv) 0) as [| Hne]; [done |].
  destruct (lowest_bit_exists (Server.ready_threads srv)) as [t Ht]; [unfold mask_ok in Hm; lia |].
  pose proof Ht as (Hr & Hset & Hmin). change 1 with (bit 0).
  rewrite (available_loop_spec 32 0 t) by (done || lia).
  assert (Htl : 33 - Z.of_nat (S fuel) <= t).
  { destruct (Z.lt_ge_cases t (33 - Z.of_nat (S fuel))) as [Hlt |]; [| lia].
    rewrite Hlow in Hset by lia. done. }
  sat_step. eapply sat_mono; [apply wake_kept; [done | done | congruence] | | done].
  intros k2 [] H2. sat_step. eapply sat_mono; [by apply result_kept | | done]. intros k3 [] H3.
  assert (Hclear : forall j, 0 <= j < 32 -> Z.testbit (clear_bit (Server.ready_threads srv) t) j
            = Z.testbit (Server.ready_threads srv) j && negb (j =? t)) by (intros; apply clear_bit_spec; done || lia).
  apply IH; [done | by apply mask_ok_clear | | lia |]; cbn [Server.ready_threads set_ready_threads].
  - rewrite Hclear, Hme; [done |]. destruct H3 as (Hk3 & Hr3 & _). by apply (runs_client_ok pid tid k3).
  - intros j Hj. rewrite Hclear by lia. destruct (Z.eqb_spec j t); [by rewrite andb_false_r |].
    rewrite Hmin by lia. done.
Qed.

Lemma Server_destroy_inv srv k :
  inv k -> runs pid tid k -> server_wf srv -> ~ recorded srv (pid, tid) -> server_pid srv = pid ->
  sat (Server_destroy srv k) (fun k' r => kept k k' /\ (r = None \/ r = Some srv)) (fun _ _ => False).
Proof.
  intros Hk Hr Hwf Hrec Hsp. assert (Hk0 : kept k k) by by split; [| split].
  unfold Server_destroy. destruct (existsb _ _); [sat_step; split; [done | by right] |].
  sat_step. eapply sat_mono; [apply (sat_for_each _ _ (kept k) (fun _ _ => False)); [| done] | | done].
  { intros e k' He Hk'. apply destroy_entry_inv; [done |]. intros c Hc.
    assert (waits srv c) as Hw by (by exists e). split; [by apply Hwf |]. intros ->. by apply Hrec; left. }
  intros k1 [] Hk1. sat_step. apply sat_current_pid. rewrite set_machine_same.
  replace (pt_current (machine k1)) with pid by (symmetry; apply Hk1). sat_step.
  eapply sat_mono; [apply wake_threads_inv; [done | apply Hwf | | lia | lia] | | done].
  { destruct (Z.testbit _ tid) eqn:E; [| done]. destruct Hrec. right. by split. }
  intros k2 [] Hk2. sat_step.
  eapply sat_mono; [exact (sat_and _ _ _ _ _ (unmap_pages_still _ _ k2) (unmap_pages_calm _ _ k2)) | |
                    by intros ? ? [_ ?]].
  intros k3 [] [H3 _]. sat_step. split; [by eapply kept_still | by left].
Qed.

(** The loop over the connection maps ends in the address space of another
    process, perhaps. *)
Lemma for_each_map_same f k :
  f None = None ->
  sat (for_each_connection_map f k)
    (fun k' _ => processes k' = processes k /\ servers k' = servers k) (fun _ _ => False).
Proof.
  intros Hf. eapply sat_mono; [apply (for_each_map_ok f (fun _ => True) (fun _ => True)) | | done]; try done.
  by intros k' [] [_ ?].
Qed.

Lemma destroy_server_inv sid k :
  inv k -> runs pid tid k -> unrecorded (pid, tid) (servers k) ->
  sat (destroy_server pid sid k) (fun k' _ => inv k') (fun k' _ => inv k').
Proof.
  intros Hk Hr Hu. unfold destroy_server. do 3 kstep. kstep; [| done].
  rename a into i. apply find_slot_Some in H as (srv & Hi & Hsid). zbool. rewrite Hi. kstep. kstep.
  match goal with E : Some _ = Some a |- _ => injection E as <- end. kstep. kstep.
  match goal with E : Some _ = Some a |- _ => injection E as <- end. kstep. kstep.
  set (k1 := set_servers _ k).
  assert (Hk1 : inv k1) by (split; [apply Hk | apply table_wf_remove, Hk]).
  assert (Hr1 : runs pid tid k1) by exact Hr.
  kstep. eapply sat_mono; [apply Server_destroy_inv; try done; [by eapply (proj2 Hk) | by eapply Hu] | | done].
  intros k2 kept [(Hk2 & Hr2 & Hs2) Hres]. kstep. destruct Hres as [-> | ->].
  2: { do 3 kstep. apply inv_put_server; [done |]. by eapply (proj2 Hk). }
  kstep. kstep. apply sat_current_pid. rewrite set_machine_same.
  replace (pt_current (machine k2)) with pid by (symmetry; apply Hr2). kstep.
  eapply sat_mono; [by apply for_each_map_same | | done]. intros k3 [] [Hp3 Hs3].
  destruct (get_own k2 k3 Hk2 Hr2 Hp3) as (p & Hget & Hpid & _).
  sat_step. sat_step. rewrite Hget. cbn [sat]. apply sat_activate. intros m Hm _ _.
  apply (still_inv k2); [| done]. split_and!; [done | done |]. cbn. rewrite Hm, Hpid. symmetry. apply Hr2.
Qed.

(** ** The end of a process *)

Lemma discard_wf t srv : server_wf srv -> server_wf (discard_messages_for_pid t srv).
Proof.
  intros [[Hl Hh] Htl Hm Hw].
  assert (Hc : forall m, entry_client (discard_entry t m) = entry_client m)
    by (intros m; destruct m; cbn; try done; by case_match).
  split; [split; [cbn; by rewrite length_map | done] | done | done |].
  intros c (m & Hin & Hm'). cbn in Hin. apply list_elem_of_fmap in Hin as (m0 & -> & Hin).
  apply Hw. exists m0. by rewrite <- Hc.
Qed.

Lemma detach_server_inv t idx k :
  table_wf (servers k) ->
  sat (detach_server t idx k)
    (fun k' _ => processes k' = processes k /\ table_wf (servers k')) (fun _ _ => False).
Proof.
  intros Hk. unfold detach_server. do 2 kstep.
  destruct (servers k !! idx) as [[srv |] |] eqn:Hs; try (by kstep). kstep.
  eapply (sat_mono _ (fun k' _ => processes k' = processes k /\ servers k' = servers k) _ (fun _ _ => False));
    [destruct (server_pid srv =? t); [by apply for_each_map_same | by kstep] | | done].
  intros k1 [] [Hp1 Hs1]. do 4 kstep. kstep. kstep. kstep. cbn. split; [done |]. rewrite Hs1.
  apply table_wf_insert; [done |]. apply discard_wf. by eapply Hk.
Qed.

(** Only the process that ends may be running; if it is, it is found. *)
Lemma terminate_inv t k :
  procs_ok (eq (pid_index t)) (processes k) -> table_wf (servers k) ->
  (procs_ok (fun _ => False) (processes k) \/
   exists p, processes k !! pid_index t = Some p /\ Process_free p = false /\
             MemoryMapping_get_pid (mapping p) = Some t) ->
  sat (terminate_process t k) (fun k' _ => inv k') (fun k' _ => inv k').
Proof.
  intros Hk Ht Hfound. unfold terminate_process. do 3 kstep.
  eapply sat_mono; [apply (sat_for_each _ _ (fun k' => processes k' = processes k /\ table_wf (servers k'))
                             (fun _ _ => False)); [| done] | | done].
  { intros idx k' _ [Hp' Ht']. eapply sat_mono; [by apply detach_server_inv | | done].
    intros k2 [] [? ?]. split; [congruence | done]. }
  intros k1 [] [Hp1 Ht1]. kstep. kstep. set (k2 := set_servers _ k1).
  assert (Htw : table_wf (servers k2)).
  { cbn. intros i srv Hi.
    rewrite list_lookup_fmap in Hi. apply fmap_Some in Hi as ([s' |] & Hi & E); [| done].
    destruct (server_pid s' =? t); [done |]. injection E as <-. by eapply Ht1. }
  kstep. unfold get_process. do 4 kstep. rename a into p.
  assert (Hp : processes k !! pid_index t = Some p) by (by rewrite <- Hp1).
  destruct (decide (_ = Some t)) as [Hm |].
  2: { kstep. destruct Hfound as [Hidle | (q & Hq & _ & Hm)]; [| congruence].
       apply stopped_inv. split; [by rewrite <- Hp1 in Hidle | done]. }
  destruct (Process_free p) eqn:Hf.
  { kstep. destruct Hfound as [Hidle | (q & Hq & Hqf & _)]; [| congruence].
    apply stopped_inv. split; [by rewrite <- Hp1 in Hidle | done]. }
  do 4 kstep.
  eapply sat_mono; [by apply Process_terminate_ok | | done]. intros k3 p' (-> & _ & Hp3 & Hs3).
  cbn in Hp3, Hs3. kstep. kstep. kstep. kstep.
  eapply sat_mono; [apply switch_to_inv; [| done] | by intros; kstep | done].
  destruct (procs_wf _ _ Hk _ _ Hp) as [(Hc & Hpr & _) Hpid]. split.
  - cbn. rewrite Hp3, Hp1. apply (procs_ok_insert _ _ _ _ _ Hk); [intros j Hne Hj; by destruct Hne | done | by apply Hpid | done].
  - cbn. by rewrite Hs3.
Qed.

Lemma terminate_call_inv s :
  calling s ->
  sat (terminate_call pid tid s) (fun s' _ => sys_inv s') (fun s' _ => sys_inv s').
Proof.
  intros [[Hk (Ho & Hc & Hpp)] Hr]. unfold terminate_call, reset_switchto_caller. sat_step. apply sat_ss.
  eapply sat_mono; [by apply unschedule_inv | | by intros; split]. intros k1 [] H1.
  sat_step. apply sat_ss. eapply sat_mono; [apply terminate_inv; [| apply H1 | by left; apply H1] | | by intros; split].
  { eapply procs_ok_mono; [apply H1 | done]. }
  intros k2 v H2. repeat sat_step. by split; [| split_and!].
Qed.

(** ** Threads *)

Lemma create_thread_unserved p init k : unserved (create_thread p init k) k.
Proof.
  unfold create_thread, unserved. kstep. kstep; [| done]. kstep. kstep. kstep. kstep. kstep.
  kstep. kstep. kstep; [| done]. kstep. kstep; [| done]. kstep.
  destruct (pstate p0); repeat kstep; done.
Qed.

Lemma create_thread_call_inv init s :
  calling s -> impls_ok (machine (kernel s)) -> thread_alive (kernel s) ->
  sat (create_thread_call pid tid init s) (fun s' _ => sys_inv s') (fun s' _ => sys_inv s').
Proof.
  intros [[Hk Hst] Hr] Hi Ha. unfold create_thread_call. sat_step. apply sat_ss.
  pose proof Hr as [Hc _].
  eapply sat_mono; [refine (sat_and _ _ _ _ _ _ (create_thread_unserved pid init (kernel s)));
                    rewrite <- Hc; by apply create_thread_ok; [apply Hk | |] | |].
  2: { intros k1 e [Hk1 Hs1]. split; [split; [done | cbn; rewrite Hs1; apply Hk] | done]. }
  intros k1 t [(Hk1 & Hc1 & Ht) Hs1]. sat_step. apply sat_ss. sat_step.
  eapply sat_mono; [refine (sat_and _ _ _ _ _ (switch_to_thread_ok pid (Some t) k1 _ _)
    (switch_to_thread_stays pid (Some t) k1)) | | done].
  { eapply procs_ok_mono; [exact Hk1 |]. intros i Hi'. split; [| done]. by rewrite Hc1, Hc in Hi'. }
  { by intros t' [= <-]. }
  intros k2 [] [Hk2 (_ & _ & Hs2)]. sat_step. apply sat_ss. sat_step.
  assert (Hk2' : inv k2) by (split; [done | rewrite Hs2, Hs1; apply Hk]).
  eapply sat_mono; [by apply stills_set_thread_result | | done].
  intros k3 [] H3. cbn in H3. sat_step. split; [by eapply still_inv | done].
Qed.

Lemma join_call_inv t s :
  calling s ->
  sat (join_call pid tid t s) (fun s' _ => sys_inv s') (fun s' _ => sys_inv s').
Proof.
  intros [[Hk (Ho & Hc & Hpp)] Hr]. unfold join_call. sat_step. apply sat_ss.
  eapply (sat_mono _ (fun k' _ => inv k') _ (fun k' _ => inv k')); [| | by intros; split].
  - unfold join_thread. kstep. apply sat_current_pid. rewrite set_machine_same. do 2 kstep.
    kstep; [done |]. kstep. kstep. kstep. kstep. kstep; [| kstep; by apply (still_inv (kernel s))].
    kstep. kstep. kstep; [| done]. kstep. kstep.
    eapply sat_mono; [apply (activate_inv pid tid) | |]; try done.
    + by apply (still_inv (kernel s)).
    + by apply (still_runs _ _ (kernel s)).
    + intros k' ? [? _]. by kstep.
    + intros k' e [? | [? _]]; done.
  - intros k1 r H1. unfold reset_switchto_caller. sat_step. destruct (decide _); repeat sat_step; by split; [| split_and!].
Qed.

Lemma switch_to_call_inv np nt s :
  calling s -> tid_ok nt ->
  sat (switch_to pid tid np nt s) (fun s' _ => sys_inv s') (fun s' _ => sys_inv s').
Proof.
  intros [[Hk (Ho & Hc & Hpp)] Hr] Ht. pose proof (runs_client_ok pid tid _ Hk Hr) as [_ Htid].
  unfold switch_to. repeat sat_step. apply sat_ss.
  eapply sat_mono; [by apply (activate_inv pid tid) | |].
  - intros k1 t [Hk1 Ht1]. repeat sat_step. split; [done |]. split_and!; [by apply Ht1 | by intros p t' [= <- <-] | done].
  - intros k1 e [Hk1 | [? _]]; [| done]. split; [done |]. split_and!; [done | by intros p t' [= <- <-] | done].
Qed.

(** ** The dispatcher *)

Lemma or_retry_inv e (f : System M -> outcome Error (System M) Result) (P : Error -> Prop) s :
  sat (f s) (fun s' _ => sys_inv s') (fun s' e' => calling s' \/ P e') -> ~ P e ->
  sat (or_retry tid e f s) (fun s' _ => sys_inv s') (fun s' e' => sys_inv s' \/ P e').
Proof.
  intros Hf He. unfold or_retry. sat_step. sat_step. eapply sat_mono; [exact Hf | |].
  - intros s' r Hs. by sat_step.
  - intros s' e' Hs. case_decide as Hd; [| sat_step; destruct Hs as [[? _] | ?]; auto].
    destruct Hs as [Hs | ?]; [| by subst]. eapply sat_mono; [by apply retry_inv | done | auto].
Qed.

(** An operation of the kernel, and then only its result. *)
Lemma sat_ss_inv {A} (f : Kernel M -> outcome Error (Kernel M) A)
    (g : A -> System M -> outcome Error (System M) Result) s :
  (forall a s', exists r, g a s' = ROk s' r) -> statics_ok s ->
  sat (f (kernel s)) (fun k _ => inv k) (fun k _ => inv k) ->
  sat ((a <- ss f;; g a) s) (fun s' _ => sys_inv s') (fun s' _ => sys_inv s').
Proof.
  intros Hg Hs Hf. sat_step. apply sat_ss. eapply sat_mono; [exact Hf | |]; intros k a Hk; [| by split].
  destruct (Hg a (set_kernel k s)) as [r ->]. by split.
Qed.

Lemma with_irqs_still {A} (f : IrqState -> outcome Error IrqState A) k :
  sat (f (irqs k)) (fun _ _ => True) (fun _ _ => True) -> stills (with_irqs f k) k.
Proof. intros Hf. apply sat_zoom. eapply sat_mono; [exact Hf | |]; done. Qed.

Lemma sstills_inv {A} (r : outcome Error (System M) A) s :
  calling s -> sstills r s -> sat r (fun s' _ => sys_inv s') (fun s' _ => sys_inv s').
Proof. intros Hs Hr. eapply sat_mono; [exact Hr | |]; intros s' ? H; by apply (sstill_calling _ _ H). Qed.

(** The calls that send a message. *)
Definition sends (call : SysCall) : bool :=
  match call with Sys_SendMessage _ _ | Sys_TrySendMessage _ _ => true | _ => false end.

(** [SwitchTo] names a thread number in range; [Shutdown] ends every process. *)
Definition call_ok (call : SysCall) : Prop :=
  match call with
  | Sys_SwitchTo _ t => tid_ok t
  | Sys_Shutdown => False
  | _ => True
  end.

Lemma connect_inv (f : Kernel M -> outcome Error (Kernel M) Z) s :
  calling s -> stills (f (kernel s)) (kernel s) ->
  sat (or_retry tid ServerNotFound (cid <- ss f;; ret (R_ConnectionID cid)) s)
    (fun s' _ => sys_inv s') (fun s' _ => sys_inv s').
Proof.
  intros Hs Hf. eapply sat_mono; [apply (or_retry_inv _ _ (fun _ => False)); [| tauto] | done | by intros s' e [? | []]].
  sat_step. apply sat_ss_still; [done | |]; intros s' ? H'; [sat_step | left];
    by apply (sstill_calling _ _ H').
Qed.

Lemma handle_inner_inv r0 r1 r2 r3 in_irq call s :
  calling s -> unrecorded (pid, tid) (servers (kernel s)) ->
  impls_ok (machine (kernel s)) -> thread_alive (kernel s) -> call_ok call -> sends call = false ->
  sat (handle_inner r0 r1 r2 r3 pid tid in_irq call s) (fun s' _ => sys_inv s') (fun s' _ => sys_inv s').
Proof.
  intros Hs Hu Hi Ha Hok Hsend. pose proof Hs as [[Hk Hst] Hr].
  assert (Hserved : forall (r : outcome Error (Kernel M) (SID * Z)),
    sat r (fun k' _ => served (kernel s) k') (fun k' _ => served (kernel s) k') ->
    sat r (fun k' _ => inv k') (fun k' _ => inv k')).
  { intros r Hres. eapply sat_mono; [exact Hres | |]; intros k' ? [? _]; done. }
  assert (Hstill : forall {A} (r : outcome Error (Kernel M) A), stills r (kernel s) ->
    sat r (fun k' _ => inv k') (fun k' _ => inv k')).
  { intros A r Hres. eapply sat_mono; [exact Hres | |]; intros k' ? H; exact (still_inv _ _ H Hk). }
  destruct call; try discriminate Hsend; cbn [handle_inner call_ok] in *; try exact Hst;
    try (sat_step; by split); try exact I; try done.
  all: first
    [ by apply (sstills_inv _ _ Hs), map_memory_still | by apply (sstills_inv _ _ Hs), unmap_range_still
    | by apply (sstills_inv _ _ Hs), increase_heap_still | by apply (sstills_inv _ _ Hs), decrease_heap_still
    | by apply (sstills_inv _ _ Hs), adjust_limit_still
    | by eapply sat_mono; [by apply do_yield_inv | | by intros s' e [? _]]
    | by eapply sat_mono; [by apply sleep_in_parent_inv | | by intros s' e [? _]]
    | by apply receive_message_inv | by apply create_thread_call_inv | by apply switch_to_call_inv
    | by apply return_memory_call_inv | by apply return_result_inv | by apply reply_and_receive_inv
    | by apply terminate_call_inv | by apply join_call_inv
    | apply connect_inv; [done |]; by apply connect_to_server_still || by apply connect_process_inv
    | idtac ].
  all: try (apply sat_ss_inv; [intros; (by eexists) || (destruct a; by eexists) | done |]).
  - destruct pid0; [by sat_step |]. apply (sstills_inv _ s Hs). sstills.
  - unfold return_to_parent, reset_switchto_caller. repeat sat_step.
    destruct Hst as (Ho & Hc & Hpp).
    destruct (SWITCHTO_CALLER s) as [[p t] |] eqn:E; repeat sat_step; (split; [done |]); split_and!; try done.
  - apply Hstill, with_irqs_still. unfold interrupt_claim. by repeat case_match.
  - apply Hstill, with_irqs_still. unfold interrupt_free. by repeat case_match.
  - by apply Hserved, create_server_inv.
  - apply Hstill, connect_to_server_still.
  - eapply sat_mono; [by apply create_process_inv | |]; by intros k' ? [? _].
  - by apply Hserved, create_server_inv.
  - by apply destroy_server_inv.
  - apply Hstill, disconnect_still.
Qed.
End Calls.

Section Syscalls.
Context {M : Type} {HM : MemOps M} {HL : MemLaws M}.

Lemma handle_inv (r0 r1 r2 r3 pid tid : Z) (in_irq : bool) (call : SysCall) (s : System M) :
  calling pid tid s -> unrecorded (pid, tid) (servers (kernel s)) ->
  impls_ok (machine (kernel s)) -> thread_alive (kernel s) -> call_ok call ->
  sat (handle r0 r1 r2 r3 pid tid in_irq call s)
    (fun s' _ => sys_inv s')
    (fun s' e => sys_inv s' \/ sends call = true /\ e = ProcessNotFound).
Proof.
  intros Hc Hu Hi Ha Hok. pose proof Hc as [Hs _].
  unfold handle. destruct (in_irq && _); [sat_step; by left |].
  destruct (sends call) eqn:Hsend.
  2: { eapply sat_mono; [by apply handle_inner_inv | done | by left]. }
  destruct call; try done; cbn [handle_inner].
  - eapply sat_mono; [apply (or_retry_inv pid tid ServerQueueFull _ (fun e => e = ProcessNotFound));
                      [by apply send_message_inv | done] | done |].
    intros s' e [? | ?]; auto.
  - eapply sat_mono; [by apply send_message_inv | done |]. intros s' e [[? _] | ?]; auto.
Qed.

(** C3. A system call keeps the kernel well formed.  The caller runs, has a context, and
    is recorded by no server; the call is not [Shutdown], and a [SwitchTo] names a
    thread number below 32.  When the call ends, with a result or with an error, the
    invariant of the scheduler holds (the sets of ready threads are well formed and do
    not contain a running thread, a ready process has a ready thread, only the current
    process runs) and so does the well-formedness of every server's queue and of the
    clients recorded in it; every loop of the handlers ends.  A panic of the kernel,
    which stops the machine, is not excluded.  Nothing is said of a [SendMessage] or
    [TrySendMessage] that ends with [ProcessNotFound], as one to a server with a full
    queue does. *)
Theorem syscall_invariant (r0 r1 r2 r3 pid tid : Z) (in_irq : bool) (call : SysCall)
    (s : System M) :
  sys_inv s -> runs pid tid (kernel s) -> unrecorded (pid, tid) (servers (kernel s)) ->
  impls_ok (machine (kernel s)) -> thread_alive (kernel s) -> call_ok call ->
  sat (handle r0 r1 r2 r3 pid tid in_irq call s)
    (fun s' _ => sys_inv s')
    (fun s' e => sys_inv s' \/ sends call = true /\ e = ProcessNotFound).
Proof. intros Hs Hr. by apply handle_inv. Qed.
End Syscalls.

Definition example_system : System Memory := mk_System example_kernel None 2 2 None false.

Lemma example_table_wf : table_wf (servers example_kernel).
Proof.
  intros [| i] srv Hs; cbn in Hs; [injection Hs as <- | apply (lookup_replicate_1 127) in Hs as [? _]; done].
  split; [split; [reflexivity | apply Nat.lt_0_succ] | apply Nat.lt_0_succ | by split |].
  intros c (m & Hm & Hc). cbn [queue example_server] in Hm. apply elem_of_replicate in Hm as [-> _]. done.
Qed.

Lemma syscall_invariant_witness :
  sat (handle 1 2 3 4 1 2 false (Sys_CreateThread (mk_ThreadInit 65536 (mk_MemoryRange 8192 4096) 0 0 0 0)) example_system)
    (fun s' _ => sys_inv s')
    (fun s' e => sys_inv s' \/ false = true /\ e = ProcessNotFound).
Proof.
  apply (syscall_invariant 1 2 3 4 1 2 false
           (Sys_CreateThread (mk_ThreadInit 65536 (mk_MemoryRange 8192 4096) 0 0 0 0)) example_system).
  - split; [split; [apply sched_okb_spec; vm_compute; reflexivity | apply example_table_wf] |].
    split_and!; [by split | done | done].
  - split; [reflexivity |]. exists (example_process 1 2 (Running 8)). repeat split.
  - intros [| i] srv Hs; cbn in Hs; [injection Hs as <- | apply (lookup_replicate_1 127) in Hs as [? _]; done].
    intros [(m & Hm & Hc) | [? _]]; [| done].
    cbn [queue example_server] in Hm. apply elem_of_replicate in Hm as [-> _]. done.
  - apply example_impls_ok.
  - intros p impl th Hp Himpl Hth. vm_compute in Hp. injection Hp as <-. vm_compute in Himpl. injection Himpl as <-.
    vm_compute in Hth. injection Hth as <-. done.
  - exact I.
Defined.
