(* ===== verification/Trap.v ===== *)
(** * Traps

    Models the entry into the kernel: the decoding of the cause in
    src/kernel/src/arch/riscv/exception.rs, the handler in
    src/kernel/src/arch/riscv/irq.rs, [resume] of
    src/kernel/src/arch/riscv/syscall.rs and the saving of the registers in
    src/kernel/src/arch/riscv/asm.S.  The handler never returns: it ends by
    resuming a thread, which is the result of the model. *)

From Stdlib Require Import ZArith Lia Bool.
From stdpp Require Import base numbers list option gmap.
From S2P Require Import Prelude.
From S2P Require Import Abi.
From S2P Require Import SysCallAbi.
From S2P Require Import Irq.
From S2P Require Import Machine.
From S2P Require Import Paging.
From S2P Require Import ArchProcess.
From S2P Require Import Scheduler.
From S2P Require Import Services.
From S2P Require Import Syscall.

#[local] Open Scope Z_scope.
#[local] Open Scope kernel_scope.

(** ** Causes *)

Inductive RiscvException : Type :=
| Ex_NoException
| Ex_UserSoftwareInterrupt (epc : Z)
| Ex_SupervisorSoftwareInterrupt (epc : Z)
| Ex_MachineSoftwareInterrupt (epc : Z)
| Ex_UserTimerInterrupt (epc : Z)
| Ex_SupervisorTimerInterrupt (epc : Z)
| Ex_MachineTimerInterrupt (epc : Z)
| Ex_UserExternalInterrupt (epc : Z)
| Ex_SupervisorExternalInterrupt (epc : Z)
| Ex_MachineExternalInterrupt (epc : Z)
| Ex_ReservedInterrupt (cause epc : Z)
| Ex_InstructionAddressMisaligned (epc addr : Z)
| Ex_InstructionAccessFault (epc addr : Z)
| Ex_IllegalInstruction (epc instruction : Z)
| Ex_Breakpoint (epc : Z)
| Ex_LoadAddressMisaligned (epc addr : Z)
| Ex_LoadAccessFault (epc addr : Z)
| Ex_StoreAddressMisaligned (epc addr : Z)
| Ex_StoreAccessFault (epc addr : Z)
| Ex_CallFromUMode (epc tval : Z)
| Ex_CallFromSMode (epc tval : Z)
| Ex_CallFromMMode (epc : Z)
| Ex_InstructionPageFault (epc addr : Z)
| Ex_LoadPageFault (epc addr : Z)
| Ex_StorePageFault (epc addr : Z)
| Ex_ReservedFault (cause epc tval : Z).

Definition RiscvException_from_regs (cause epc tval : Z) : RiscvException :=
  if (epc =? 0) && (tval =? 0) && (cause =? 0) then Ex_NoException
  else match cause with
  | 2147483648 => Ex_UserSoftwareInterrupt epc
  | 2147483649 => Ex_SupervisorSoftwareInterrupt epc
  | 2147483651 => Ex_MachineSoftwareInterrupt epc
  | 2147483652 => Ex_UserTimerInterrupt epc
  | 2147483653 => Ex_SupervisorTimerInterrupt epc
  | 2147483655 => Ex_MachineTimerInterrupt epc
  | 2147483656 => Ex_UserExternalInterrupt epc
  | 2147483657 => Ex_SupervisorExternalInterrupt epc
  | 2147483659 => Ex_MachineExternalInterrupt epc
  | 0 => Ex_InstructionAddressMisaligned epc tval
  | 1 => Ex_InstructionAccessFault epc tval
  | 2 => Ex_IllegalInstruction epc tval
  | 3 => Ex_Breakpoint epc
  | 4 => Ex_LoadAddressMisaligned epc tval
  | 5 => Ex_LoadAccessFault epc tval
  | 6 => Ex_StoreAddressMisaligned epc tval
  | 7 => Ex_StoreAccessFault epc tval
  | 8 => Ex_CallFromUMode epc tval
  | 9 => Ex_CallFromSMode epc tval
  | 11 => Ex_CallFromMMode epc
  | 12 => Ex_InstructionPageFault epc tval
  | 13 => Ex_LoadPageFault epc tval
  | 15 => Ex_StorePageFault epc tval
  | x => if x <? 2147483648 then Ex_ReservedFault x epc tval
         else Ex_ReservedInterrupt (Z.land x 2147483647) epc
  end.

(** The arguments of a process's exception handler; the first is the
    [ExceptionType]. *)
Definition generate_exception_args (ex : RiscvException) : option (list Z) :=
  match ex with
  | Ex_InstructionAddressMisaligned epc addr => Some [0; epc; addr]
  | Ex_InstructionAccessFault epc addr => Some [1; epc; addr]
  | Ex_IllegalInstruction epc instruction => Some [2; epc; instruction]
  | Ex_LoadAddressMisaligned epc addr => Some [3; epc; addr]
  | Ex_LoadAccessFault epc addr => Some [4; epc; addr]
  | Ex_StoreAddressMisaligned epc addr => Some [5; epc; addr]
  | Ex_StoreAccessFault epc addr => Some [6; epc; addr]
  | Ex_InstructionPageFault epc addr => Some [7; epc; addr]
  | Ex_LoadPageFault epc addr => Some [8; epc; addr]
  | Ex_StorePageFault epc addr => Some [9; epc; addr]
  | _ => None
  end.

(** ** Leaving the kernel *)

Definition RETURN_FROM_EXCEPTION_HANDLER : Z := 4286595072.

(** How the kernel is left: with all registers of a thread, with the words of a
    result in the argument registers and the other registers of the thread, or
    not at all after a fault of the kernel. *)
Inductive Resumption : Type :=
| Resume (t : Thread)
| ReturnResult (r : Result) (t : Thread)
| HaltLoop.

Section Trap.
Context {M : Type} {HM : MemOps M}.

#[local] Notation "'op' A" := (Machine M -> outcome Error (Machine M) A) (at level 10, A at level 9).
#[local] Notation "'sop' A" := (System M -> outcome Error (System M) A) (at level 10, A at level 9).

(** [current_thread_mut], for a change [f] of the thread. *)
Definition update_current_thread (f : Thread -> Thread) : op unit :=
  p <- get_impl;;
  assert_ (negb (hardware_thread p =? 0)) ;;;
  let i := Z.to_nat (hardware_thread p - 1) in
  t <- unwrap (threads p !! i);;
  put_impl (set_threads (<[i := f t]> (threads p)) p).

(** [_start_trap]: the registers are stored in the context of the current thread.
    With the context number 0 the stores would go to the head of the page; the
    model stops there. *)
Definition save_context (regs : list Z) (epc : Z) : op unit :=
  update_current_thread (fun _ => mk_Thread regs epc).

(** [resume] on the current thread. *)
Definition resume_current : sop Resumption :=
  mm Process_current ;;;
  pid <- mm arch_current_pid;;
  t <- mm Process_current_thread;;
  mm (modify (set_spp (pid =? 1))) ;;;
  ret (Resume t).

(** [finish_isr] *)
Definition finish_isr : sop bool :=
  handling <- gets HANDLING_IRQ;;
  modify (set_handling_irq false) ;;;
  if negb handling then ret false
  else
    pair <- gets PREVIOUS_PAIR;;
    modify (set_previous_pair None) ;;;
    ' (previous_pid, previous_context) <- unwrap pair;;
    ss (unwrap_result (finish_callback_and_resume previous_pid previous_context)) ;;;
    ss (modify (fun k => set_irqs (enable_all_irqs (irqs k)) k)) ;;;
    ret true.

(** ** The branches of [trap_handler] *)

(** The random words of the system call and whether the build stops at an
    exception it does not know (the features precursor and renode). *)
Context (r0 r1 r2 r3 : Z) (stops : bool).

(** An [ecall] of the process [pid]. *)
Definition handle_ecall (pid : Z) (a : args8) : sop Resumption :=
  mm Process_current ;;;
  mm (update_current_thread (fun t => set_sepc (add32 (sepc t) 4) t)) ;;;
  tid <- mm current_tid;;
  match SysCall_from_args (w0 a) (w1 a) (w2 a) (w3 a) (w4 a) (w5 a) (w6 a) (w7 a) with
  | Err _ =>
      mm Process_current ;;;
      t <- mm Process_current_thread;;
      ret (ReturnResult (R_Error UnhandledSyscall) t)
  | Ok call =>
      in_irq <- gets (fun s => match PREVIOUS_PAIR s with Some _ => true | None => false end);;
      response <- attempt (handle r0 r1 r2 r3 pid tid in_irq call);;
      let response := match response with inl e => R_Error e | inr r => r end in
      if decide (response = R_ResumeProcess) then resume_current
      else
        mm Process_current ;;;
        t <- mm Process_current_thread;;
        ret (ReturnResult response t)
  end.

(** An external interrupt; [sip] are the pending ones. *)
Definition handle_interrupt (pid sip : Z) : sop Resumption :=
  irqs_pending <- gets (fun s => Z.land sip (sim (irqs (kernel s))));;
  pair <- gets PREVIOUS_PAIR;;
  (match pair with
   | None => tid <- mm current_tid;; modify (set_previous_pair (Some (pid, tid)))
   | Some _ => ret tt
   end) ;;;
  modify (set_handling_irq true) ;;;
  ss (unwrap_result (irq_handle irqs_pending)) ;;;
  resume_current.

(** The handler of a process returns. *)
Definition handle_exception_return (pid a0 : Z) : sop Resumption :=
  ss (unwrap_result (finish_exception_handler_and_resume pid)) ;;;
  mm Process_current ;;;
  let adjust (pc : Z) := if a0 <? 2147483648 then add32 pc a0 else sub32 pc (4294967296 - a0) in
  mm (update_current_thread (fun t => set_sepc (adjust (sepc t)) t)) ;;;
  t <- mm Process_current_thread;;
  mm (modify (set_spp (pid =? 1))) ;;;
  ret (Resume t).

(** A thread ends by returning to [EXIT_THREAD]. *)
Definition handle_thread_exit (pid : Z) : sop Resumption :=
  mm Process_current ;;;
  tid <- mm current_tid;;
  switched <- ss (unwrap_result (destroy_thread pid tid));;
  (if (switched : bool) then reset_switchto_caller else ret tt) ;;;
  finish_isr ;;;
  resume_current.

(** The end of [trap_handler] for an exception that was not dealt with: the
    process's own handler or the end of the process. *)
Definition handle_unknown (pid : Z) (ex : RiscvException) : sop Resumption :=
  handler <- (match generate_exception_args ex with
              | None => ret None
              | Some args =>
                  h <- ss (begin_exception_handler pid);;
                  ret (match h with Some h => Some (h, args) | None => None end)
              end);;
  match handler with
  | Some (h, args) =>
      mm Process_current ;;;
      current <- mm arch_current_pid;;
      mm (modify (set_spp (current =? 1))) ;;;
      mm (update_thread EXCEPTION_TID
            (invoke_thread (eh_pc h) (eh_sp h) RETURN_FROM_EXCEPTION_HANDLER args)) ;;;
      t <- mm (Process_thread EXCEPTION_TID);;
      ret (Resume t)
  | None =>
      is_kernel_failure <- gets (fun s => supervisor (machine (kernel s)));;
      mm Process_current ;;;
      mm Process_current_thread ;;;
      if (is_kernel_failure : bool) then ret HaltLoop
      else
        finish_isr ;;;
        ss (unwrap_result (terminate_process pid)) ;;;
        reset_switchto_caller ;;;
        resume_current
  end.

Definition trap_handler (cause epc tval sip : Z) (a : args8) : sop Resumption :=
  from_kernel <- gets (fun s => supervisor (machine (kernel s)));;
  if from_kernel && (cause =? 15) then panic
  else
    pid <- mm arch_current_pid;;
    let ex := RiscvException_from_regs cause epc tval in
    match ex with
    | Ex_CallFromSMode _ _ | Ex_CallFromUMode _ _ => handle_ecall pid a
    | Ex_UserExternalInterrupt _ | Ex_SupervisorExternalInterrupt _ => handle_interrupt pid sip
    | Ex_StorePageFault _ addr | Ex_LoadPageFault _ addr =>
        r <- ok (mm (ensure_page_exists_inner addr));;
        match r with Some _ => resume_current | None => handle_unknown pid ex end
    | Ex_InstructionPageFault pc _ =>
        if pc =? RETURN_FROM_EXCEPTION_HANDLER then handle_exception_return pid (w0 a)
        else if pc =? EXIT_THREAD then handle_thread_exit pid
        else if pc =? RETURN_FROM_ISR then finish_isr ;;; resume_current
        else if stops then panic else handle_unknown pid ex
    | _ => if stops then panic else handle_unknown pid ex
    end.

(** The whole trap, from the registers of the interrupted thread in the given
    mode. *)
Definition trap (from_supervisor : bool) (cause epc tval sip : Z) (regs : list Z)
    : sop Resumption :=
  let reg (i : nat) := nth i regs 0 in
  mm (modify (set_spp from_supervisor)) ;;;
  mm (save_context regs epc) ;;;
  trap_handler cause epc tval sip
    (Args8 (reg 9%nat) (reg 10%nat) (reg 11%nat) (reg 12%nat) (reg 13%nat) (reg 14%nat)
           (reg 15%nat) (reg 16%nat)).
End Trap.
