(* ===== verification/TrapInv.v ===== *)
(** * Traps keep the kernel's invariant

    The invariant of SyscallInv.v survives the entries into the kernel: system
    calls, interrupts, page faults, the ends of handlers and threads, and faults
    that end a process outside of an interrupt handler.  That a fault inside of one
    can break it is shown on an example. *)

From Stdlib Require Import ZArith Lia Bool.
From stdpp Require Import base numbers list option gmap.
From S2P Require Import Prelude.
From S2P Require Import Abi.
From S2P Require Import SysCallAbi.
From S2P Require Import Server.
From S2P Require Import Irq.
From S2P Require Import Machine.
From S2P Require Import Paging.
From S2P Require Import MemoryManager.
From S2P Require Import MemoryFacts.
From S2P Require Import Memory.
From S2P Require Import ArchProcess.
From S2P Require Import Scheduler.
From S2P Require Import SchedulerFacts.
From S2P Require Import SchedulerInv.
From S2P Require Import Transfer.
From S2P Require Import TransferFacts.
From S2P Require Import Services.
From S2P Require Import ConnectionInv.
From S2P Require Import Waiting.
From S2P Require Import Syscall.
From S2P Require Import SyscallInv.
From S2P Require Import Trap.

#[local] Open Scope Z_scope.
#[local] Open Scope kernel_scope.

(** The run leaves the table of servers as it is, so only the scheduler matters. *)
Section Parts.
Context {M : Type} {HM : MemOps M} {HL : MemLaws M}.

Implicit Types (k : Kernel M) (s : System M).

Lemma inv_unserved {A} (r : outcome Error (Kernel M) A) k :
  inv k -> sat r (fun k' _ => sched_ok k') (fun k' _ => sched_ok k') -> unserved r k ->
  sat r (fun k' _ => inv k') (fun k' _ => inv k').
Proof.
  intros [_ Ht] Hr Hs. eapply sat_mono; [exact (sat_and _ _ _ _ _ Hr Hs) | |];
    intros k' ? [? E]; (split; [done | by rewrite E]).
Qed.

Lemma irq_handle_unserved pending k : unserved (irq_handle pending k) k.
Proof.
  unfold irq_handle. apply unserved_bind; [done |]. intros s k0.
  generalize (seq 0 (length (IRQ_HANDLERS s))) as l.
  intros l. revert k0. induction l as [| n l IH]; intros k0; [done |]. cbn [handle_irqs].
  destruct (has_bit _ _); [| auto]. apply unserved_bind; [| intros []; [done | auto]].
  unfold handle_irq. unserved.
Qed.

Lemma finish_callback_unserved p t k : unserved (finish_callback_and_resume p t k) k.
Proof. unfold finish_callback_and_resume. unserved. Qed.

Lemma begin_exception_unserved p k : unserved (begin_exception_handler p k) k.
Proof. unfold begin_exception_handler. unserved. Qed.

Lemma finish_exception_unserved p k : unserved (finish_exception_handler_and_resume p k) k.
Proof. unfold finish_exception_handler_and_resume. unserved. Qed.

Lemma destroy_thread_unserved p t k : unserved (destroy_thread p t k) k.
Proof. unfold destroy_thread, set_thread_result, switch_to_thread, choose_thread. unserved. Qed.

(** ** Leaving the kernel *)

(** What only concerns the machine keeps the invariant. *)
Lemma sys_inv_mm {A} (f : Machine M -> outcome Error (Machine M) A) s Q X :
  keeps false f -> sys_inv s -> (forall s' a, sys_inv s' -> Q s' a) -> sat (mm f s) Q X.
Proof.
  intros Hf [Hk Hst] HQ. apply sat_ss, sat_arch_infallible; [done |]. intros m a Hm _. apply HQ.
  split; [| done]. by apply (still_inv (kernel s)).
Qed.

Lemma sat_mm_current s Q X : (forall v, Q s v) -> sat (mm Process_current s) Q X.
Proof.
  intros HQ. unfold mm, ss, arch, zoom, Process_current. destruct (_ =? _); [| done]. cbn.
  destruct s as [[] ? ? ? ? ?]. apply HQ.
Qed.

Lemma keeps_update_current b (f : Thread -> Thread) : keeps (M := M) b (update_current_thread f).
Proof.
  unfold update_current_thread, get_impl, put_impl. intros m. repeat sat_step.
  eapply frame_put; [done |]. intros [? ?]. split; [cbn; by rewrite length_insert | done].
Qed.

#[local] Hint Resolve keeps_update_current keeps_arch_current_pid keeps_thread : keeps.

#[local] Ltac mstep := apply sys_inv_mm; [solve [auto with keeps] | done | intros].

Lemma resume_current_inv s :
  sys_inv s -> sat (resume_current s) (fun s' _ => sys_inv s') (fun _ _ => False).
Proof. intros Hs. unfold resume_current. do 4 (sat_step; mstep). by sat_step. Qed.

Lemma finish_isr_inv s :
  sys_inv s -> sat (finish_isr s) (fun s' _ => sys_inv s') (fun _ _ => False).
Proof.
  intros [Hk (Ho & Hc & Hp)]. unfold finish_isr. do 4 sat_step.
  destruct (HANDLING_IRQ s); cbn [negb]; [| sat_step; by split; [| split_and!]].
  do 6 sat_step. destruct a as [pp pt]. sat_step. apply sat_ss. sat_step.
  assert (Ht : tid_ok pt) by (by eapply Hp).
  eapply sat_mono; [apply (inv_unserved _ _ Hk); [by apply finish_callback_ok; [apply Hk |]
                   | apply finish_callback_unserved] | | done].
  intros k1 [] H1. sat_step. apply sat_ss. repeat sat_step. split; [done |]. by split_and!.
Qed.

(** ** Entering the kernel *)

Context (pid tid : Z).

(** The thread [tid] of the process [pid] was interrupted: it is the one that
    runs, no server records it, the active address space is its own and its
    context is in use, with a program counter in [P]. *)
Record entered (P : Z -> Prop) s : Prop := {
  en_calling : calling pid tid s;
  en_unrecorded : unrecorded (pid, tid) (servers (kernel s));
  en_impls : impls_ok (machine (kernel s));
  en_space : current_space (kernel s);
  en_thread : exists impl th,
    impls (machine (kernel s)) !! hardware_pid (machine (kernel s)) = Some impl /\
    hardware_thread impl = tid + 1 /\ threads impl !! Z.to_nat tid = Some th /\
    P (sepc th)
}.

Definition pc_ok (pc : Z) : Prop := 0 < pc < 4294967292.

(** The kernel after a change of the context of the interrupted thread. *)
Definition with_thread (f : Thread -> Thread) (impl : ProcessImpl) (th : Thread) s : System M :=
  let m := machine (kernel s) in
  set_kernel (set_machine (set_impls (<[hardware_pid m :=
    set_threads (<[Z.to_nat tid := f th]> (threads impl)) impl]> (impls m)) m) (kernel s)) s.

Lemma entry_tid P s : entered P s -> tid_ok tid.
Proof. intros [[[Hk _] Hr] _ _ _ _]. by apply (runs_client_ok pid tid (kernel s)). Qed.

Lemma update_current_eq P f s :
  entered P s ->
  exists impl th, impls (machine (kernel s)) !! hardware_pid (machine (kernel s)) = Some impl /\
    hardware_thread impl = tid + 1 /\ threads impl !! Z.to_nat tid = Some th /\
    P (sepc th) /\
    mm (update_current_thread f) s = ROk (with_thread f impl th s) tt.
Proof.
  intros Hs. pose proof (entry_tid _ s Hs) as Ht. destruct Hs as [_ _ _ _ (impl & th & Hi & Hh & Hth & Hp)].
  exists impl, th. split_and!; try done.
  unfold mm, ss, arch, zoom, update_current_thread, bind, get_impl, unwrap. rewrite Hi. cbn.
  rewrite Hh. unfold tid_ok in Ht. rewrite (proj2 (Z.eqb_neq (tid + 1) 0)) by lia. cbn.
  replace (tid + 1 - 1) with tid by lia. rewrite Hth. done.
Qed.

Lemma entry_pid s : entered pc_ok s -> mm arch_current_pid s = ROk s pid.
Proof.
  intros [[_ [Hc (p & Hp & _ & Hm & _)]] _ _ Hsp _].
  assert (Hs : satp (machine (kernel s)) = mapping p) by (apply Hsp; exists p; by rewrite Hc).
  unfold mm, ss, arch, zoom, arch_current_pid, unwrap, hardware_pid. rewrite Hs.
  unfold MemoryMapping_get_pid in Hm. rewrite Hm. by destruct s as [[] ? ? ? ? ?].
Qed.

(** An [ecall]: the program counter of the caller is moved past it, and then the
    call is handled as in SyscallInv.v. *)
Lemma with_thread_still f impl th s :
  impls (machine (kernel s)) !! hardware_pid (machine (kernel s)) = Some impl ->
  sstill s (with_thread f impl th s) /\
  (impls_ok (machine (kernel s)) -> impls_ok (machine (kernel (with_thread f impl th s)))).
Proof.
  intros Hi. split; [done |]. intros Hok. apply map_Forall_insert_2; [| done].
  destruct (Hok _ _ Hi). split; [cbn; by rewrite length_insert | done].
Qed.

Context (r0 r1 r2 r3 : Z) (stops : bool).

(** The decoded call, if there is one, is in the scope of the theorem on system
    calls. *)
Definition ecall_ok (a : args8) : Prop :=
  forall call, SysCall_from_args (w0 a) (w1 a) (w2 a) (w3 a) (w4 a) (w5 a) (w6 a) (w7 a) = Ok call ->
               call_ok call.

(** The invariant, unless a system call returned [ProcessNotFound], as a message to a
    server with a full queue does. *)
Definition trap_post s (r : Resumption) : Prop :=
  sys_inv s \/ exists t, r = ReturnResult (R_Error ProcessNotFound) t.

Lemma return_result_to s r :
  sys_inv s \/ r = R_Error ProcessNotFound ->
  sat ((mm Process_current ;;; t <- mm Process_current_thread;; ret (ReturnResult r t)) s)
    trap_post (fun _ _ => False).
Proof.
  intros Hs. sat_step. apply sat_mm_current. intros _. sat_step. apply sat_ss, sat_arch_infallible; [auto with keeps |].
  intros m t Hm _. sat_step. destruct Hs as [[Hk Hst] | ->]; [left | by right; eexists].
  split; [by apply (still_inv (kernel s)) | done].
Qed.

(** Past an [ecall], the thread that runs still has a program counter. *)
Lemma entry_alive impl th s :
  entered pc_ok s -> impls (machine (kernel s)) !! hardware_pid (machine (kernel s)) = Some impl ->
  pc_ok (sepc th) -> threads impl !! Z.to_nat tid = Some th ->
  thread_alive (kernel (with_thread (fun t => set_sepc (add32 (sepc t) 4) t) impl th s)).
Proof.
  intros [[_ [Hc (p & Hp & Hcur & Hm & _)]] _ _ Hsp _] Hi Hpc Hth q i t Hq Hi' Ht.
  unfold with_thread in *. cbn in *.
  assert (q = p) as -> by congruence. rewrite Hcur in Ht.
  assert (E : satp (machine (kernel s)) = mapping p) by (apply Hsp; exists p; by rewrite Hc).
  unfold hardware_pid in Hi'. rewrite E, lookup_insert_eq in Hi'. injection Hi' as <-. cbn in Ht.
  rewrite list_lookup_insert_eq in Ht by (by eapply lookup_lt_Some). injection Ht as <-.
  cbn. unfold add32, pc_ok in *. rewrite u32_id; lia.
Qed.

Lemma handle_ecall_inv a s :
  entered pc_ok s -> ecall_ok a ->
  sat (handle_ecall r0 r1 r2 r3 pid a s) trap_post (fun _ _ => False).
Proof.
  intros Hs Ha. pose proof (entry_tid _ s Hs) as Htid. unfold handle_ecall. sat_step.
  apply sat_mm_current. intros _. sat_step.
  destruct (update_current_eq pc_ok (fun t => set_sepc (add32 (sepc t) 4) t) s Hs)
    as (impl & th & Hi & Hh & Hth & Hpc & ->). cbn [sat].
  destruct (with_thread_still (fun t => set_sepc (add32 (sepc t) 4) t) impl th s Hi) as [Hst Himp].
  set (s1 := with_thread _ impl th s) in *. specialize (Himp (en_impls _ s Hs)).
  pose proof (sstill_calling pid tid _ _ Hst (en_calling _ s Hs)) as Hc1.
  assert (Hlook : impls (machine (kernel s1)) !! hardware_pid (machine (kernel s1))
            = Some (set_threads (<[Z.to_nat tid := set_sepc (add32 (sepc th) 4) th]> (threads impl)) impl))
    by apply lookup_insert_eq.
  sat_step. apply sat_ss, sat_zoom. unfold current_tid, get_impl. do 3 sat_step.
  rewrite Hlook in H. injection H as <-. cbn [hardware_thread set_threads]. rewrite Hh.
  replace (sub32 (tid + 1) 1) with tid by (unfold sub32, tid_ok in *; rewrite u32_id; lia).
  assert (Hs1 : set_kernel (set_machine (machine (kernel s1)) (kernel s1)) s1 = s1)
    by (by destruct s as [[] ? ? ? ? ?]).
  rewrite Hs1. clear Hs1.
  destruct (SysCall_from_args _ _ _ _ _ _ _ _) as [call | e] eqn:Hcall.
  2: { apply return_result_to. left. apply Hc1. }
  do 4 sat_step. eapply sat_mono; [apply handle_inv; try done; [by apply Hs | | by apply Ha] | |].
  - by apply entry_alive.
  - intros s2 r H2. cbn beta in H2. destruct (decide _); [| by apply return_result_to; left].
    eapply sat_mono; [by apply resume_current_inv | by left | done].
  - intros s2 e H2. cbn beta in H2. destruct (decide _); [done |]. apply return_result_to.
    destruct H2 as [? | [_ ->]]; auto.
Qed.

(** ** Interrupts *)

Lemma entry_current_tid s : entered pc_ok s -> mm current_tid s = ROk s tid.
Proof.
  intros Hs. pose proof (entry_tid _ s Hs) as Ht. destruct Hs as [_ _ _ _ (impl & th & Hi & Hh & _)].
  unfold mm, ss, arch, zoom, current_tid, bind, get_impl, unwrap. rewrite Hi. cbn. rewrite Hh.
  replace (sub32 (tid + 1) 1) with tid by (unfold sub32, tid_ok in *; rewrite u32_id; lia).
  by destruct s as [[] ? ? ? ? ?].
Qed.

Lemma handle_interrupt_inv sip s :
  entered pc_ok s -> no_irq_thread (kernel s) ->
  sat (handle_interrupt pid sip s) (fun s' _ => sys_inv s') (fun _ _ => False).
Proof.
  intros Hs Hirq. pose proof (entry_tid _ s Hs) as Htid. pose proof (en_calling _ s Hs) as [[Hk Hst] _].
  unfold handle_interrupt. do 4 sat_step. sat_step.
  apply (sat_mono _ (fun s1 _ => sys_inv s1 /\ kernel s1 = kernel s) _ (fun _ _ => False)); [| | done].
  - destruct (PREVIOUS_PAIR s); [by repeat sat_step |]. sat_step. rewrite entry_current_tid by done. cbn.
    split; [| done]. split; [done |]. destruct Hst as (Ho & Hc & _). split_and!; try done.
    by intros ? ? [= <- <-].
  - intros s1 [] [[Hk1 Hst1] E]. cbn beta in *. do 3 sat_step. apply sat_ss. sat_step.
    cbn [kernel set_handling_irq].
    eapply sat_mono; [apply (inv_unserved _ _ Hk1); [| apply irq_handle_unserved] | | done].
    + unfold irq_handle. apply handle_irqs_ok; [apply Hk1 | by rewrite E].
    + intros k2 r H2. by apply resume_current_inv.
Qed.

(** ** The ends of handlers and of threads *)

Lemma handle_exception_return_inv a0 s :
  entered pc_ok s ->
  sat (handle_exception_return pid a0 s) (fun s' _ => sys_inv s') (fun _ _ => False).
Proof.
  intros Hs. pose proof (en_calling _ s Hs) as [[Hk Hst] [Hc _]].
  unfold handle_exception_return. sat_step. apply sat_ss. sat_step. rewrite <- Hc.
  eapply sat_mono; [apply (inv_unserved _ _ Hk); [by apply finish_exception_ok, Hk
                   | apply finish_exception_unserved] | | done].
  intros k1 [] H1. assert (Hs1 : sys_inv (set_kernel k1 s)) by (by split).
  do 4 (sat_step; mstep). by sat_step.
Qed.

Lemma handle_thread_exit_inv s :
  entered pc_ok s ->
  sat (handle_thread_exit pid s) (fun s' _ => sys_inv s') (fun _ _ => False).
Proof.
  intros Hs. pose proof (en_calling _ s Hs) as [[Hk Hst] _].
  unfold handle_thread_exit. sat_step. apply sat_mm_current. intros _. sat_step.
  rewrite entry_current_tid by done. cbn [sat]. sat_step. apply sat_ss. sat_step.
  eapply sat_mono; [apply (inv_unserved _ _ Hk); [by apply destroy_thread_ok; [apply Hk | apply Hs]
                   | apply destroy_thread_unserved] | | done].
  intros k1 sw H1. sat_step.
  assert (Hs1 : sat ((if sw then reset_switchto_caller else ret tt) (set_kernel k1 s))
            (fun s' _ => sys_inv s') (fun _ _ => False)).
  { destruct Hst as (Ho & Hc & Hp). destruct sw; (split; [done |]; by split_and!). }
  eapply sat_mono; [exact Hs1 | | done]. intros s2 [] H2. sat_step.
  eapply sat_mono; [by apply finish_isr_inv | | done]. intros s3 b H3. by apply resume_current_inv.
Qed.

(** ** Faults *)

Lemma begin_exception_inv p k :
  inv k ->
  sat (begin_exception_handler p k) (fun k' h => inv k' /\ (h = None -> k' = k)) (fun _ _ => False).
Proof.
  intros Hk.
  assert (Hn : sat (begin_exception_handler p k) (fun k' h => h = None -> k' = k) (fun _ _ => False)).
  { unfold begin_exception_handler. sat_step. sat_step. kstep; [| by sat_step].
    destruct (exception_handler p0); [| done]. by destruct (pstate p0); repeat kstep. }
  pose proof (inv_unserved _ k Hk (begin_exception_ok p k (proj1 Hk)) (begin_exception_unserved p k)) as Hi.
  eapply sat_mono; [exact (sat_and _ _ _ _ _ Hi Hn) | done | by intros ? ? [_ ?]].
Qed.

(** The process that runs is ended. *)
Lemma end_process_inv s :
  calling pid tid s -> HANDLING_IRQ s = false ->
  sat ((finish_isr ;;; ss (unwrap_result (terminate_process pid)) ;;; reset_switchto_caller ;;;
        resume_current) s) (fun s' _ => sys_inv s') (fun _ _ => False).
Proof.
  intros [[[Hk Ht] (Ho & Hc & Hp)] [Hcur (p & Hpr & _ & Hm & Hst)]] Hh. sat_step.
  unfold finish_isr at 1. rewrite <- Hcur in *. do 4 sat_step. rewrite Hh. cbn [negb]. do 2 sat_step.
  apply sat_ss. sat_step. cbn [kernel set_handling_irq].
  eapply sat_mono; [apply terminate_inv; [| exact Ht | right; exists p; split_and!; try done] | | done].
  { eapply procs_ok_mono; [exact Hk |]. intros i ?. symmetry. by apply index_of_inv. }
  { unfold Process_free. by destruct (pstate p). }
  intros k1 r H1. unfold reset_switchto_caller. do 2 sat_step. apply resume_current_inv.
  split; [done |]. by split_and!.
Qed.

Lemma handle_unknown_inv ex s :
  calling pid tid s -> HANDLING_IRQ s = false ->
  sat (handle_unknown pid ex s) (fun s' _ => sys_inv s') (fun _ _ => False).
Proof.
  intros Hs Hh. pose proof Hs as [[Hk Hst] Hr]. unfold handle_unknown. sat_step.
  apply (sat_mono _ (fun s1 h => sys_inv s1 /\ (h = None -> s1 = s)) _ (fun _ _ => False)); [| | done].
  { destruct (generate_exception_args ex); [| by sat_step]. sat_step. apply sat_ss.
    eapply sat_mono; [by apply begin_exception_inv | | done]. intros k1 h [H1 Hn]. sat_step.
    split; [by split |]. destruct h; [done |]. intros _. rewrite Hn by done. by destruct s. }
  intros s1 [[h args] |] [H1 Hn]; cbn beta iota in *.
  - do 5 (sat_step; mstep). by sat_step.
  - rewrite Hn by done. clear Hn H1 s1. do 3 sat_step. apply sat_mm_current. intros _. sat_step.
    apply sat_ss, sat_arch_infallible; [auto with keeps |]. intros m th Hm _.
    set (s1 := set_kernel _ s). assert (H1 : calling pid tid s1) by (by apply (sstill_calling pid tid s)).
    destruct (supervisor (machine (kernel s))); [sat_step; apply H1 | by apply end_process_inv].
Qed.

(** ** Any trap *)

(** What is assumed of a trap: the system call is in the scope of the theorem on
    system calls, there is no interrupt while an interrupt handler is ready, and
    no fault in an interrupt handler except the one that returns from it and one
    that a page on demand resolves. *)
Definition trap_ok (ex : RiscvException) (a : args8) s : Prop :=
  match ex with
  | Ex_CallFromSMode _ _ | Ex_CallFromUMode _ _ => ecall_ok a
  | Ex_UserExternalInterrupt _ | Ex_SupervisorExternalInterrupt _ => no_irq_thread (kernel s)
  | Ex_InstructionPageFault pc _ =>
      pc = RETURN_FROM_EXCEPTION_HANDLER \/ pc = EXIT_THREAD \/ pc = RETURN_FROM_ISR \/
      HANDLING_IRQ s = false
  | Ex_StorePageFault _ addr | Ex_LoadPageFault _ addr =>
      HANDLING_IRQ s = false \/ exists s' v, mm (ensure_page_exists_inner addr) s = ROk s' v
  | _ => HANDLING_IRQ s = false
  end.

Lemma still_calling k s : still (kernel s) k -> calling pid tid s -> calling pid tid (set_kernel k s).
Proof. intros Hk. by apply sstill_calling. Qed.

Lemma page_fault_inv addr ex s :
  calling pid tid s ->
  HANDLING_IRQ s = false \/ (exists s' v, mm (ensure_page_exists_inner addr) s = ROk s' v) ->
  sat ((r <- ok (mm (ensure_page_exists_inner addr));;
        match r with Some _ => resume_current | None => handle_unknown pid ex end) s)
    (fun s' _ => sys_inv s') (fun _ _ => False).
Proof.
  intros Hs Hh. do 2 sat_step.
  assert (Hf : sat (mm (ensure_page_exists_inner addr) s)
            (fun s' _ => calling pid tid s') (fun s' _ => calling pid tid s' /\ HANDLING_IRQ s' = false)).
  { assert (Hm : stills (arch (ensure_page_exists_inner addr) (kernel s)) (kernel s)).
    { apply stills_arch. apply (keeps_mem_op here), mem_op_ensure_inner. }
    unfold mm, ss, zoom in Hh |- *. unfold stills in Hm.
    destruct (arch _ _) as [k1 v1 | k1 e1 | |]; cbn [sat] in *; [| | done..].
    - by apply still_calling.
    - destruct Hh as [Hh | (s' & v & E)]; [| done]. split; [by apply still_calling | done]. }
  eapply sat_mono; [exact Hf | |].
  - intros s1 ? H1. apply resume_current_inv, H1.
  - intros s1 ? [H1 ?]. by apply handle_unknown_inv.
Qed.

Lemma trap_handler_inv cause epc tval sip a s :
  entered pc_ok s -> trap_ok (RiscvException_from_regs cause epc tval) a s ->
  sat (trap_handler r0 r1 r2 r3 stops cause epc tval sip a s) trap_post (fun _ _ => False).
Proof.
  intros Hs Hok. pose proof (en_calling _ s Hs) as Hc. unfold trap_handler. do 2 sat_step.
  destruct (_ && _); [done |]. sat_step. rewrite entry_pid by done. cbn [sat].
  assert (Hpost : forall r : outcome Error (System M) Resumption,
            sat r (fun s' _ => sys_inv s') (fun _ _ => False) -> sat r trap_post (fun _ _ => False)).
  { intros r Hr. eapply sat_mono; [exact Hr | by left | done]. }
  destruct (RiscvException_from_regs cause epc tval) as [ | | | | | | | | | | | | | | | | | | | | | | pc pa | | | ];
    cbn [trap_ok] in Hok; lazymatch goal with
    | |- sat (handle_ecall _ _ _ _ _ _ _) _ _ => exact (handle_ecall_inv a s Hs Hok)
    | |- _ => apply Hpost
    end; lazymatch goal with
    | |- sat (handle_interrupt _ _ _) _ _ => exact (handle_interrupt_inv sip s Hs Hok)
    | |- sat ((_ <- _;; _) _) _ _ => exact (page_fault_inv _ _ s Hc Hok)
    | |- sat ((if stops then _ else _) _) _ _ => destruct stops; [exact I | exact (handle_unknown_inv _ s Hc Hok)]
    | |- _ => idtac
    end.
  destruct (Z.eqb_spec pc RETURN_FROM_EXCEPTION_HANDLER); [by apply handle_exception_return_inv |].
  destruct (Z.eqb_spec pc EXIT_THREAD); [by apply handle_thread_exit_inv |].
  destruct (Z.eqb_spec pc RETURN_FROM_ISR).
  - sat_step. eapply sat_mono; [by apply finish_isr_inv, Hc | | done].
    intros s1 b H1. by apply resume_current_inv.
  - destruct stops; [done |]. apply handle_unknown_inv; [done |]. tauto.
Qed.

(** The state in which the handler is entered. *)
Definition trap_entry (from_supervisor : bool) (epc : Z) (regs : list Z) s s1 : Prop :=
  (mm (modify (set_spp from_supervisor)) ;;; mm (save_context regs epc)) s = ROk s1 tt.

Lemma save_context_entered epc regs s :
  entered (fun _ => True) s -> pc_ok epc ->
  exists s1, mm (save_context regs epc) s = ROk s1 tt /\ entered pc_ok s1.
Proof.
  intros Hs Hpc.
  destruct (update_current_eq _ (fun _ => mk_Thread regs epc) s Hs) as (impl & th & Hi & Hh & Hth & _ & E).
  exists (with_thread (fun _ => mk_Thread regs epc) impl th s). split; [exact E |].
  destruct (with_thread_still (fun _ => mk_Thread regs epc) impl th s Hi) as [Hst Himp].
  split; [by apply (sstill_calling pid tid s), Hs | apply Hs | apply Himp, Hs | apply Hs |].
  eexists _, _. split; [apply lookup_insert_eq |]. split; [done |].
  split; [apply list_lookup_insert_eq; by eapply lookup_lt_Some | done].
Qed.

Lemma set_spp_entered P b s :
  entered P s -> exists s1, mm (modify (set_spp b)) s = ROk s1 tt /\ entered P s1.
Proof. intros [? ? ? ? ?]. eexists. split; [done |]. by split. Qed.

(** C4. A trap keeps the kernel well formed.  A running thread, whose context is in use
    and which no server records, is interrupted by a system call, an external
    interrupt, a page fault, the end of a handler or of a thread, or a fault that ends
    its process.  As [trap_ok] says, a system call is one of those of the theorem on
    system calls, an external interrupt comes when no process has its interrupt thread
    ready or running, and a fault that the kernel does not resolve comes outside of an
    interrupt handler.  Then the kernel leaves the trap in a state in which the
    invariant of the scheduler and of the servers' queues holds, unless it panics; it
    never leaves it with an unhandled error, and every loop on the way ends.  Nothing
    is said of the invariant after a system call that returns [ProcessNotFound], as a
    message to a server with a full queue does. *)
Theorem trap_invariant from_supervisor cause epc tval sip regs s :
  let reg (i : nat) := nth i regs 0 in
  let a := Args8 (reg 9%nat) (reg 10%nat) (reg 11%nat) (reg 12%nat) (reg 13%nat) (reg 14%nat)
                 (reg 15%nat) (reg 16%nat) in
  entered (fun _ => True) s -> pc_ok epc ->
  (forall s1, trap_entry from_supervisor epc regs s s1 ->
              trap_ok (RiscvException_from_regs cause epc tval) a s1) ->
  sat (trap r0 r1 r2 r3 stops from_supervisor cause epc tval sip regs s) trap_post (fun _ _ => False).
Proof.
  intros reg a Hs Hpc Hok.
  destruct (set_spp_entered _ from_supervisor s Hs) as (s1 & E1 & H1).
  destruct (save_context_entered epc regs s1 H1 Hpc) as (s2 & E2 & H2).
  unfold trap. unfold bind at 1. rewrite E1. cbn [sat]. unfold bind at 1. rewrite E2.
  apply trap_handler_inv; [done |]. apply Hok. unfold trap_entry, bind. by rewrite E1.
Qed.
End Parts.

Lemma trap_invariant_witness :
  sat (trap 1 2 3 4 false false 8 65540 0 0 (replicate 9 0 ++ 3 :: replicate 21 0) example_system)
    trap_post (fun _ _ => False).
Proof.
  apply (trap_invariant 1 2 1 2 3 4 false false 8 65540 0 0 (replicate 9 0 ++ 3 :: replicate 21 0) example_system).
  - split.
    + split; [split; [split; [apply sched_okb_spec; vm_compute; reflexivity | apply example_table_wf] |] |].
      * split_and!; [by split | done | done].
      * split; [reflexivity |]. exists (example_process 1 2 (Running 8)). repeat split.
    + intros [| i] srv Hs; cbn in Hs; [injection Hs as <- | apply (lookup_replicate_1 127) in Hs as [? _]; done].
      intros [(m & Hm & Hc) | [? _]]; [| done].
      cbn [queue example_server] in Hm. apply elem_of_replicate in Hm as [-> _]. done.
    + apply example_impls_ok.
    + intros m (p & Hp & Hm). vm_compute in Hp. injection Hp as <-. by rewrite Hm.
    + exists (example_impl 1), (mk_Thread (replicate 31 0) 65536). by split_and!.
  - by split.
  - intros s1 _ call Hcall. vm_compute in Hcall. by injection Hcall as <-.
Defined.

(** ** A fault in an interrupt handler

    Process 3 is in its interrupt handler, which interrupted the thread 2 of
    process 2. *)
Definition isr_machine : Machine Memory :=
  mk_Machine (example_satp 3) 3 (replicate 3 true ++ replicate 61 false)
    (<[1 := example_impl 1]> (<[2 := example_impl 2]>
      (<[3 := set_hardware_thread 1 (example_impl 3)]> empty)))
    false example_memory.

Definition isr_system : System Memory :=
  mk_System
    (mk_Kernel isr_machine
       ([example_process 1 2 (Ready 4); example_process 2 2 (Ready 4);
         example_process 3 IRQ_TID (Running 0)] ++ replicate 61 free_process)
       (replicate 128 None) (mk_IrqState (replicate 32 None) 0 0 true))
    None 2 2 (Some (2, 2)) true.

(** A fault in an interrupt handler leaves two processes running: the interrupted
    process is resumed by [finish_isr], and then the parent of the faulting one
    by [terminate_process].  The thread of the interrupted process is not ready
    any more and does not run either. *)
Lemma fault_in_isr_runs_two :
  sched_ok (kernel isr_system) /\
  exists s' t p1 p2,
    trap 1 2 3 4 false false 2 65540 0 0 (replicate 31 0) isr_system = ROk s' (Resume t) /\
    processes (kernel s') !! 0%nat = Some p1 /\ pstate p1 = Running 0 /\
    processes (kernel s') !! 1%nat = Some p2 /\ pstate p2 = Running 0 /\
    ~ sched_ok (kernel s').
Proof.
  split; [apply sched_okb_spec; vm_compute; reflexivity |].
  do 4 eexists. split; [vm_compute; reflexivity |].
  do 4 (split; [reflexivity |]).
  intros H. pose proof (procs_running _ _ H 0%nat _ eq_refl eq_refl) as H0.
  pose proof (procs_running _ _ H 1%nat _ eq_refl eq_refl) as H1. unfold index_of in H0, H1. lia.
Qed.
