(* ===== verification/ImageWriter.v ===== *)
(** * The boot image

    Models the tool side of the boot arguments: the tags in src/tools/src/tags
    and the writer in src/tools/src/xous_arguments.rs.  An image is a list of
    bytes; a failed assertion of the tool is [None].  The checksum of the crate
    [crc] is a parameter of the writer. *)

From Stdlib Require Import ZArith Lia Bool String Ascii.
From stdpp Require Import base numbers list option.
From S2P Require Import Prelude.

#[local] Open Scope Z_scope.

(** ** Bytes *)

(** [to_le_bytes] of a word and of a half word *)
Definition le_bytes (n : nat) (v : Z) : list Z :=
  map (fun i => Z.shiftr v (8 * Z.of_nat i) mod 256) (seq 0 n).
Definition le4 (v : Z) : list Z := le_bytes 4 v.
Definition le2 (v : Z) : list Z := le_bytes 2 v.

Definition len (l : list Z) : Z := Z.of_nat (length l).

(** The bytes of a string and [u32::from_le_bytes] of the first four. *)
Definition string_bytes (s : string) : list Z :=
  map (fun c => Z.of_nat (nat_of_ascii c)) (list_ascii_of_string s).
Definition fourcc (s : string) : Z :=
  let b (i : nat) := nth i (string_bytes s) 0 in
  b 0%nat + 256 * b 1%nat + 65536 * b 2%nat + 16777216 * b 3%nat.

(** ** Alignment *)

Definition IMAGE_PAGE_SIZE : Z := 4096.

Definition align_size_up (offset alignment_offset : Z) : Z :=
  if offset mod IMAGE_PAGE_SIZE =? alignment_offset then offset
  else if offset mod IMAGE_PAGE_SIZE <? alignment_offset
  then offset + (alignment_offset - offset mod IMAGE_PAGE_SIZE)
  else Z.land offset (Z.lnot (IMAGE_PAGE_SIZE - 1)) + IMAGE_PAGE_SIZE + alignment_offset.

Definition zeros (n : Z) : list Z := replicate (Z.to_nat n) 0.

Definition align_data_up (data : list Z) (alignment_offset : Z) : list Z :=
  if len data mod IMAGE_PAGE_SIZE =? alignment_offset then data
  else data ++ zeros (align_size_up (len data) alignment_offset - len data).

(** The constructors pad the contents to words. *)
Definition pad4 (data : list Z) : list Z := data ++ zeros (- len data mod 4).

(** ** The trait [XousArgument]

    [serialize] returns the bytes and the number it reports as written;
    [finalize] returns the size of the payload. *)
Class XousArgument (A : Type) : Type := {
  arg_code : A -> Z;
  arg_length : A -> Z;
  arg_finalize : A -> Z -> option (A * Z);
  arg_serialize : A -> option (list Z * Z);
  arg_last_data : A -> list Z;
  arg_alignment_offset : A -> Z;
  arg_load_offset : A -> Z
}.

(** Several calls of [write], with the sum of what they report. *)
Definition write_parts (parts : list (list Z)) : list Z * Z :=
  (concat parts, fold_left (fun n p => n + len p) parts 0).

(** ** [MREx] *)

Record MemoryRegion : Type := mk_MemoryRegion { mr_start : Z; mr_length : Z; mr_name : Z; mr_padding : Z }.

Definition MemoryRegion_new (start length name : Z) : MemoryRegion :=
  mk_MemoryRegion start length name 0.

Definition MemoryRegion_make_name (name : string) : Z :=
  (if name =? "sram_ext" then fourcc "SrEx"
   else if name =? "sram" then fourcc "SrIn"
   else if name =? "memlcd" then fourcc "Disp"
   else if name =? "vexriscv_debug" then fourcc "VexD"
   else if name =? "csr" then fourcc "CSRs"
   else if name =? "audio" then fourcc "Audi"
   else if name =? "rom" then fourcc "Boot"
   else if name =? "spiflash" then fourcc "SpFl"
   else fourcc (String.substring 0 4 (name ++ "    ")))%string.

Record MemoryRegions : Type := mk_MemoryRegions { regions : list MemoryRegion }.

Definition MemoryRegions_add (r : MemoryRegion) (m : MemoryRegions) : MemoryRegions :=
  mk_MemoryRegions (regions m ++ [r]).

Definition MemoryRegions_patch (region_name : string) (new_spec : MemoryRegion) (m : MemoryRegions)
    : MemoryRegions :=
  match find_index (fun x => mr_name x =? MemoryRegion_make_name region_name) (regions m) with
  | Some index => mk_MemoryRegions (<[index := new_spec]> (regions m))
  | None => m
  end.

Definition region_bytes (r : MemoryRegion) : list Z :=
  le4 (mr_start r) ++ le4 (mr_length r) ++ le4 (mr_name r) ++ le4 0.

#[export] Instance MemoryRegions_argument : XousArgument MemoryRegions := {
  arg_code _ := fourcc "MREx";
  arg_length m := u32 (Z.of_nat (length (regions m)) * 16);
  arg_finalize m _ := Some (m, 0);
  arg_serialize m :=
    Some (concat (map region_bytes (regions m)), fold_left (fun n _ => n + 4 * 4) (regions m) 0);
  arg_last_data _ := [];
  arg_alignment_offset _ := 0;
  arg_load_offset _ := 0
}.

(** ** [Bflg] *)

Record Bflg : Type := mk_Bflg { no_copy_ : bool; absolute_ : bool; debug_ : bool }.

Definition Bflg_new : Bflg := mk_Bflg false false false.
Definition Bflg_no_copy (b : Bflg) : Bflg := mk_Bflg true (absolute_ b) (debug_ b).
Definition Bflg_absolute (b : Bflg) : Bflg := mk_Bflg (no_copy_ b) true (debug_ b).
Definition Bflg_debug (b : Bflg) : Bflg := mk_Bflg (no_copy_ b) (absolute_ b) true.

Definition Bflg_bits (b : Bflg) : Z :=
  let val := 0 in
  let val := if no_copy_ b then Z.lor val 1 else val in
  let val := if absolute_ b then Z.lor val (Z.shiftl 1 1) else val in
  if debug_ b then Z.lor val (Z.shiftl 1 2) else val.

#[export] Instance Bflg_argument : XousArgument Bflg := {
  arg_code _ := fourcc "Bflg";
  arg_length _ := 4;
  arg_finalize b _ := Some (b, 0);
  arg_serialize b := Some (write_parts [le4 (Bflg_bits b)]);
  arg_last_data _ := [];
  arg_alignment_offset _ := 0;
  arg_load_offset _ := 0
}.

(** ** [PNam]

    A [BTreeMap] is the list of its entries in the order of the keys; a name is
    the list of its bytes. *)
Record ProcessNames : Type := mk_ProcessNames { names : list (Z * list Z) }.

Definition ProcessNames_new : ProcessNames := mk_ProcessNames [].

Fixpoint btree_insert {A} (k : Z) (v : A) (l : list (Z * A)) : list (Z * A) :=
  match l with
  | [] => [(k, v)]
  | (k', v') :: l' =>
      if k <? k' then (k, v) :: l
      else if k =? k' then (k, v) :: l'
      else (k', v') :: btree_insert k v l'
  end.

Definition ProcessNames_set (pid : Z) (name : list Z) (p : ProcessNames) : ProcessNames :=
  mk_ProcessNames (btree_insert pid name (names p)).

Definition name_padding (name : list Z) : Z := Z.land (4 - Z.land (len name) 3) 3.

Definition name_parts (e : Z * list Z) : list (list Z) :=
  let '(pid, name) := e in
  [le4 pid; le4 (u32 (len name)); name] ++ replicate (Z.to_nat (name_padding name)) [0].

#[export] Instance ProcessNames_argument : XousArgument ProcessNames := {
  arg_code _ := fourcc "PNam";
  arg_length p :=
    u32 (fold_left (fun size e => size + 4 + 4 + len (snd e) + name_padding (snd e)) (names p) 0);
  arg_finalize p _ := Some (p, 0);
  arg_serialize p := Some (write_parts (concat (map name_parts (names p))));
  arg_last_data _ := [];
  arg_alignment_offset _ := 0;
  arg_load_offset _ := 0
}.

(** ** [Swap] *)

Record SwapTag : Type := mk_SwapTag { sw_offset : Z; sw_size : Z; sw_name : Z; sw_offset_flash : Z }.

Definition SwapTag_new (offset size : Z) : SwapTag :=
  mk_SwapTag offset size (fourcc "Swap") 555745280.

(** The bytes of a [SwapDescriptor]. *)
Definition swap_descriptor (s : SwapTag) : list Z :=
  le4 (sw_offset s) ++ le4 (sw_size s) ++ le4 (sw_name s) ++ zeros 32 ++ le4 (sw_offset_flash s).

#[export] Instance SwapTag_argument : XousArgument SwapTag := {
  arg_code s := sw_name s;
  arg_length _ := 48;
  arg_finalize s _ := Some (s, 0);
  arg_serialize s := Some (swap_descriptor s, len (swap_descriptor s));
  arg_last_data _ := [];
  arg_alignment_offset _ := 0;
  arg_load_offset _ := 0
}.

(** ** [XKrn] *)

Record XousKernel : Type := mk_XousKernel {
  xk_load_offset : Z;
  xk_text_offset : Z;
  xk_text_size : Z;
  xk_data_offset : Z;
  xk_data_size : Z;
  xk_bss_size : Z;
  xk_entrypoint : Z;
  xk_program : list Z
}.

Definition XousKernel_new (text_offset text_size data_offset data_size bss_size entrypoint : Z)
    (program : list Z) : XousKernel :=
  mk_XousKernel 0 text_offset text_size data_offset data_size bss_size entrypoint (pad4 program).

Definition XousKernel_finalize (k : XousKernel) (offset : Z) : option (XousKernel * Z) :=
  if (4278190080 <? xk_text_offset k) && (offset mod IMAGE_PAGE_SIZE =? 0) then
    let program := align_data_up (xk_program k) 0 in
    Some (mk_XousKernel (u32 offset) (xk_text_offset k) (xk_text_size k) (xk_data_offset k)
            (xk_data_size k) (xk_bss_size k) (xk_entrypoint k) program, len program)
  else None.

#[export] Instance XousKernel_argument : XousArgument XousKernel := {
  arg_code _ := fourcc "XKrn";
  arg_length _ := 28;
  arg_finalize := XousKernel_finalize;
  arg_serialize k :=
    Some (write_parts (map le4 [xk_load_offset k; xk_text_offset k; xk_text_size k; xk_data_offset k;
                                xk_data_size k; xk_bss_size k; xk_entrypoint k]));
  arg_last_data := xk_program;
  arg_alignment_offset _ := 0;
  arg_load_offset _ := 0
}.

(** ** [IniE], [IniF] and [IniS] *)

Record MiniElfSection : Type := mk_MiniElfSection { sec_virt : Z; sec_size : Z; sec_flags : Z }.

Definition MINIELF_NOCOPY : Z := 2.

(** The address, and the size with its top byte replaced by the flags. *)
Definition section_parts (s : MiniElfSection) : list (list Z) :=
  [le4 (sec_virt s); <[3%nat := sec_flags s]> (le4 (sec_size s))].

Record IniE : Type := mk_IniE {
  ie_load_offset : Z; ie_entrypoint : Z; ie_sections : list MiniElfSection; ie_data : list Z
}.

Definition IniE_new (entrypoint : Z) (sections : list MiniElfSection) (data : list Z) : IniE :=
  mk_IniE 0 entrypoint sections (pad4 data).

Definition IniE_finalize (i : IniE) (offset : Z) : option (IniE * Z) :=
  if offset mod IMAGE_PAGE_SIZE =? 0 then
    let data := align_data_up (ie_data i) 0 in
    Some (mk_IniE (u32 offset) (ie_entrypoint i) (ie_sections i) data, len data)
  else None.

(** [length] and [serialize], which the three tags share. *)
Definition ini_length (sections : list MiniElfSection) : Z :=
  u32 (4 + 4 + u32 (Z.of_nat (length sections) * 8)).
Definition ini_parts (load_offset entrypoint : Z) (sections : list MiniElfSection) : list (list Z) :=
  [le4 load_offset; le4 entrypoint] ++ concat (map section_parts sections).

#[export] Instance IniE_argument : XousArgument IniE := {
  arg_code _ := fourcc "IniE";
  arg_length i := ini_length (ie_sections i);
  arg_finalize := IniE_finalize;
  arg_serialize i := Some (write_parts (ini_parts (ie_load_offset i) (ie_entrypoint i) (ie_sections i)));
  arg_last_data := ie_data;
  arg_alignment_offset _ := 0;
  arg_load_offset _ := 0
}.

Record IniF : Type := mk_IniF {
  if_load_offset : Z; if_entrypoint : Z; if_sections : list MiniElfSection; if_data : list Z;
  if_alignment_offset : Z
}.

Definition IniF_new (entrypoint : Z) (sections : list MiniElfSection) (data : list Z)
    (alignment_offset : Z) : IniF :=
  mk_IniF 0 entrypoint sections (pad4 data) alignment_offset.

Definition IniF_finalize (i : IniF) (offset : Z) : option (IniF * Z) :=
  if offset mod IMAGE_PAGE_SIZE =? if_alignment_offset i then
    let data := align_data_up (if_data i) 0 in
    Some (mk_IniF (u32 offset) (if_entrypoint i) (if_sections i) data (if_alignment_offset i), len data)
  else None.

(** The assertion of [serialize]: a section that is used in place has the same
    offset in its page as in the flash. *)
Fixpoint in_place_aligned (flash_offset : Z) (sections : list MiniElfSection) : bool :=
  match sections with
  | [] => true
  | s :: sections =>
      (negb (Z.land (sec_flags s) MINIELF_NOCOPY =? 0)
       || (Z.land (sec_virt s) 4095 =? Z.land flash_offset 4095))
      && in_place_aligned (add32 flash_offset (sec_size s)) sections
  end.

#[export] Instance IniF_argument : XousArgument IniF := {
  arg_code _ := fourcc "IniF";
  arg_length i := ini_length (if_sections i);
  arg_finalize := IniF_finalize;
  arg_serialize i :=
    if in_place_aligned (if_load_offset i) (if_sections i)
    then Some (write_parts (ini_parts (if_load_offset i) (if_entrypoint i) (if_sections i)))
    else None;
  arg_last_data := if_data;
  arg_alignment_offset := if_alignment_offset;
  arg_load_offset _ := 0
}.

Record IniS : Type := mk_IniS {
  is_load_offset : Z; is_entrypoint : Z; is_sections : list MiniElfSection; is_data : list Z
}.

Definition IniS_new (entrypoint : Z) (sections : list MiniElfSection) (data : list Z) : IniS :=
  mk_IniS 0 entrypoint sections (pad4 data).

Definition IniS_finalize (i : IniS) (offset : Z) : option (IniS * Z) :=
  if offset mod IMAGE_PAGE_SIZE =? 0 then
    let data := align_data_up (is_data i) 0 in
    Some (mk_IniS (u32 offset) (is_entrypoint i) (is_sections i) data, len data)
  else None.

#[export] Instance IniS_argument : XousArgument IniS := {
  arg_code _ := fourcc "IniS";
  arg_length i := ini_length (is_sections i);
  arg_finalize := IniS_finalize;
  arg_serialize i := Some (write_parts (ini_parts (is_load_offset i) (is_entrypoint i) (is_sections i)));
  arg_last_data := is_data;
  arg_alignment_offset _ := 0;
  arg_load_offset := is_load_offset
}.

(** ** [XousArguments] *)

(** [Box<dyn XousArgument>] *)
Inductive Argument : Type :=
| BoxArg (A : Type) (H : XousArgument A) (a : A).
Arguments BoxArg {A H} a.

Definition code (x : Argument) : Z := let '(BoxArg a) := x in arg_code a.
Definition arg_len (x : Argument) : Z := let '(BoxArg a) := x in arg_length a.
Definition serialize (x : Argument) : option (list Z * Z) := let '(BoxArg a) := x in arg_serialize a.
Definition last_data (x : Argument) : list Z := let '(BoxArg a) := x in arg_last_data a.
Definition alignment_offset (x : Argument) : Z := let '(BoxArg a) := x in arg_alignment_offset a.
Definition load_offset (x : Argument) : Z := let '(BoxArg a) := x in arg_load_offset a.
Definition finalize_arg (x : Argument) (offset : Z) : option (Argument * Z) :=
  let '(BoxArg a) := x in
  r ← arg_finalize a offset; let '(a, n) := r in Some (BoxArg a, n).

Record XousArguments : Type := mk_XousArguments {
  ram_start : Z; ram_length : Z; ram_name : Z; arguments : list Argument; detached_offset : option Z
}.

Definition XousArguments_new (start length name : Z) : XousArguments :=
  mk_XousArguments start length name [] None.
Definition XousArguments_add (x : Argument) (s : XousArguments) : XousArguments :=
  mk_XousArguments (ram_start s) (ram_length s) (ram_name s) (arguments s ++ [x]) (detached_offset s).
Definition set_detached_offset (offset : Z) (s : XousArguments) : XousArguments :=
  mk_XousArguments (ram_start s) (ram_length s) (ram_name s) (arguments s) (Some offset).

(** [len], in bytes: 20 for the first tag, and 8 for the header of each *)
Definition XousArguments_len (s : XousArguments) : Z :=
  fold_left (fun total arg => add32 total (add32 (arg_len arg) 8)) (arguments s) (20 + 8).

Fixpoint finalize_args (running_offset : Z) (l : list Argument) : option (list Argument) :=
  match l with
  | [] => Some []
  | arg :: l =>
      let running_offset := align_size_up running_offset (alignment_offset arg) in
      r ← finalize_arg arg running_offset;
      let '(arg, n) := r in
      l ← finalize_args (running_offset + n) l;
      Some (arg :: l)
  end.

Definition XousArguments_finalize (s : XousArguments) : option XousArguments :=
  let running_offset :=
    align_size_up (XousArguments_len s) 0 + default 0 (detached_offset s) in
  l ← finalize_args running_offset (arguments s);
  Some (mk_XousArguments (ram_start s) (ram_length s) (ram_name s) l (detached_offset s)).

Section Write.
(** [crc16::Digest] with the polynomial X25, over a list of bytes. *)
Context (crc16 : list Z -> Z).

(** A tag: its name, its checksum, its size in words and its data. *)
Definition tag_bytes (tag : Z) (data : list Z) : list Z :=
  le4 tag ++ le2 (crc16 data) ++ le2 (len data / 4) ++ data.

Definition xarg_data (s : XousArguments) (total_length : Z) : list Z :=
  le4 (total_length / 4) ++ le4 1 ++ le4 (ram_start s) ++ le4 (ram_length s) ++ le4 (ram_name s).

Fixpoint write_tags (l : list Argument) : option (list Z) :=
  match l with
  | [] => Some []
  | arg :: l =>
      r ← serialize arg;
      let '(data, actual_len) := r in
      if (arg_len arg =? u32 actual_len) && (u32 (len data) =? u32 actual_len) then
        rest ← write_tags l;
        Some (tag_bytes (code arg) data ++ rest)
      else None
  end.

(** The payloads, from the position [pos] of the stream. *)
Fixpoint write_payloads (header_offset pos : Z) (l : list Argument) : option (list Z) :=
  match l with
  | [] => Some []
  | arg :: l =>
      let pad := zeros (align_size_up pos (alignment_offset arg) - pos) in
      if negb (code arg =? fourcc "IniS")
         || (((header_offset =? 4096) || (header_offset =? 0))
             && (load_offset arg =? pos + len pad - header_offset))
      then
        rest ← write_payloads header_offset (pos + len pad + len (last_data arg)) l;
        Some (pad ++ last_data arg ++ rest)
      else None
  end.

(** [write], to a stream at the position [header_offset]: the arguments as they
    are afterwards, and the bytes written. *)
Definition XousArguments_write (header_offset : Z) (s : XousArguments) : option (XousArguments * list Z) :=
  let total_length := XousArguments_len s in
  s ← XousArguments_finalize s;
  tags ← write_tags (arguments s);
  let header := tag_bytes (fourcc "XArg") (xarg_data s total_length) ++ tags in
  payloads ← write_payloads header_offset (header_offset + len header) (arguments s);
  Some (s, header ++ payloads).
End Write.
