(* ===== verification/ImageFacts.v ===== *)
(** * The layout of the boot image

    What the writer of ImageWriter.v guarantees: every tag keeps the promises of
    its trait, so that the writer never fails, and every payload is in the image
    at the offset that its tag records. *)

From Stdlib Require Import ZArith Lia Bool String.
From stdpp Require Import base numbers list option.
From S2P Require Import Prelude.
From S2P Require Import ImageWriter.

#[local] Open Scope Z_scope.

(** ** Lists of bytes *)

Definition word_ok (v : Z) : Prop := 0 <= v < 4294967296.
Definition byte_ok (b : Z) : Prop := 0 <= b < 256.
Definition bytes_ok (l : list Z) : Prop := Forall byte_ok l.

Lemma len_nil : len [] = 0. Proof. done. Qed.
Lemma len_app l l' : len (l ++ l') = len l + len l'.
Proof. unfold len. rewrite length_app. lia. Qed.
Lemma len_cons a l : len (a :: l) = 1 + len l.
Proof. unfold len. cbn [length]. lia. Qed.
Lemma len_nonneg l : 0 <= len l. Proof. unfold len. lia. Qed.
Lemma len_zeros n : 0 <= n -> len (zeros n) = n.
Proof. intros. unfold len, zeros. rewrite length_replicate. lia. Qed.
Lemma len_le4 v : len (le4 v) = 4. Proof. done. Qed.
Lemma len_le2 v : len (le2 v) = 2. Proof. done. Qed.

Lemma le_bytes_ok n v : bytes_ok (le_bytes n v).
Proof.
  apply List.Forall_forall. intros b Hb. apply in_map_iff in Hb as (i & <- & _).
  apply Z.mod_pos_bound. lia.
Qed.

Lemma zeros_ok n : bytes_ok (zeros n).
Proof. apply Forall_replicate. unfold byte_ok. lia. Qed.

Lemma bytes_ok_app l l' : bytes_ok (l ++ l') <-> bytes_ok l /\ bytes_ok l'.
Proof. apply Forall_app. Qed.

Lemma write_parts_eq parts : write_parts parts = (concat parts, len (concat parts)).
Proof.
  unfold write_parts. f_equal. rewrite <- (Z.add_0_l (len (concat parts))). generalize 0.
  induction parts as [| p parts IH]; intros n; cbn; [unfold len; cbn; lia |].
  rewrite IH, len_app. lia.
Qed.

Lemma concat_bytes_ok parts : Forall bytes_ok parts -> bytes_ok (concat parts).
Proof. induction 1; cbn; [constructor |]. by apply bytes_ok_app. Qed.

Lemma len_concat_const {A} (f : A -> list Z) n l :
  (forall a, len (f a) = n) -> len (concat (map f l)) = n * Z.of_nat (length l).
Proof.
  intros Hf. induction l as [| a l IH]; cbn; [unfold len; cbn; lia |]. rewrite len_app, Hf, IH. lia.
Qed.

(** ** Alignment *)

Lemma land_page x : Z.land x (Z.lnot (IMAGE_PAGE_SIZE - 1)) = x - x mod IMAGE_PAGE_SIZE.
Proof.
  change (IMAGE_PAGE_SIZE - 1) with (Z.ones 12). rewrite <- Z.ldiff_land, Z.ldiff_ones_r by lia.
  rewrite Z.shiftr_div_pow2, Z.shiftl_mul_pow2 by lia. change (2 ^ 12) with 4096.
  change IMAGE_PAGE_SIZE with 4096. pose proof (Z.div_mod x 4096). lia.
Qed.

(** The next offset that has the given offset in its page. *)
Lemma align_size_up_spec x ao :
  0 <= ao < 4096 ->
  x <= align_size_up x ao < x + 4096 /\ align_size_up x ao mod 4096 = ao.
Proof.
  intros Ha. unfold align_size_up. rewrite land_page. change IMAGE_PAGE_SIZE with 4096.
  pose proof (Z.mod_pos_bound x 4096 ltac:(lia)) as Hm.
  destruct (Z.eqb_spec (x mod 4096) ao); [lia |].
  pose proof (Z.div_mod x 4096 ltac:(lia)) as Hd.
  destruct (Z.ltb_spec (x mod 4096) ao); (split; [lia |]).
  - replace (x + (ao - x mod 4096)) with (ao + (x / 4096) * 4096) by lia. rewrite Z_mod_plus_full, Z.mod_small; lia.
  - replace (x - x mod 4096 + 4096 + ao) with (ao + (x / 4096 + 1) * 4096) by lia.
    rewrite Z_mod_plus_full, Z.mod_small; lia.
Qed.

Lemma align_size_up_unique x ao y :
  0 <= ao < 4096 -> x <= y < x + 4096 -> y mod 4096 = ao -> align_size_up x ao = y.
Proof.
  intros Ha Hy Hm. destruct (align_size_up_spec x ao Ha) as [Hb Hm'].
  pose proof (Z.div_mod y 4096 ltac:(lia)). pose proof (Z.div_mod (align_size_up x ao) 4096 ltac:(lia)). lia.
Qed.

Lemma align_size_up_page x ao k :
  0 <= ao < 4096 -> align_size_up (x + 4096 * k) ao = align_size_up x ao + 4096 * k.
Proof.
  intros Ha. destruct (align_size_up_spec x ao Ha) as [Hb Hm]. apply align_size_up_unique; [done | lia |].
  rewrite (Z.mul_comm 4096), Z_mod_plus_full. done.
Qed.

Lemma align_data_up_len data :
  len (align_data_up data 0) = align_size_up (len data) 0.
Proof.
  pose proof (align_size_up_spec (len data) 0 ltac:(lia)) as [Hb Hm]. unfold align_data_up.
  destruct (Z.eqb_spec (len data mod IMAGE_PAGE_SIZE) 0) as [E |].
  - symmetry. apply align_size_up_unique; lia || done.
  - rewrite len_app, len_zeros; lia.
Qed.

(** ** What the writer relies on

    [finalized x off x' bs]: given the offset [off], the argument becomes [x'],
    which is written as [bs]; a payload has its offset in the first word. *)
Record finalized (x : Argument) (off : Z) (x' : Argument) (bs : list Z) : Prop := {
  fin_step : finalize_arg x off = Some (x', len (last_data x'));
  fin_code : code x' = code x;
  fin_len : arg_len x' = arg_len x;
  fin_align : alignment_offset x' = alignment_offset x;
  fin_serialize : serialize x' = Some (bs, len bs);
  fin_size : len bs = arg_len x;
  fin_bytes : bytes_ok bs;
  fin_offset : last_data x' = [] \/ take 4 bs = le4 off;
  fin_inis : code x = fourcc "IniS" -> load_offset x' = off
}.

(** A well-formed argument, with the payload it gets. *)
Record arg_ok (x : Argument) (payload : list Z) : Prop := {
  ok_align : 0 <= alignment_offset x < 4096;
  ok_code : word_ok (code x);
  ok_words : arg_len x mod 4 = 0;
  ok_len : 0 <= arg_len x < 262144;
  ok_finalize off : word_ok off -> off mod 4096 = alignment_offset x ->
    exists x' bs, finalized x off x' bs /\ last_data x' = payload
}.

Class ArgumentLaws (A : Type) {H : XousArgument A} : Type := {
  arg_wf : A -> Prop;
  arg_payload : A -> list Z;
  arg_laws (a : A) : arg_wf a -> arg_ok (BoxArg a) (arg_payload a)
}.

(** An argument that has no payload and is written as it is. *)
Lemma plain_ok {A} {H : XousArgument A} (a : A) bs :
  (forall off, arg_finalize a off = Some (a, 0)) -> arg_last_data a = [] -> arg_alignment_offset a = 0 ->
  arg_serialize a = Some (bs, len bs) -> len bs = arg_length a -> bytes_ok bs ->
  word_ok (arg_code a) -> arg_code a <> fourcc "IniS" -> len bs mod 4 = 0 -> len bs < 262144 ->
  arg_ok (BoxArg a) [].
Proof.
  intros Hf Hd Ha Hs Hl Hb Hc Hn Hm Hlt. pose proof (len_nonneg bs).
  split; cbn [alignment_offset code arg_len]; rewrite <- ?Hl; try done; [lia |].
  intros off Ho Hoff. exists (BoxArg a), bs. split; [| done].
  split; cbn [finalize_arg code arg_len last_data alignment_offset serialize load_offset]; try done.
  - by rewrite Hf, Hd.
  - by left.
Qed.

#[export] Program Instance MemoryRegions_laws : ArgumentLaws MemoryRegions := {
  arg_wf m := Z.of_nat (length (regions m)) < 16384;
  arg_payload _ := []
}.
Next Obligation.
  intros m Hm. cbn beta in Hm.
  assert (Hlen : len (concat (map region_bytes (regions m))) = 16 * Z.of_nat (length (regions m)))
    by (by apply len_concat_const).
  assert (Hw : fold_left (fun n _ => n + 4 * 4) (regions m) 0 = 16 * Z.of_nat (length (regions m))).
  { rewrite <- (Z.add_0_l (16 * _)). generalize 0. clear. induction (regions m) as [| r l IH]; intros n; cbn -[Z.mul]; [lia |].
    rewrite IH. lia. }
  apply (plain_ok m (concat (map region_bytes (regions m)))); try done.
  - cbn [arg_serialize MemoryRegions_argument]. by rewrite Hw, Hlen.
  - cbn [arg_length MemoryRegions_argument]. rewrite Hlen, u32_id; lia.
  - apply concat_bytes_ok, Forall_map, Forall_forall. intros r _. unfold region_bytes.
    rewrite !bytes_ok_app. split_and!; apply le_bytes_ok.
  - rewrite Hlen, Z.mul_comm. replace 16 with (4 * 4) by lia. rewrite Z.mul_assoc, Z_mod_mult. done.
  - lia.
Qed.

#[export] Program Instance Bflg_laws : ArgumentLaws Bflg := {
  arg_wf _ := True;
  arg_payload _ := []
}.
Next Obligation. intros b _. by apply (plain_ok b (le4 (Bflg_bits b))); try done; apply le_bytes_ok. Qed.

#[export] Program Instance SwapTag_laws : ArgumentLaws SwapTag := {
  arg_wf s := word_ok (sw_name s) /\ sw_name s <> fourcc "IniS";
  arg_payload _ := []
}.
Next Obligation.
  intros s [Hw Hn]. apply (plain_ok s (swap_descriptor s)); try done. unfold swap_descriptor.
  rewrite !bytes_ok_app. split_and!; (apply le_bytes_ok || apply zeros_ok).
Qed.

(** A name takes whole words. *)
Lemma name_padding_spec name : 0 <= name_padding name < 4 /\ (len name + name_padding name) mod 4 = 0.
Proof.
  unfold name_padding. change 3 with (Z.ones 2). rewrite !Z.land_ones by lia. change (2 ^ 2) with 4.
  pose proof (Z.mod_pos_bound (4 - len name mod 4) 4 ltac:(lia)). split; [lia |].
  rewrite Zplus_mod_idemp_r. pose proof (Z.div_mod (len name) 4 ltac:(lia)).
  replace (len name + (4 - len name mod 4)) with ((len name / 4 + 1) * 4) by lia. apply Z_mod_mult.
Qed.

Definition names_size (l : list (Z * list Z)) : Z :=
  fold_right (fun e n => 8 + len (snd e) + name_padding (snd e) + n) 0 l.

Lemma names_size_fold l n :
  fold_left (fun size e => size + 4 + 4 + len (snd e) + name_padding (snd e)) l n = n + names_size l.
Proof. revert n. induction l as [| e l IH]; intros n; cbn; [lia |]. rewrite IH. fold (names_size l). lia. Qed.

Lemma len_concat_replicate n : len (concat (replicate n [0])) = Z.of_nat n.
Proof. induction n as [| n IH]; [done |]. cbn [replicate concat]. rewrite len_app, IH. unfold len. cbn. lia. Qed.

Lemma names_bytes_len l : len (concat (concat (map name_parts l))) = names_size l.
Proof.
  induction l as [| [pid name] l IH]; [done |]. cbn [map concat names_size fold_right snd].
  rewrite concat_app, len_app, IH. fold (names_size l). unfold name_parts. rewrite concat_app. cbn [concat].
  rewrite app_nil_r, !len_app, !len_le4, len_concat_replicate.
  destruct (name_padding_spec name) as [? _]. lia.
Qed.

Lemma names_size_words l : names_size l mod 4 = 0 /\ 0 <= names_size l.
Proof.
  induction l as [| [pid name] l [IH IH']]; cbn [names_size fold_right snd]; [done |]. fold (names_size l).
  destruct (name_padding_spec name) as [? Hm]. pose proof (len_nonneg name). split; [| lia].
  replace (8 + len name + name_padding name + names_size l)
    with ((len name + name_padding name) + names_size l + 2 * 4) by lia.
  by rewrite Z_mod_plus_full, Z.add_mod, Hm, IH by lia.
Qed.

#[export] Program Instance ProcessNames_laws : ArgumentLaws ProcessNames := {
  arg_wf p := names_size (names p) < 262144 /\ Forall (fun e => bytes_ok (snd e)) (names p);
  arg_payload _ := []
}.
Next Obligation.
  intros p [Hs Hb]. destruct (names_size_words (names p)) as [Hm Hn].
  apply (plain_ok p (concat (concat (map name_parts (names p))))); try done.
  - cbn [arg_serialize ProcessNames_argument]. by rewrite write_parts_eq.
  - cbn [arg_length ProcessNames_argument]. rewrite names_size_fold, names_bytes_len, u32_id; lia.
  - apply concat_bytes_ok. clear -Hb. induction Hb as [| [pid name] l Hn _ IH]; cbn [map concat]; [constructor |].
    unfold name_parts at 1. rewrite !Forall_app. split; [split |]; [| | done].
    { do 2 (constructor; [apply le_bytes_ok |]). by constructor. } apply Forall_replicate, Forall_singleton. unfold byte_ok. lia.
  - by rewrite names_bytes_len.
  - by rewrite names_bytes_len.
Qed.

(** An argument with a payload, whose first word is its offset. *)
Lemma payload_ok {A} {H : XousArgument A} (a : A) (f : Z -> A) (bs : Z -> list Z) payload :
  (forall off, word_ok off -> off mod 4096 = arg_alignment_offset a ->
     arg_finalize a off = Some (f off, len (arg_last_data (f off))) /\
     arg_serialize (f off) = Some (le4 off ++ bs off, len (le4 off ++ bs off))) ->
  (forall off, arg_code (f off) = arg_code a /\ arg_length (f off) = arg_length a /\
     arg_alignment_offset (f off) = arg_alignment_offset a /\
     (arg_code a = fourcc "IniS" -> arg_load_offset (f off) = off)) ->
  (forall off, 4 + len (bs off) = arg_length a /\ bytes_ok (bs off)) ->
  (forall off, arg_last_data (f off) = payload) ->
  word_ok (arg_code a) -> 0 <= arg_alignment_offset a < 4096 ->
  arg_length a mod 4 = 0 -> arg_length a < 262144 ->
  arg_ok (BoxArg a) payload.
Proof.
  intros Hf Hsame Hbs Hp Hc Ha Hm Hlt. pose proof (len_nonneg (bs 0)). destruct (Hbs 0) as [Hl0 _].
  split; cbn [alignment_offset code arg_len]; try done; [lia |].
  intros off Ho Hoff. destruct (Hf off Ho Hoff) as [E1 E2]. destruct (Hsame off) as (S1 & S2 & S3 & S4).
  destruct (Hbs off) as [Hl Hb]. exists (BoxArg (f off)), (le4 off ++ bs off). split; [| apply Hp].
  split; cbn [finalize_arg code arg_len last_data alignment_offset serialize load_offset]; try done.
  - by rewrite E1.
  - by rewrite len_app, len_le4.
  - apply bytes_ok_app. split; [apply le_bytes_ok | done].
  - by right.
Qed.

#[export] Program Instance XousKernel_laws : ArgumentLaws XousKernel := {
  arg_wf k := 4278190080 < xk_text_offset k;
  arg_payload a := align_data_up (xk_program a) 0
}.
Next Obligation.
  intros k Hk. cbn beta in Hk.
  set (f off := mk_XousKernel off (xk_text_offset k) (xk_text_size k) (xk_data_offset k)
                  (xk_data_size k) (xk_bss_size k) (xk_entrypoint k) (align_data_up (xk_program k) 0)).
  set (words := [xk_text_offset k; xk_text_size k; xk_data_offset k; xk_data_size k; xk_bss_size k;
                 xk_entrypoint k]).
  apply (payload_ok k f (fun _ => concat (map le4 words))); try done.
  - intros off Ho Hoff. cbn [arg_finalize XousKernel_argument]. unfold XousKernel_finalize.
    rewrite (proj2 (Z.ltb_lt _ _) Hk). change IMAGE_PAGE_SIZE with 4096. rewrite Hoff, u32_id by done.
    split; [done |]. cbn [arg_serialize XousKernel_argument]. by rewrite write_parts_eq.
  - intros _. split; [done |]. apply concat_bytes_ok, Forall_map, Forall_forall. intros w _. apply le_bytes_ok.
Qed.

(** The tags of processes. *)
Definition section_ok (s : MiniElfSection) : Prop := byte_ok (sec_flags s).

Lemma ini_parts_len lo ep sections :
  len (concat (ini_parts lo ep sections)) = 8 + 8 * Z.of_nat (length sections).
Proof.
  unfold ini_parts. rewrite concat_app, len_app. change (len (concat [le4 lo; le4 ep])) with 8. f_equal.
  induction sections as [| s l IH]; [done |]. cbn [map concat]. rewrite concat_app, len_app, IH.
  unfold section_parts. cbn [concat]. rewrite app_nil_r, len_app. cbn [length].
  change (len (le4 (sec_virt s)) + len (<[3%nat:=sec_flags s]> (le4 (sec_size s)))) with 8. lia.
Qed.

Lemma ini_parts_ok lo ep sections :
  Forall section_ok sections -> bytes_ok (concat (ini_parts lo ep sections)).
Proof.
  intros Hs. apply concat_bytes_ok. unfold ini_parts. constructor; [apply le_bytes_ok |].
  constructor; [apply le_bytes_ok |]. induction Hs as [| s l Hs _ IH]; cbn [map concat]; [constructor |].
  constructor; [apply le_bytes_ok |]. constructor; [| done].
  apply Forall_insert; [apply le_bytes_ok | done].
Qed.

Lemma ini_length_eq sections :
  Z.of_nat (length sections) < 32767 -> ini_length sections = 8 + 8 * Z.of_nat (length sections).
Proof. intros. unfold ini_length. rewrite (u32_id (_ * 8)) by lia. rewrite u32_id; lia. Qed.

(** The three tags, with their [finalize] and the condition [P] of [serialize]. *)
Lemma ini_ok {A} {H : XousArgument A} (a : A) (f : Z -> A) ep sections payload :
  (forall off, word_ok off -> off mod 4096 = arg_alignment_offset a ->
     arg_finalize a off = Some (f off, len (arg_last_data (f off))) /\
     arg_serialize (f off) = Some (write_parts (ini_parts off ep sections))) ->
  (forall off, arg_code (f off) = arg_code a /\ arg_length (f off) = arg_length a /\
     arg_alignment_offset (f off) = arg_alignment_offset a /\
     (arg_code a = fourcc "IniS" -> arg_load_offset (f off) = off)) ->
  (forall off, arg_last_data (f off) = payload) ->
  arg_length a = ini_length sections -> word_ok (arg_code a) -> 0 <= arg_alignment_offset a < 4096 ->
  Z.of_nat (length sections) < 32767 -> Forall section_ok sections ->
  arg_ok (BoxArg a) payload.
Proof.
  intros Hf Hsame Hp Hl Hc Ha Hn Hs. rewrite ini_length_eq in Hl by done.
  assert (E : forall off, concat (ini_parts off ep sections)
                          = le4 off ++ concat ([le4 ep] ++ concat (map section_parts sections))) by done.
  apply (payload_ok a f (fun _ => concat ([le4 ep] ++ concat (map section_parts sections)))); try done.
  - intros off Ho Hoff. destruct (Hf off Ho Hoff) as [E1 E2]. split; [done |]. by rewrite E2, write_parts_eq.
  - intros _. pose proof (ini_parts_len 0 ep sections) as E1. pose proof (ini_parts_ok 0 ep sections Hs) as E2.
    rewrite E, len_app, len_le4 in E1. rewrite E, bytes_ok_app in E2. split; [lia | apply E2].
  - rewrite Hl. replace (8 + 8 * Z.of_nat (length sections)) with ((2 + 2 * Z.of_nat (length sections)) * 4) by lia.
    apply Z_mod_mult.
  - lia.
Qed.

#[export] Program Instance IniE_laws : ArgumentLaws IniE := {
  arg_wf i := Z.of_nat (length (ie_sections i)) < 32767 /\ Forall section_ok (ie_sections i);
  arg_payload a := align_data_up (ie_data a) 0
}.
Next Obligation.
  intros i [Hn Hs].
  apply (ini_ok i (fun off => mk_IniE off (ie_entrypoint i) (ie_sections i) (align_data_up (ie_data i) 0))
           (ie_entrypoint i) (ie_sections i)); try done.
  intros off Ho Hoff. cbn [arg_finalize IniE_argument]. unfold IniE_finalize. change IMAGE_PAGE_SIZE with 4096.
  by rewrite Hoff, u32_id.
Qed.

#[export] Program Instance IniS_laws : ArgumentLaws IniS := {
  arg_wf i := Z.of_nat (length (is_sections i)) < 32767 /\ Forall section_ok (is_sections i);
  arg_payload a := align_data_up (is_data a) 0
}.
Next Obligation.
  intros i [Hn Hs].
  apply (ini_ok i (fun off => mk_IniS off (is_entrypoint i) (is_sections i) (align_data_up (is_data i) 0))
           (is_entrypoint i) (is_sections i)); try done.
  intros off Ho Hoff. cbn [arg_finalize IniS_argument]. unfold IniS_finalize. change IMAGE_PAGE_SIZE with 4096.
  by rewrite Hoff, u32_id.
Qed.

(** Only the offset in the page matters for the sections used in place. *)
Lemma in_place_aligned_mod x y sections :
  x mod 4096 = y mod 4096 -> in_place_aligned x sections = in_place_aligned y sections.
Proof.
  revert x y. induction sections as [| s l IH]; intros x y Hxy; [done |]. cbn [in_place_aligned].
  change 4095 with (Z.ones 12). rewrite !Z.land_ones by lia. change (2 ^ 12) with 4096. rewrite Hxy. f_equal.
  apply IH. unfold add32, u32, wrap.
  rewrite !Z.mod_mod_divide by (by exists 1048576). by rewrite Z.add_mod, Hxy, <- Z.add_mod by lia.
Qed.

#[export] Program Instance IniF_laws : ArgumentLaws IniF := {
  arg_wf i := Z.of_nat (length (if_sections i)) < 32767 /\ Forall section_ok (if_sections i) /\
              0 <= if_alignment_offset i < 4096 /\
              in_place_aligned (if_alignment_offset i) (if_sections i) = true;
  arg_payload a := align_data_up (if_data a) 0
}.
Next Obligation.
  intros i (Hn & Hs & Ha & Hp).
  apply (ini_ok i (fun off => mk_IniF off (if_entrypoint i) (if_sections i) (align_data_up (if_data i) 0)
                                (if_alignment_offset i))
           (if_entrypoint i) (if_sections i)); try done.
  intros off Ho Hoff. cbn [arg_finalize IniF_argument arg_alignment_offset] in *. unfold IniF_finalize.
  change IMAGE_PAGE_SIZE with 4096. rewrite Hoff, Z.eqb_refl, u32_id by done. split; [done |].
  cbn [arg_serialize IniF_argument if_load_offset if_sections]. rewrite (in_place_aligned_mod off (if_alignment_offset i)), Hp; [done |].
  by rewrite Hoff, Z.mod_small.
Qed.

(** ** The layout *)

(** [placed running l l' bss]: from the running offset on, the arguments [l] get
    their offsets and become [l'], written as [bss]. *)
Inductive placed : Z -> list Argument -> list Argument -> list (list Z) -> Prop :=
| placed_nil running : placed running [] [] []
| placed_cons running x l x' l' bs bss :
    let off := align_size_up running (alignment_offset x) in
    0 <= alignment_offset x < 4096 -> word_ok off ->
    finalized x off x' bs -> arg_len x < 262144 -> arg_len x mod 4 = 0 -> word_ok (code x) ->
    placed (off + len (last_data x')) l l' bss -> placed running (x :: l) (x' :: l') (bs :: bss).

(** Room for the payloads, each moved up to its alignment. *)
Definition room (payloads : list (list Z)) : Z := fold_right (fun p n => 4096 + len p + n) 0 payloads.

Lemma room_nonneg ps : 0 <= room ps.
Proof. induction ps as [| p ps IH]; cbn; [lia |]. fold (room ps). pose proof (len_nonneg p). lia. Qed.

Lemma finalize_args_placed l ps running :
  Forall2 arg_ok l ps -> 0 <= running -> running + room ps < 4294967296 ->
  exists l' bss, finalize_args running l = Some l' /\ placed running l l' bss /\ map last_data l' = ps.
Proof.
  intros Hl. revert running. induction Hl as [| x p l ps Hx Hl IH]; intros running Hr Hb.
  { exists [], []. split_and!; [done | constructor | done]. }
  cbn [room fold_right] in Hb. fold (room ps) in Hb. pose proof (room_nonneg ps). pose proof (len_nonneg p).
  destruct (align_size_up_spec running (alignment_offset x) (ok_align _ _ Hx)) as [Ho Hm].
  destruct (ok_finalize _ _ Hx (align_size_up running (alignment_offset x))) as (x' & bs & Hf & Hp);
    [unfold word_ok; lia | done |].
  destruct (IH (align_size_up running (alignment_offset x) + len p)) as (l' & bss & E & Hpl & Hps); [lia.. |].
  exists (x' :: l'), (bs :: bss). split_and!.
  - cbn [finalize_args]. rewrite (fin_step _ _ _ _ Hf). cbn. by rewrite Hp, E.
  - constructor; try apply Hx; [unfold word_ok; lia | done |]. by rewrite Hp.
  - cbn. by rewrite Hp, Hps.
Qed.

(** The written tags. *)
Definition tags_bytes (crc16 : list Z -> Z) (l : list Argument) (bss : list (list Z)) : list Z :=
  concat (zip_with (fun x bs => tag_bytes crc16 (code x) bs) l bss).

Lemma write_tags_ok crc16 running l l' bss :
  placed running l l' bss -> write_tags crc16 l' = Some (tags_bytes crc16 l bss).
Proof.
  induction 1 as [| running x l x' l' bs bss off Ha Ho Hf Hlt Hm Hc Hp IH]; [done |].
  cbn [write_tags]. rewrite (fin_serialize _ _ _ _ Hf). cbn [mbind option_bind].
  pose proof (len_nonneg bs). pose proof (fin_size _ _ _ _ Hf) as Hs.
  rewrite (fin_len _ _ _ _ Hf), u32_id, Hs, Z.eqb_refl by lia. cbn. by rewrite IH, (fin_code _ _ _ _ Hf).
Qed.

(** The sizes of the tags are those that [len] adds up. *)
Lemma tags_bytes_len crc16 running l l' bss :
  placed running l l' bss ->
  len (tags_bytes crc16 l bss) = fold_right (fun x n => arg_len x + 8 + n) 0 l.
Proof.
  induction 1 as [| running x l x' l' bs bss off Ha Ho Hf Hlt Hm Hc Hp IH]; [done |].
  unfold tags_bytes in *. cbn [zip_with concat fold_right]. rewrite len_app, IH. unfold tag_bytes.
  rewrite !len_app, len_le4, !len_le2, (fin_size _ _ _ _ Hf). lia.
Qed.

(** The bytes [data] are at the index [i]. *)
Definition at_index (bytes : list Z) (i : Z) (data : list Z) : Prop :=
  0 <= i /\ take (length data) (drop (Z.to_nat i) bytes) = data.

Lemma at_index_app a b i data : at_index b i data -> at_index (a ++ b) (len a + i) data.
Proof.
  intros [Hi E]. pose proof (len_nonneg a). split; [lia |]. rewrite <- E at 2. f_equal. unfold len.
  rewrite Z2Nat.inj_add, Nat2Z.id by lia. rewrite drop_app_ge by lia. f_equal. lia.
Qed.

Lemma at_index_here data b : at_index (data ++ b) 0 data.
Proof. split; [done |]. by rewrite drop_0, take_app_length. Qed.

(** The payload of [x'] is at the offset that its tag records, plus [delta]. *)
Definition payload_at (bytes : list Z) (delta : Z) (x' : Argument) : Prop :=
  last_data x' = [] \/
  exists bs off, serialize x' = Some (bs, len bs) /\ word_ok off /\ take 4 bs = le4 off /\
                 at_index bytes (off + delta) (last_data x').

Lemma payload_at_app a b delta x' : payload_at b delta x' -> payload_at (a ++ b) (len a + delta) x'.
Proof.
  intros [? | (bs & off & Hs & Ho & Ht & Hi)]; [by left | right].
  exists bs, off. split_and!; try done. replace (off + (len a + delta)) with (len a + (off + delta)) by lia.
  by apply at_index_app.
Qed.

Lemma write_payloads_ok h delta running pos l l' bss :
  placed running l l' bss -> delta mod 4096 = 0 ->
  (forall x l0, l = x :: l0 ->
     align_size_up pos (alignment_offset x) = align_size_up running (alignment_offset x) + delta) ->
  (forall x, x ∈ l -> code x = fourcc "IniS" -> delta = h /\ (h = 4096 \/ h = 0)) ->
  exists bytes, write_payloads h pos l' = Some bytes /\ Forall (payload_at bytes (delta - pos)) l'.
Proof.
  intros Hp Hd. revert pos.
  induction Hp as [| running x l x' l' bs bss off Ha Ho Hf Hlt Hm Hc Hp IH]; intros pos Hpos Hini.
  { exists []. split; [done | constructor]. }
  specialize (Hpos x l eq_refl). fold off in Hpos.
  destruct (align_size_up_spec pos _ Ha) as [Hb _].
  pose proof (fin_align _ _ _ _ Hf) as Hal. cbn [write_payloads]. rewrite Hal, Hpos.
  rewrite len_zeros by lia. set (pad := zeros (off + delta - pos)).
  assert (Hpad : len pad = off + delta - pos) by (apply len_zeros; lia).
  destruct (IH (off + delta + len (last_data x'))) as (rest & E & Hrest).
  { intros y l0 ->. inversion Hp; subst. set (r := off + len (last_data x')).
    replace (off + delta + len (last_data x')) with (r + 4096 * (delta / 4096))
      by (pose proof (Z.div_mod delta 4096); lia).
    rewrite align_size_up_page by done. pose proof (Z.div_mod delta 4096). lia. }
  { intros y Hy. apply Hini. by right. }
  replace (pos + (off + delta - pos)) with (off + delta) by lia.
  destruct (negb _ || _) eqn:G.
  - rewrite E. cbn. exists (pad ++ last_data x' ++ rest). split; [done |]. constructor.
    + destruct (fin_offset _ _ _ _ Hf) as [? | Ht]; [by left | right].
      exists bs, off. split_and!; [apply Hf | done | done |].
      replace (off + (delta - pos)) with (len pad + 0) by lia. apply at_index_app, at_index_here.
    + eapply Forall_impl; [| exact Hrest]. intros y Hy.
      replace (delta - pos) with (len pad + (len (last_data x') + (delta - (off + delta + len (last_data x'))))) by lia.
      by apply payload_at_app, payload_at_app.
  - exfalso. rewrite (fin_code _ _ _ _ Hf) in G. destruct (Z.eqb_spec (code x) (fourcc "IniS")) as [Ei |]; [| done].
    destruct (Hini x ltac:(by left) Ei) as [Edh Eh]. rewrite (fin_inis _ _ _ _ Hf Ei) in G.
    replace (off + delta - h) with off in G by lia. rewrite Z.eqb_refl in G.
    destruct Eh as [-> | ->]; done.
Qed.

(** ** The whole image *)

Definition tags_size (l : list Argument) : Z := fold_right (fun x n => arg_len x + 8 + n) 0 l.

(** The writer aligns the first payload from the end of the tags, while the
    offsets start at the next page: if the alignment fits into the last page of the
    tags, all payloads are a page before their offsets. *)
Definition slip (s : XousArguments) : Z :=
  let r := XousArguments_len s mod 4096 in
  match arguments s with
  | x :: _ => if (0 <? r) && (r <=? alignment_offset x) then 4096 else 0
  | [] => 0
  end.

Definition detached (s : XousArguments) : Z := default 0 (detached_offset s).

(** Arguments that the writer accepts for a stream at [h], with their payloads. *)
Record image_ok (h : Z) (s : XousArguments) (ps : list (list Z)) : Prop := {
  im_args : Forall2 arg_ok (arguments s) ps;
  im_start : 0 <= h /\ h mod 4096 = 0;
  im_detached : 0 <= detached s /\ detached s mod 4096 = 0;
  im_room : 28 + tags_size (arguments s) + 4096 + detached s + room ps < 4294967296;
  im_inis x : x ∈ arguments s -> code x = fourcc "IniS" ->
    detached s = 0 /\ slip s = 0 /\ (h = 4096 \/ h = 0)
}.

Lemma tags_size_nonneg l ps : Forall2 arg_ok l ps -> 0 <= tags_size l.
Proof. induction 1 as [| x p l ps Hx _ IH]; cbn; [lia |]. fold (tags_size l). pose proof (ok_len _ _ Hx). lia. Qed.

Lemma XousArguments_len_eq h s ps : image_ok h s ps -> XousArguments_len s = 28 + tags_size (arguments s).
Proof.
  intros [Hl _ [Hd _] Hr _]. pose proof (room_nonneg ps). unfold XousArguments_len. change (20 + 8) with 28.
  assert (Hb : 28 + tags_size (arguments s) < 4294967296) by lia. clear Hr.
  assert (Hn : 0 <= 28) by lia. revert Hb Hn. generalize 28 as n.
  induction Hl as [| x p l ps Hx Hl IH]; intros n Hb Hn; cbn in *; [lia |]. fold (tags_size l) in *.
  pose proof (ok_len _ _ Hx). pose proof (tags_size_nonneg l ps Hl).
  replace (add32 n (add32 (arg_len x) 8)) with (n + (arg_len x + 8))
    by (unfold add32; rewrite (u32_id (arg_len x + 8)), u32_id; lia).
  rewrite IH; [lia.. | apply room_nonneg | lia | lia].
Qed.

(** The alignment of the first payload, from the end of the tags and from the
    page after them. *)
Lemma first_alignment h d r ao :
  0 <= ao < 4096 -> h mod 4096 = 0 -> d mod 4096 = 0 ->
  align_size_up (h + r) ao
  = align_size_up (align_size_up r 0 + d) ao
    + (h - d - (if (0 <? r mod 4096) && (r mod 4096 <=? ao) then 4096 else 0)).
Proof.
  intros Ha Hh Hd. destruct (align_size_up_spec r 0 ltac:(lia)) as [Hb Hm]. set (q := align_size_up r 0) in *.
  pose proof (Z.div_mod h 4096 ltac:(lia)). pose proof (Z.div_mod d 4096 ltac:(lia)).
  pose proof (Z.div_mod r 4096 ltac:(lia)). pose proof (Z.div_mod q 4096 ltac:(lia)).
  pose proof (Z.mod_pos_bound r 4096 ltac:(lia)).
  assert (E1 : align_size_up (q + d) ao = q + d + ao).
  { apply align_size_up_unique; [done | lia |].
    replace (q + d + ao) with (ao + (q / 4096 + d / 4096) * 4096) by lia. rewrite Z_mod_plus_full, Z.mod_small; lia. }
  rewrite E1. apply align_size_up_unique; [done | |].
  - destruct (Z.ltb_spec 0 (r mod 4096)), (Z.leb_spec (r mod 4096) ao); cbn [andb]; lia.
  - destruct ((0 <? r mod 4096) && (r mod 4096 <=? ao)).
    + replace (q + d + ao + (h - d - 4096)) with (ao + (q / 4096 + h / 4096 - 1) * 4096) by lia.
      rewrite Z_mod_plus_full, Z.mod_small; lia.
    + replace (q + d + ao + (h - d - 0)) with (ao + (q / 4096 + h / 4096) * 4096) by lia.
      rewrite Z_mod_plus_full, Z.mod_small; lia.
Qed.

Lemma write_ok crc16 h s ps :
  image_ok h s ps ->
  exists l' bss payloads,
    let s' := mk_XousArguments (ram_start s) (ram_length s) (ram_name s) l' (detached_offset s) in
    let header := tag_bytes crc16 (fourcc "XArg") (xarg_data s (XousArguments_len s))
                  ++ tags_bytes crc16 (arguments s) bss in
    XousArguments_write crc16 h s = Some (s', header ++ payloads) /\
    placed (align_size_up (XousArguments_len s) 0 + detached s) (arguments s) l' bss /\
    map last_data l' = ps /\ len header = XousArguments_len s /\
    Forall (payload_at (header ++ payloads) (- detached s - slip s)) l'.
Proof.
  intros Hs. pose proof (XousArguments_len_eq h s ps Hs) as HL. destruct Hs as [Hl [Hh Hh'] [Hd Hd'] Hr Hini].
  pose proof (tags_size_nonneg _ _ Hl). set (L := XousArguments_len s) in *.
  destruct (align_size_up_spec L 0 ltac:(lia)) as [Hb Hm].
  destruct (finalize_args_placed (arguments s) ps (align_size_up L 0 + detached s) Hl) as (l' & bss & Ef & Hp & Hps);
    [lia | lia |].
  set (header := tag_bytes crc16 (fourcc "XArg") (xarg_data s L) ++ tags_bytes crc16 (arguments s) bss).
  assert (Hlen : len header = L).
  { unfold header. rewrite len_app, (tags_bytes_len _ _ _ _ _ Hp). fold (tags_size (arguments s)).
    rewrite HL. done. }
  set (delta := h - detached s - slip s).
  destruct (write_payloads_ok h delta _ (h + len header) _ _ _ Hp) as (payloads & Ew & Hpay).
  { unfold delta. assert (Hsl : slip s mod 4096 = 0) by (unfold slip; by repeat case_match).
    by rewrite Zminus_mod, (Zminus_mod h), Hh', Hd', Hsl. }
  { intros x l0 Ex. rewrite Hlen. unfold delta, slip. rewrite Ex. fold L. apply first_alignment; [| done..].
    rewrite Ex in Hl. inversion Hl; subst. by eapply ok_align. }
  { intros x Hx Hc. destruct (Hini x Hx Hc) as (E1 & E2 & E3). split; [unfold delta; lia | done]. }
  exists l', bss, payloads. cbn zeta. fold header. split_and!; try done.
  - unfold XousArguments_write, XousArguments_finalize. fold L. fold (detached s). rewrite Ef. cbn [mbind option_bind arguments].
    rewrite (write_tags_ok _ _ _ _ _ Hp). cbn [mbind option_bind].
    change (xarg_data _ L) with (xarg_data s L). fold header. by rewrite Ew.
  - eapply Forall_impl; [| exact Hpay]. intros x' Hx'.
    replace (- detached s - slip s) with (len header + (delta - (h + len header))) by (unfold delta; lia).
    by apply payload_at_app.
Qed.

(** C20. The writer of boot images accepts all well-formed arguments, and places
    every payload (the kernel and the programs) where its tag says: the first word
    of the tag's data is the offset of the payload in the image, plus the offset
    of a detached image.  The one exception: if the first argument asks for an
    alignment that is not less than the length of the tags in their last page, then
    all payloads are one page before the recorded offset. *)
Theorem image_layout crc16 h s ps :
  image_ok h s ps ->
  exists s' image,
    XousArguments_write crc16 h s = Some (s', image) /\
    map last_data (arguments s') = ps /\
    Forall (payload_at image (- detached s - slip s)) (arguments s').
Proof.
  intros Hs. destruct (write_ok crc16 h s ps Hs) as (l' & bss & payloads & E & _ & Hps & _ & Hp). eauto.
Qed.

(** An image with the regions of memory, one program and the kernel. *)
Definition example_regions : MemoryRegions :=
  mk_MemoryRegions [MemoryRegion_new 4026531840 65536 (MemoryRegion_make_name "csr")].
Definition example_program : IniE :=
  IniE_new 65536 [mk_MiniElfSection 65536 8 4; mk_MiniElfSection 69632 4 8] [1; 2; 3; 4; 5; 6; 7; 8; 9].
Definition example_xkrn : XousKernel := XousKernel_new 4291821568 16 4292870144 4 4 4291821568 [10; 11; 12; 13].

Definition example_arguments : XousArguments :=
  XousArguments_add (BoxArg example_xkrn)
    (XousArguments_add (BoxArg example_program)
      (XousArguments_add (BoxArg example_regions) (XousArguments_new 1073741824 16777216 1836937842))).

Lemma example_image_ok :
  image_ok 0 example_arguments
    [[]; align_data_up (ie_data example_program) 0; align_data_up (xk_program example_xkrn) 0].
Proof.
  split.
  - constructor; [| constructor; [| constructor; [| constructor]]].
    + refine (arg_laws example_regions _). done.
    + refine (arg_laws example_program _). split; [done |]. by repeat constructor.
    + refine (arg_laws example_xkrn _). done.
  - done.
  - done.
  - vm_compute. reflexivity.
  - intros x Hx Hc. exfalso. revert Hc. change (code x <> fourcc "IniS").
    repeat (apply elem_of_cons in Hx as [-> | Hx]; [vm_compute; discriminate |]). by apply elem_of_nil in Hx.
Qed.

Lemma image_layout_witness :
  exists s' image,
    XousArguments_write (fun l => len l) 0 example_arguments = Some (s', image) /\
    map last_data (arguments s')
    = [[]; align_data_up (ie_data example_program) 0; align_data_up (xk_program example_xkrn) 0] /\
    Forall (payload_at image (- detached example_arguments - slip example_arguments)) (arguments s').
Proof. apply image_layout. apply example_image_ok. Defined.

(** A detached image with one program, used in place, that starts at the offset
    512 of its page. *)
Definition example_detached : XousArguments :=
  set_detached_offset 1048576
    (XousArguments_add
      (BoxArg (IniF_new 66048 [mk_MiniElfSection 66048 4 4] [1; 2; 3; 4] 512))
      (XousArguments_new 0 0 0)).

(** In a detached image whose first program is to start at the offset 512 of
    a page, the program is not where its tag says but a page before. *)
Lemma detached_image_page_early :
  exists s' image x bs,
    XousArguments_write (fun l => len l) 0 example_detached = Some (s', image) /\
    arguments s' = [x] /\ serialize x = Some (bs, len bs) /\
    take 4 bs = le4 (1048576 + 4608) /\ take 4 (drop 4608 image) = [] /\
    take 4 (drop 512 image) = [1; 2; 3; 4].
Proof.
  assert (H : match XousArguments_write (fun l => len l) 0 example_detached with
              | Some (s', image) =>
                  match arguments s' with
                  | [x] => (a ← serialize x; Some (snd a =? len (fst a), take 4 (fst a)),
                            take 4 (drop 4608 image), take 4 (drop 512 image))
                  | _ => (None, [], [])
                  end
              | None => (None, [], [])
              end = (Some (true, le4 (1048576 + 4608)), [], [1; 2; 3; 4])) by (vm_compute; reflexivity).
  destruct (XousArguments_write (fun l => len l) 0 example_detached) as [[s' image] |] eqn:E; [| discriminate H].
  destruct (arguments s') as [| x [| ]] eqn:Ex; try discriminate H.
  injection H as H1 H2 H3. destruct (serialize x) as [[bs n] |] eqn:Es; [| discriminate H1].
  cbn [mbind option_bind fst snd] in H1. injection H1 as Hn Ht. apply Z.eqb_eq in Hn as ->.
  exists s', image, x, bs. exact (conj eq_refl (conj Ex (conj Es (conj Ht (conj H2 H3))))).
Qed.
