(* ===== verification/BootArgs.v ===== *)
(** * Reading the boot arguments

    Models the readers of the argument block, src/kernel/src/args.rs and
    src/loader/src/args.rs, and [merge_args] of the loader.  The memory from the
    start of the block is a list of words; a read or a write outside of it, and a
    failed assertion, is [None]. *)

From Stdlib Require Import ZArith Lia Bool String.
From stdpp Require Import base numbers list option.
From S2P Require Import Prelude.
From S2P Require Import ImageWriter.

#[local] Open Scope Z_scope.

(** Words of memory and their bytes. *)
Definition bytes_of_words (ws : list Z) : list Z := concat (map le4 ws).

Fixpoint words_of_bytes (l : list Z) : list Z :=
  match l with
  | a :: b :: c :: d :: l => (a + 256 * b + 65536 * c + 16777216 * d) :: words_of_bytes l
  | _ => []
  end.

(** The [n] words at the index [i]. *)
Definition read_words (mem : list Z) (i n : nat) : option (list Z) :=
  let ws := take n (drop i mem) in
  if (length ws =? n)%nat then Some ws else None.

(** ** The kernel's reader *)

Record KernelArgument : Type := mk_KernelArgument { ka_name : Z; ka_size : Z; ka_data : list Z }.

Definition KernelArguments_size (mem : list Z) : option Z := w ← mem !! 2%nat; Some (u32 (w * 4)).

Definition KernelArgument_new (mem : list Z) (offset : Z) : option KernelArgument :=
  let i := Z.to_nat (offset / 4) in
  name ← mem !! i;
  w ← mem !! (i + 1)%nat;
  let size := Z.shiftr w 16 in
  data ← read_words mem (i + 2) (Z.to_nat size);
  Some (mk_KernelArgument name (size * 4) data).

(** The iterator run to its end from [offset].  Every tag has two words at least,
    so the number of words of the memory bounds the number of turns. *)
Fixpoint arguments_from (fuel : nat) (mem : list Z) (size offset : Z) : option (list KernelArgument) :=
  match fuel with
  | O => None
  | S fuel =>
      if size <=? offset then Some []
      else
        a ← KernelArgument_new mem offset;
        l ← arguments_from fuel mem size (add32 offset (add32 (ka_size a) 8));
        Some (a :: l)
  end.

Definition KernelArguments_iter (mem : list Z) : option (list KernelArgument) :=
  size ← KernelArguments_size mem;
  arguments_from (S (length mem)) mem size 0.

(** ** The loader's reader *)

(** The loader's copy also knows where the tag is, as an index from the start of
    the block. *)
Record LoaderArgument : Type := mk_LoaderArgument {
  la_name : Z; la_size : Z; la_data : list Z; la_this : nat
}.

Definition loader_size (mem : list Z) : option Z :=
  tag ← mem !! 0%nat;
  if tag =? fourcc "XArg" then w ← mem !! 2%nat; Some (u32 (w * 4)) else None.

Definition LoaderArgument_new (mem : list Z) (offset : Z) : option LoaderArgument :=
  let i := Z.to_nat (offset / 4) in
  name ← mem !! i;
  w ← mem !! (i + 1)%nat;
  let size := Z.shiftr w 16 in
  data ← read_words mem (i + 2) (Z.to_nat size);
  Some (mk_LoaderArgument name (u32 (size * 4)) data i).

Fixpoint loader_from (fuel : nat) (mem : list Z) (size offset : Z) : option (list LoaderArgument) :=
  match fuel with
  | O => None
  | S fuel =>
      if size <=? offset then Some []
      else
        a ← LoaderArgument_new mem offset;
        l ← loader_from fuel mem size (add32 offset (add32 (la_size a) 8));
        Some (a :: l)
  end.

Definition loader_iter (mem : list Z) : option (list LoaderArgument) :=
  size ← loader_size mem;
  loader_from (S (length mem)) mem size 0.

(** ** [merge_args] *)

Definition TARGET_ALIGNMENT : Z := 16.

(** [memcpy] of whole words to the index [i] of a region. *)
Definition write_words (region : list Z) (i : Z) (ws : list Z) : option (list Z) :=
  if (0 <=? i) && (i + len ws <=? len region)
  then Some (take (Z.to_nat i) region ++ ws ++ drop (Z.to_nat i + length ws) region)
  else None.

Section Merge.
Context (crc16 : list Z -> Z).

Definition wanted (tag_filter : list Z) (arg : LoaderArgument) : bool :=
  existsb (fun t => t =? la_name arg) tag_filter.

(** The bytes of the wanted tags of one list. *)
Definition incoming_size (tag_filter : list Z) (args : list LoaderArgument) : Z :=
  fold_left (fun n arg => if wanted tag_filter arg then add32 n (la_size arg + 8) else n) args 0.

(** Append the wanted tags of one list at the index [ptr] of the region. *)
Fixpoint append_args (tag_filter : list Z) (mem : list Z) (args : list LoaderArgument)
    (st : list Z * Z) : option (list Z * Z) :=
  match args with
  | [] => Some st
  | arg :: args =>
      if wanted tag_filter arg then
        let '(region, ptr) := st in
        if negb ((la_size arg + 8) mod 4 =? 0) then None else
        ws ← read_words mem (la_this arg) (Z.to_nat ((la_size arg + 8) / 4));
        region ← write_words region ptr ws;
        append_args tag_filter mem args (region, ptr + (la_size arg + 8) / 4)
      else append_args tag_filter mem args st
  end.

Fixpoint append_lists (tag_filter : list Z) (lists : list (list Z * list LoaderArgument))
    (st : list Z * Z) : option (list Z * Z) :=
  match lists with
  | [] => Some st
  | (mem, args) :: lists => st ← append_args tag_filter mem args st; append_lists tag_filter lists st
  end.

(** [merge_args] into the words [dest] at the address [dest_addr]: the region
    afterwards, the index of the new block in it and the size to reserve;
    [Some None] if the block does not fit. *)
Definition merge_args (self : list Z) (incoming : list (list Z)) (tag_filter : list Z)
    (dest_addr : Z) (dest : list Z) : option (option (list Z * Z * Z)) :=
  lists ← mapM (fun mem => args ← loader_iter mem; Some (mem, args)) incoming;
  let incoming := fold_left (fun n l => add32 n (incoming_size tag_filter (snd l))) lists 0 in
  size ← loader_size self;
  let size_bound := add32 size incoming in
  if len dest * 4 <? size_bound then Some None
  else if negb (size_bound mod 4 =? 0) then None
  else
    let arg_buffer := dest_addr + len dest * 4 - size_bound / 4 * 4 in
    let alignment_overhead := arg_buffer mod TARGET_ALIGNMENT in
    let arg_buffer := Z.land arg_buffer (Z.lnot (TARGET_ALIGNMENT - 1)) in
    let aligned_size := size_bound + alignment_overhead in
    let start := (arg_buffer - dest_addr) / 4 in
    base ← read_words self 0 (Z.to_nat (size / 4));
    region ← write_words dest start base;
    st ← append_lists tag_filter lists (region, start + size / 4);
    let '(region, ptr) := st in
    let final_size := (ptr - start) * 4 in
    if size_bound <? final_size then None
    else
      w ← region !! Z.to_nat (start + 1);
      let tag_size := Z.shiftr w 16 in
      region ← write_words region (start + 2) [final_size / 4];
      let xarg_data := take (Z.to_nat tag_size) (drop 8 (bytes_of_words self)) in
      let crc := crc16 xarg_data in
      region ← write_words region (start + 1) [crc + 65536 * tag_size];
      Some (Some (region, start, aligned_size)).
End Merge.
