(* ===== verification/BootArgsFacts.v ===== *)
(** * What the readers of the boot arguments return

    The kernel's and the loader's readers return the tags that the writer of the
    image was given, and merging the tags of another image appends exactly the
    wanted ones. *)

From Stdlib Require Import ZArith Lia Bool String.
From stdpp Require Import base numbers list option.
From S2P Require Import Prelude.
From S2P Require Import ImageWriter.
From S2P Require Import ImageFacts.
From S2P Require Import BootArgs.

#[local] Open Scope Z_scope.

(** ** Words and bytes *)

Lemma words_of_bytes_app_cons a b c d l l' :
  words_of_bytes ((a :: b :: c :: d :: l) ++ l')
  = (a + 256 * b + 65536 * c + 16777216 * d) :: words_of_bytes (l ++ l').
Proof. done. Qed.

(** A quarter of the bytes at a time. *)
Lemma words_ind (P : list Z -> Prop) :
  P [] -> (forall a b c d l, len l mod 4 = 0 -> P l -> P (a :: b :: c :: d :: l)) ->
  forall l, len l mod 4 = 0 -> P l.
Proof.
  intros H0 Hs l. remember (length l) as n eqn:E. revert l E.
  induction n as [n IH] using lt_wf_ind. intros l -> Hm.
  destruct l as [| a [| b [| c [| d l]]]]; try done.
  assert (Hl : len l mod 4 = 0).
  { rewrite !len_cons in Hm. replace (1 + (1 + (1 + (1 + len l)))) with (len l + 1 * 4) in Hm by lia.
    by rewrite Z_mod_plus_full in Hm. }
  apply Hs; [done |]. by eapply IH; [| reflexivity |]; [cbn; lia |].
Qed.

Lemma words_of_bytes_app l l' :
  len l mod 4 = 0 -> words_of_bytes (l ++ l') = words_of_bytes l ++ words_of_bytes l'.
Proof.
  intros Hl. pattern l. apply words_ind; [done | | done]. clear. intros a b c d l _ IH.
  cbn [app words_of_bytes]. by rewrite IH.
Qed.

Lemma words_of_bytes_len l : len l mod 4 = 0 -> len (words_of_bytes l) = len l / 4.
Proof.
  intros Hl. pattern l. apply words_ind; [done | | done]. clear. intros a b c d l _ IH.
  cbn [words_of_bytes]. rewrite !len_cons, IH. replace (1 + (1 + (1 + (1 + len l)))) with (len l + 1 * 4) by lia.
  rewrite Z.div_add by lia. lia.
Qed.

Lemma words_of_bytes_ok l : len l mod 4 = 0 -> bytes_ok l -> Forall word_ok (words_of_bytes l).
Proof.
  intros Hl. pattern l. apply words_ind; [intros _; constructor | | done]. clear. intros a b c d l _ IH Hb.
  apply Forall_cons_1 in Hb as [Ha Hb]. apply Forall_cons_1 in Hb as [Hb Hc].
  apply Forall_cons_1 in Hc as [Hc Hd]. apply Forall_cons_1 in Hd as [Hd Hl].
  constructor; [| by apply IH]. unfold word_ok, byte_ok in *. lia.
Qed.

(** The four bytes of a word. *)
Lemma le4_digits v :
  le4 v = [v mod 256; v / 256 mod 256; v / 65536 mod 256; v / 16777216 mod 256].
Proof. unfold le4, le_bytes. cbn [seq map]. by rewrite !Z.shiftr_div_pow2, Z.div_1_r by lia. Qed.

Lemma words_of_le4 v l : word_ok v -> words_of_bytes (le4 v ++ l) = v :: words_of_bytes l.
Proof.
  intros Hv. rewrite le4_digits. cbn [app words_of_bytes]. f_equal.
  rewrite (Z.mod_small (v / 16777216)) by (unfold word_ok in Hv; split; [apply Z.div_pos; lia | apply Z.div_lt_upper_bound; lia]).
  replace (v / 16777216) with (v / 256 / 256 / 256) by (rewrite !Z.div_div by lia; done).
  replace (v / 65536) with (v / 256 / 256) by (rewrite !Z.div_div by lia; done).
  pose proof (Z.div_mod v 256 ltac:(lia)). pose proof (Z.div_mod (v / 256) 256 ltac:(lia)).
  pose proof (Z.div_mod (v / 256 / 256) 256 ltac:(lia)). lia.
Qed.

(** Two half words are a word. *)
Lemma le2_le2 a b : 0 <= a < 65536 -> 0 <= b < 65536 -> le2 a ++ le2 b = le4 (a + 65536 * b).
Proof.
  intros Ha Hb. rewrite le4_digits. unfold le2, le_bytes. cbn [seq map app].
  rewrite !Z.shiftr_div_pow2 by lia. change (2 ^ (8 * Z.of_nat 0)) with 1. change (2 ^ (8 * Z.of_nat 1)) with 256.
  rewrite !Z.div_1_r.
  assert (E0 : (a + 65536 * b) mod 256 = a mod 256).
  { replace (a + 65536 * b) with (a + (256 * b) * 256) by lia. by rewrite Z_mod_plus_full. }
  assert (E1 : (a + 65536 * b) / 256 mod 256 = a / 256 mod 256).
  { replace (a + 65536 * b) with (a + (256 * b) * 256) by lia. rewrite Z.div_add by lia.
    rewrite (Z.mul_comm 256). by rewrite Z_mod_plus_full. }
  assert (E2 : (a + 65536 * b) / 65536 = b).
  { replace (a + 65536 * b) with (a + b * 65536) by lia. rewrite Z.div_add, Z.div_small; lia. }
  rewrite E0, E1, E2. change 16777216 with (65536 * 256). by rewrite <- Z.div_div, E2 by lia.
Qed.

(** ** Blocks of tags *)

(** A tag in memory: its name, its checksum and its data, in words. *)
Record Tag : Type := mk_Tag { t_name : Z; t_crc : Z; t_data : list Z }.

Definition tag_words (t : Tag) : list Z := [t_name t; t_crc t + 65536 * len (t_data t)] ++ t_data t.
Definition block (l : list Tag) : list Z := concat (map tag_words l).

Definition tag_ok (t : Tag) : Prop := 0 <= t_crc t < 65536 /\ len (t_data t) < 65536.

Definition argument_of (t : Tag) : KernelArgument :=
  mk_KernelArgument (t_name t) (len (t_data t) * 4) (t_data t).

Lemma block_cons t l : block (t :: l) = tag_words t ++ block l.
Proof. done. Qed.

Lemma block_app l l' : block (l ++ l') = block l ++ block l'.
Proof. unfold block. by rewrite map_app, concat_app. Qed.

Lemma tag_words_len t : len (tag_words t) = 2 + len (t_data t).
Proof. unfold tag_words. rewrite len_app. done. Qed.

Lemma block_length l : (2 * length l <= length (block l))%nat.
Proof.
  induction l as [| t l IH]; [done |]. rewrite block_cons, length_app. unfold tag_words. cbn [length app]. lia.
Qed.

Lemma tag_size_word t : tag_ok t -> Z.shiftr (t_crc t + 65536 * len (t_data t)) 16 = len (t_data t).
Proof.
  intros [Hc Hl]. rewrite Z.shiftr_div_pow2 by lia. change (2 ^ 16) with 65536.
  rewrite (Z.mul_comm 65536), Z.div_add, Z.div_small; lia.
Qed.

Lemma read_words_app pre ws rest : read_words (pre ++ ws ++ rest) (length pre) (length ws) = Some ws.
Proof. unfold read_words. by rewrite drop_app_length, take_app_length, Nat.eqb_refl. Qed.

(** The reading of one tag, behind the words [pre]. *)
Lemma read_tag pre t rest :
  tag_ok t ->
  let mem := pre ++ tag_words t ++ rest in
  mem !! length pre = Some (t_name t) /\
  mem !! (length pre + 1)%nat = Some (t_crc t + 65536 * len (t_data t)) /\
  read_words mem (length pre + 2) (Z.to_nat (len (t_data t))) = Some (t_data t).
Proof.
  intros Ht mem. unfold mem, tag_words. split; [| split].
  - by rewrite lookup_app_r, Nat.sub_diag by lia.
  - rewrite lookup_app_r by lia. by replace (length pre + 1 - length pre)%nat with 1%nat by lia.
  - cbn [app]. unfold len. rewrite Nat2Z.id.
    replace (pre ++ t_name t :: t_crc t + 65536 * Z.of_nat (length (t_data t)) :: t_data t ++ rest)
      with ((pre ++ [t_name t; t_crc t + 65536 * Z.of_nat (length (t_data t))]) ++ t_data t ++ rest)
      by (by rewrite <- app_assoc).
    replace (length pre + 2)%nat with (length (pre ++ [t_name t; t_crc t + 65536 * Z.of_nat (length (t_data t))]))
      by (by rewrite length_app).
    apply read_words_app.
Qed.

Lemma word_index (pre : list Z) : Z.to_nat (4 * len pre / 4) = length pre.
Proof. rewrite Z.mul_comm, Z.div_mul by lia. apply Nat2Z.id. Qed.

Lemma KernelArgument_new_block pre t rest :
  tag_ok t -> KernelArgument_new (pre ++ tag_words t ++ rest) (4 * len pre) = Some (argument_of t).
Proof.
  intros Ht. destruct (read_tag pre t rest Ht) as (E1 & E2 & E3). unfold KernelArgument_new.
  rewrite word_index, E1. cbn [mbind option_bind]. rewrite E2. cbn [mbind option_bind].
  by rewrite tag_size_word, E3 by done.
Qed.

(** The offset of the next tag. *)
Lemma next_offset pre t (bound : Z) :
  tag_ok t -> 4 * (len pre + len (tag_words t)) <= bound < 4294967296 ->
  add32 (4 * len pre) (add32 (len (t_data t) * 4) 8) = 4 * len (pre ++ tag_words t).
Proof.
  intros [_ Hl] Hb. rewrite len_app, tag_words_len in *. pose proof (len_nonneg (t_data t)).
  pose proof (len_nonneg pre). unfold add32. rewrite (u32_id (len (t_data t) * 4 + 8)), u32_id; lia.
Qed.

Lemma arguments_from_block l pre rest fuel size :
  Forall tag_ok l -> size = 4 * (len pre + len (block l)) -> size < 4294967296 -> (length l < fuel)%nat ->
  arguments_from fuel (pre ++ block l ++ rest) size (4 * len pre) = Some (map argument_of l).
Proof.
  intros Hl. revert pre fuel. induction Hl as [| t l Ht Hl IH]; intros pre [| fuel] Hs Hb Hf; try (cbn in Hf; lia).
  { cbn [arguments_from]. destruct (Z.leb_spec size (4 * len pre)) as [| Hlt]; [done |].
    cbn in Hs. rewrite len_nil in Hs. lia. }
  cbn [arguments_from]. rewrite block_cons, len_app, tag_words_len in Hs.
  pose proof (len_nonneg (t_data t)). pose proof (len_nonneg (block l)).
  destruct (Z.leb_spec size (4 * len pre)); [lia |].
  rewrite block_cons, <- app_assoc, KernelArgument_new_block by done. cbn [mbind option_bind argument_of ka_size].
  rewrite (next_offset pre t size) by (done || (rewrite tag_words_len; lia)). rewrite app_assoc.
  rewrite IH; [done | | done | cbn in Hf; lia]. rewrite len_app, tag_words_len. lia.
Qed.

(** A block as the readers expect it: the first tag holds the number of words of
    the block. *)
Record block_ok (l : list Tag) : Prop := {
  bl_tags : Forall tag_ok l;
  bl_first : exists crc data l', l = mk_Tag (fourcc "XArg") crc (len (block l) :: data) :: l';
  bl_size : 4 * len (block l) < 4294967296
}.

Lemma block_size_word l rest : block_ok l -> (block l ++ rest) !! 2%nat = Some (len (block l)).
Proof.
  intros [_ (crc & data & l' & E) _]. remember (len (block l)) as n eqn:En. rewrite E. reflexivity.
Qed.

Lemma block_magic l rest : block_ok l -> (block l ++ rest) !! 0%nat = Some (fourcc "XArg").
Proof. intros [_ (crc & data & l' & E) _]. remember (len (block l)) as n eqn:En. rewrite E. reflexivity. Qed.

Lemma KernelArguments_iter_block l rest :
  block_ok l -> KernelArguments_iter (block l ++ rest) = Some (map argument_of l).
Proof.
  intros Hl. unfold KernelArguments_iter, KernelArguments_size. rewrite block_size_word by done.
  cbn [mbind option_bind]. destruct Hl as [Ht _ Hs]. pose proof (len_nonneg (block l)). rewrite u32_id by lia.
  apply (arguments_from_block l [] rest); [done | rewrite len_nil; lia | lia |].
  pose proof (block_length l). rewrite length_app. lia.
Qed.

(** What the loader's reader returns for the tags from the index [i] on. *)
Fixpoint located (i : nat) (l : list Tag) : list LoaderArgument :=
  match l with
  | [] => []
  | t :: l => mk_LoaderArgument (t_name t) (len (t_data t) * 4) (t_data t) i
              :: located (i + length (tag_words t)) l
  end.

Lemma loader_from_block l pre rest fuel size :
  Forall tag_ok l -> size = 4 * (len pre + len (block l)) -> size < 4294967296 -> (length l < fuel)%nat ->
  loader_from fuel (pre ++ block l ++ rest) size (4 * len pre) = Some (located (length pre) l).
Proof.
  intros Hl. revert pre fuel. induction Hl as [| t l Ht Hl IH]; intros pre [| fuel] Hs Hb Hf; try (cbn in Hf; lia).
  { cbn [loader_from]. destruct (Z.leb_spec size (4 * len pre)) as [| Hlt]; [done |].
    cbn in Hs. rewrite len_nil in Hs. lia. }
  cbn [loader_from]. rewrite block_cons, len_app, tag_words_len in Hs.
  pose proof (len_nonneg (t_data t)). pose proof (len_nonneg (block l)).
  destruct (Z.leb_spec size (4 * len pre)); [lia |]. rewrite block_cons, <- app_assoc.
  destruct (read_tag pre t (block l ++ rest) Ht) as (E1 & E2 & E3). unfold LoaderArgument_new at 1.
  rewrite word_index, E1. cbn [mbind option_bind]. rewrite E2. cbn [mbind option_bind].
  rewrite tag_size_word, E3 by done. destruct Ht as [Hc Hlt]. rewrite u32_id by lia.
  cbn [mbind option_bind la_size].
  rewrite (next_offset pre t size) by (done || (rewrite tag_words_len; lia)). rewrite app_assoc.
  rewrite IH; [| rewrite len_app, tag_words_len; lia | done | cbn in Hf; lia].
  cbn [mbind option_bind located]. by rewrite length_app.
Qed.

Lemma loader_size_block l rest : block_ok l -> loader_size (block l ++ rest) = Some (4 * len (block l)).
Proof.
  intros Hl. unfold loader_size. rewrite block_magic by done. cbn [mbind option_bind]. rewrite Z.eqb_refl, block_size_word by done.
  cbn [mbind option_bind]. destruct Hl as [_ _ Hs]. pose proof (len_nonneg (block l)). rewrite u32_id by lia. f_equal. lia.
Qed.

Lemma loader_iter_block l rest : block_ok l -> loader_iter (block l ++ rest) = Some (located 0 l).
Proof.
  intros Hl. unfold loader_iter. rewrite loader_size_block by done. cbn [mbind option_bind].
  destruct Hl as [Ht _ Hs]. apply (loader_from_block l [] rest); [done | rewrite len_nil; lia | lia |].
  pose proof (block_length l). rewrite length_app. lia.
Qed.

(** ** Reading what was written *)

(** The tag of a written argument. *)
Definition written_tag (crc16 : list Z -> Z) (x : Argument) (bs : list Z) : Tag :=
  mk_Tag (code x) (crc16 bs) (words_of_bytes bs).

Definition crc_ok (crc16 : list Z -> Z) : Prop := forall l, 0 <= crc16 l < 65536.

Lemma tag_bytes_words crc16 name data rest :
  crc_ok crc16 -> word_ok name -> len data mod 4 = 0 -> len data < 262144 ->
  words_of_bytes (tag_bytes crc16 name data ++ rest)
  = tag_words (mk_Tag name (crc16 data) (words_of_bytes data)) ++ words_of_bytes rest.
Proof.
  intros Hc Hn Hm Hl. pose proof (len_nonneg data). unfold tag_bytes, tag_words. cbn [t_name t_crc t_data].
  assert (Hw : 0 <= len data / 4 < 65536) by (split; [apply Z.div_pos; lia | apply Z.div_lt_upper_bound; lia]).
  rewrite words_of_bytes_len by done. rewrite <- app_assoc, words_of_le4 by done. cbn [app]. f_equal.
  rewrite (app_assoc (le2 _)), le2_le2, <- app_assoc by (apply Hc || done). rewrite words_of_le4.
  - by rewrite words_of_bytes_app.
  - specialize (Hc data). unfold word_ok. lia.
Qed.

Lemma tags_bytes_words crc16 running l l' bss rest :
  crc_ok crc16 -> placed running l l' bss ->
  words_of_bytes (tags_bytes crc16 l bss ++ rest)
  = block (zip_with (written_tag crc16) l bss) ++ words_of_bytes rest.
Proof.
  intros Hcrc. induction 1 as [| running x l x' l' bs bss off Ha Ho Hf Hlt Hm Hc Hp IH]; [done |].
  unfold tags_bytes in *. cbn [zip_with concat]. rewrite <- app_assoc.
  pose proof (fin_size _ _ _ _ Hf) as Hs.
  rewrite tag_bytes_words, IH by (done || by rewrite Hs). by rewrite block_cons, app_assoc.
Qed.

Lemma written_tags_ok crc16 running l l' bss :
  crc_ok crc16 -> placed running l l' bss -> Forall tag_ok (zip_with (written_tag crc16) l bss).
Proof.
  intros Hcrc. induction 1 as [| running x l x' l' bs bss off Ha Ho Hf Hlt Hm Hc Hp IH]; cbn; constructor; [| done].
  split; [apply Hcrc |]. cbn [t_data written_tag]. pose proof (fin_size _ _ _ _ Hf) as Hs.
  rewrite words_of_bytes_len by (by rewrite Hs). apply Z.div_lt_upper_bound; lia.
Qed.

(** The words of the memory that the image describes. *)
Definition ram_ok (s : XousArguments) : Prop :=
  word_ok (ram_start s) /\ word_ok (ram_length s) /\ word_ok (ram_name s).

Definition xarg_words (s : XousArguments) : list Z :=
  [XousArguments_len s / 4; 1; ram_start s; ram_length s; ram_name s].

Lemma xarg_data_words s :
  ram_ok s -> word_ok (XousArguments_len s / 4) ->
  words_of_bytes (xarg_data s (XousArguments_len s)) = xarg_words s.
Proof.
  intros (Hs & Hl & Hn) HL. unfold xarg_data. rewrite <- (app_nil_r (le4 (ram_name s))).
  by rewrite !words_of_le4.
Qed.

Lemma tags_size_words l ps : Forall2 arg_ok l ps -> tags_size l mod 4 = 0.
Proof.
  induction 1 as [| x p l ps Hx _ IH]; [done |]. cbn. fold (tags_size l).
  replace (arg_len x + 8 + tags_size l) with (arg_len x + tags_size l + 2 * 4) by lia.
  by rewrite Z_mod_plus_full, Z.add_mod, (ok_words _ _ Hx), IH by lia.
Qed.

(** The image begins with a block of tags. *)
Lemma written_block crc16 h s ps :
  crc_ok crc16 -> ram_ok s -> image_ok h s ps ->
  exists l' bss rest image,
    let s' := mk_XousArguments (ram_start s) (ram_length s) (ram_name s) l' (detached_offset s) in
    let l := mk_Tag (fourcc "XArg") (crc16 (xarg_data s (XousArguments_len s))) (xarg_words s)
             :: zip_with (written_tag crc16) (arguments s) bss in
    XousArguments_write crc16 h s = Some (s', image) /\ words_of_bytes image = block l ++ rest /\
    block_ok l /\ placed (align_size_up (XousArguments_len s) 0 + detached s) (arguments s) l' bss.
Proof.
  intros Hcrc Hram Hs. destruct (write_ok crc16 h s ps Hs) as (l' & bss & payloads & E & Hp & _ & Hlen & _).
  pose proof (XousArguments_len_eq h s ps Hs) as HL. destruct Hs as [Hl _ [Hd _] Hr _].
  pose proof (tags_size_nonneg _ _ Hl). pose proof (room_nonneg ps). set (L := XousArguments_len s) in *.
  assert (Hw : word_ok (L / 4)).
  { split; [apply Z.div_pos; lia | apply Z.div_lt_upper_bound; lia]. }
  pose proof (xarg_data_words s Hram Hw) as Hx. fold L in Hx.
  exists l', bss, (words_of_bytes payloads). eexists. cbn zeta. split; [exact E |].
  set (t := mk_Tag _ _ _). set (tl := zip_with (written_tag crc16) (arguments s) bss).
  assert (Hblock : forall rest, words_of_bytes ((tag_bytes crc16 (fourcc "XArg") (xarg_data s L)
             ++ tags_bytes crc16 (arguments s) bss) ++ rest) = block (t :: tl) ++ words_of_bytes rest).
  { intros rest. rewrite <- app_assoc, tag_bytes_words by done. rewrite Hx.
    rewrite (tags_bytes_words _ _ _ _ _ _ Hcrc Hp). by rewrite block_cons, app_assoc. }
  assert (Hbl : len (block (t :: tl)) = L / 4).
  { specialize (Hblock []). rewrite app_nil_r in Hblock. cbn [words_of_bytes] in Hblock. rewrite app_nil_r in Hblock.
    rewrite <- Hblock, words_of_bytes_len, Hlen; [done |]. rewrite Hlen, HL.
    by rewrite Z.add_mod, (tags_size_words _ _ Hl) by lia. }
  split; [apply Hblock |]. split; [| done]. split.
  - constructor; [split; [apply Hcrc | done] | by eapply written_tags_ok].
  - exists (t_crc t), (tail (xarg_words s)), tl. rewrite Hbl. done.
  - rewrite Hbl. pose proof (Z.mul_div_le L 4). lia.
Qed.

(** The arguments that the readers return for an image. *)
Definition expected (s : XousArguments) (bss : list (list Z)) : list KernelArgument :=
  mk_KernelArgument (fourcc "XArg") 20 (xarg_words s)
  :: zip_with (fun x bs => mk_KernelArgument (code x) (arg_len x) (words_of_bytes bs)) (arguments s) bss.

Definition forget (a : LoaderArgument) : KernelArgument := mk_KernelArgument (la_name a) (la_size a) (la_data a).

Lemma map_forget_located i l : map forget (located i l) = map argument_of l.
Proof. revert i. induction l as [| t l IH]; intros i; [done |]. cbn. by rewrite IH. Qed.

Lemma expected_tags crc16 running s l' bss :
  placed running (arguments s) l' bss ->
  map argument_of (mk_Tag (fourcc "XArg") (crc16 (xarg_data s (XousArguments_len s))) (xarg_words s)
                   :: zip_with (written_tag crc16) (arguments s) bss) = expected s bss.
Proof.
  intros Hp. unfold expected. cbn [map]. f_equal.
  induction Hp as [| running x l x' l' bs bss off Ha Ho Hf Hlt Hm Hc Hp IH]; [done |].
  cbn [zip_with map]. f_equal; [| done]. unfold argument_of, written_tag. cbn [t_name t_data].
  pose proof (fin_size _ _ _ _ Hf) as Hs. rewrite words_of_bytes_len by (by rewrite Hs).
  f_equal. rewrite Hs. pose proof (Z.div_mod (arg_len x) 4). lia.
Qed.

(** C21. What the image tool writes is what the loader and the kernel read: both
    readers return the description of the main memory and then exactly the written
    arguments, in order, with their names, sizes and data, and end there; they read
    nothing outside the image.  The checksum is any function to 16 bits. *)
Theorem boot_arguments_roundtrip crc16 h s ps :
  crc_ok crc16 -> ram_ok s -> image_ok h s ps ->
  exists s' image bss,
    XousArguments_write crc16 h s = Some (s', image) /\
    map serialize (arguments s') = map (fun bs => Some (bs, len bs)) bss /\
    KernelArguments_iter (words_of_bytes image) = Some (expected s bss) /\
    (map forget <$> loader_iter (words_of_bytes image)) = Some (expected s bss).
Proof.
  intros Hcrc Hram Hs. destruct (written_block crc16 h s ps Hcrc Hram Hs) as (l' & bss & rest & image & E & Ew & Hb & Hp).
  eexists _, image, bss. split; [exact E |]. rewrite Ew, KernelArguments_iter_block, loader_iter_block by done.
  split; [| split].
  - cbn [arguments]. clear -Hp. induction Hp as [| running x l x' l' bs bss off Ha Ho Hf Hlt Hm Hc Hp IH]; [done |].
    cbn. by rewrite (fin_serialize _ _ _ _ Hf), IH.
  - f_equal. by eapply expected_tags.
  - cbn [fmap option_fmap option_map]. rewrite map_forget_located. f_equal. by eapply expected_tags.
Qed.

Lemma boot_arguments_roundtrip_witness :
  exists s' image bss,
    XousArguments_write (fun l => len l mod 65536) 0 example_arguments = Some (s', image) /\
    map serialize (arguments s') = map (fun bs => Some (bs, len bs)) bss /\
    KernelArguments_iter (words_of_bytes image) = Some (expected example_arguments bss) /\
    (map forget <$> loader_iter (words_of_bytes image)) = Some (expected example_arguments bss).
Proof.
  eapply boot_arguments_roundtrip.
  - intros l. by apply Z.mod_pos_bound.
  - done.
  - apply example_image_ok.
Defined.

(** ** Merging *)

Section Merging.
Context (tag_filter : list Z).

Definition wanted_tag (t : Tag) : bool := existsb (fun n => n =? t_name t) tag_filter.
Definition chosen (l : list Tag) : list Tag := List.filter wanted_tag l.

Lemma write_words_app a b b' c :
  len b = len b' -> write_words (a ++ b ++ c) (len a) b' = Some (a ++ b' ++ c).
Proof.
  intros Hb. unfold write_words. pose proof (len_nonneg a). rewrite !len_app.
  pose proof (len_nonneg c). rewrite (proj2 (Z.leb_le 0 (len a))), (proj2 (Z.leb_le _ _)) by lia.
  cbn [andb]. unfold len in *. rewrite Nat2Z.id, take_app_length. do 3 f_equal.
  rewrite drop_app_ge by lia. replace (length a + length b' - length a)%nat with (length b) by lia.
  by rewrite drop_app_length.
Qed.

(** The bytes of the wanted tags. *)
Lemma incoming_size_located i l n :
  0 <= n -> n + 4 * len (block (chosen l)) < 4294967296 ->
  fold_left (fun n arg => if wanted tag_filter arg then add32 n (la_size arg + 8) else n) (located i l) n
  = n + 4 * len (block (chosen l)).
Proof.
  revert i n. induction l as [| t l IH]; intros i n Hn Hb; cbn [located fold_left chosen List.filter] in *.
  { cbn in *. rewrite len_nil in *. lia. }
  change (wanted tag_filter (mk_LoaderArgument (t_name t) (len (t_data t) * 4) (t_data t) i)) with (wanted_tag t).
  destruct (wanted_tag t); [| by apply IH].
  rewrite block_cons, len_app, tag_words_len in *. pose proof (len_nonneg (t_data t)).
  pose proof (len_nonneg (block (chosen l))). unfold add32. cbn [la_size]. fold (chosen l) in *.
  rewrite u32_id by lia. rewrite IH; lia.
Qed.

Lemma incoming_total (ls : list (list Tag * list Z)) n :
  0 <= n -> n + 4 * len (block (concat (map (fun p => chosen (fst p)) ls))) < 4294967296 ->
  fold_left (fun n p => add32 n (incoming_size tag_filter (snd p)))
    (map (fun p => (block (fst p) ++ snd p, located 0 (fst p))) ls) n
  = n + 4 * len (block (concat (map (fun p => chosen (fst p)) ls))).
Proof.
  revert n. induction ls as [| [l r] ls IH]; intros n Hn Hb; cbn [map concat fold_left fst snd] in *.
  { cbn. rewrite len_nil. lia. }
  rewrite block_app, len_app in *. pose proof (len_nonneg (block (chosen l))).
  pose proof (len_nonneg (block (concat (map (fun p => chosen (fst p)) ls)))).
  unfold incoming_size at 2. rewrite incoming_size_located by lia. unfold add32 at 2. rewrite u32_id by lia.
  rewrite IH; lia.
Qed.

(** Appending the wanted tags of one list, behind the words [a]. *)
Lemma append_args_located l pre rest a b :
  len (block (chosen l)) <= len b ->
  append_args tag_filter (pre ++ block l ++ rest) (located (length pre) l) (a ++ b, len a)
  = Some (a ++ block (chosen l) ++ drop (length (block (chosen l))) b, len (a ++ block (chosen l))).
Proof.
  revert pre a b. induction l as [| t l IH]; intros pre a b Hb; cbn [located append_args chosen List.filter].
  { by rewrite app_nil_r, drop_0. }
  change (wanted tag_filter (mk_LoaderArgument (t_name t) (len (t_data t) * 4) (t_data t) (length pre))) with (wanted_tag t).
  cbn [chosen List.filter] in Hb. fold (chosen l) in *.
  assert (Hstep : forall st, append_args tag_filter (pre ++ block (t :: l) ++ rest)
                               (located (length pre + length (tag_words t)) l) st
                  = append_args tag_filter ((pre ++ tag_words t) ++ block l ++ rest)
                               (located (length (pre ++ tag_words t)) l) st).
  { intros st. by rewrite length_app, block_cons, <- !app_assoc. }
  destruct (wanted_tag t); [| rewrite Hstep; by apply IH].
  cbn [la_size la_this]. rewrite block_cons, len_app in Hb. pose proof (len_nonneg (block (chosen l))).
  pose proof (len_nonneg (t_data t)).
  replace (len (t_data t) * 4 + 8) with (len (tag_words t) * 4) by (rewrite tag_words_len; lia).
  rewrite Z_mod_mult, Z.div_mul by lia. cbn [Z.eqb negb].
  replace (Z.to_nat (len (tag_words t))) with (length (tag_words t)) by (symmetry; apply Nat2Z.id).
  rewrite block_cons, <- app_assoc, read_words_app. cbn [mbind option_bind].
  assert (Hsplit : a ++ b = a ++ take (length (tag_words t)) b ++ drop (length (tag_words t)) b)
    by (by rewrite take_drop).
  rewrite Hsplit, write_words_app
    by (unfold len in *; rewrite length_take; lia).
  cbn [mbind option_bind]. rewrite app_assoc.
  replace (len a + len (tag_words t)) with (len (a ++ tag_words t)) by (by rewrite len_app).
  rewrite <- length_app, (app_assoc a (tag_words t)), IH.
  - by rewrite !block_cons, drop_drop, length_app, <- !app_assoc.
  - unfold len in *. rewrite length_drop. lia.
Qed.

(** All lists, each with the words behind its block in memory. *)
Definition all_chosen (ls : list (list Tag * list Z)) : list Tag := concat (map (fun p => chosen (fst p)) ls).
Definition loaded (ls : list (list Tag * list Z)) : list (list Z * list LoaderArgument) :=
  map (fun p => (block (fst p) ++ snd p, located 0 (fst p))) ls.

Lemma append_lists_loaded ls a b :
  len (block (all_chosen ls)) <= len b ->
  append_lists tag_filter (loaded ls) (a ++ b, len a)
  = Some (a ++ block (all_chosen ls) ++ drop (length (block (all_chosen ls))) b, len (a ++ block (all_chosen ls))).
Proof.
  unfold loaded, all_chosen. revert a b. induction ls as [| [l r] ls IH]; intros a b Hb; cbn [map append_lists concat fst snd] in *.
  { by rewrite app_nil_r, drop_0. }
  rewrite block_app, len_app in Hb. pose proof (len_nonneg (block (concat (map (fun p => chosen (fst p)) ls)))).
  pose proof (append_args_located l [] r a b) as E. cbn [app length] in E. rewrite E by lia. cbn [mbind option_bind].
  rewrite app_assoc, IH by (unfold len in *; rewrite length_drop; lia).
  by rewrite block_app, drop_drop, length_app, <- !app_assoc.
Qed.

Lemma mapM_loaded ls :
  Forall (fun p => block_ok (fst p)) ls ->
  mapM (fun mem => args ← loader_iter mem; Some (mem, args)) (map (fun p => block (fst p) ++ snd p) ls)
  = Some (loaded ls).
Proof.
  induction 1 as [| [l r] ls Hl _ IH]; [done |]. cbn [map mapM fst snd]. cbn in Hl.
  rewrite loader_iter_block by done. cbn [mbind option_bind]. rewrite IH. done.
Qed.

(** The merged block: the tags of the base and the wanted ones of the others; the
    first tag has the new number of words. *)
Definition merged (crc : Z) (l : list Tag) (ls : list (list Tag * list Z)) : list Tag :=
  match l with
  | [] => []
  | t :: l' =>
      mk_Tag (t_name t) crc (len (block l) + len (block (all_chosen ls)) :: tail (t_data t))
      :: l' ++ all_chosen ls
  end.

Lemma merged_len crc l ls :
  block_ok l -> len (block (merged crc l ls)) = len (block l) + len (block (all_chosen ls)).
Proof.
  intros [_ (c & data & l' & E) _]. remember (len (block l)) as n eqn:En. rewrite E in *. cbn [merged].
  rewrite block_cons in *. rewrite block_app, !len_app, tag_words_len in *. cbn [t_data tail] in *.
  rewrite len_cons in *. lia.
Qed.

Lemma merged_ok crc l ls :
  0 <= crc < 65536 -> block_ok l -> Forall (fun p => block_ok (fst p)) ls ->
  4 * (len (block l) + len (block (all_chosen ls))) < 4294967296 -> block_ok (merged crc l ls).
Proof.
  intros Hc Hl Hls Hb. pose proof (merged_len crc l ls Hl) as Hlen.
  assert (Hch : Forall tag_ok (all_chosen ls)).
  { unfold all_chosen. clear -Hls. induction Hls as [| [l r] ls Hl _ IH]; [constructor |]. cbn.
    apply Forall_app. split; [| done]. apply List.Forall_forall. intros t Ht. apply filter_In in Ht as [Ht _].
    by apply (proj1 (List.Forall_forall _ _) (bl_tags _ Hl)). }
  destruct Hl as [Ht (c & data & l' & E) Hs]. split.
  - rewrite E in *. cbn [merged]. apply Forall_cons_1 in Ht as [Ht Ht']. constructor; [| by apply Forall_app].
    destruct Ht as [_ Ht]. split; [done |]. cbn [t_data tail] in *. rewrite len_cons in *. done.
  - rewrite Hlen. destruct l as [| t l'']; [done |]. injection E as Et _. cbn [merged].
    assert (En : t_name t = fourcc "XArg") by (by rewrite Et). rewrite En. by eexists _, _, _.
  - by rewrite Hlen.
Qed.
End Merging.

(** The region with a block at the words behind [a]: the new number of words and
    the new checksum are written into its first tag. *)
Lemma fix_first_tag a t n crc data rest :
  t_data t = n :: data -> forall n',
  write_words (a ++ tag_words t ++ rest) (len a + 2) [n']
  = Some (a ++ tag_words (mk_Tag (t_name t) (t_crc t) (n' :: data)) ++ rest) /\
  write_words (a ++ tag_words (mk_Tag (t_name t) (t_crc t) (n' :: data)) ++ rest) (len a + 1)
    [crc + 65536 * len (t_data t)]
  = Some (a ++ tag_words (mk_Tag (t_name t) crc (n' :: data)) ++ rest).
Proof.
  intros Ed n'. unfold tag_words. cbn [t_name t_crc t_data]. rewrite Ed, !len_cons. cbn [app].
  set (w := 65536 * (1 + len data)). split.
  - pose proof (write_words_app (a ++ [t_name t; t_crc t + w]) [n] [n'] (data ++ rest) eq_refl) as E.
    rewrite len_app in E. change (len [t_name t; t_crc t + w]) with 2 in E.
    by rewrite <- !app_assoc in E.
  - pose proof (write_words_app (a ++ [t_name t]) [t_crc t + w] [crc + w] (n' :: data ++ rest) eq_refl) as E.
    rewrite len_app in E. change (len [t_name t]) with 1 in E.
    by rewrite <- !app_assoc in E.
Qed.

Lemma land_16 x : Z.land x (Z.lnot (TARGET_ALIGNMENT - 1)) = x - x mod 16.
Proof.
  change (TARGET_ALIGNMENT - 1) with (Z.ones 4). rewrite <- Z.ldiff_land, Z.ldiff_ones_r by lia.
  rewrite Z.shiftr_div_pow2, Z.shiftl_mul_pow2 by lia. change (2 ^ 4) with 16.
  pose proof (Z.div_mod x 16). lia.
Qed.

(** The words that the merged block and its alignment take in the region. *)
Definition merge_size (tag_filter : list Z) (l : list Tag) (ls : list (list Tag * list Z)) : Z :=
  len (block l) + len (block (all_chosen tag_filter ls)).
Definition merge_overhead (n dest_addr : Z) (dest : list Z) : Z := (dest_addr + len dest * 4 - n * 4) mod 16.


Lemma overhead_words n dest_addr dest :
  dest_addr mod 4 = 0 -> merge_overhead n dest_addr dest = 4 * (merge_overhead n dest_addr dest / 4).
Proof.
  intros Ha. unfold merge_overhead.
  assert (E : (dest_addr + len dest * 4 - n * 4) mod 16 mod 4 = 0).
  { rewrite Z.mod_mod_divide by (by exists 4).
    replace (dest_addr + len dest * 4 - n * 4) with (dest_addr + (len dest - n) * 4) by lia. by rewrite Z_mod_plus_full. }
  pose proof (Z.div_mod ((dest_addr + len dest * 4 - n * 4) mod 16) 4). lia.
Qed.

(** The sizes that [merge_args] computes. *)
Lemma merge_sizes tag_filter l ls :
  4 * merge_size tag_filter l ls < 4294967296 ->
  add32 (4 * len (block l)) (fold_left (fun n p => add32 n (incoming_size tag_filter (snd p))) (loaded ls) 0)
  = merge_size tag_filter l ls * 4.
Proof.
  intros Hn. unfold merge_size in *. pose proof (len_nonneg (block l)).
  pose proof (len_nonneg (block (all_chosen tag_filter ls))).
  unfold loaded. rewrite incoming_total; fold (all_chosen tag_filter ls); [| lia..].
  unfold add32. rewrite u32_id; lia.
Qed.

(** The copies into the words [b] and [c] of the region, behind the words [a]. *)
Lemma merge_args_at crc16 tag_filter t tl r ls dest_addr a b c rest data :
  let l := t :: tl in
  let n := merge_size tag_filter l ls in
  let dest := a ++ b ++ c ++ rest in
  let xdata := take (Z.to_nat (len (t_data t))) (drop 8 (bytes_of_words (block l ++ r))) in
  block_ok l -> Forall (fun p => block_ok (fst p)) ls -> t_data t = len (block l) :: data ->
  4 * n < 4294967296 -> dest_addr mod 4 = 0 ->
  len b = len (block l) -> len c = len (block (all_chosen tag_filter ls)) ->
  4 * len rest = merge_overhead n dest_addr dest ->
  merge_args crc16 (block l ++ r) (map (fun p => block (fst p) ++ snd p) ls) tag_filter dest_addr dest
  = Some (Some (a ++ tag_words (mk_Tag (t_name t) (crc16 xdata) (n :: data))
                  ++ block tl ++ block (all_chosen tag_filter ls) ++ rest,
                len a, 4 * n + merge_overhead n dest_addr dest)).
Proof.
  intros l n dest xdata Hl Hls Ed Hn Ha Hb Hc Hr. set (over := merge_overhead n dest_addr dest) in *.
  assert (Hdest : len dest = len a + n + len rest) by (unfold dest, n, merge_size; rewrite !len_app; lia).
  assert (Ht : tag_ok t) by (pose proof (bl_tags l Hl) as Hok; by apply Forall_cons_1 in Hok as [? _]).
  pose proof (len_nonneg a). pose proof (len_nonneg rest).
  unfold merge_args. cbv zeta. rewrite mapM_loaded by done. cbn [mbind option_bind].
  rewrite loader_size_block by done. cbn [mbind option_bind]. rewrite merge_sizes by done. fold n.
  destruct (Z.ltb_spec (len dest * 4) (n * 4)); [lia |]. rewrite Z_mod_mult, Z.div_mul by lia.
  cbn [Z.eqb negb]. rewrite land_16. change TARGET_ALIGNMENT with 16. fold (merge_overhead n dest_addr dest). fold over.
  replace (dest_addr + len dest * 4 - n * 4 - over - dest_addr) with (len a * 4) by lia. rewrite Z.div_mul by lia.
  replace (4 * len (block l) / 4) with (len (block l)) by (by rewrite Z.mul_comm, Z.div_mul).
  pose proof (read_words_app [] (block l) r) as Er. cbn [app length] in Er.
  replace (Z.to_nat (len (block l))) with (length (block l)) by (unfold len; lia). rewrite Er. cbn [mbind option_bind].
  unfold dest at 1. rewrite write_words_app by done. cbn [mbind option_bind].
  rewrite <- len_app, (app_assoc a (block l)), append_lists_loaded by (rewrite len_app; pose proof (len_nonneg rest); lia).
  replace (drop (length (block (all_chosen tag_filter ls))) (c ++ rest)) with rest
    by (unfold len in Hc; apply Nat2Z.inj in Hc; by rewrite <- Hc, drop_app_length).
  cbn [mbind option_bind]. rewrite !len_app.
  replace ((len a + len (block l) + len (block (all_chosen tag_filter ls)) - len a) * 4) with (n * 4)
    by (unfold n, merge_size; lia).
  rewrite Z.ltb_irrefl, Z.div_mul by lia. set (R := block tl ++ block (all_chosen tag_filter ls) ++ rest).
  replace ((a ++ block l) ++ block (all_chosen tag_filter ls) ++ rest) with (a ++ tag_words t ++ R)
    by (unfold l, R; by rewrite block_cons, <- !app_assoc).
  destruct (read_tag a t R Ht) as (_ & Ew1 & _).
  replace (Z.to_nat (len a + 1)) with (length a + 1)%nat by (unfold len; lia). rewrite Ew1. cbn [mbind option_bind].
  rewrite tag_size_word by done. fold xdata.
  destruct (fix_first_tag a t (len (block l)) (crc16 xdata) data R Ed n) as [F1 F2].
  rewrite F1. cbn [mbind option_bind]. rewrite F2. cbn [mbind option_bind]. do 3 f_equal. lia.
Qed.

Lemma split_words (dest : list Z) x y : 0 <= x -> 0 <= y -> len dest = x + y ->
  exists a b, dest = a ++ b /\ len a = x /\ len b = y.
Proof.
  intros Hx Hy E. exists (take (Z.to_nat x) dest), (drop (Z.to_nat x) dest).
  unfold len in *. rewrite take_drop, length_take, length_drop. split_and!; [done | lia | lia].
Qed.

(** C22. Merging boot arguments: when the destination has room for the tags and their
    alignment, the loader's [merge_args] puts, at the end of the destination and
    aligned to 16 bytes, a block in which the kernel reads exactly the arguments of
    the base (the first with the new total size) followed by the arguments of the
    other lists that the filter wants, in order; the words before it are untouched.
    When the destination is smaller than the tags without their alignment, nothing is
    merged.  Between these two sizes nothing is said. *)
Theorem merge_args_spec crc16 tag_filter l r ls dest_addr dest :
  crc_ok crc16 -> block_ok l -> Forall (fun p => block_ok (fst p)) ls ->
  let n := merge_size tag_filter l ls in
  let over := merge_overhead n dest_addr dest in
  let result := merge_args crc16 (block l ++ r) (map (fun p => block (fst p) ++ snd p) ls) tag_filter dest_addr dest in
  4 * n < 4294967296 -> dest_addr mod 4 = 0 ->
  (len dest < n -> result = Some None) /\
  (4 * n + over <= 4 * len dest ->
   exists crc region start,
     result = Some (Some (region, start, 4 * n + over)) /\
     (dest_addr + 4 * start) mod 16 = 0 /\ 4 * start + (4 * n + over) = 4 * len dest /\
     len region = len dest /\ take (Z.to_nat start) region = take (Z.to_nat start) dest /\
     KernelArguments_iter (drop (Z.to_nat start) region)
     = Some (map argument_of (merged tag_filter crc l ls))).
Proof.
  intros Hcrc Hl Hls n over result Hn Ha. pose proof (overhead_words n dest_addr dest Ha) as Ho. fold over in Ho.
  pose proof (Z.mod_pos_bound (dest_addr + len dest * 4 - n * 4) 16 ltac:(lia)) as Hob.
  fold (merge_overhead n dest_addr dest) in Hob. fold over in Hob.
  pose proof (len_nonneg (block l)). pose proof (len_nonneg (block (all_chosen tag_filter ls))). split.
  { intros Hd. unfold result, merge_args. cbv zeta. rewrite mapM_loaded by done. cbn [mbind option_bind].
    rewrite loader_size_block by done. cbn [mbind option_bind]. rewrite merge_sizes by done. fold n.
    destruct (Z.ltb_spec (len dest * 4) (n * 4)); [done | lia]. }
  intros Hfit. assert (En : n = len (block l) + len (block (all_chosen tag_filter ls))) by done.
  destruct (split_words dest (len dest - n - over / 4) (n + over / 4)) as (a & d & -> & Hla & Hld); [lia.. |].
  destruct (split_words d (len (block l)) (len (block (all_chosen tag_filter ls)) + over / 4))
    as (b & d' & -> & Hlb & Hld'); [lia.. |].
  destruct (split_words d' (len (block (all_chosen tag_filter ls))) (over / 4)) as (c & rest & -> & Hlc & Hlr); [lia.. |].
  destruct (bl_first l Hl) as (crc0 & data & tl & El).
  assert (Et : exists t, l = t :: tl /\ t_data t = len (block l) :: data) by (eexists; by split).
  destruct Et as (t & -> & Ed).
  pose proof (merge_args_at crc16 tag_filter t tl r ls dest_addr a b c rest data Hl Hls Ed Hn Ha Hlb Hlc) as E.
  fold n in E. fold over in E. specialize (E ltac:(lia)).
  set (crc := crc16 _) in E. exists crc. eexists _, (len a). split; [exact E |].
  pose proof (merged_ok tag_filter crc (t :: tl) ls (Hcrc _) Hl Hls Hn) as Hm.
  assert (Em : tag_words (mk_Tag (t_name t) crc (n :: data)) ++ block tl ++ block (all_chosen tag_filter ls) ++ rest
               = block (merged tag_filter crc (t :: tl) ls) ++ rest).
  { cbn [merged]. rewrite Ed, block_cons, block_app, <- !app_assoc. done. }
  rewrite Em. replace (Z.to_nat (len a)) with (length a) by (unfold len; lia).
  rewrite !take_app_length, drop_app_length, KernelArguments_iter_block by done.
  split_and!; try done.
  - unfold merge_overhead in over. set (x := dest_addr + len (a ++ b ++ c ++ rest) * 4 - n * 4) in over.
    replace (dest_addr + 4 * len a) with (x / 16 * 16); [apply Z_mod_mult |].
    assert (Ex : over = x mod 16) by done. assert (Ex' : x = dest_addr + len (a ++ b ++ c ++ rest) * 4 - n * 4) by done.
    pose proof (Z.div_mod x 16). lia.
  - lia.
  - rewrite !len_app, merged_len by done. rewrite !len_app in Hld, Hld'. lia.
Qed.

(** A base with one argument, and an image with a program in the swap. *)
Definition example_base : list Tag := [mk_Tag (fourcc "XArg") 7 [7; 1; 0; 0; 0]].
Definition example_swap_image : list Tag :=
  [mk_Tag (fourcc "XArg") 3 [12; 1; 0; 0; 0]; mk_Tag (fourcc "PNam") 1 []; mk_Tag (fourcc "IniS") 5 [4096]].

Lemma merge_args_spec_witness :
  exists crc region start,
    merge_args (fun l => len l mod 65536) (block example_base ++ [])
      (map (fun p => block (fst p) ++ snd p) [(example_swap_image, [])]) [fourcc "IniS"] 64 (replicate 16 0)
    = Some (Some (region, start, 4 * 10 + 8)) /\
    (64 + 4 * start) mod 16 = 0 /\ 4 * start + (4 * 10 + 8) = 4 * 16 /\
    len region = len (replicate 16 0) /\ take (Z.to_nat start) region = take (Z.to_nat start) (replicate 16 0) /\
    KernelArguments_iter (drop (Z.to_nat start) region)
    = Some (map argument_of (merged [fourcc "IniS"] crc example_base [(example_swap_image, [])])).
Proof.
  assert (Hb : block_ok example_base).
  { split; [by repeat constructor | by eexists _, _, _ | done]. }
  assert (Hi : Forall (fun p => block_ok (fst p)) [(example_swap_image, @nil Z)]).
  { constructor; [| constructor]. split; [by repeat constructor | by eexists _, _, _ | done]. }
  pose proof (merge_args_spec (fun l => len l mod 65536) [fourcc "IniS"] example_base [] [(example_swap_image, [])] 64
                (replicate 16 0)) as H.
  destruct H as [_ H]; [intros l; by apply Z.mod_pos_bound | done | done | done | done |]. apply H. done.
Defined.
