(* ===== verification/Boot.v ===== *)
(** * Starting the kernel

    Models the start of the kernel from the boot arguments: [init_from_memory] of
    src/kernel/src/mem.rs and of src/kernel/src/services.rs, [init] and the main
    loop of src/kernel/src/main.rs.  The argument block, the table of initial
    processes and the table of page owners that the loader leaves in memory are
    lists; a read outside of them is [RStuck].

    Not modelled: the devices that [init] starts after the tables. *)

From Stdlib Require Import ZArith Lia Bool String.
From stdpp Require Import base numbers list option gmap.
From S2P Require Import Prelude.
From S2P Require Import ImageWriter.
From S2P Require Import BootArgs.
From S2P Require Import Abi.
From S2P Require Import SysCallAbi.
From S2P Require Import Server.
From S2P Require Import Irq.
From S2P Require Import Machine.
From S2P Require Import Paging.
From S2P Require Import MemoryManager.
From S2P Require Import Memory.
From S2P Require Import ArchProcess.
From S2P Require Import Scheduler.

#[local] Open Scope Z_scope.
#[local] Open Scope kernel_scope.

(** A read of memory that the model knows. *)
Definition known {E S A} (o : option A) : S -> outcome E S A :=
  fun s => match o with Some a => ROk s a | None => RStuck end.

(** ** The memory manager *)

(** A slice of [MemoryRangeExtra]; the tag and the padding are not kept. *)
Fixpoint extra_regions (data : list Z) : list MemoryRangeExtra :=
  match data with
  | start :: size :: _ :: _ :: data => mk_MemoryRangeExtra start size :: extra_regions data
  | _ => []
  end.

(** A byte as an [Option<PID>]. *)
Definition owner_of_byte (b : Z) : option Z := if b =? 0 then None else Some b.

Definition owners (bytes : list Z) (n : Z) : option (list (option Z)) :=
  if Z.of_nat (length bytes) <? n then None else Some (map owner_of_byte (take (Z.to_nat n) bytes)).

#[local] Notation "'mop' A" := (Memory -> outcome Error Memory A) (at level 10, A at level 9).

Definition set_ram (start size : Z) (x : Memory) : Memory :=
  mk_Memory start size (last_ram_page x) (MEMORY_ALLOCATIONS x) (EXTRA_REGIONS x)
    (EXTRA_ALLOCATIONS x) (words x).
Definition set_extra_regions (l : list MemoryRangeExtra) (x : Memory) : Memory :=
  mk_Memory (ram_start x) (ram_size x) (last_ram_page x) (MEMORY_ALLOCATIONS x) l
    (EXTRA_ALLOCATIONS x) (words x).

(** The loop over the tags after the first. *)
Definition find_extra_regions (tags : list KernelArgument) : mop unit :=
  for_each tags (fun tag =>
    if ka_name tag =? fourcc "MREx" then
      l <- gets EXTRA_REGIONS;;
      assert_ (match l with [] => true | _ => false end) ;;;
      modify (set_extra_regions (extra_regions (ka_data tag)))
    else ret tt).

(** [MemoryManager::init_from_memory], for the bytes [rpt] at [rpt_base] and
    [xpt] at [xpt_base]. *)
Definition init_memory (rpt xpt : list Z) (args : list Z) : mop unit :=
  tags <- known (KernelArguments_iter args);;
  match tags with
  | [] => panic
  | xarg_def :: tags =>
      l <- gets EXTRA_REGIONS;;
      assert_ (match l with [] => true | _ => false end) ;;;
      assert_ (ka_name xarg_def =? fourcc "XArg") ;;;
      version <- unwrap (ka_data xarg_def !! 1%nat);;
      assert_ (version =? 1) ;;;
      start <- unwrap (ka_data xarg_def !! 2%nat);;
      size <- unwrap (ka_data xarg_def !! 3%nat);;
      unwrap (ka_data xarg_def !! 4%nat) ;;;
      modify (set_ram start size) ;;;
      find_extra_regions tags ;;;
      regions <- gets EXTRA_REGIONS;;
      let extra_size := fold_left (fun n r => add32 n (mem_size r / PAGE_SIZE)) regions 0 in
      allocations <- known (owners rpt (size / PAGE_SIZE));;
      modify (set_allocations allocations) ;;;
      extra <- known (owners xpt extra_size);;
      modify (set_extra extra)
  end.

(** [ram_used_by] *)
Definition ram_used_by (pid : Z) (x : Memory) : option Z :=
  let n := Z.to_nat (ram_size x / PAGE_SIZE) in
  if (length (MEMORY_ALLOCATIONS x) <? n)%nat then None
  else Some (fold_left (fun owned_bytes owner =>
               if decide (owner = Some pid) then add32 owned_bytes PAGE_SIZE else owned_bytes)
               (take n (MEMORY_ALLOCATIONS x)) 0).

(** ** The initial processes *)

Definition DEFAULT_STACK_SIZE : Z := 131072.
Definition MINIELF_FLG_EHF : Z := 8.

Record InitialProcess : Type := mk_InitialProcess {
  ip_satp : Z; ip_entrypoint : Z; ip_sp : Z; ip_env : Z
}.

Definition InitialProcess_pid (i : InitialProcess) : Z := u8 (Z.land (Z.shiftr (ip_satp i) 22) 511).

(** The first [n] initial processes in the words at the base. *)
Fixpoint initial_processes (n : nat) (base : list Z) : option (list InitialProcess) :=
  match n, base with
  | O, _ => Some []
  | S n, satp :: entrypoint :: sp :: env :: base =>
      l ← initial_processes n base; Some (mk_InitialProcess satp entrypoint sp env :: l)
  | _, _ => None
  end.

Definition is_init (arg : KernelArgument) : bool :=
  (ka_name arg =? fourcc "IniE") || (ka_name arg =? fourcc "IniF") || (ka_name arg =? fourcc "IniS").

(** The address of the last section marked as an exception frame. *)
Fixpoint find_eh_frame (eh_frame : Z) (data : list Z) : Z :=
  match data with
  | a :: w :: data =>
      let flags := u8 (Z.shiftr w 24) in
      find_eh_frame (if Z.land flags MINIELF_FLG_EHF =? 0 then eh_frame else a) data
  | _ => eh_frame
  end.

(** The tags from the first one of a process on. *)
Fixpoint skip_to_init (tags : list KernelArgument) : option (list KernelArgument) :=
  match tags with
  | [] => None
  | arg :: rest => if is_init arg then Some tags else skip_to_init rest
  end.

(** The process table before the start. *)
Definition boot_processes : list Process :=
  replicate MAX_PROCESS_COUNT (mk_Process 0 Free 1 1 INITIAL_TID INITIAL_TID None).

Definition ThreadInit_default : ThreadInit := mk_ThreadInit 1 (mk_MemoryRange 4 4) 0 0 0 0.

Section Start.
Context {M : Type} {HM : MemOps M}.

#[local] Notation "'kop' A" := (Kernel M -> outcome Error (Kernel M) A) (at level 10, A at level 9).

(** One turn of the loop over the initial processes; the result are the tags that
    are left. *)
Definition start_process (init : InitialProcess) (tags : list KernelArgument) : kop (list KernelArgument) :=
  let pid := InitialProcess_pid init in
  let proc_idx := Z.to_nat (u8 (pid - 1)) in
  l <- gets processes;;
  process <- unwrap (l !! proc_idx);;
  pid <- unwrap (PID_new pid);;
  let put (s : ProcessState) : kop unit :=
    modify (fun k => set_processes (<[proc_idx :=
      mk_Process (ip_satp init) s pid 1 (current_thread process) (previous_thread process)
        (exception_handler process)]> (processes k)) k) in
  if pid =? 1 then put (Running 0) ;;; ret tags
  else
    let eh_frame := match tags with arg :: _ => find_eh_frame 0 (ka_data arg) | [] => 0 end in
    stack <- unwrap (match MemoryRange_new (sub32 (ip_sp init) DEFAULT_STACK_SIZE) DEFAULT_STACK_SIZE with
                     | Ok r => Some r
                     | Err _ => None
                     end);;
    put (Setup (mk_ThreadInit (ip_entrypoint init) stack eh_frame (ip_env init) 0 0)) ;;;
    ret (tail tags).

Fixpoint start_processes (inits : list InitialProcess) (tags : list KernelArgument) : kop unit :=
  match inits with
  | [] => ret tt
  | init :: inits => tags <- start_process init tags;; start_processes inits tags
  end.

(** [SystemServices::init_from_memory], for the words at [base]. *)
Definition init_services (base args : list Z) : kop unit :=
  tags <- known (KernelArguments_iter args);;
  let init_count := S (length (List.filter is_init tags)) in
  inits <- known (initial_processes init_count base);;
  tags <- unwrap (skip_to_init tags);;
  start_processes inits tags ;;;
  unwrap_result (arch (Process_setup_process 1 ThreadInit_default)).
End Start.

(** [init], up to the start of the devices. *)
Definition kernel_init (base rpt xpt args : list Z) (k : Kernel Memory) : outcome Error (Kernel Memory) unit :=
  (arch (with_memory (unwrap_result (init_memory rpt xpt args))) ;;; init_services base args) k.

(** ** The main loop *)

(** [next_pid_to_run]; [None] is the panic for an index outside of the table. *)
Definition next_pid_to_run (last_pid : option Z) (l : list Process) : option (option Z) :=
  let next_pid := match last_pid with Some v => Z.to_nat v | None => 1%nat end in
  if (length l <? next_pid)%nat then None
  else Some (proc_pid <$> List.find Process_runnable (drop next_pid l ++ take next_pid l)).

(** One turn of [kmain] when the processes are [l]: the new value of [pid], and the
    system call that is made or the idle state. *)
Inductive KmainAction : Type :=
| Kmain_call (call : SysCall)
| Kmain_idle.

Definition kmain_turn (pid : option Z) (l : list Process) : option (option Z * KmainAction) :=
  pid ← next_pid_to_run pid l;
  Some (pid, match pid with Some pid => Kmain_call (Sys_SwitchTo pid 0) | None => Kmain_idle end).
