(* ===== verification/BootFacts.v ===== *)
(** * The start of the kernel and its main loop

    The start leaves the process table in a state that satisfies the invariant of
    SchedulerInv.v, with the initial processes ready to be set up, and the main loop
    gives every process that can run its turn. *)

From Stdlib Require Import ZArith Lia Bool String.
From stdpp Require Import base numbers list option gmap.
From S2P Require Import Prelude.
From S2P Require Import ImageWriter.
From S2P Require Import ImageFacts.
From S2P Require Import BootArgs.
From S2P Require Import BootArgsFacts.
From S2P Require Import Abi.
From S2P Require Import SysCallAbi.
From S2P Require Import Server.
From S2P Require Import Irq.
From S2P Require Import Machine.
From S2P Require Import Paging.
From S2P Require Import MemoryManager.
From S2P Require Import MemoryFacts.
From S2P Require Import Memory.
From S2P Require Import ArchProcess.
From S2P Require Import Scheduler.
From S2P Require Import SchedulerFacts.
From S2P Require Import SchedulerInv.
From S2P Require Import Boot.

#[local] Open Scope Z_scope.
#[local] Open Scope kernel_scope.

(** ** The main loop *)

(** The first element that is found. *)
Lemma find_first {A} (f : A -> bool) l i y :
  l !! i = Some y -> f y = true ->
  exists q x, (q <= i)%nat /\ l !! q = Some x /\ f x = true /\ List.find f l = Some x.
Proof.
  revert i. induction l as [| a l IH]; intros i Hi Hy; [done |]. cbn.
  destruct (f a) eqn:Ha; [exists 0%nat, a; split_and!; done || lia |].
  destruct i as [| i]; [cbn in Hi; congruence |].
  destruct (IH i Hi Hy) as (q & x & Hq & Hx & Hfx & E). exists (S q), x. split_and!; done || lia.
Qed.

(** The list from the index [n] on, and then from its start. *)
Lemma rotated_lookup {A} (l : list A) n q :
  (n <= length l)%nat -> (q < length l)%nat ->
  (drop n l ++ take n l) !! q = l !! (if (n + q <? length l)%nat then (n + q)%nat else (n + q - length l)%nat).
Proof.
  intros Hn Hq. destruct (Nat.ltb_spec (n + q) (length l)).
  - rewrite lookup_app_l by (rewrite length_drop; lia). apply lookup_drop.
  - rewrite lookup_app_r by (rewrite length_drop; lia). rewrite length_drop, lookup_take_lt by lia. f_equal. lia.
Qed.

(** A process table as the main loop sees it. *)
Definition inits_ok (N : nat) (l : list Process) : Prop :=
  length l = N /\ forall i p, l !! i = Some p -> Process_runnable p = true -> proc_pid p = Z.of_nat i + 1.

Definition can_run (j : nat) (l : list Process) : Prop :=
  exists p, l !! j = Some p /\ Process_runnable p = true.

(** The place of the process at the index [j] in the order of the search. *)
Definition distance (N n j : nat) : nat := if (n <=? j)%nat then (j - n)%nat else (j + N - n)%nat.

(** One choice: a process that can run, and one that is not after [j] in the
    order of the search. *)
Lemma next_pid_step N last j l :
  let n := match last with Some v => Z.to_nat v | None => 1%nat end in
  inits_ok N l -> can_run j l -> (n <= N)%nat ->
  exists i, next_pid_to_run last l = Some (Some (Z.of_nat i + 1)) /\ can_run i l /\
            (i = j \/ (distance N (i + 1) j < distance N n j)%nat).
Proof.
  intros n [Hlen Hid] (p & Hp & Hr) Hn. pose proof (lookup_lt_Some _ _ _ Hp) as Hj.
  unfold next_pid_to_run. fold n. rewrite (proj2 (Nat.ltb_ge _ _)) by lia.
  assert (Hd : (drop n l ++ take n l) !! distance N n j = Some p).
  { unfold distance. destruct (Nat.leb_spec n j); rewrite rotated_lookup by lia; rewrite <- Hp; f_equal;
      case_match eqn:E; (apply Nat.ltb_lt in E || apply Nat.ltb_ge in E); lia. }
  destruct (find_first _ _ _ _ Hd Hr) as (q & x & Hq & Hx & Hrx & E). rewrite E. cbn.
  assert (HqN : (q < length l)%nat).
  { apply lookup_lt_Some in Hx. by rewrite length_app, length_drop, length_take, Nat.min_l, Nat.sub_add in Hx by lia. }
  rewrite rotated_lookup in Hx by lia.
  set (i := if (n + q <? length l)%nat then (n + q)%nat else (n + q - length l)%nat) in *.
  exists i. rewrite (Hid _ _ Hx Hrx). split; [done |]. split; [by exists x |].
  unfold distance in *. unfold i in *. clear -Hq HqN Hn Hj Hlen.
  destruct (Nat.ltb_spec (n + q) (length l)); destruct (Nat.leb_spec n j);
    destruct (Nat.leb_spec (n + q + 1) j); try destruct (Nat.leb_spec (n + q - length l + 1) j); lia.
Qed.

(** The turns of the main loop, for the process tables it finds. *)
Fixpoint kmain_turns (pid : option Z) (tables : list (list Process)) : option (list KmainAction) :=
  match tables with
  | [] => Some []
  | l :: tables =>
      r ← kmain_turn pid l;
      let '(pid, action) := r in
      actions ← kmain_turns pid tables;
      Some (action :: actions)
  end.

(** The state of the main loop: the last process, or none at the start. *)
Definition last_ok (N : nat) (last : option Z) : Prop :=
  match last with Some v => 1 <= v <= Z.of_nat N | None => (1 <= N)%nat end.

Definition switches (l : list Process) (a : KmainAction) : Prop :=
  exists i, can_run i l /\ a = Kmain_call (Sys_SwitchTo (Z.of_nat i + 1) 0).

Lemma kmain_turns_ok N j last tables :
  last_ok N last -> Forall (fun l => inits_ok N l /\ can_run j l) tables ->
  exists actions,
    kmain_turns last tables = Some actions /\ Forall2 switches tables actions /\
    ((distance N (match last with Some v => Z.to_nat v | None => 1%nat end) j < length tables)%nat ->
     Kmain_call (Sys_SwitchTo (Z.of_nat j + 1) 0) ∈ actions).
Proof.
  intros Hlast Ht. revert last Hlast.
  induction Ht as [| l tables [Hl Hj] Ht IH]; intros last Hlast.
  { exists []. split_and!; [done | constructor | cbn; lia]. }
  destruct (next_pid_step N last j l Hl Hj) as (i & E & Hi & Hd).
  { unfold last_ok in Hlast. destruct last; lia. }
  assert (HiN : (i < N)%nat) by (destruct Hi as (p & Hp & _); apply lookup_lt_Some in Hp; destruct Hl; lia).
  destruct (IH (Some (Z.of_nat i + 1))) as (actions & E' & Hf & Hin); [unfold last_ok; lia |].
  exists (Kmain_call (Sys_SwitchTo (Z.of_nat i + 1) 0) :: actions).
  cbn [kmain_turns]. unfold kmain_turn. rewrite E. cbn. rewrite E'. cbn.
  split_and!; [done | constructor; [by exists i | done] |].
  intros Hlt. destruct Hd as [-> | Hd]; [by left | right]. apply Hin.
  replace (Z.to_nat (Z.of_nat i + 1)) with (i + 1)%nat by lia. lia.
Qed.

(** C23. Every process that can run gets its turn: if a process can run in each of
    the process tables that the main loop finds in as many turns as there are
    processes, then the loop switches to it in one of them.  No turn panics or goes
    idle, and every turn switches to a process that can run. *)
Theorem kmain_fair (N j : nat) (last : option Z) (tables : list (list Process)) :
  last_ok N last ->
  Forall (fun l => inits_ok N l /\ can_run j l) tables -> (N <= length tables)%nat ->
  exists actions,
    kmain_turns last tables = Some actions /\
    Kmain_call (Sys_SwitchTo (Z.of_nat j + 1) 0) ∈ actions /\
    Forall2 switches tables actions.
Proof.
  intros Hlast Ht Hlen. destruct (kmain_turns_ok N j last tables Hlast Ht) as (actions & E & Hf & Hin).
  exists actions. split_and!; [done | | done]. apply Hin.
  destruct tables as [| l tables]; [cbn in Hlen; unfold last_ok in Hlast; destruct last; lia |].
  apply Forall_cons_1 in Ht as [[[Hl _] (p & Hp & _)] _]. apply lookup_lt_Some in Hp.
  unfold distance. unfold last_ok in Hlast. destruct last as [v |].
  - destruct (Nat.leb_spec (Z.to_nat v) j); lia.
  - destruct (Nat.leb_spec 1 j); lia.
Qed.

Lemma kmain_fair_witness :
  exists actions,
    kmain_turns (Some 3) (replicate 64 (processes example_kernel)) = Some actions /\
    Kmain_call (Sys_SwitchTo 2 0) ∈ actions /\
    Forall2 switches (replicate 64 (processes example_kernel)) actions.
Proof.
  apply (kmain_fair 64 1 (Some 3) (replicate 64 (processes example_kernel))).
  - by split.
  - apply Forall_replicate. split; [split; [done |] | by exists (example_process 2 2 (Ready 4))].
    intros i p Hp Hr.
    assert (Hk : sched_ok example_kernel) by (apply sched_okb_spec; vm_compute; reflexivity).
    apply (procs_wf _ _ Hk i p Hp). unfold Process_free, Process_runnable in *. by destruct (pstate p).
  - rewrite length_replicate. done.
Defined.

(** ** The memory manager *)

Definition is_mrex (a : KernelArgument) : bool := ka_name a =? fourcc "MREx".

(** The regions that the tags describe: at most one tag does. *)
Definition regions_of (tags : list KernelArgument) (regions : list MemoryRangeExtra) : Prop :=
  (List.filter is_mrex tags = [] /\ regions = []) \/
  exists t, List.filter is_mrex tags = [t] /\ regions = extra_regions (ka_data t).

Lemma find_extra_none tags x :
  List.filter is_mrex tags = [] -> find_extra_regions tags x = ROk x tt.
Proof.
  unfold find_extra_regions. induction tags as [| t tags IH]; [done |]. cbn [List.filter for_each].
  unfold is_mrex at 1. destruct (ka_name t =? fourcc "MREx") eqn:E; [done |]. cbn -[fourcc]. exact IH.
Qed.

Lemma find_extra_ok tags regions x :
  regions_of tags regions -> EXTRA_REGIONS x = [] ->
  find_extra_regions tags x = ROk (set_extra_regions regions x) tt.
Proof.
  intros [[Hf ->] | (t & Hf & ->)] Hx.
  { rewrite find_extra_none by done. destruct x. cbn in Hx. by subst. }
  unfold find_extra_regions. induction tags as [| u tags IH]; [done |]. cbn [List.filter for_each] in *.
  unfold is_mrex at 1 in Hf. destruct (ka_name u =? fourcc "MREx") eqn:E.
  - injection Hf as -> Hf. unfold bind at 1 2, gets at 1. rewrite Hx. cbn -[fourcc for_each].
    by apply find_extra_none.
  - cbn -[fourcc for_each]. by apply IH.
Qed.

Definition pages_of (regions : list MemoryRangeExtra) : Z :=
  fold_left (fun n r => add32 n (mem_size r / PAGE_SIZE)) regions 0.

(** The memory manager after the start. *)
Definition booted_memory (rpt xpt : list Z) (start size : Z) (regions : list MemoryRangeExtra) (x : Memory)
    : Memory :=
  mk_Memory start size (last_ram_page x) (map owner_of_byte (take (Z.to_nat (size / PAGE_SIZE)) rpt))
    regions (map owner_of_byte (take (Z.to_nat (pages_of regions)) xpt)) (words x).

Lemma owners_ok bytes n : n <= Z.of_nat (length bytes) -> owners bytes n = Some (map owner_of_byte (take (Z.to_nat n) bytes)).
Proof. intros Hn. unfold owners. by rewrite (proj2 (Z.ltb_ge _ _)). Qed.

Lemma init_memory_ok rpt xpt args crc n start size name tl rest regions x :
  args = block (mk_Tag (fourcc "XArg") crc [n; 1; start; size; name] :: tl) ++ rest ->
  block_ok (mk_Tag (fourcc "XArg") crc [n; 1; start; size; name] :: tl) ->
  regions_of (map argument_of tl) regions -> EXTRA_REGIONS x = [] ->
  size / PAGE_SIZE <= Z.of_nat (length rpt) -> pages_of regions <= Z.of_nat (length xpt) ->
  init_memory rpt xpt args x = ROk (booted_memory rpt xpt start size regions x) tt.
Proof.
  intros -> Hb Hr Hx Hrpt Hxpt. unfold init_memory. unfold bind at 1. rewrite KernelArguments_iter_block by done.
  cbn -[fourcc find_extra_regions]. rewrite Hx. cbn -[fourcc find_extra_regions]. rewrite Z.eqb_refl.
  cbn -[fourcc find_extra_regions]. unfold bind at 1. rewrite find_extra_ok with (regions := regions) by done.
  cbn -[fourcc Z.div]. unfold bind at 1. rewrite owners_ok by done. cbn -[fourcc Z.div].
  fold (pages_of regions). unfold bind at 1. rewrite owners_ok by done. done.
Qed.

(** ** The initial processes *)

Section Start.
Context {M : Type} {HM : MemOps M}.

Implicit Types (k : Kernel M).

(** The slot of an initial process, given its tag. *)
Definition setup_of (init : InitialProcess) (tag : option KernelArgument) : ThreadInit :=
  mk_ThreadInit (ip_entrypoint init)
    (mk_MemoryRange (ip_sp init - DEFAULT_STACK_SIZE) DEFAULT_STACK_SIZE)
    (match tag with Some a => find_eh_frame 0 (ka_data a) | None => 0 end) (ip_env init) 0 0.

Definition booted (init : InitialProcess) (pid : Z) (s : ProcessState) : Process :=
  mk_Process (ip_satp init) s pid 1 INITIAL_TID INITIAL_TID None.

(** The initial processes from the index [i] on are numbered in order. *)
Definition numbered (i : nat) (inits : list InitialProcess) : Prop :=
  forall j init, inits !! j = Some init ->
    InitialProcess_pid init = Z.of_nat (i + j) + 1 /\ DEFAULT_STACK_SIZE < ip_sp init < 4294967296.

(** Slots that are as at the start. *)
Definition fresh_from (i : nat) (l : list Process) : Prop :=
  forall j p, (i <= j)%nat -> l !! j = Some p ->
    current_thread p = INITIAL_TID /\ previous_thread p = INITIAL_TID /\ exception_handler p = None.

Lemma start_process_ok init tags i k p :
  processes k !! i = Some p -> fresh_from i (processes k) -> (1 <= i < 255)%nat ->
  InitialProcess_pid init = Z.of_nat i + 1 -> DEFAULT_STACK_SIZE < ip_sp init < 4294967296 ->
  start_process init tags k
  = ROk (set_processes (<[i := booted init (Z.of_nat i + 1) (Setup (setup_of init (head tags)))]> (processes k)) k)
      (tail tags).
Proof.
  intros Hp Hf Hi Hpid Hsp. destruct (Hf i p ltac:(lia) Hp) as (E1 & E2 & E3).
  unfold start_process. rewrite Hpid. replace (Z.of_nat i + 1 - 1) with (Z.of_nat i) by lia.
  rewrite u8_id, Nat2Z.id by lia. unfold bind at 1, gets at 1. rewrite Hp. cbn [unwrap].
  unfold bind at 1. unfold unwrap at 1. unfold bind at 1.
  unfold PID_new. rewrite NonZero_new_Some by lia. cbn [unwrap].
  rewrite (proj2 (Z.eqb_neq _ _)) by lia. unfold MemoryRange_new, sub32.
  rewrite u32_id, NonZero_new_Some by (unfold DEFAULT_STACK_SIZE in *; lia).
  cbn -[DEFAULT_STACK_SIZE Z.sub]. rewrite E1, E2, E3. unfold booted, setup_of. by destruct tags.
Qed.

(** The process at the index [j] after the initial processes from the index [i] on
    have been entered. *)
Definition slot (i : nat) (inits : list InitialProcess) (tags : list KernelArgument) (l : list Process) (j : nat)
    : option Process :=
  if (j <? i)%nat then l !! j
  else match inits !! (j - i)%nat with
       | Some init => Some (booted init (Z.of_nat j + 1) (Setup (setup_of init (tags !! (j - i)%nat))))
       | None => l !! j
       end.

Lemma start_processes_ok inits i tags k :
  numbered i inits -> (1 <= i)%nat -> (i + length inits <= length (processes k) <= 255)%nat ->
  fresh_from i (processes k) ->
  exists l', start_processes inits tags k = ROk (set_processes l' k) tt /\
             length l' = length (processes k) /\ forall j, l' !! j = slot i inits tags (processes k) j.
Proof.
  revert i tags k. induction inits as [| init inits IH]; intros i tags k Hn Hi Hlen Hf.
  { exists (processes k). split_and!; [by destruct k | done |]. intros j. unfold slot. by destruct (j <? i)%nat. }
  cbn [length] in Hlen. destruct (lookup_lt_is_Some_2 (processes k) i ltac:(lia)) as [p Hp].
  destruct (Hn 0%nat init eq_refl) as [Hpid Hsp]. rewrite Nat.add_0_r in Hpid.
  pose proof (start_process_ok init tags i k p Hp Hf ltac:(lia) Hpid Hsp) as E.
  set (q := booted init _ _) in E. set (k1 := set_processes (<[i := q]> (processes k)) k) in E.
  destruct (IH (S i) (tail tags) k1) as (l' & E' & Hl' & Hs).
  - intros j x Hx. replace (S i + j)%nat with (i + S j)%nat by lia. by apply Hn.
  - lia.
  - cbn [processes k1 set_processes]. rewrite length_insert. lia.
  - intros j x Hj Hx. cbn [processes k1 set_processes] in Hx. rewrite list_lookup_insert_ne in Hx by lia.
    apply (Hf j); [lia | done].
  - exists l'. split_and!.
    + cbn [start_processes]. unfold bind. rewrite E, E'. done.
    + rewrite Hl'. cbn. apply length_insert.
    + intros j. rewrite Hs. unfold slot. cbn [processes k1 set_processes].
      destruct (Nat.ltb_spec j (S i)), (Nat.ltb_spec j i); try lia.
      * by rewrite list_lookup_insert_ne by lia.
      * replace j with i by lia. rewrite Nat.sub_diag, list_lookup_insert_eq by lia. cbn. unfold q. by destruct tags.
      * replace (j - i)%nat with (S (j - S i)) by lia. cbn [lookup list_lookup].
        replace (tail tags !! (j - S i)%nat) with (tags !! S (j - S i)) by (by destruct tags).
        destruct (inits !! (j - S i)%nat); [done |]. by rewrite list_lookup_insert_ne by lia.
Qed.

Lemma skip_to_init_app pre a tags :
  List.filter is_init pre = [] -> is_init a = true -> skip_to_init (pre ++ a :: tags) = Some (a :: tags).
Proof.
  intros Hp Ha. induction pre as [| b pre IH]; cbn; [by rewrite Ha |].
  cbn in Hp. destruct (is_init b); [done | by apply IH].
Qed.

(** The state of the machine in which the kernel starts: in the address space of
    process 1, with no process in the tables. *)
Record machine_ok (m : Machine M) : Prop := {
  mk_current : pt_current m = 1;
  mk_asid : satp_asid (satp m) = 1;
  mk_table : pt_table m !! 0%nat = Some false;
  mk_page : exists impl, impls m !! 1 = Some impl /\ impl_ok impl;
  mk_impls : impls_ok m
}.

(** What is assumed of the tags and of the table of initial processes. *)
Record processes_given (base : list Z) (l : list Tag) (kernel_init : InitialProcess)
    (inits : list InitialProcess) (inis : list KernelArgument) : Prop := {
  pg_tags : exists pre post, map argument_of l = pre ++ inis ++ post /\
    List.filter is_init pre = [] /\ List.filter is_init post = [] /\ Forall (fun a => is_init a = true) inis;
  pg_table : initial_processes (S (length inis)) base = Some (kernel_init :: inits);
  pg_kernel : InitialProcess_pid kernel_init = 1;
  pg_numbered : numbered 1 inits;
  pg_count : (1 <= length inits < MAX_PROCESS_COUNT)%nat
}.

Lemma initial_processes_length n base l : initial_processes n base = Some l -> length l = n.
Proof.
  revert base l. induction n as [| n IH]; intros base l E; cbn in E; [by simplify_eq |].
  destruct base as [| a [| b [| c [| d base]]]]; try done.
  destruct (initial_processes n base) eqn:E'; [| done]. cbn in E. simplify_eq. cbn. f_equal. by eapply IH.
Qed.

Lemma setup_process_ok k :
  machine_ok (machine k) ->
  exists m, arch (Process_setup_process 1 ThreadInit_default) k = ROk (set_machine m k) tt /\
            pt_current m = 1 /\ impls_ok m /\ memory m = memory (machine k).
Proof.
  intros [Hc Ha Ht (impl & Hi & [Hl Hlast]) Hok].
  unfold arch, zoom, Process_setup_process, arch_current_pid, get_impl, put_impl, hardware_pid, bind, unwrap. rewrite Ha.
  change (PID_new (u8 1)) with (Some 1). cbn -[set_register set_sepc]. change (Z.to_nat (1 - 1)) with 0%nat.
  rewrite Ht. cbn -[set_register set_sepc]. rewrite Ha, Hi. cbn -[set_register set_sepc].
  eexists. split; [reflexivity |]. split; [done |]. cbn -[set_register set_sepc].
  split; [| done]. unfold impls_ok. cbn -[set_register set_sepc]. apply map_Forall_insert_2; [| done].
  split; [| done]. cbn -[set_register set_sepc]. by rewrite length_insert, length_map.
Qed.

(** The process table after the start. *)
Definition booted_table (kernel_init : InitialProcess) (inits : list InitialProcess) (inis : list KernelArgument)
    (l : list Process) : Prop :=
  length l = MAX_PROCESS_COUNT /\
  l !! 0%nat = Some (booted kernel_init 1 (Running 0)) /\
  forall j, (1 <= j < MAX_PROCESS_COUNT)%nat ->
    l !! j = match inits !! (j - 1)%nat with
             | Some init => Some (booted init (Z.of_nat j + 1) (Setup (setup_of init (inis !! (j - 1)%nat))))
             | None => Some (mk_Process 0 Free 1 1 INITIAL_TID INITIAL_TID None)
             end.

Lemma init_services_ok base l rest kernel_init inits inis k :
  block_ok l -> processes_given base l kernel_init inits inis -> machine_ok (machine k) ->
  processes k = boot_processes ->
  exists m l', init_services base (block l ++ rest) k = ROk (set_machine m (set_processes l' k)) tt /\
               pt_current m = 1 /\ impls_ok m /\ memory m = memory (machine k) /\
               booted_table kernel_init inits inis l'.
Proof.
  intros Hb [(pre & post & Ht & Hpre & Hpost & Hinis) Htab Hk Hn Hcnt] Hm Hp.
  pose proof (initial_processes_length _ _ _ Htab) as Hlen. cbn in Hlen.
  unfold init_services. unfold bind at 1. rewrite KernelArguments_iter_block, Ht by done. cbn [known].
  assert (Hfilter : List.filter is_init (pre ++ inis ++ post) = inis).
  { rewrite !List.filter_app, Hpre, Hpost, app_nil_r. cbn. clear -Hinis. induction Hinis as [| a l Ha _ IH]; [done |].
    cbn. by rewrite Ha, IH. }
  rewrite Hfilter. unfold bind at 1. rewrite Htab. cbn [known].
  destruct inis as [| a inis]; [cbn in Hlen; lia |]. apply Forall_cons_1 in Hinis as [Ha Hinis].
  unfold bind at 1. change ((a :: inis) ++ post) with (a :: inis ++ post). rewrite skip_to_init_app by done. cbn [unwrap].
  unfold bind at 1. cbn [start_processes].
  set (k1 := set_processes (<[0%nat := booted kernel_init 1 (Running 0)]> boot_processes) k).
  assert (E1 : start_process kernel_init (a :: inis ++ post) k = ROk k1 (a :: inis ++ post)).
  { unfold start_process. rewrite Hk. unfold bind, gets, unwrap, modify. rewrite Hp. unfold k1.
    rewrite <- Hp. destruct k. cbn in Hp. by subst. }
  unfold bind at 1. rewrite E1.
  destruct (start_processes_ok inits 1 (a :: inis ++ post) k1) as (l' & E2 & Hl' & Hs); [done | done | | |].
  { cbn [processes k1 set_processes]. rewrite length_insert. unfold boot_processes, MAX_PROCESS_COUNT in *.
    rewrite length_replicate. lia. }
  { intros j x Hj Hx. cbn [processes k1 set_processes] in Hx. rewrite list_lookup_insert_ne in Hx by lia.
    apply lookup_replicate in Hx as [-> _]. done. }
  rewrite E2. destruct (setup_process_ok (set_processes l' k1) Hm) as (m & E3 & Hc & Hi & Hmem).
  unfold unwrap_result. rewrite E3. exists m, l'. split_and!; [by destruct k | done | done | done |].
  cbn [processes k1 set_processes] in Hl', Hs. rewrite length_insert in Hl'. unfold boot_processes in *.
  rewrite length_replicate in Hl'. split_and!; [done | by rewrite Hs |].
  intros j Hj. rewrite Hs. unfold slot. rewrite (proj2 (Nat.ltb_ge _ _)) by lia.
  destruct (inits !! (j - 1)%nat) eqn:Ej.
  - apply lookup_lt_Some in Ej. change (a :: inis ++ post) with ((a :: inis) ++ post).
    rewrite lookup_app_l; [done |]. cbn [length] in *. lia.
  - rewrite list_lookup_insert_ne by lia. apply lookup_replicate. split; [done | lia].
Qed.

(** The table after the start satisfies the invariant of the scheduler. *)
Lemma booted_table_ok kernel_init inits inis l :
  booted_table kernel_init inits inis l -> procs_ok (index_of 1) l.
Proof.
  intros (Hlen & H0 & Hs). split.
  - intros [| j] p Hp.
    + rewrite H0 in Hp. injection Hp as <-. split; [| done]. repeat split; done.
    + pose proof (lookup_lt_Some _ _ _ Hp). rewrite Hs in Hp by lia.
      destruct (inits !! (S j - 1)%nat); injection Hp as <-; (split; [repeat split; done |]); done.
  - intros [| j] p Hp Hr; [done |]. exfalso. pose proof (lookup_lt_Some _ _ _ Hp). rewrite Hs in Hp by lia.
    destruct (inits !! (S j - 1)%nat); injection Hp as <-; done.
Qed.
End Start.

(** ** The whole start *)

(** The state after the start. *)
Record started (rpt xpt : list Z) (start size : Z) (regions : list MemoryRangeExtra)
    (kernel_init : InitialProcess) (inits : list InitialProcess) (inis : list KernelArgument)
    (k k' : Kernel Memory) : Prop := {
  st_sched : sched_ok k';
  st_impls : impls_ok (machine k');
  st_memory : memory (machine k') = booted_memory rpt xpt start size regions (memory (machine k));
  st_table : booted_table kernel_init inits inis (processes k');
  st_servers : servers k' = servers k;
  st_first : kmain_turn None (processes k') = Some (Some 2, Kmain_call (Sys_SwitchTo 2 0))
}.

Lemma first_turn kernel_init inits inis l :
  booted_table kernel_init inits inis l -> (1 <= length inits)%nat ->
  kmain_turn None l = Some (Some 2, Kmain_call (Sys_SwitchTo 2 0)).
Proof.
  intros (Hlen & _ & Hs) Hi. unfold kmain_turn, next_pid_to_run. rewrite Hlen. change (MAX_PROCESS_COUNT <? 1)%nat with false.
  cbn iota. specialize (Hs 1%nat ltac:(unfold MAX_PROCESS_COUNT; lia)).
  destruct (lookup_lt_is_Some_2 inits 0 ltac:(lia)) as [init E]. cbn [Nat.sub] in Hs. rewrite E in Hs.
  destruct l as [| p0 [| p1 l]]; [done.. |]. injection Hs as ->. done.
Qed.

Lemma kernel_init_ok base rpt xpt crc n start size name tl rest regions kinit inits inis k :
  let l := mk_Tag (fourcc "XArg") crc [n; 1; start; size; name] :: tl in
  block_ok l -> regions_of (map argument_of tl) regions -> processes_given base l kinit inits inis ->
  machine_ok (machine k) -> processes k = boot_processes -> EXTRA_REGIONS (memory (machine k)) = [] ->
  size / PAGE_SIZE <= Z.of_nat (length rpt) -> pages_of regions <= Z.of_nat (length xpt) ->
  exists k', kernel_init base rpt xpt (block l ++ rest) k = ROk k' tt /\
             started rpt xpt start size regions kinit inits inis k k'.
Proof.
  intros l Hb Hr Hp Hm Hk Hx Hrpt Hxpt. unfold kernel_init. unfold bind at 1. unfold arch at 1, with_memory, zoom at 1 2.
  unfold unwrap_result at 1. erewrite init_memory_ok by (done || exact Hr).
  set (m1 := set_memory _ _).
  destruct (init_services_ok base l rest kinit inits inis (set_machine m1 k) Hb Hp) as (m & l' & E & Hc & Hi & Hmem & Ht).
  { destruct Hm as [? ? ? ? ?]. by split. }
  { done. }
  eexists. split; [exact E |]. split; try done.
  - unfold sched_ok. cbn. rewrite Hc. by eapply booted_table_ok.
  - eapply first_turn; [exact Ht |]. apply (pg_count _ _ _ _ _ Hp).
Qed.

(** ** From the image to the running kernel *)

(** The word of a section that holds its size and its flags. *)
Definition section_word (s : MiniElfSection) : Z := sec_size s mod 16777216 + 16777216 * sec_flags s.

Lemma section_words s rest :
  section_ok s -> word_ok (sec_virt s) ->
  words_of_bytes (concat (section_parts s) ++ rest) = sec_virt s :: section_word s :: words_of_bytes rest.
Proof.
  intros Hf Hv. unfold section_parts. cbn [concat]. rewrite app_nil_r, <- app_assoc, words_of_le4 by done. f_equal.
  rewrite le4_digits. cbn [insert list_insert app words_of_bytes]. f_equal. unfold section_word.
  assert (E : sec_size s mod 16777216
              = sec_size s mod 256 + 256 * (sec_size s / 256 mod 256) + 65536 * (sec_size s / 65536 mod 256)).
  { change 16777216 with (65536 * 256). rewrite Z.rem_mul_r by lia. change 65536 with (256 * 256) at 1.
    rewrite (Z.rem_mul_r _ 256 256) by lia. lia. }
  lia.
Qed.

Lemma section_word_flags s : section_ok s -> u8 (Z.shiftr (section_word s) 24) = sec_flags s.
Proof.
  intros Hf. unfold section_word. rewrite Z.shiftr_div_pow2 by lia. change (2 ^ 24) with 16777216.
  rewrite (Z.mul_comm 16777216), Z.div_add, Z.div_small by (lia || apply Z.mod_pos_bound; lia).
  apply u8_id. unfold section_ok, byte_ok in Hf. lia.
Qed.

(** The address of the last section that is marked as an exception frame. *)
Definition program_eh_frame (sections : list MiniElfSection) : Z :=
  fold_left (fun a s => if Z.land (sec_flags s) MINIELF_FLG_EHF =? 0 then a else sec_virt s) sections 0.

Definition sections_ok (sections : list MiniElfSection) : Prop :=
  Forall (fun s => section_ok s /\ word_ok (sec_virt s)) sections.

(** The kernel finds the exception frame of a program; it also looks at the
    entry point as if it were the flags of a section. *)
Lemma find_eh_frame_sections lo ep sections :
  word_ok lo -> word_ok ep -> Z.testbit ep 27 = false -> sections_ok sections ->
  find_eh_frame 0 (words_of_bytes (concat (ini_parts lo ep sections))) = program_eh_frame sections.
Proof.
  intros Hlo Hep Hbit Hs. unfold ini_parts. rewrite concat_app. cbn [concat]. rewrite app_nil_r, <- app_assoc.
  rewrite words_of_le4, words_of_le4 by done. cbn [find_eh_frame].
  assert (E : (Z.land (u8 (Z.shiftr ep 24)) MINIELF_FLG_EHF =? 0) = true).
  { apply Z.eqb_eq. unfold u8, wrap. rewrite <- Z.land_ones, <- Z.land_assoc by lia.
    change (Z.land (Z.ones 8) MINIELF_FLG_EHF) with 8. apply Z.bits_inj'. intros i Hi.
    rewrite Z.land_spec, Z.bits_0, Z.shiftr_spec by lia. destruct (Z.eq_dec i 3) as [-> |]; [change (3 + 24) with 27; by rewrite Hbit |].
    replace (Z.testbit 8 i) with false; [apply andb_false_r |]. change 8 with (2 ^ 3). by rewrite Z.pow2_bits_false by lia. }
  rewrite E. unfold program_eh_frame. set (f := fun a s => _). generalize 0 as a.
  induction Hs as [| s l [Hf Hv] Hs IH]; intros a; [done |].
  cbn [map concat]. rewrite concat_app, section_words by done. cbn [find_eh_frame fold_left].
  rewrite section_word_flags by done. apply IH.
Qed.

Lemma extra_regions_written rs :
  Forall (fun r => word_ok (mr_start r) /\ word_ok (mr_length r) /\ word_ok (mr_name r)) rs ->
  extra_regions (words_of_bytes (concat (map region_bytes rs)))
  = map (fun r => mk_MemoryRangeExtra (mr_start r) (mr_length r)) rs.
Proof.
  induction 1 as [| r rs (H1 & H2 & H3) _ IH]; [done |]. cbn [map concat]. unfold region_bytes at 1.
  rewrite <- !app_assoc, !words_of_le4 by done. cbn [extra_regions]. by rewrite IH.
Qed.

(** What the tags of the image are, argument by argument. *)
Lemma placed_tags running l l' bss :
  placed running l l' bss -> Forall2 (fun x bs => exists off x', word_ok off /\ finalized x off x' bs) l bss.
Proof. induction 1; constructor; eauto. Qed.

Lemma regions_tag (rs : list MemoryRegion) off x' bs :
  finalized (BoxArg (mk_MemoryRegions rs)) off x' bs -> bs = concat (map region_bytes rs).
Proof. intros [E _ _ _ Hs _ _ _ _]. injection E as <- _. by injection Hs as ->. Qed.

Lemma program_tag (i : IniE) off x' bs :
  word_ok off -> finalized (BoxArg i) off x' bs -> bs = concat (ini_parts off (ie_entrypoint i) (ie_sections i)).
Proof.
  intros Ho [E _ _ _ Hs _ _ _ _]. cbn [finalize_arg arg_finalize IniE_argument] in E. unfold IniE_finalize in E.
  destruct (_ =? 0); [| done]. cbn in E. injection E as <- _. cbn [serialize arg_serialize IniE_argument] in Hs.
  rewrite write_parts_eq in Hs. injection Hs as <- _. cbn [ie_load_offset ie_entrypoint ie_sections]. by rewrite u32_id.
Qed.

Definition boxed (progs : list IniE) : list Argument := map (fun i => BoxArg i) progs.

(** The other arguments of the image. *)
Definition other_argument (x : Argument) : bool :=
  negb ((code x =? fourcc "MREx") || (code x =? fourcc "IniE") || (code x =? fourcc "IniF") || (code x =? fourcc "IniS")).

Definition program_ok (p : IniE) : Prop :=
  word_ok (ie_entrypoint p) /\ Z.testbit (ie_entrypoint p) 27 = false /\ sections_ok (ie_sections p).

(** The tags of an image with the regions of memory, then programs, then other
    arguments. *)
Lemma image_tags crc16 running rs progs post l' bss :
  placed running (BoxArg (mk_MemoryRegions rs) :: boxed progs ++ post) l' bss ->
  Forall program_ok progs -> Forall (fun x => other_argument x = true) post ->
  exists t inis tl,
    map argument_of (zip_with (written_tag crc16) (BoxArg (mk_MemoryRegions rs) :: boxed progs ++ post) bss)
    = t :: inis ++ tl /\
    is_mrex t = true /\ is_init t = false /\ ka_data t = words_of_bytes (concat (map region_bytes rs)) /\
    Forall2 (fun a p => is_init a = true /\ is_mrex a = false /\
                        find_eh_frame 0 (ka_data a) = program_eh_frame (ie_sections p)) inis progs /\
    Forall (fun a => is_init a = false /\ is_mrex a = false) tl.
Proof.
  intros Hp Hprogs Hpost. apply placed_tags in Hp.
  apply Forall2_cons_inv_l in Hp as (b0 & bss1 & (off & x' & Ho & Hf) & Hp & ->).
  apply Forall2_app_inv_l in Hp as (bss2 & bss3 & Hp2 & Hp3 & ->).
  exists (argument_of (written_tag crc16 (BoxArg (mk_MemoryRegions rs)) b0)),
    (map argument_of (zip_with (written_tag crc16) (boxed progs) bss2)),
    (map argument_of (zip_with (written_tag crc16) post bss3)).
  split_and!; try done.
  - cbn [zip_with map]. f_equal. rewrite zip_with_app by (by eapply Forall2_length). by rewrite map_app.
  - cbn. f_equal. by eapply regions_tag.
  - clear Hp3 Hf. revert bss2 Hp2. induction Hprogs as [| p progs (H1 & H2 & H3) _ IH]; intros bss2 Hp2.
    { inversion Hp2; subst. constructor. }
    apply Forall2_cons_inv_l in Hp2 as (b & bs & (o & y & Ho' & Hf') & Hp2 & ->). constructor; [| by apply IH].
    split; [done |]. split; [done |]. cbn [argument_of ka_data written_tag t_data].
    rewrite (program_tag _ _ _ _ Ho' Hf'). by apply find_eh_frame_sections.
  - clear Hp2 Hf. revert bss3 Hp3. induction Hpost as [| x post Hx _ IH]; intros bss3 Hp3.
    { inversion Hp3; subst. constructor. }
    apply Forall2_cons_inv_l in Hp3 as (b & bs & _ & Hp3 & ->). constructor; [| by apply IH].
    unfold other_argument in Hx. unfold is_init, is_mrex. cbn [argument_of ka_name written_tag t_name].
    apply negb_true_iff in Hx. rewrite !orb_false_iff in Hx. destruct Hx as [[[E1 E2] E3] E4]. by rewrite E1, E2, E3, E4.
Qed.

Lemma filter_none {A} (f : A -> bool) l : Forall (fun a => f a = false) l -> List.filter f l = [].
Proof. induction 1 as [| a l Ha _ IH]; cbn; [done |]. by rewrite Ha. Qed.

(** The table of initial processes that the loader leaves: the kernel, and then one
    process for each program, in order, with the entry point of the program. *)
Record table_given (base : list Z) (progs : list IniE) (kinit : InitialProcess) (inits : list InitialProcess)
    : Prop := {
  tg_table : initial_processes (S (length progs)) base = Some (kinit :: inits);
  tg_kernel : InitialProcess_pid kinit = 1;
  tg_numbered : numbered 1 inits;
  tg_entries : Forall2 (fun init p => ip_entrypoint init = ie_entrypoint p) inits progs;
  tg_count : (1 <= length inits < MAX_PROCESS_COUNT)%nat
}.

(** The machine, the process table and the memory manager before the start. *)
Definition before_start (k : Kernel Memory) : Prop :=
  machine_ok (machine k) /\ processes k = boot_processes /\ EXTRA_REGIONS (memory (machine k)) = [].

(** The process of a program after the start. *)
Definition program_process (j : nat) (init : InitialProcess) (p : IniE) : Process :=
  booted init (Z.of_nat j + 2)
    (Setup (mk_ThreadInit (ie_entrypoint p)
              (mk_MemoryRange (ip_sp init - DEFAULT_STACK_SIZE) DEFAULT_STACK_SIZE)
              (program_eh_frame (ie_sections p)) (ip_env init) 0 0)).

(** C10. From the image to the running kernel.  The image tool is given the regions of
    memory, programs of the kind [IniE] whose entry points have bit 27 clear
    ([program_ok]) and other arguments that are not programs; the loader is assumed to
    leave a table with the kernel and one process per program, in order, with the
    program's entry point ([table_given]), and owner tables that are large enough for
    the memory that the image describes.  Then the kernel that starts with the
    written image does not panic: it knows the main memory and exactly those regions,
    has one process for each program, set up with the entry point and the exception
    frame of that program and with the stack of the loader's table, satisfies the
    invariant of the scheduler with process 1 running, and the first turn of the main
    loop switches to the first program. *)
Theorem image_boots crc16 h s ps rs progs post base rpt xpt kinit inits k :
  arguments s = BoxArg (mk_MemoryRegions rs) :: boxed progs ++ post ->
  crc_ok crc16 -> ram_ok s -> image_ok h s ps ->
  Forall (fun r => word_ok (mr_start r) /\ word_ok (mr_length r) /\ word_ok (mr_name r)) rs ->
  Forall program_ok progs -> Forall (fun x => other_argument x = true) post ->
  table_given base progs kinit inits -> before_start k ->
  let regions := map (fun r => mk_MemoryRangeExtra (mr_start r) (mr_length r)) rs in
  ram_length s / PAGE_SIZE <= Z.of_nat (length rpt) -> pages_of regions <= Z.of_nat (length xpt) ->
  exists s' image k',
    XousArguments_write crc16 h s = Some (s', image) /\
    kernel_init base rpt xpt (words_of_bytes image) k = ROk k' tt /\
    sched_ok k' /\
    memory (machine k')
    = booted_memory rpt xpt (ImageWriter.ram_start s) (ram_length s) regions (memory (machine k)) /\
    processes k' !! 0%nat = Some (booted kinit 1 (Running 0)) /\
    (forall j init p, inits !! j = Some init -> progs !! j = Some p ->
       processes k' !! S j = Some (program_process j init p)) /\
    kmain_turn None (processes k') = Some (Some 2, Kmain_call (Sys_SwitchTo 2 0)).
Proof.
  intros Hargs Hcrc Hram Him Hrs Hprogs Hpost [Htab Hk1 Hn Hent Hcnt] (Hm & Hproc & Hx) regions Hrpt Hxpt.
  destruct (written_block crc16 h s ps Hcrc Hram Him) as (l' & bss & rest & image & E & Ew & Hb & Hp).
  rewrite Hargs in Hp, Ew, Hb.
  destruct (image_tags crc16 _ rs progs post l' bss Hp Hprogs Hpost)
    as (t & inis & tl & Et & Hmrex & Hninit & Hdata & Hinis & Htl).
  set (tags := zip_with _ _ bss) in *. set (x := mk_Tag (fourcc "XArg") _ (xarg_words s)) in *.
  pose proof (initial_processes_length _ _ _ Htab) as Hlen. cbn [length] in Hlen.
  pose proof (Forall2_length _ _ _ Hinis) as Hil.
  assert (Hinit : Forall (fun a => is_init a = true /\ is_mrex a = false) inis)
    by (eapply Forall2_Forall_l; [exact Hinis |]; apply Forall_forall; intros p _ a (? & ? & _); done).
  assert (Hr : regions_of (map argument_of tags) regions).
  { right. exists t. rewrite Et. cbn [List.filter]. rewrite Hmrex, List.filter_app.
    rewrite (filter_none is_mrex inis (Forall_impl _ _ _ Hinit (fun a H => proj2 H))).
    rewrite (filter_none is_mrex tl (Forall_impl _ _ _ Htl (fun a H => proj2 H))).
    split; [done |]. rewrite Hdata. symmetry. by apply extra_regions_written. }
  assert (Hg : processes_given base (x :: tags) kinit inits inis).
  { split; [| rewrite Hil; exact Htab | done | done | done].
    exists [argument_of x; t], tl. cbn [map]. rewrite Et. split; [done |].
    split; [cbn [List.filter]; by rewrite Hninit |]. split; [apply filter_none |].
    + exact (Forall_impl _ _ _ Htl (fun a H => proj1 H)).
    + exact (Forall_impl _ _ _ Hinit (fun a H => proj1 H)). }
  unfold xarg_words in x.
  destruct (kernel_init_ok base rpt xpt _ _ _ _ _ tags rest regions kinit inits inis k Hb Hr Hg Hm Hproc Hx Hrpt Hxpt)
    as (k' & Ek & [S1 S2 S3 (S4 & S5 & S6) S7 S8]).
  eexists _, image, k'. split; [exact E |]. rewrite Ew. split_and!; try done.
  intros j init p Hj Hpj. pose proof (lookup_lt_Some _ _ _ Hj).
  rewrite S6 by (unfold MAX_PROCESS_COUNT in *; lia). replace (S j - 1)%nat with j by lia. rewrite Hj.
  destruct (Forall2_lookup_r _ _ _ _ _ Hinis Hpj) as (a & Ha & _ & _ & He). rewrite Ha. unfold setup_of. rewrite He.
  pose proof (Forall2_lookup_lr _ _ _ _ _ _ Hent Hj Hpj) as Ee. cbn in Ee. unfold program_process. rewrite <- Ee. do 2 f_equal. lia.
Qed.

(** The machine before the start, and a table with the kernel and one process. *)
Definition boot_kernel : Kernel Memory :=
  mk_Kernel
    (mk_Machine (example_satp 1) 1 (replicate 64 false) (<[1 := example_impl 1]> empty) true
       (mk_Memory 0 0 0 [] [] [] empty))
    boot_processes (replicate 128 None) (mk_IrqState (replicate 32 None) 0 0 true).

Definition example_inits : list Z :=
  [example_satp 1; 4291821568; 0; 0; example_satp 2; 65536; 2147483648; 8192].

Lemma image_boots_witness :
  exists s' image k',
    XousArguments_write (fun l => len l mod 65536) 0 example_arguments = Some (s', image) /\
    kernel_init example_inits (replicate 4096 0) (replicate 16 0) (words_of_bytes image) boot_kernel = ROk k' tt /\
    sched_ok k' /\
    memory (machine k')
    = booted_memory (replicate 4096 0) (replicate 16 0) 1073741824 16777216
        [mk_MemoryRangeExtra 4026531840 65536] (memory (machine boot_kernel)) /\
    processes k' !! 0%nat = Some (booted (mk_InitialProcess (example_satp 1) 4291821568 0 0) 1 (Running 0)) /\
    (forall j init p, [mk_InitialProcess (example_satp 2) 65536 2147483648 8192] !! j = Some init ->
       [example_program] !! j = Some p -> processes k' !! S j = Some (program_process j init p)) /\
    kmain_turn None (processes k') = Some (Some 2, Kmain_call (Sys_SwitchTo 2 0)).
Proof.
  apply (image_boots (fun l => len l mod 65536) 0 example_arguments
           [[]; align_data_up (ie_data example_program) 0; align_data_up (xk_program example_xkrn) 0]
           (regions example_regions) [example_program] [BoxArg example_xkrn] example_inits
           (replicate 4096 0) (replicate 16 0) (mk_InitialProcess (example_satp 1) 4291821568 0 0)
           [mk_InitialProcess (example_satp 2) 65536 2147483648 8192] boot_kernel).
  - reflexivity.
  - intros l. by apply Z.mod_pos_bound.
  - by repeat split.
  - apply example_image_ok.
  - by repeat constructor.
  - constructor; [| constructor]. split; [done |]. split; [done |]. by repeat constructor.
  - by repeat constructor.
  - split; [reflexivity | reflexivity | | by repeat constructor | cbn; unfold MAX_PROCESS_COUNT; lia].
    intros [| j] init Hj; [| done]. injection Hj as <-. done.
  - split; [| done]. split; try done.
    + exists (example_impl 1). split; [done |]. split; [done | by split].
    + apply map_Forall_insert_2; [split; [done | by split] | apply map_Forall_empty].
  - rewrite length_replicate. done.
  - rewrite length_replicate. vm_compute. discriminate.
Defined.
