(* ===== verification/Port.v ===== *)
(** * The kernel as a server sees it

    A server in user space receives messages and answers them by system calls.  The
    kernel keeps its promise of [ServerSpec.v]: a FIFO of messages and a map from
    slots to owed replies.  A port is this abstract queue with the processes that
    have ended and the answers that clients have been given. *)

From Stdlib Require Import ZArith Lia Bool.
From stdpp Require Import base numbers list option gmap.
From S2P Require Import Prelude.
From S2P Require Import Abi.
From S2P Require Import Server.
From S2P Require Import ServerSpec.

#[local] Open Scope Z_scope.
#[local] Open Scope kernel_scope.

(** An answer to a client, with the contents of the memory that it gets back. *)
Record PortAnswer : Type := mk_PortAnswer {
  pa_slot : nat;
  pa_pid : Z;
  pa_tid : Z;
  pa_result : Result;
  pa_bytes : list Z
}.

Record Port : Type := mk_Port {
  port_queue : aserver;
  port_ended : gset Z;
  port_answers : list PortAnswer
}.

Definition set_port_queue a p := mk_Port a (port_ended p) (port_answers p).
Definition set_port_ended e p := mk_Port (port_queue p) e (port_answers p).
Definition set_port_answers l p := mk_Port (port_queue p) (port_ended p) l.

Definition empty_port : Port := mk_Port empty_aserver ∅ [].

#[local] Notation "'pop' A" := (Port -> outcome Error Port A) (at level 10, A at level 9).

Definition slot_of (s : MessageSender) : nat := Z.to_nat (sender_idx (SenderID_from_sender s)).

Section Port.
Context (own_sidx : Z).

(** The kernel takes the reply that is owed in the slot of the sender. *)
Definition port_take (s : MessageSender) (buf : option MemoryRange) : pop WaitingMessage :=
  if negb (sender_sidx (SenderID_from_sender s) =? own_sidx) then fail ServerNotFound
  else
    a <- gets port_queue;;
    let r := a_reply (slot_of s) buf a in
    modify (set_port_queue (fst r)) ;;;
    match snd r with Ok w => ret w | Err e => fail e end.

Definition port_answer (s : MessageSender) (pid tid : Z) (r : Result) (bytes : list Z) : pop unit :=
  p <- gets id;;
  if bool_decide (pid ∈ port_ended p) then fail ProcessNotFound
  else modify (set_port_answers (port_answers p ++ [mk_PortAnswer (slot_of s) pid tid r bytes])).

(** [xous::return_scalar] *)
Definition port_return_scalar (s : MessageSender) (v : Z) : pop unit :=
  w <- port_take s None;;
  match w with
  | WM_ScalarMessage pid tid => port_answer s pid tid (R_Scalar1 v) []
  | _ => fail DoubleFree
  end.

(** [xous::return_memory_offset_valid] of memory that holds [bytes] *)
Definition port_return_memory (s : MessageSender) (m : MemoryMessage) (bytes : list Z) : pop unit :=
  w <- port_take s (Some (mm_buf m));;
  match w with
  | WM_BorrowedMemory pid tid _ _ _ => port_answer s pid tid (R_MemoryReturned (mm_offset m) (mm_valid m)) bytes
  | WM_MovedMemory | WM_ForgetMemory _ => ret tt
  | WM_ScalarMessage _ _ | WM_None => fail DoubleFree
  end.

(** [xous::receive_message], or [None] when the server has to wait for one *)
Definition port_receive : pop (option MessageEnvelope) :=
  a <- gets port_queue;;
  match a_receive a with
  | (_, None) => ret None
  | (a', Some (i, p)) => modify (set_port_queue a') ;;; ret (Some (envelope own_sidx i p))
  end.

(** A client's message is queued in a slot. *)
Definition port_send (i : nat) (pid tid : Z) (m : Message) (addr : option Z) (p : Port) : Port :=
  set_port_queue (a_send i (pend_of pid tid m addr) (port_queue p)) p.

(** A process ends. *)
Definition port_exit (pid : Z) (p : Port) : Port :=
  set_port_ended (port_ended p ∪ {[pid]}) (set_port_queue (a_discard pid (port_queue p)) p).

(** ** Senders *)

Context (Hsidx : 0 <= own_sidx < 256).

Definition sender_of (i : nat) (pid : Z) : MessageSender :=
  SenderID_to_sender (mk_SenderID own_sidx (Z.of_nat i) (Some pid)).

Lemma sender_of_id i pid :
  (i < QUEUE_LEN)%nat -> wf_pid pid = true ->
  SenderID_from_sender (sender_of i pid) = mk_SenderID own_sidx (Z.of_nat i) (Some pid).
Proof.
  intros Hi Hp. unfold SenderID_from_sender, sender_of, SenderID_to_sender. cbn. apply SenderID_roundtrip.
  unfold wf_SenderID, QUEUE_LEN in *. cbn. rewrite Hp, !andb_true_r. andb_split; zify; lia.
Qed.

Lemma slot_sender_of i pid : (i < QUEUE_LEN)%nat -> wf_pid pid = true -> slot_of (sender_of i pid) = i.
Proof. intros Hi Hp. unfold slot_of. rewrite sender_of_id by done. cbn. lia. Qed.

Lemma pid_sender_of i pid :
  (i < QUEUE_LEN)%nat -> wf_pid pid = true -> MessageSender_pid (sender_of i pid) = Some pid.
Proof.
  intros Hi Hp. pose proof (sender_of_id i pid Hi Hp) as E.
  unfold SenderID_from_sender, SenderID_from_usize in E. injection E as _ _ E.
  unfold MessageSender_pid, MessageSender_to_usize in *. rewrite <- E. f_equal.
  unfold u8, wrap. change 255 with (Z.ones 8). rewrite Z.land_ones by done. apply Z.mod_mod. done.
Qed.

(** ** What a port promises *)

(** The PIDs that the kernel gives to processes. *)
Context (client : Z -> Prop).

(** The messages in the queue have slots of their own and are from clients, and none
    of a process that has ended asks for a reply. *)
Record port_ok (p : Port) : Prop := {
  po_nodup : NoDup (pending (port_queue p)).*1;
  po_slots i q : In (i, q) (pending (port_queue p)) -> (i < QUEUE_LEN)%nat /\ replies (port_queue p) !! i = None;
  po_wf i q : In (i, q) (pending (port_queue p)) -> wf_pend q = true;
  po_client i q : In (i, q) (pending (port_queue p)) -> client (p_pid q);
  po_ended i q : In (i, q) (pending (port_queue p)) -> p_pid q ∈ port_ended p ->
    Message_is_blocking (delivered q) = false
}.

(** The reply that the kernel owes for a message. *)
Definition reply_for (m : Message) (pid : Z) (w : waiting) : Prop :=
  match m, w with
  | BlockingScalar _, W_scalar pid' _ _ => pid' = pid
  | (Borrow m | MutableBorrow m), W_memory pid' _ addr _ len =>
      pid' = pid /\ addr = range_addr (mm_buf m) /\ len = range_size (mm_buf m)
  | _, _ => False
  end.

(** The server has the message [e], and the kernel owes its sender the reply. *)
Definition held (p : Port) (e : MessageEnvelope) : Prop :=
  exists i pid, (i < QUEUE_LEN)%nat /\ (wf_pid pid = true /\ client pid) /\ env_sender e = sender_of i pid
    /\ (Message_is_blocking (env_body e) = true ->
        ~ (pid ∈ port_ended p) /\ exists w, replies (port_queue p) !! i = Some w /\ reply_for (env_body e) pid w).

Lemma held_pid p e :
  held p e -> exists pid, MessageSender_pid (env_sender e) = Some pid /\ wf_pid pid = true /\ client pid.
Proof. intros (i & pid & Hi & [Hp Hc] & -> & _). exists pid. by rewrite pid_sender_of. Qed.

(** The same message with other contents. *)
Lemma held_body p s m m' :
  held p (mk_MessageEnvelope s m) ->
  match m, m' with
  | MutableBorrow a, MutableBorrow b => mm_buf a = mm_buf b
  | Move a, Move b => True
  | _, _ => False
  end -> held p (mk_MessageEnvelope s m').
Proof.
  intros (i & pid & Hi & [Hp Hcl] & E & H) Hm. exists i, pid. split_and!; try done. cbn in *.
  destruct m, m'; try done. cbn in *. by rewrite <- Hm.
Qed.

(** *** Replies *)

Lemma port_take_run p i pid buf w :
  (i < QUEUE_LEN)%nat -> wf_pid pid = true -> replies (port_queue p) !! i = Some w -> wrong_buffer w buf = false ->
  port_take (sender_of i pid) buf p
  = ROk (set_port_queue (mk_aserver (pending (port_queue p)) (delete i (replies (port_queue p)))) p) (reply_result w).
Proof.
  intros Hi Hp Hr Hb. unfold port_take. rewrite slot_sender_of, sender_of_id by done. cbn [sender_sidx].
  rewrite Z.eqb_refl. cbn [negb]. unfold bind, gets, modify, a_reply.
  rewrite (proj2 (Nat.leb_gt _ _)) by done. by rewrite Hr, Hb.
Qed.

(** The port after the reply to the message in slot [i]. *)
Definition answered (i : nat) (a : PortAnswer) (p : Port) : Port :=
  mk_Port (mk_aserver (pending (port_queue p)) (delete i (replies (port_queue p)))) (port_ended p)
    (port_answers p ++ [a]).

Lemma return_scalar_held p e v :
  held p e -> (exists s, env_body e = BlockingScalar s) ->
  exists pid tid, MessageSender_pid (env_sender e) = Some pid
    /\ port_return_scalar (env_sender e) v p
       = ROk (answered (slot_of (env_sender e)) (mk_PortAnswer (slot_of (env_sender e)) pid tid (R_Scalar1 v) []) p) tt.
Proof.
  intros (i & pid & Hi & [Hp Hcl] & Es & H) [s Eb]. rewrite Eb in H. destruct (H eq_refl) as (He & w & Hr & Hw).
  destruct w as [| | pid' tid ra]; try done. cbn in Hw. subst pid'. exists pid, tid.
  rewrite Es, pid_sender_of, slot_sender_of by done. split; [done |].
  unfold port_return_scalar, bind. erewrite port_take_run by done. cbn. unfold port_answer, bind, gets, id. cbn.
  rewrite bool_decide_false by done. by rewrite slot_sender_of.
Qed.

Lemma return_memory_held p e m bytes :
  held p e -> (env_body e = MutableBorrow m \/ env_body e = Borrow m) ->
  exists pid tid, MessageSender_pid (env_sender e) = Some pid
    /\ port_return_memory (env_sender e) m bytes p
       = ROk (answered (slot_of (env_sender e))
                (mk_PortAnswer (slot_of (env_sender e)) pid tid (R_MemoryReturned (mm_offset m) (mm_valid m)) bytes) p) tt.
Proof.
  intros (i & pid & Hi & [Hp Hcl] & Es & H) Eb.
  assert (Hb : Message_is_blocking (env_body e) = true) by (by destruct Eb as [-> | ->]).
  destruct (H Hb) as (He & w & Hr & Hw).
  destruct w as [pid' tid sa ca len | |]; try (by destruct Eb as [E | E]; rewrite E in Hw).
  assert (pid' = pid /\ sa = range_addr (mm_buf m) /\ len = range_size (mm_buf m)) as (-> & -> & ->)
    by (by destruct Eb as [E | E]; rewrite E in Hw).
  exists pid, tid. rewrite Es, pid_sender_of, slot_sender_of by done. split; [done |].
  unfold port_return_memory, bind. erewrite port_take_run; [| done.. | cbn; by rewrite !Z.eqb_refl].
  cbn. unfold port_answer, bind, gets, id. cbn. rewrite bool_decide_false by done. by rewrite slot_sender_of.
Qed.

Lemma answered_ok i a p : port_ok p -> port_ok (answered i a p).
Proof.
  intros []. split; cbn; try done. intros j q Hin. destruct (po_slots0 j q Hin) as [? Hr]. split; [done |].
  rewrite lookup_delete_None. by right.
Qed.

Lemma answered_held i a p e : held p e -> slot_of (env_sender e) <> i -> held (answered i a p) e.
Proof.
  intros (j & pid & Hj & [Hp Hcl] & Es & H) Hne. exists j, pid. split_and!; try done. intros Hb.
  destruct (H Hb) as (He & w & Hr & Hw). split; [done |]. exists w. split; [| done]. cbn.
  rewrite lookup_delete_ne; [done |]. rewrite Es, slot_sender_of in Hne by done. done.
Qed.

(** *** Messages *)

Lemma port_receive_ok p e p' :
  port_ok p -> port_receive p = ROk p' (Some e) ->
  port_ok p' /\ held p' e /\ port_ended p' = port_ended p /\ port_answers p' = port_answers p
  /\ (exists i q, In (i, q) (pending (port_queue p)) /\ e = envelope own_sidx i q)
  /\ (forall e', held p e' -> Message_is_blocking (env_body e') = true ->
        held p' e' /\ slot_of (env_sender e') <> slot_of (env_sender e)).
Proof.
  intros [] E. unfold port_receive, bind, gets, a_receive in E. destruct (pending (port_queue p)) as [| [i q] rest] eqn:Hp; [done |].
  injection E as <- <-. destruct (po_slots0 i q (or_introl eq_refl)) as [Hi Hr].
  pose proof (po_wf0 i q (or_introl eq_refl)) as Hw. apply NoDup_cons in po_nodup0 as [Hni Hnd].
  assert (Hpid : wf_pid (p_pid q) = true) by (unfold wf_pend in Hw; by apply andb_prop in Hw as [[? _]%andb_prop _]).
  assert (Hkeep : forall j, j <> i -> set_reply i (owed q) (replies (port_queue p)) !! j = replies (port_queue p) !! j).
  { intros j Hj. unfold set_reply. destruct (owed q); [by rewrite lookup_insert_ne | done]. }
  split_and!; [| | done | done | |]; cbn.
  - split; cbn; [done | intros j q' Hin..].
    + destruct (po_slots0 j q' (or_intror Hin)) as [? Hr']. split; [done |]. rewrite Hkeep; [done |].
      intros ->. apply Hni. apply list_elem_of_In. apply in_map_iff. by exists (i, q').
    + by eapply po_wf0; right.
    + by eapply po_client0; right.
    + by eapply po_ended0; right.
  - exists i, (p_pid q). split_and!; [done | done | by apply (po_client0 i q (or_introl eq_refl)) | done |]. cbn. intros Hb. split.
    { intros He. rewrite (po_ended0 i q (or_introl eq_refl) He) in Hb. done. }
    unfold delivered, owed in *. destruct (p_msg q) as [m | m | m | m | m]; try done;
      try (destruct (p_terminated q); [done |]); cbn; rewrite lookup_insert_eq; (eexists; split; [done |]); done.
  - exists i, q. split; [by left | done].
  - intros e' (j & pid & Hj & [Hp' Hcl] & Es & H) Hb. destruct (H Hb) as (He & w & Hrj & Hwj).
    assert (j <> i) by (intros ->; congruence). split.
    + exists j, pid. split_and!; try done. intros _. split; [done |]. exists w. by rewrite Hkeep.
    + rewrite Es. change (SenderID_to_sender _) with (sender_of i (p_pid q)). by rewrite !slot_sender_of.
Qed.

Lemma port_send_ok i pid tid m addr p :
  port_ok p -> free_ticket (port_queue p) i -> wf_pend (pend_of pid tid m addr) = true -> client pid -> ~ (pid ∈ port_ended p) ->
  port_ok (port_send i pid tid m addr p).
Proof.
  intros [] (Hi & Hni & Hr) Hw Hcl Hg. split; cbn.
  - rewrite fmap_app. apply NoDup_app. split_and!; [done | | apply NoDup_singleton].
    intros j Hj ->%list_elem_of_singleton. done.
  - intros j q [? | [[= <- <-] | []]]%in_app_iff; [by eapply po_slots0 | done].
  - intros j q [? | [[= <- <-] | []]]%in_app_iff; [by eapply po_wf0 | done].
  - intros j q [? | [[= <- <-] | []]]%in_app_iff; [by eapply po_client0 | done].
  - intros j q [? | [[= <- <-] | []]]%in_app_iff; [by eapply po_ended0 | done].
Qed.

Lemma port_send_held i pid tid m addr p e : held p e -> held (port_send i pid tid m addr p) e.
Proof. intros (j & pid' & ? & ? & ? & H). by exists j, pid'. Qed.

Lemma terminate_pend_same pid q : p_pid (terminate_pend pid q) = p_pid q /\ p_msg (terminate_pend pid q) = p_msg q.
Proof. unfold terminate_pend. destruct (p_msg q) eqn:E; try done; by destruct (p_pid q =? pid). Qed.

(** A process ends that has not lent memory to the server. *)
Lemma port_exit_ok pid p :
  port_ok p -> Forall (fun iq => p_pid (snd iq) = pid -> lends (p_msg (snd iq)) = false) (pending (port_queue p)) ->
  port_ok (port_exit pid p).
Proof.
  intros [] Hl.
  assert (Hin : forall i q, In (i, q) (prod_map id (terminate_pend pid) <$> pending (port_queue p)) ->
            exists q', In (i, q') (pending (port_queue p)) /\ q = terminate_pend pid q').
  { intros i q ([j q'] & [= <- <-] & Hin)%in_map_iff. by exists q'. }
  split; cbn.
  - rewrite <- list_fmap_compose. by erewrite list_fmap_ext; [| by intros ? []].
  - intros i q (q' & Hq & ->)%Hin. by eapply po_slots0.
  - intros i q (q' & Hq & ->)%Hin. pose proof (po_wf0 _ _ Hq) as Hw. unfold wf_pend, terminate_pend in *.
    destruct (p_msg q') eqn:E; try done; destruct (p_pid q' =? pid); cbn; by rewrite ?E.
  - intros i q (q' & Hq & ->)%Hin. destruct (terminate_pend_same pid q') as [-> _]. by eapply po_client0.
  - intros i q (q' & Hq & ->)%Hin. destruct (terminate_pend_same pid q') as [-> _]. unfold terminate_pend, delivered.
    rewrite List.Forall_forall in Hl. specialize (Hl _ Hq). cbn in Hl.
    intros [He | He%elem_of_singleton]%elem_of_union.
    + specialize (po_ended0 _ _ Hq He). unfold delivered in po_ended0.
      destruct (p_msg q') eqn:E; try done; destruct (p_pid q' =? pid); cbn; rewrite ?E; done.
    + specialize (Hl He). destruct (p_msg q') eqn:E; cbn; rewrite ?E; try done. rewrite He, Z.eqb_refl. done.
Qed.

Lemma port_exit_held pid p e :
  held p e -> MessageSender_pid (env_sender e) <> Some pid -> held (port_exit pid p) e.
Proof.
  intros (j & pid' & Hj & [Hp Hcl] & Es & H) Hne. exists j, pid'. split_and!; try done. intros Hb.
  destruct (H Hb) as (He & Hw). split; [| done]. cbn.
  intros [? | ->%elem_of_singleton]%elem_of_union; [done |]. apply Hne. rewrite Es. by apply pid_sender_of.
Qed.

Lemma empty_port_ok : port_ok empty_port.
Proof. split; cbn; try done. constructor. Qed.
End Port.
