(* ===== verification/Ticktimer.v ===== *)
(** * The ticktimer server

    The user-space server that keeps time: it wakes sleeping threads, and it
    blocks and wakes the threads that wait for the mutexes and the condition
    variables of the standard library (src/services/xous-ticktimer).

    One request at a time is armed in the alarm of the hardware; the others wait
    in [sleep_heap].  The alarm interrupts the server between its turns: every
    handler stops the alarm before it uses the data of the interrupt handler, so
    an interrupt that arrives earlier in a turn does what it does before the turn.

    The kernel is seen through the abstract server of [ServerSpec.v], which its
    queue implements: a FIFO of messages and a map from slots to owed replies.

    The platform is the one of src/services/xous-ticktimer/src/platform/precursor.
    The watchdog and the saved registers other than those of the alarm are not
    modelled, nor an interrupt between the two writes of [suspend].  The text of the
    version is serialized by a library, which is the argument [version]. *)

From Stdlib Require Import ZArith Lia Bool.
From stdpp Require Import base numbers list option gmap.
From S2P Require Import Prelude.
From S2P Require Import Abi.
From S2P Require Import Server.
From S2P Require Import ServerSpec.

#[local] Open Scope Z_scope.
#[local] Open Scope kernel_scope.

(** ** Time and requests *)

Definition TICKS_PER_MS : Z := 1.
Definition LATENCY_SLACK_MS : Z := 0.

Definition i64 (x : Z) : Z := (x + 2 ^ 63) mod 2 ^ 64 - 2 ^ 63.

Inductive RequestKind : Type := Sleep | Timeout.

Definition RequestKind_to_usize (k : RequestKind) : Z := match k with Sleep => 0 | Timeout => 1 end.

Record TimerRequest : Type := mk_TimerRequest {
  msec : Z;
  sender : MessageSender;
  kind : RequestKind;
  data : Z
}.

Definition set_msec (m : Z) (r : TimerRequest) : TimerRequest := mk_TimerRequest m (sender r) (kind r) (data r).

(** A [BTreeMap] as the list of its entries in the order of their keys. *)
Section BTreeMap.
Context {V : Type}.

Fixpoint bt_insert (k : Z) (v : V) (l : list (Z * V)) : list (Z * V) :=
  match l with
  | [] => [(k, v)]
  | (k', v') :: l' =>
      if k <? k' then (k, v) :: l
      else if k =? k' then (k, v) :: l'
      else (k', v') :: bt_insert k v l'
  end.

Definition bt_contains (k : Z) (l : list (Z * V)) : bool := existsb (fun e => fst e =? k) l.

Definition bt_retain (f : V -> bool) (l : list (Z * V)) : list (Z * V) := List.filter (fun e => f (snd e)) l.
End BTreeMap.

(** ** The timer

    The registers of the hardware, the fields of [XousTickTimer], the statics of
    the interrupt handler, and the heap that the methods share. *)
Record XousTickTimer : Type := mk_XousTickTimer {
  time : Z;
  ev_enable_alarm : bool;
  msleep_target : Z;
  saved_registers : option (bool * Z);
  current_response : option TimerRequest;
  last_responder : Z;
  sequence_number : Z;
  sleep_heap : list (Z * TimerRequest)
}.

Definition set_time v t := mk_XousTickTimer v (ev_enable_alarm t) (msleep_target t) (saved_registers t)
  (current_response t) (last_responder t) (sequence_number t) (sleep_heap t).
Definition set_alarm v t := mk_XousTickTimer (time t) v (msleep_target t) (saved_registers t)
  (current_response t) (last_responder t) (sequence_number t) (sleep_heap t).
Definition set_target v t := mk_XousTickTimer (time t) (ev_enable_alarm t) v (saved_registers t)
  (current_response t) (last_responder t) (sequence_number t) (sleep_heap t).
Definition set_saved v t := mk_XousTickTimer (time t) (ev_enable_alarm t) (msleep_target t) v
  (current_response t) (last_responder t) (sequence_number t) (sleep_heap t).
Definition set_current v t := mk_XousTickTimer (time t) (ev_enable_alarm t) (msleep_target t) (saved_registers t)
  v (last_responder t) (sequence_number t) (sleep_heap t).
Definition set_responder v t := mk_XousTickTimer (time t) (ev_enable_alarm t) (msleep_target t) (saved_registers t)
  (current_response t) v (sequence_number t) (sleep_heap t).
Definition set_sequence v t := mk_XousTickTimer (time t) (ev_enable_alarm t) (msleep_target t) (saved_registers t)
  (current_response t) (last_responder t) v (sleep_heap t).
Definition set_heap v t := mk_XousTickTimer (time t) (ev_enable_alarm t) (msleep_target t) (saved_registers t)
  (current_response t) (last_responder t) (sequence_number t) v.

#[local] Notation "'top' A" := (XousTickTimer -> outcome Error XousTickTimer A) (at level 10, A at level 9).

Definition elapsed_ms : top Z := t <- gets time;; ret (t / TICKS_PER_MS).

Definition last_response : top MessageSender := r <- gets last_responder;; ret (MessageSender_from_usize r).

Definition stop_interrupt : top (option TimerRequest) :=
  modify (set_alarm false) ;;;
  sr <- gets current_response;;
  modify (set_current None) ;;;
  ret sr.

Definition schedule_response (request : TimerRequest) : top unit :=
  let irq_target := i64 (msec request + LATENCY_SLACK_MS) in
  enabled <- gets ev_enable_alarm;;
  assert_ (negb enabled) ;;;
  modify (set_alarm false) ;;;
  modify (set_current (Some request)) ;;;
  modify (set_target (Z.lor (Z.shiftl (u32 (Z.shiftr irq_target 32)) 32) (u32 irq_target))) ;;;
  modify (set_alarm true).

(** [assert!(sleep_heap.insert(request.msec, request).is_none())] *)
Definition insert_new (request : TimerRequest) : top unit :=
  heap <- gets sleep_heap;;
  modify (set_heap (bt_insert (msec request) request heap)) ;;;
  assert_ (negb (bt_contains (msec request) heap)).

Definition stop_sleep : top Z :=
  sr <- stop_interrupt;;
  match sr with Some current => insert_new current | None => ret tt end ;;;
  gets sequence_number.

Definition start_sleep : top unit :=
  heap <- gets sleep_heap;;
  match heap with
  | [] => ret tt
  | (_, next_response) :: rest => modify (set_heap rest) ;;; schedule_response next_response
  end.

(** [while sleep_heap.contains_key(&msec) { msec += 1 }] *)
Fixpoint next_free (fuel : nat) (heap : list (Z * TimerRequest)) (k : Z) : option Z :=
  match fuel with
  | O => None
  | S fuel => if bt_contains k heap then next_free fuel heap (i64 (k + 1)) else Some k
  end.

Definition recalculate_sleep_offline (new : option TimerRequest) : top unit :=
  match new with
  | None => ret tt
  | Some request =>
      now <- elapsed_ms;;
      heap <- gets sleep_heap;;
      match next_free (S (length heap)) heap (i64 (msec request + i64 now)) with
      | None => fun _ => RStuck
      | Some k => insert_new (set_msec k request)
      end
  end.

Definition recalculate_sleep (new : option TimerRequest) : top unit :=
  stop_sleep ;;; recalculate_sleep_offline new ;;; start_sleep.

(** [sleep_heap.retain(|_, v| v.sender != sender)], with the lengths before and
    after. *)
Definition retain_other (s : MessageSender) : top (nat * nat) :=
  heap <- gets sleep_heap;;
  let heap' := bt_retain (fun v => negb (bool_decide (sender v = s))) heap in
  modify (set_heap heap') ;;; ret (length heap, length heap').

(** The register manager reads the registers, then the alarm is disabled. *)
Definition save_registers : top unit :=
  t <- gets id;; modify (set_saved (Some (ev_enable_alarm t, msleep_target t))).

Definition suspend : top unit := save_registers ;;; modify (set_alarm false).

Definition resume : top unit :=
  saved <- gets saved_registers;;
  match saved with
  | None => ret tt
  | Some (enable, target) => modify (set_target target) ;;; modify (set_alarm enable)
  end.

(** ** The server *)

(** A reply that the kernel has given to a client. *)
Record Answer : Type := mk_Answer {
  ans_time : Z;
  ans_slot : nat;
  ans_pid : Z;
  ans_tid : Z;
  ans_result : Result
}.

(** [HashMap<Option<PID>, HashMap<usize, VecDeque<MessageSender>>>] *)
Abbreviation Waiters := (gmap (option Z) (gmap Z (list MessageSender))).

(** The variables of [main]; and of the kernel the queue of the server, the
    processes that have ended, and the replies given. *)
Record Ticktimer : Type := mk_Ticktimer {
  timer : XousTickTimer;
  mutex_ready_table : gmap (option Z) (gset Z);
  notify_table : Waiters;
  notifications_with_timeouts : gset Z;
  mutex_hash : Waiters;
  msg_opt : option MessageEnvelope;
  return_type : Z;
  srv : aserver;
  gone : gset Z;
  answers : list Answer
}.

Definition set_timer v x := mk_Ticktimer v (mutex_ready_table x) (notify_table x) (notifications_with_timeouts x)
  (mutex_hash x) (msg_opt x) (return_type x) (srv x) (gone x) (answers x).
Definition set_ready v x := mk_Ticktimer (timer x) v (notify_table x) (notifications_with_timeouts x)
  (mutex_hash x) (msg_opt x) (return_type x) (srv x) (gone x) (answers x).
Definition set_notify v x := mk_Ticktimer (timer x) (mutex_ready_table x) v (notifications_with_timeouts x)
  (mutex_hash x) (msg_opt x) (return_type x) (srv x) (gone x) (answers x).
Definition set_timeouts v x := mk_Ticktimer (timer x) (mutex_ready_table x) (notify_table x) v
  (mutex_hash x) (msg_opt x) (return_type x) (srv x) (gone x) (answers x).
Definition set_mutex v x := mk_Ticktimer (timer x) (mutex_ready_table x) (notify_table x)
  (notifications_with_timeouts x) v (msg_opt x) (return_type x) (srv x) (gone x) (answers x).
Definition set_msg v x := mk_Ticktimer (timer x) (mutex_ready_table x) (notify_table x)
  (notifications_with_timeouts x) (mutex_hash x) v (return_type x) (srv x) (gone x) (answers x).
Definition set_return_type v x := mk_Ticktimer (timer x) (mutex_ready_table x) (notify_table x)
  (notifications_with_timeouts x) (mutex_hash x) (msg_opt x) v (srv x) (gone x) (answers x).
Definition set_srv v x := mk_Ticktimer (timer x) (mutex_ready_table x) (notify_table x)
  (notifications_with_timeouts x) (mutex_hash x) (msg_opt x) (return_type x) v (gone x) (answers x).
Definition set_gone v x := mk_Ticktimer (timer x) (mutex_ready_table x) (notify_table x)
  (notifications_with_timeouts x) (mutex_hash x) (msg_opt x) (return_type x) (srv x) v (answers x).
Definition set_answers v x := mk_Ticktimer (timer x) (mutex_ready_table x) (notify_table x)
  (notifications_with_timeouts x) (mutex_hash x) (msg_opt x) (return_type x) (srv x) (gone x) v.

#[local] Notation "'mop' A" := (Ticktimer -> outcome Error Ticktimer A) (at level 10, A at level 9).

Definition tt_ {A} (m : top A) : mop A := zoom timer set_timer m.

(** *** Tables *)

(** [table.entry(pid).or_default().entry(id).or_default()] *)
Definition waiters (table : Waiters) (pid : option Z) (id : Z) : list MessageSender :=
  default [] (default ∅ (table !! pid) !! id).

Definition set_waiters (table : Waiters) (pid : option Z) (id : Z) (l : list MessageSender) : Waiters :=
  <[pid := <[id := l]> (default ∅ (table !! pid))]> table.

(** [table.entry(pid).or_default().remove(&id)] *)
Definition remove_waiters (table : Waiters) (pid : option Z) (id : Z) : Waiters :=
  <[pid := delete id (default ∅ (table !! pid))]> table.

(** [mutex_ready_table.entry(pid).or_default()] *)
Definition ready_mutexes (x : Ticktimer) (pid : option Z) : gset Z := default ∅ (mutex_ready_table x !! pid).

(** [notifications_with_timeouts.remove(&sender)] *)
Definition remove_timeout (s : MessageSender) : mop bool :=
  timeouts <- gets notifications_with_timeouts;;
  let w := MessageSender_to_usize s in
  modify (set_timeouts (timeouts ∖ {[w]})) ;;;
  ret (bool_decide (w ∈ timeouts)).

(** *** Messages *)

Definition Message_scalar_message_mut (m : Message) : option ScalarMessage :=
  match m with
  | BlockingScalar s => Some s
  | MutableBorrow _ | Borrow _ | Move _ | Scalar _ => None
  end.

(** Change the message that waits for its reply through [scalar_message_mut]. *)
Definition put_scalar (f : ScalarMessage -> ScalarMessage) : mop unit :=
  modify (fun x =>
    match msg_opt x with
    | Some (mk_MessageEnvelope s (BlockingScalar m)) => set_msg (Some (mk_MessageEnvelope s (BlockingScalar (f m)))) x
    | _ => x
    end).

(** [core::mem::forget(msg_opt.take())] *)
Definition forget_message : mop unit := modify (set_msg None).

Section Server.
Context (own_sidx own_pid : Z).

(** The kernel takes the reply that is owed in the slot of the sender. *)
Definition take_waiting (s : MessageSender) : mop WaitingMessage :=
  let id := SenderID_from_sender s in
  if negb (sender_sidx id =? own_sidx) then fail ServerNotFound
  else
    a <- gets srv;;
    let r := a_reply (Z.to_nat (sender_idx id)) None a in
    modify (set_srv (fst r)) ;;;
    match snd r with Ok w => ret w | Err e => fail e end.

Definition answer_client (s : MessageSender) (pid tid : Z) (r : Result) : mop unit :=
  x <- gets id;;
  if bool_decide (pid ∈ gone x) then fail ProcessNotFound
  else modify (set_answers (answers x ++
         [mk_Answer (time (timer x)) (Z.to_nat (sender_idx (SenderID_from_sender s))) pid tid r])).

(** [xous::return_scalar] *)
Definition return_scalar (s : MessageSender) (v : Z) : mop unit :=
  w <- take_waiting s;;
  match w with
  | WM_ScalarMessage pid tid => answer_client s pid tid (R_Scalar1 v)
  | _ => fail DoubleFree
  end.

(** [xous::try_send_message] of a scalar to the server itself, from the interrupt
    handler; the kernel queues it in [slot], or the queue is full. *)
Definition try_send_message (slot : option nat) (m : ScalarMessage) : mop unit :=
  match slot with
  | None => fail ServerQueueFull
  | Some i => modify (fun x => set_srv (a_send i (pend_of own_pid 1 (Scalar m) None) (srv x)) x)
  end.

Definition RecalculateSleep_id : Z := 2.

Definition alarm_irq (slot : option nat) : mop unit :=
  response <- tt_ (gets current_response);;
  tt_ (modify (set_current None)) ;;;
  response <- unwrap response;;
  ok (return_scalar (sender response) (RequestKind_to_usize (kind response))) ;;;
  tt_ (modify (set_alarm false)) ;;;
  ok (try_send_message slot
        (mk_ScalarMessage RecalculateSleep_id (MessageSender_to_usize (sender response))
           (RequestKind_to_usize (kind response)) (data response) 0)) ;;;
  tt_ (modify (set_responder (MessageSender_to_usize (sender response)))) ;;;
  tt_ (modify (fun t => set_sequence (u32 (sequence_number t + 1)) t)).

(** *** Replying and receiving

    [reply_and_receive_next_legacy] replies to the message of [msg_opt] and then
    receives the next one. *)

Definition reply_legacy : mop unit :=
  rt <- gets return_type;;
  modify (set_return_type 0) ;;;
  m <- gets msg_opt;;
  modify (set_msg None) ;;;
  match m with
  | None => ret tt
  | Some envelope =>
      if negb (Message_is_blocking (env_body envelope)) then ret tt
      else
        let s := env_sender envelope in
        let rt := if Message_has_memory (env_body envelope) then usize_MAX else rt in
        let args := match env_body envelope with
                    | MutableBorrow m | Borrow m | Move m => MemoryMessage_to_usize m
                    | Scalar m | BlockingScalar m => ScalarMessage_to_usize m
                    end in
        w <- take_waiting s;;
        match w with
        | WM_ScalarMessage pid tid =>
            answer_client s pid tid
              (if rt =? 1 then R_Scalar1 (v1 args)
               else if rt =? 2 then R_Scalar2 (v1 args) (v2 args)
               else R_Scalar5 (v0 args) (v1 args) (v2 args) (v3 args) (v4 args))
        | WM_BorrowedMemory pid tid _ _ _ =>
            answer_client s pid tid (R_MemoryReturned (NonZero_new (v3 args)) (NonZero_new (v4 args)))
        | _ => fail DoubleFree
        end
  end.

(** The next message is in [msg_opt]; [false] when the server waits for one. *)
Definition receive : mop bool :=
  a <- gets srv;;
  match a_receive a with
  | (_, None) => ret false
  | (a', Some (i, p)) => modify (set_srv a') ;;; modify (set_msg (Some (envelope own_sidx i p))) ;;; ret true
  end.

(** ** The handlers *)

Context (version : MemoryMessage -> option MemoryMessage).

Inductive Opcode : Type :=
| ElapsedMs | SleepMs | RecalculateSleep | SuspendResume | PingWdt | GetVersion | LockMutex | UnlockMutex
| WaitForCondition | NotifyCondition | FreeMutex | FreeCondition | InvalidCall.

Definition Opcode_from_usize (id : Z) : Opcode :=
  match id with
  | 0 => ElapsedMs | 1 => SleepMs | 2 => RecalculateSleep | 3 => SuspendResume | 4 => PingWdt | 5 => GetVersion
  | 6 => LockMutex | 7 => UnlockMutex | 8 => WaitForCondition | 9 => NotifyCondition | 10 => FreeMutex
  | 11 => FreeCondition | _ => InvalidCall
  end.

Definition elapsed_call (msg : MessageEnvelope) : mop unit :=
  match Message_scalar_message_mut (env_body msg) with
  | None => ret tt
  | Some _ =>
      now <- tt_ elapsed_ms;;
      let time := i64 now in
      put_scalar (fun s => mk_ScalarMessage 0 (Z.land time 4294967295) (Z.land (Z.shiftr time 32) 268435455)
                             (sm_arg3 s) (sm_arg4 s)) ;;;
      modify (set_return_type 2)
  end.

Definition sleep_call (msg : MessageEnvelope) : mop unit :=
  match Message_scalar_message_mut (env_body msg) with
  | None => ret tt
  | Some scalar =>
      forget_message ;;;
      tt_ (recalculate_sleep (Some (mk_TimerRequest (sm_arg1 scalar) (env_sender msg) Sleep 0)))
  end.

(** A timeout that has fired is removed from the notifications. *)
Definition recalculate_call (msg : MessageEnvelope) : mop unit :=
  if negb (get_or_0 (MessageSender_pid (env_sender msg)) =? own_pid) then ret tt
  else
    match Message_scalar_message (env_body msg) with
    | None => ret tt
    | Some args =>
        let s := MessageSender_from_usize (sm_arg1 args) in
        let condvar := sm_arg3 args in
        tt_ stop_sleep ;;;
        fired <- remove_timeout s;;
        (if (fired : bool) then
           ' (before, after) <- tt_ (retain_other s);;
           assert_ (before =? after)%nat ;;;
           table <- gets notify_table;;
           let awaiting := waiters table (MessageSender_pid s) condvar in
           let awaiting' := List.filter (fun v => negb (bool_decide (v = s))) awaiting in
           modify (set_notify (set_waiters table (MessageSender_pid s) condvar awaiting')) ;;;
           assert_ (negb (length awaiting =? length awaiting')%nat)
         else ret tt) ;;;
        tt_ (recalculate_sleep_offline None) ;;;
        tt_ start_sleep
    end.

(** [slept] milliseconds pass while the machine is suspended. *)
Definition suspend_call (slept : Z) (msg : MessageEnvelope) : mop unit :=
  match env_body msg with
  | Scalar _ => tt_ suspend ;;; tt_ (modify (fun t => set_time (time t + slept) t)) ;;; tt_ resume
  | _ => ret tt
  end.

Definition version_call (msg : MessageEnvelope) : mop unit :=
  match env_body msg with
  | MutableBorrow m =>
      m' <- unwrap (version m);; modify (set_msg (Some (mk_MessageEnvelope (env_sender msg) (MutableBorrow m'))))
  | Move m =>
      m' <- unwrap (version m);; modify (set_msg (Some (mk_MessageEnvelope (env_sender msg) (Move m'))))
  | Borrow _ | Scalar _ | BlockingScalar _ => panic
  end.

Definition lock_mutex (msg : MessageEnvelope) : mop unit :=
  match Message_scalar_message_mut (env_body msg) with
  | None => ret tt
  | Some scalar =>
      let pid := MessageSender_pid (env_sender msg) in
      let mutex_id := sm_arg1 scalar in
      x <- gets id;;
      let ready := ready_mutexes x pid in
      modify (set_ready (<[pid := ready ∖ {[mutex_id]}]> (mutex_ready_table x))) ;;;
      if bool_decide (mutex_id ∈ ready) then put_scalar (sm_set_id 0)
      else
        modify (set_mutex (set_waiters (mutex_hash x) pid mutex_id
                             (waiters (mutex_hash x) pid mutex_id ++ [env_sender msg]))) ;;;
        forget_message
  end.

Definition unlock_mutex (msg : MessageEnvelope) : mop unit :=
  match Message_scalar_message (env_body msg) with
  | None => ret tt
  | Some scalar =>
      let pid := MessageSender_pid (env_sender msg) in
      let mutex_id := sm_arg1 scalar in
      x <- gets id;;
      match waiters (mutex_hash x) pid mutex_id with
      | s :: rest =>
          modify (set_mutex (set_waiters (mutex_hash x) pid mutex_id rest)) ;;;
          unwrap_result (return_scalar s 0) ;;;
          put_scalar (sm_set_id 1)
      | [] =>
          modify (set_mutex (set_waiters (mutex_hash x) pid mutex_id [])) ;;;
          modify (set_ready (<[pid := ready_mutexes x pid ∪ {[mutex_id]}]> (mutex_ready_table x))) ;;;
          put_scalar (sm_set_id 0)
      end
  end.

Definition free_mutex (msg : MessageEnvelope) : mop unit :=
  match Message_scalar_message (env_body msg) with
  | None => ret tt
  | Some scalar =>
      let pid := MessageSender_pid (env_sender msg) in
      let mutex_id := sm_arg1 scalar in
      x <- gets id;;
      modify (set_mutex (remove_waiters (mutex_hash x) pid mutex_id)) ;;;
      modify (set_ready (<[pid := ready_mutexes x pid ∖ {[mutex_id]}]> (mutex_ready_table x)))
  end.

Definition wait_for_condition (msg : MessageEnvelope) : mop unit :=
  let pid := MessageSender_pid (env_sender msg) in
  match Message_scalar_message_mut (env_body msg) with
  | None => ret tt
  | Some scalar =>
      let condvar := sm_arg1 scalar in
      let timeout := sm_arg2 scalar in
      (if negb (timeout =? 0) then
         tt_ stop_sleep ;;;
         modify (fun x => set_timeouts (notifications_with_timeouts x ∪ {[MessageSender_to_usize (env_sender msg)]}) x) ;;;
         tt_ (recalculate_sleep_offline (Some (mk_TimerRequest timeout (env_sender msg) Timeout condvar)))
       else ret tt) ;;;
      modify (fun x => set_notify (set_waiters (notify_table x) pid condvar
                                     (waiters (notify_table x) pid condvar ++ [env_sender msg])) x) ;;;
      (if negb (timeout =? 0) then tt_ start_sleep else ret tt) ;;;
      forget_message
  end.

(** Whether the timeout of a waiting thread has fired already: it is known to
    have one that is no longer in the heap. *)
Definition already_fired (entry : MessageSender) : mop (option bool) :=
  with_timeout <- remove_timeout entry;;
  if (with_timeout : bool) then
    ' (before, after) <- tt_ (retain_other entry);;
    assert_ ((before =? after) || (before =? after + 1))%nat ;;;
    ret (Some (before =? after)%nat)
  else ret None.

Fixpoint notify_entries (pid : option Z) (entries : list MessageSender) (notified_count : Z) : mop Z :=
  match entries with
  | [] => ret notified_count
  | entry :: entries =>
      fired <- already_fired entry;;
      if decide (fired = Some true) then notify_entries pid entries notified_count
      else
        r <- attempt (return_scalar entry 0);;
        match r with
        | inr _ => notify_entries pid entries (notified_count + 1)
        | inl ProcessNotFound =>
            modify (fun x => set_mutex (delete pid (mutex_hash x)) x) ;;;
            notify_entries pid entries notified_count
        | inl _ => panic
        end
  end.

Definition notify_condition (msg : MessageEnvelope) : mop unit :=
  let pid := MessageSender_pid (env_sender msg) in
  match Message_scalar_message (env_body msg) with
  | None => ret tt
  | Some scalar =>
      let condvar := sm_arg1 scalar in
      table <- gets notify_table;;
      let awaiting := waiters table pid condvar in
      let requested_count := if sm_arg2 scalar =? 0 then length awaiting else Z.to_nat (sm_arg2 scalar) in
      let count_to_notify := Nat.min requested_count (length awaiting) in
      tt_ stop_sleep ;;;
      modify (set_notify (set_waiters table pid condvar (drop count_to_notify awaiting))) ;;;
      notified_count <- notify_entries pid (take count_to_notify awaiting) 0;;
      tt_ start_sleep ;;;
      put_scalar (sm_set_id notified_count)
  end.

Fixpoint free_entries (entries : list MessageSender) (altered_sleep_heap : bool) : mop bool :=
  match entries with
  | [] => ret altered_sleep_heap
  | entry :: entries =>
      fired <- already_fired entry;;
      match fired with
      | Some true =>
          last <- tt_ last_response;; assert_ (bool_decide (last = entry)) ;;; free_entries entries altered_sleep_heap
      | Some false =>
          last <- tt_ last_response;; assert_ (negb (bool_decide (last = entry))) ;;;
          ok (return_scalar entry 0) ;;; free_entries entries true
      | None => ok (return_scalar entry 0) ;;; free_entries entries altered_sleep_heap
      end
  end.

Definition free_condition (msg : MessageEnvelope) : mop unit :=
  let pid := MessageSender_pid (env_sender msg) in
  match Message_scalar_message (env_body msg) with
  | None => ret tt
  | Some scalar =>
      (if Message_is_blocking (env_body msg) then modify (set_return_type 0) else ret tt) ;;;
      let condvar := sm_arg1 scalar in
      table <- gets notify_table;;
      tt_ stop_sleep ;;;
      modify (set_notify (set_waiters table pid condvar [])) ;;;
      altered <- free_entries (waiters table pid condvar) false;;
      modify (fun x => set_notify (remove_waiters (notify_table x) pid condvar) x) ;;;
      (if (altered : bool) then tt_ (recalculate_sleep_offline None) else ret tt) ;;;
      tt_ start_sleep
  end.

Definition handle_opcode (slept : Z) (opcode : Opcode) (msg : MessageEnvelope) : mop unit :=
  match opcode with
  | ElapsedMs => elapsed_call msg
  | SleepMs => sleep_call msg
  | RecalculateSleep => recalculate_call msg
  | SuspendResume => suspend_call slept msg
  | PingWdt => ret tt
  | GetVersion => version_call msg
  | LockMutex => lock_mutex msg
  | UnlockMutex => unlock_mutex msg
  | FreeMutex => free_mutex msg
  | WaitForCondition => wait_for_condition msg
  | NotifyCondition => notify_condition msg
  | FreeCondition => free_condition msg
  | InvalidCall => ret tt
  end.

(** A turn of the main loop: the reply to the last message, the arrival of the next
    one, and its handler. *)
Definition turn (slept : Z) : mop unit :=
  unwrap_result reply_legacy ;;;
  received <- receive;;
  if (received : bool) then
    m <- gets msg_opt;;
    msg <- unwrap m;;
    handle_opcode slept (Opcode_from_usize (Message_id (env_body msg))) msg
  else ret tt.

(** ** What happens to the server

    Time passes, a client's message is queued in a slot, the alarm interrupts, the
    main loop makes a turn, a process ends. *)
Inductive Event : Type :=
| E_time (ms : Z)
| E_client (slot : nat) (pid tid : Z) (m : Message) (addr : option Z)
| E_irq (slot : option nat)
| E_turn (slept : Z)
| E_exit (pid : Z).

Definition step (e : Event) : mop unit :=
  match e with
  | E_time ms => tt_ (modify (fun t => set_time (time t + ms) t))
  | E_client i pid tid m addr => modify (fun x => set_srv (a_send i (pend_of pid tid m addr) (srv x)) x)
  | E_irq slot => alarm_irq slot
  | E_turn slept => turn slept
  | E_exit pid => modify (fun x => set_gone (gone x ∪ {[pid]}) (set_srv (a_discard pid (srv x)) x))
  end.

Fixpoint steps (es : list Event) : mop unit :=
  match es with
  | [] => ret tt
  | e :: es => step e ;;; steps es
  end.
End Server.

(** [XousTickTimer::new] and [reset], and the empty tables of [main]. *)
Definition Ticktimer_init : Ticktimer :=
  mk_Ticktimer (mk_XousTickTimer 0 false 0 None None 0 0 []) ∅ ∅ ∅ ∅ None 0 empty_aserver ∅ [].
