(* ===== verification/TicktimerFacts.v ===== *)
(** * The ticktimer server: its timer *)

From Stdlib Require Import ZArith Lia Bool Sorting.Sorted.
From Stdlib Require Import Finite.
From stdpp Require Import base numbers list option gmap sorting.
From S2P Require Import Prelude.
From S2P Require Import Abi.
From S2P Require Import Server.
From S2P Require Import ServerSpec.
From S2P Require Import Ticktimer.

#[local] Open Scope Z_scope.
#[local] Open Scope kernel_scope.

(** ** Ordered maps *)

Section BTreeMap.
Context {V : Type}.
Implicit Types (l : list (Z * V)) (k : Z) (v : V).

Definition bt_sorted l : Prop := StronglySorted Z.lt (map fst l).

Lemma bt_contains_In k l : bt_contains k l = true <-> In k (map fst l).
Proof.
  unfold bt_contains. rewrite existsb_exists, in_map_iff. split.
  - intros (e & Hin & H%Z.eqb_eq). eauto.
  - intros (e & H & Hin). exists e. split; [done | by apply Z.eqb_eq].
Qed.

Lemma bt_contains_false k l : bt_contains k l = false <-> ~ In k (map fst l).
Proof. rewrite <- bt_contains_In. by destruct (bt_contains k l). Qed.

Lemma bt_insert_perm k v l : bt_contains k l = false -> bt_insert k v l ≡ₚ (k, v) :: l.
Proof.
  induction l as [| [k' v'] l IH]; intros Hc; cbn; [done |].
  cbn in Hc. apply orb_false_iff in Hc as [Hk Hc]. destruct (k <? k') eqn:E; [done |].
  rewrite Z.eqb_sym, Hk. rewrite (IH Hc). constructor.
Qed.

Lemma bt_insert_sorted k v l : bt_sorted l -> bt_sorted (bt_insert k v l).
Proof.
  unfold bt_sorted. induction l as [| [k' v'] l IH]; intros Hs; cbn; [repeat constructor |].
  cbn in Hs. apply StronglySorted_inv in Hs as [Hs Hall].
  destruct (Z.ltb_spec k k'); cbn.
  { constructor; [by constructor |]. constructor; [done |]. eapply List.Forall_impl; [| exact Hall]. cbn. lia. }
  destruct (Z.eqb_spec k k') as [-> |]; cbn; [by constructor |].
  constructor; [by apply IH |]. clear IH. induction l as [| [k2 v2] l IH]; cbn.
  - constructor; [lia | done].
  - cbn in Hs, Hall. apply StronglySorted_inv in Hs as [Hs _]. inversion Hall; subst.
    destruct (k <? k2); cbn; [repeat constructor; try lia; done |].
    destruct (k =? k2); cbn; constructor; try lia; auto.
Qed.

Lemma bt_retain_sorted f l : bt_sorted l -> bt_sorted (bt_retain f l).
Proof.
  unfold bt_sorted, bt_retain. induction l as [| [k v] l IH]; intros Hs; cbn; [constructor |].
  cbn in Hs. apply StronglySorted_inv in Hs as [Hs Hall]. destruct (f v); cbn; [| by apply IH].
  constructor; [by apply IH |]. rewrite List.Forall_forall in Hall |- *. intros k' Hin. apply Hall.
  apply in_map_iff in Hin as (e & <- & [Hin _]%filter_In). by apply in_map.
Qed.
End BTreeMap.

(** ** The loop that looks for a free key *)

Lemma i64_id x : - 2 ^ 63 <= x < 2 ^ 63 -> i64 x = x.
Proof. intros H. unfold i64. rewrite Z.mod_small by lia. lia. Qed.

(** The keys that are passed over. *)
Lemma next_free_found fuel heap k k' :
  next_free fuel heap k = Some k' -> 0 <= k -> k + Z.of_nat fuel < 2 ^ 63 ->
  bt_contains k' heap = false /\ k <= k' < k + Z.of_nat fuel /\ forall j, k <= j < k' -> In j (map fst heap).
Proof.
  revert k. induction fuel as [| fuel IH]; intros k H H0 Hk; [done |]. cbn in H.
  destruct (bt_contains k heap) eqn:E.
  - rewrite i64_id in H by lia. destruct (IH _ H) as (H1 & H2 & H3); [lia.. |].
    split; [done |]. split; [lia |]. intros j Hj. destruct (decide (j = k)) as [-> |]; [by apply bt_contains_In |].
    apply H3. lia.
  - injection H as <-. split; [done |]. split; [lia |]. lia.
Qed.

Lemma next_free_stuck fuel heap k :
  next_free fuel heap k = None -> 0 <= k -> k + Z.of_nat fuel < 2 ^ 63 ->
  forall j, k <= j < k + Z.of_nat fuel -> In j (map fst heap).
Proof.
  revert k. induction fuel as [| fuel IH]; intros k H H0 Hk j Hj; [lia |]. cbn in H.
  destruct (bt_contains k heap) eqn:E; [| done]. rewrite i64_id in H by lia.
  destruct (decide (j = k)) as [-> |]; [by apply bt_contains_In |]. apply (IH _ H); lia.
Qed.

(** The loop ends: there are fewer keys than turns. *)
Lemma next_free_total heap k :
  0 <= k -> k + Z.of_nat (S (length heap)) < 2 ^ 63 ->
  exists k', next_free (S (length heap)) heap k = Some k' /\ bt_contains k' heap = false
    /\ k <= k' <= k + Z.of_nat (length heap) /\ forall j, k <= j < k' -> In j (map fst heap).
Proof.
  intros H0 Hk. destruct (next_free _ heap k) as [k' |] eqn:E.
  - destruct (next_free_found _ _ _ _ E H0 Hk) as (? & ? & ?). exists k'. split_and!; [done.. | lia | lia | done].
  - exfalso. pose proof (next_free_stuck _ _ _ E H0 Hk) as Hin.
    assert (Hl : (length (map (fun i => (k + Z.of_nat i)%Z) (seq 0 (S (length heap)))) <= length (map fst heap))%nat).
    { apply NoDup_incl_length.
      - apply Finite.Injective_map_NoDup; [intros a b Hab; lia | apply seq_NoDup].
      - intros j (i & <- & Hi%in_seq)%in_map_iff. apply Hin. lia. }
    rewrite !length_map, length_seq in Hl. lia.
Qed.

(** ** The requests and the alarm *)

Definition requests (t : XousTickTimer) : list TimerRequest :=
  match current_response t with Some r => [r] | None => [] end ++ map snd (sleep_heap t).

(** The alarm is armed exactly while there is a current request, at its time, and
    it is the first of all. *)
Record timer_ok (t : XousTickTimer) : Prop := {
  to_sorted : bt_sorted (sleep_heap t);
  to_keys : Forall (fun e => fst e = msec (snd e)) (sleep_heap t);
  to_range : Forall (fun r => 0 <= msec r < 2 ^ 63) (requests t);
  to_armed : match current_response t with
             | Some r => ev_enable_alarm t = true /\ msleep_target t = msec r
                         /\ Forall (fun e => msec r < fst e) (sleep_heap t)
             | None => ev_enable_alarm t = false
             end
}.

Definition timer_stopped (t : XousTickTimer) : Prop := current_response t = None.

(** What the operations on the heap leave alone. *)
Definition same_clock (t t' : XousTickTimer) : Prop :=
  time t' = time t /\ last_responder t' = last_responder t /\ sequence_number t' = sequence_number t
  /\ saved_registers t' = saved_registers t.

Lemma requests_stopped t : timer_stopped t -> requests t = map snd (sleep_heap t).
Proof. unfold timer_stopped, requests. by intros ->. Qed.

Lemma keys_of_requests l :
  Forall (fun e : Z * TimerRequest => fst e = msec (snd e)) l -> map fst l = map msec (map snd l).
Proof. induction 1 as [| e l He Hl IH]; cbn; [done |]. by rewrite He, IH. Qed.

Lemma insert_new_ok t r :
  timer_ok t -> timer_stopped t -> 0 <= msec r < 2 ^ 63 -> bt_contains (msec r) (sleep_heap t) = false ->
  returns (insert_new r t) (fun t' _ =>
    timer_ok t' /\ timer_stopped t' /\ same_clock t t' /\ requests t' ≡ₚ r :: requests t).
Proof.
  intros Ht Hs Hr Hc. pose proof (bt_insert_perm (msec r) r _ Hc) as Hp.
  unfold insert_new. repeat returns_step; [by rewrite Hc |].
  assert (Hreq : requests (set_heap (bt_insert (msec r) r (sleep_heap t)) t) ≡ₚ r :: requests t).
  { rewrite !requests_stopped by done. cbn [set_heap sleep_heap].
    change (r :: map snd (sleep_heap t)) with (map snd ((msec r, r) :: sleep_heap t)). by rewrite Hp. }
  split; [| done]. destruct Ht as [H1 H2 H3 H4]. split; cbn [set_heap sleep_heap current_response ev_enable_alarm].
  - by apply bt_insert_sorted.
  - rewrite Hp. by constructor.
  - rewrite Hreq. by constructor.
  - unfold timer_stopped in Hs. by rewrite Hs in H4 |- *.
Qed.

Lemma stop_sleep_ok t :
  timer_ok t ->
  returns (stop_sleep t) (fun t' _ => timer_ok t' /\ timer_stopped t' /\ same_clock t t' /\ requests t' ≡ₚ requests t).
Proof.
  intros Ht. unfold stop_sleep, stop_interrupt. repeat returns_step.
  set (t0 := set_current None (set_alarm false t)).
  assert (Ht0 : timer_ok t0).
  { destruct Ht as [H1 H2 H3 H4]. split; cbn; try done. unfold requests in *. cbn in *. by apply Forall_app in H3 as [_ ?]. }
  destruct Ht as [_ _ H3 H4]. unfold requests in H3. cbn [current_response set_alarm].
  destruct (current_response t) as [r |] eqn:Ec.
  - destruct H4 as (_ & _ & H4). apply Forall_app in H3 as [H3 _]. inversion H3; subst.
    eapply returns_mono; [apply (insert_new_ok t0 r Ht0) |]; [done | done | |].
    + apply bt_contains_false. cbn. intros ((k & r') & Hk & Hin)%in_map_iff. cbn in Hk. subst.
      rewrite List.Forall_forall in H4. specialize (H4 _ Hin). cbn in H4. lia.
    + intros t1 _ (H1t & Hs1 & Hc1 & Hp). returns_step. split_and!; try done.
      rewrite Hp. unfold requests. by rewrite Ec.
  - repeat returns_step. split_and!; try done. unfold requests. cbn. by rewrite Ec.
Qed.

Lemma target_word k : 0 <= k < 2 ^ 63 -> Z.lor (Z.shiftl (u32 (Z.shiftr k 32)) 32) (u32 k) = k.
Proof.
  intros Hk. rewrite shiftr_div by lia. unfold u32, wrap, modulus. rewrite lor_shiftl_add by (try apply Z.mod_pos_bound; lia).
  rewrite (Z.mod_small (k / 2 ^ 32)).
  - rewrite Z.mul_comm. symmetry. apply Z.div_mod. lia.
  - split; [apply Z.div_pos; lia |]. apply Z.div_lt_upper_bound; lia.
Qed.

Lemma start_sleep_ok t :
  timer_ok t -> timer_stopped t ->
  returns (start_sleep t) (fun t' _ =>
    timer_ok t' /\ same_clock t t' /\ requests t' = requests t /\ (requests t' <> [] -> ev_enable_alarm t' = true)).
Proof.
  intros Ht Hs. pose proof Ht as [H1 H2 H3 H4]. unfold timer_stopped in Hs. rewrite Hs in H4.
  unfold start_sleep. repeat returns_step. unfold requests in *. rewrite Hs in *.
  destruct (sleep_heap t) as [| [k r] rest] eqn:Eh.
  - returns_step. split; [done | split; [done |]]. by rewrite Hs, Eh.
  - repeat returns_step. unfold schedule_response. repeat returns_step; [cbn; by rewrite H4 |].
    cbn in H3. inversion H3 as [| ? ? Hr Hrest]; subst.
    inversion H2 as [| ? ? Hk Hkeys]; subst. cbn in Hk. subst k.
    unfold LATENCY_SLACK_MS. rewrite Z.add_0_r, i64_id, target_word by lia.
    cbn in H1. apply StronglySorted_inv in H1 as [H1 Hall].
    split; [| by split_and!]. split; cbn; try done. split_and!; [done.. |].
    rewrite List.Forall_forall in Hall |- *. intros e Hin. by apply Hall, in_map.
Qed.

(** A new request gets the first free millisecond at or after its time. *)
Lemma offline_new_ok t r :
  timer_ok t -> timer_stopped t -> 0 <= msec r -> 0 <= time t -> time t + msec r + Z.of_nat (S (length (sleep_heap t))) < 2 ^ 63 ->
  returns (recalculate_sleep_offline (Some r) t) (fun t' _ =>
    timer_ok t' /\ timer_stopped t' /\ same_clock t t' /\
    exists k, requests t' ≡ₚ set_msec k r :: requests t
      /\ time t + msec r <= k <= time t + msec r + Z.of_nat (length (sleep_heap t))).
Proof.
  intros Ht Hs Hr Ht0 Hb. unfold recalculate_sleep_offline, elapsed_ms, TICKS_PER_MS.
  repeat returns_step. rewrite Z.div_1_r. repeat returns_step.
  rewrite !i64_id by (rewrite ?i64_id; lia).
  destruct (next_free_total (sleep_heap t) (msec r + time t)) as (k & -> & Hc & Hk & _); [lia.. |].
  eapply returns_mono; [apply (insert_new_ok t (set_msec k r)) |]; [done | done | cbn; lia | done |].
  intros t' _ (? & ? & ? & Hp). split_and!; try done. exists k. split; [done | lia].
Qed.

Lemma offline_none_ok t : recalculate_sleep_offline None t = ROk t tt.
Proof. done. Qed.

(** Removing the requests of one sender. *)
Lemma retain_other_ok t s :
  timer_ok t -> timer_stopped t ->
  returns (retain_other s t) (fun t' lens =>
    timer_ok t' /\ timer_stopped t' /\ same_clock t t'
    /\ requests t' = List.filter (fun v => negb (bool_decide (sender v = s))) (requests t)
    /\ lens = (length (requests t), length (requests t'))).
Proof.
  intros Ht Hs. unfold retain_other. repeat returns_step. set (f := fun v => negb _).
  assert (Hm : map snd (bt_retain f (sleep_heap t)) = List.filter f (map snd (sleep_heap t))).
  { unfold bt_retain. induction (sleep_heap t) as [| [k v] l IH]; cbn; [done |]. destruct (f v); cbn; by rewrite IH. }
  pose proof Hs as Hs'. unfold timer_stopped in Hs'. destruct Ht as [H1 H2 H3 H4]. split_and!; try done.
  - rewrite requests_stopped in H3 by done. split; cbn [set_heap sleep_heap current_response ev_enable_alarm].
    + by apply bt_retain_sorted.
    + rewrite List.Forall_forall in H2 |- *. intros e [Hin _]%filter_In. by apply H2.
    + rewrite requests_stopped by done. cbn [set_heap sleep_heap]. rewrite Hm.
      rewrite List.Forall_forall in H3 |- *. intros e [Hin _]%filter_In. by apply H3.
    + by rewrite Hs' in H4 |- *.
  - rewrite !requests_stopped by done. exact Hm.
  - rewrite !requests_stopped by done. cbn [set_heap sleep_heap]. by rewrite !length_map.
Qed.
