(* ===== verification/TicktimerInv.v ===== *)
(** * The ticktimer server: what its tables mean

    Every thread that waits for the ticktimer is in one place: it sleeps, it waits
    for a condition, with a timeout or without, or it waits for a mutex.  A thread
    whose timeout has fired stays in the table of conditions until the server has
    read the message of the interrupt handler.  The invariant relates the heap, the
    alarm, the tables and the messages in the queue to the places of the threads,
    and the places to the replies that the kernel owes. *)

From Stdlib Require Import ZArith Lia Bool.
From stdpp Require Import base numbers list option gmap.
From S2P Require Import Prelude.
From S2P Require Import Abi.
From S2P Require Import Server.
From S2P Require Import ServerSpec.
From S2P Require Import Port.
From S2P Require Import Ticktimer.
From S2P Require Import TicktimerFacts.

#[local] Open Scope Z_scope.
#[local] Open Scope kernel_scope.

(** ** Tables *)

Lemma waiters_set t pid c l pid' c' :
  waiters (set_waiters t pid c l) pid' c' = if decide (pid' = pid /\ c' = c) then l else waiters t pid' c'.
Proof.
  unfold waiters, set_waiters. destruct (decide (pid' = pid)) as [-> | Hp].
  - rewrite lookup_insert_eq. cbn. destruct (decide (c' = c)) as [-> | Hc].
    + rewrite lookup_insert_eq, decide_True by done. done.
    + rewrite lookup_insert_ne, decide_False by (done || by intros []). done.
  - rewrite lookup_insert_ne, decide_False by (done || by intros []). done.
Qed.

Lemma waiters_remove t pid c pid' c' :
  waiters (remove_waiters t pid c) pid' c' = if decide (pid' = pid /\ c' = c) then [] else waiters t pid' c'.
Proof.
  unfold waiters, remove_waiters. destruct (decide (pid' = pid)) as [-> | Hp].
  - rewrite lookup_insert_eq. cbn. destruct (decide (c' = c)) as [-> | Hc].
    + rewrite lookup_delete_eq, decide_True by done. done.
    + rewrite lookup_delete_ne, decide_False by (done || by intros []). done.
  - rewrite lookup_insert_ne, decide_False by (done || by intros []). done.
Qed.

Lemma waiters_delete t pid pid' c' :
  waiters (delete pid t) pid' c' = if decide (pid' = pid) then [] else waiters t pid' c'.
Proof.
  unfold waiters. destruct (decide (pid' = pid)) as [-> | Hp].
  - by rewrite lookup_delete_eq.
  - by rewrite lookup_delete_ne.
Qed.

(** ** Senders *)

#[local] Abbreviation word := MessageSender_to_usize.
#[local] Abbreviation of_word := MessageSender_from_usize.

Lemma of_word_word s : of_word (word s) = s.
Proof. by destruct s. Qed.

(** ** Places *)

Inductive Place : Type :=
| P_sleep (deadline : Z)
| P_wait (condvar : Z) (deadline : option Z)
| P_fired (condvar : Z)
| P_lock (mutex : Z).

Abbreviation Places := (gmap Z Place).

Definition request_place (r : TimerRequest) : Place :=
  match kind r with Sleep => P_sleep (msec r) | Timeout => P_wait (data r) (Some (msec r)) end.

Definition is_request (G : Places) (r : TimerRequest) : Prop :=
  G !! word (sender r) = Some (request_place r) /\ (kind r = Sleep -> data r = 0).

(** The condition and the mutex that a thread waits for. *)
Definition cond_of (o : option Place) : option Z :=
  match o with Some (P_wait c _) | Some (P_fired c) => Some c | _ => None end.

Definition lock_of (o : option Place) : option Z := match o with Some (P_lock m) => Some m | _ => None end.

(** The places of a thread that changes its place. *)
Definition upd (w : Z) (o : option Place) (G : Places) : Places := partial_alter (fun _ => o) w G.

Lemma lookup_upd w o G w' : upd w o G !! w' = if decide (w' = w) then o else G !! w'.
Proof.
  unfold upd. destruct (decide (w' = w)) as [-> |]; [by rewrite lookup_partial_alter_eq | by rewrite lookup_partial_alter_ne].
Qed.

Definition requests_ok (l : list TimerRequest) (G : Places) : Prop :=
  NoDup l /\ forall r, In r l <-> is_request G r.

(** A table of waiting threads has every thread that waits for [f], once. *)
Definition waiters_ok (f : option Place -> option Z) (t : Waiters) (G : Places) : Prop :=
  (forall pid c, NoDup (waiters t pid c))
  /\ forall pid c s, In s (waiters t pid c) <-> MessageSender_pid s = pid /\ f (G !! word s) = Some c.

Definition has_timeout (o : option Place) : Prop :=
  match o with Some (P_wait _ (Some _)) | Some (P_fired _) => True | _ => False end.

Definition timeouts_ok (n : gset Z) (G : Places) : Prop := forall w, w ∈ n <-> has_timeout (G !! w).

(** ** One thread changes its place *)

Lemma is_request_upd w o G r :
  is_request (upd w o G) r <->
  (if decide (word (sender r) = w) then o = Some (request_place r) /\ (kind r = Sleep -> data r = 0) else is_request G r).
Proof. unfold is_request. rewrite lookup_upd. by destruct (decide _). Qed.

Lemma request_unique l G r r' :
  requests_ok l G -> In r l -> In r' l -> sender r = sender r' -> r = r'.
Proof.
  intros [_ H] [H1 D1]%H [H2 D2]%H E. rewrite E, H2 in H1. injection H1 as H1. unfold request_place in H1.
  destruct r as [m s k d], r' as [m' s' k' d']. cbn in *. subst s'.
  destruct k, k'; try done; injection H1; intros; subst; f_equal. by rewrite D1, D2.
Qed.

(** A new request of a thread that had none. *)
Lemma requests_ok_add l G r :
  requests_ok l G -> G !! word (sender r) = None -> (kind r = Sleep -> data r = 0) ->
  requests_ok (r :: l) (upd (word (sender r)) (Some (request_place r)) G).
Proof.
  intros [Hn H] Hw Hd. split.
  - constructor; [| done]. intros [Hr _]%list_elem_of_In%H. congruence.
  - intros r'. rewrite is_request_upd. cbn. rewrite H. destruct (decide _) as [E |]; [| split; [by intros [<- | ?] | by right]].
    split.
    + intros [<- | [Hr' _]]; [done |]. rewrite E in Hr'. congruence.
    + intros [Hr' Hd']. left. injection Hr' as Hr'. destruct r as [m s k d], r' as [m' s' k' d']. cbn in *.
      assert (s = s') as <- by (rewrite <- (of_word_word s), <- (of_word_word s'); by f_equal).
      unfold request_place in Hr'. cbn in Hr'. destruct k, k'; try done; injection Hr'; intros; subst; f_equal.
      by rewrite Hd, Hd'.
Qed.

(** A change between places without a request. *)
Definition no_request (o : option Place) : Prop :=
  match o with Some (P_sleep _) | Some (P_wait _ (Some _)) => False | _ => True end.

Lemma no_request_not o r : no_request o -> o <> Some (request_place r).
Proof. unfold request_place. intros H ->. by destruct (kind r). Qed.

Lemma requests_ok_skip l G w o : requests_ok l G -> no_request (G !! w) -> no_request o -> requests_ok l (upd w o G).
Proof.
  intros [Hn H] Hw Ho. split; [done |]. intros r. rewrite is_request_upd, H. destruct (decide _) as [E |]; [| done].
  unfold is_request. rewrite E.
  split; intros [Hr _]; exfalso; [exact (no_request_not _ _ Hw Hr) | exact (no_request_not _ _ Ho Hr)].
Qed.

(** The request of a thread is removed. *)
Lemma requests_ok_del l l' G r o :
  requests_ok l G -> l ≡ₚ r :: l' -> no_request o -> requests_ok l' (upd (word (sender r)) o G).
Proof.
  intros Hl Hp Ho. pose proof Hl as [Hn H]. rewrite Hp in Hn. apply NoDup_cons in Hn as [Hr Hn]. split; [done |].
  intros r'. rewrite is_request_upd.
  assert (Hin : In r' l <-> r = r' \/ In r' l') by 
    (rewrite <- !list_elem_of_In, Hp, elem_of_cons; split; intros [-> | ?]; auto).
  destruct (decide _) as [E |].
  - split; [| intros [Hr' _]; exfalso; exact (no_request_not _ _ Ho Hr')]. intros Hr'. exfalso.
    assert (r = r') as <-; [| by apply Hr, list_elem_of_In].
    apply (request_unique l G); [done | rewrite <- list_elem_of_In, Hp; left | tauto |].
    rewrite <- (of_word_word (sender r)), <- (of_word_word (sender r')). by f_equal.
  - rewrite <- H, Hin. split; [by right |]. intros [-> | ?]; done.
Qed.

Lemma word_inj s s' : word s = word s' -> s = s'.
Proof. intros E. rewrite <- (of_word_word s), <- (of_word_word s'). by f_equal. Qed.

Section Table.
Context (f : option Place -> option Z).

Lemma waiters_ok_same t G w o : waiters_ok f t G -> f o = f (G !! w) -> waiters_ok f t (upd w o G).
Proof.
  intros [Hn H] Hf. split; [done |]. intros pid c s. rewrite H, lookup_upd.
  destruct (decide _) as [E |]; [by rewrite Hf, E | done].
Qed.

(** A thread is added at the end. *)
Lemma waiters_ok_push t G s c o :
  waiters_ok f t G -> f (G !! word s) = None -> f o = Some c ->
  let pid := MessageSender_pid s in
  waiters_ok f (set_waiters t pid c (waiters t pid c ++ [s])) (upd (word s) o G).
Proof.
  intros [Hn H] Hs Ho pid.
  assert (Hni : forall pid' c', ~ In s (waiters t pid' c')) by (intros pid' c' [_ Hs']%H; congruence).
  split.
  - intros pid' c'. rewrite waiters_set. destruct (decide _); [| done].
    apply NoDup_app. split_and!; [done | | apply NoDup_singleton].
    intros s' Hs'%list_elem_of_In ->%list_elem_of_singleton. by eapply Hni.
  - intros pid' c' s'. rewrite waiters_set, lookup_upd. destruct (decide (word s' = word s)) as [E%word_inj | Hne].
    + subst s'. rewrite Ho. destruct (decide _) as [[-> ->] | Hd].
      * rewrite in_app_iff. cbn. tauto.
      * split; [by intros ?%Hni |]. intros [<- [= ->]]. by destruct Hd.
    + assert (s' <> s) by congruence. destruct (decide _) as [[-> ->] |]; [| by rewrite H].
      rewrite in_app_iff. cbn. rewrite H. split; [by intros [? | [? | []]] | by left].
Qed.

(** The first thread is removed. *)
Lemma waiters_ok_pop t G s rest pid c o :
  waiters_ok f t G -> waiters t pid c = s :: rest -> f o = None ->
  waiters_ok f (set_waiters t pid c rest) (upd (word s) o G).
Proof.
  intros [Hn H] Hw Ho. pose proof (Hn pid c) as Hnd. rewrite Hw in Hnd. apply NoDup_cons in Hnd as [Hni Hnd].
  assert (Hs : MessageSender_pid s = pid /\ f (G !! word s) = Some c) by (apply H; rewrite Hw; by left).
  split.
  - intros pid' c'. rewrite waiters_set. by destruct (decide _).
  - intros pid' c' s'. rewrite waiters_set, lookup_upd. destruct (decide (word s' = word s)) as [E%word_inj | Hne].
    + subst s'. rewrite Ho. split; [| by intros []]. destruct (decide _) as [[-> ->] | Hd].
      * intros Hin. exfalso. by apply Hni, list_elem_of_In.
      * intros [Hp Hc]%H. destruct Hs as [Hp' Hc']. destruct Hd. split; congruence.
    + destruct (decide _) as [[-> ->] |]; [| by rewrite H]. rewrite <- H, Hw. cbn.
      split; [by right |]. intros [-> | ?]; done.
Qed.

(** A thread is removed from its list. *)
Lemma waiters_ok_filter t G s c o :
  waiters_ok f t G -> f (G !! word s) = Some c -> f o = None ->
  let pid := MessageSender_pid s in
  waiters_ok f (set_waiters t pid c (List.filter (fun v => negb (bool_decide (v = s))) (waiters t pid c)))
    (upd (word s) o G).
Proof.
  intros [Hn H] Hc Ho pid. split.
  - intros pid' c'. rewrite waiters_set. destruct (decide _); [| done].
    apply NoDup_ListNoDup, List.NoDup_filter, NoDup_ListNoDup, Hn.
  - intros pid' c' s'. rewrite waiters_set, lookup_upd. destruct (decide (word s' = word s)) as [E%word_inj | Hne].
    + subst s'. rewrite Ho. split; [| by intros []]. destruct (decide _) as [[-> ->] | Hd].
      * rewrite filter_In, bool_decide_true by done. by intros [_ ?].
      * intros [Hp Hc']%H. destruct Hd. split; [by rewrite <- Hp | congruence].
    + destruct (decide _) as [[-> ->] |]; [| by rewrite H]. rewrite filter_In, H, bool_decide_false by congruence. tauto.
Qed.
End Table.

Lemma timeouts_ok_upd n n' G w o :
  timeouts_ok n G -> (forall w', w' <> w -> w' ∈ n' <-> w' ∈ n) -> (w ∈ n' <-> has_timeout o) ->
  timeouts_ok n' (upd w o G).
Proof.
  intros H Hn Hw w'. rewrite lookup_upd. destruct (decide _) as [-> |]; [done |]. rewrite Hn by done. apply H.
Qed.

Section Server.
Context (own_sidx own_pid : Z) (version : MemoryMessage -> option MemoryMessage).
Context (Hsidx : 0 <= own_sidx < 256).

#[local] Abbreviation sender_of := (sender_of own_sidx).

(** The reply that the kernel owes to a thread. *)
Definition owes (a : aserver) (s : MessageSender) (pid tid : Z) : Prop :=
  exists i ra, (i < QUEUE_LEN)%nat /\ wf_pid pid = true /\ s = sender_of i pid
    /\ replies a !! i = Some (W_scalar pid tid ra).

Lemma owes_slot a s pid tid :
  owes a s pid tid ->
  (slot_of s < QUEUE_LEN)%nat /\ wf_pid pid = true /\ s = sender_of (slot_of s) pid /\ MessageSender_pid s = Some pid
  /\ exists ra, replies a !! slot_of s = Some (W_scalar pid tid ra).
Proof. intros (i & ra & Hi & Hp & -> & Hr). rewrite slot_sender_of, pid_sender_of by done. eauto 10. Qed.

(** The kernel after a reply. *)
Definition replied (s : MessageSender) (a : aserver) : aserver := mk_aserver (pending a) (delete (slot_of s) (replies a)).

Lemma take_waiting_reply x i pid w :
  (i < QUEUE_LEN)%nat -> wf_pid pid = true -> replies (srv x) !! i = Some w ->
  take_waiting own_sidx (sender_of i pid) x
  = ROk (set_srv (replied (sender_of i pid) (srv x)) x) (reply_result w).
Proof.
  intros Hi Hp Hr. unfold take_waiting, replied. rewrite slot_sender_of, sender_of_id by done. cbn [sender_sidx sender_idx].
  rewrite Z.eqb_refl. cbn [negb]. unfold bind, gets, modify. rewrite Nat2Z.id. unfold a_reply.
  rewrite (proj2 (Nat.leb_gt _ _)) by done. rewrite Hr. by destruct w.
Qed.

Lemma take_waiting_owed x s pid tid :
  owes (srv x) s pid tid ->
  take_waiting own_sidx s x = ROk (set_srv (replied s (srv x)) x) (WM_ScalarMessage pid tid).
Proof.
  intros (i & ra & Hi & Hp & -> & Hr). by rewrite (take_waiting_reply _ _ _ (W_scalar pid tid ra)).
Qed.

Lemma return_scalar_owed x s v pid tid :
  owes (srv x) s pid tid ->
  return_scalar own_sidx s v x
  = let x' := set_srv (replied s (srv x)) x in
    if bool_decide (pid ∈ gone x) then RErr x' ProcessNotFound
    else ROk (set_answers (answers x ++ [mk_Answer (time (timer x)) (slot_of s) pid tid (R_Scalar1 v)]) x') tt.
Proof.
  intros H. unfold return_scalar, bind. rewrite (take_waiting_owed _ _ _ _ H). unfold answer_client, bind, gets. cbn.
  by case_bool_decide.
Qed.

(** ** The invariant *)

(** The message that the interrupt handler has queued for a request. *)
Definition is_recalc (p : pend) (w c : Z) : Prop :=
  p_pid p = own_pid /\ exists k, p_msg p = Scalar (mk_ScalarMessage RecalculateSleep_id w k c 0).

(** Every thread in a place is owed a reply, but for one whose timeout has fired;
    [hand] is the message of the interrupt handler that the server handles. *)
Definition owed_ok (a : aserver) (ended : gset Z) (hand : option (Z * Z)) (G : Places) : Prop :=
  forall w pl, G !! w = Some pl ->
    match pl with
    | P_fired c => hand = Some (w, c) \/ exists i p, In (i, p) (pending a) /\ is_recalc p w c
    | P_lock _ => exists pid tid, owes a (of_word w) pid tid /\ ~ (pid ∈ ended)
    | _ => exists pid tid, owes a (of_word w) pid tid
    end.

(** The arguments of a call are machine words. *)
Definition call_words (m : Message) : bool :=
  match m with BlockingScalar s => wf_word (sm_arg1 s) && wf_word (sm_arg2 s) | _ => true end.

(** The messages that wait for the server. *)
Record inbox_ok (a : aserver) (ended : gset Z) (G : Places) : Prop := {
  io_nodup : NoDup (pending a).*1;
  io_slots i p : In (i, p) (pending a) -> (i < QUEUE_LEN)%nat /\ replies a !! i = None;
  io_wf i p : In (i, p) (pending a) -> wf_pend p = true /\ call_words (p_msg p) = true;
  io_gone i p : In (i, p) (pending a) -> p_pid p ∈ ended -> Message_is_blocking (delivered p) = false;
  io_own i p : In (i, p) (pending a) -> p_pid p = own_pid -> Message_id (p_msg p) = RecalculateSleep_id ->
    exists j pid c, (j < QUEUE_LEN)%nat /\ wf_pid pid = true /\ is_recalc p (word (sender_of j pid)) c;
  io_recalc l1 i p l2 w c : pending a = l1 ++ (i, p) :: l2 -> is_recalc p w c ->
    replies a !! slot_of (of_word w) = None /\ ~ (slot_of (of_word w) ∈ l1.*1)
    /\ forall pl, G !! w = Some pl -> pl = P_fired c
}.

(** The message that the server handles. *)
Definition in_hand (x : Ticktimer) (G : Places) : Prop :=
  match msg_opt x with
  | None => True
  | Some env =>
      Message_is_blocking (env_body env) = true ->
      exists i pid w, (i < QUEUE_LEN)%nat /\ wf_pid pid = true /\ env_sender env = sender_of i pid
        /\ ~ (pid ∈ gone x) /\ G !! word (env_sender env) = None /\ replies (srv x) !! i = Some w
        /\ match env_body env, w with
           | BlockingScalar _, W_scalar pid' _ _ => pid' = pid
           | (Borrow _ | MutableBorrow _), W_memory pid' _ _ _ _ => pid' = pid
           | _, _ => False
           end
  end.

(** The reply of the slot [i] is the one for the message in hand. *)
Definition held (x : Ticktimer) (i : nat) : Prop :=
  exists env, msg_opt x = Some env /\ Message_is_blocking (env_body env) = true /\ slot_of (env_sender env) = i.

(** A thread that is still to be woken. *)
Definition placed (o : option Place) : Prop :=
  match o with Some (P_sleep _) | Some (P_wait _ _) | Some (P_lock _) => True | _ => False end.

(** Nobody is forgotten: a reply that the kernel owes is the one for the message in
    hand, or the one of a thread in a place. *)
Definition covered (x : Ticktimer) (G : Places) : Prop :=
  forall i w, replies (srv x) !! i = Some w ->
    held x i \/ exists pid tid ra, w = W_scalar pid tid ra /\ (i < QUEUE_LEN)%nat /\ wf_pid pid = true
      /\ placed (G !! word (sender_of i pid)).

Definition TIME_MAX : Z := 2 ^ 62.

Record all_ok (x : Ticktimer) (hand : option (Z * Z)) (G : Places) : Prop := {
  ok_timer : timer_ok (timer x);
  ok_time : 0 <= time (timer x) <= TIME_MAX;
  ok_requests : requests_ok (requests (timer x)) G;
  ok_notify : waiters_ok cond_of (notify_table x) G;
  ok_mutex : waiters_ok lock_of (mutex_hash x) G;
  ok_timeouts : timeouts_ok (notifications_with_timeouts x) G;
  ok_owed : owed_ok (srv x) (gone x) hand G;
  ok_inbox : inbox_ok (srv x) (gone x) G;
  ok_hand : in_hand x G;
  ok_covered : covered x G
}.

(** *** Owed replies *)

Lemma owes_fun a s pid tid s' pid' tid' :
  owes a s pid tid -> owes a s' pid' tid' -> slot_of s = slot_of s' -> s = s'.
Proof.
  intros (_ & _ & Hs & _ & ra & Hr)%owes_slot (_ & _ & Hs' & _ & ra' & Hr')%owes_slot E.
  rewrite E, Hr' in Hr. injection Hr as -> _ _. rewrite Hs, Hs'. by rewrite E.
Qed.

Lemma owes_replied a s s' pid tid pid' tid' :
  owes a s pid tid -> owes a s' pid' tid' -> s' <> s -> owes (replied s a) s' pid' tid'.
Proof.
  intros H H' Hne. pose proof (owes_slot _ _ _ _ H') as (Hi & Hp & Hs & _ & ra & Hr).
  exists (slot_of s'), ra. split_and!; try done. cbn. rewrite lookup_delete_ne; [done |].
  intros E. by apply Hne; symmetry; eapply owes_fun.
Qed.

(** The thread is placed, and the kernel owes it a reply. *)
Lemma owed_ok_place a ended hand G w pl pid tid :
  owed_ok a ended hand G -> owes a (of_word w) pid tid -> ~ (pid ∈ ended) -> (forall c, pl <> P_fired c) ->
  owed_ok a ended hand (upd w (Some pl) G).
Proof.
  intros H Ho He Hf w' pl'. rewrite lookup_upd. destruct (decide _) as [-> |]; [| apply H].
  intros [= <-]. destruct pl; eauto. by destruct (Hf condvar).
Qed.

(** The thread gets its reply and has no place. *)
Lemma owed_ok_reply a ended hand G s pid tid :
  owed_ok a ended hand G -> owes a s pid tid -> owed_ok (replied s a) ended hand (upd (word s) None G).
Proof.
  intros H Ho w' pl'. rewrite lookup_upd. destruct (decide _) as [|Hne]; [done |]. intros Hw.
  assert (Hs : of_word w' <> s) by (intros <-; by apply Hne). specialize (H w' pl' Hw).
  destruct pl'; cbn [pending replied]; try done.
  - destruct H as (pid' & tid' & ?). exists pid', tid'. by eapply owes_replied.
  - destruct H as (pid' & tid' & ?). exists pid', tid'. by eapply owes_replied.
  - destruct H as (pid' & tid' & ? & ?). exists pid', tid'. split; [by eapply owes_replied | done].
Qed.

(** *** Nobody is forgotten *)

Lemma covered_same x x' G : covered x G -> srv x' = srv x -> msg_opt x' = msg_opt x -> covered x' G.
Proof. intros H Es Em i w. rewrite Es. intros Hr. unfold held. rewrite Em. by apply H. Qed.

(** Only the place of the slot [slot_of s] changes. *)
Lemma placed_other G s o i pid :
  (i < QUEUE_LEN)%nat -> wf_pid pid = true -> i <> slot_of s ->
  upd (word s) o G !! word (sender_of i pid) = G !! word (sender_of i pid).
Proof.
  intros Hi Hp Hne. rewrite lookup_upd. destruct (decide _) as [E |]; [| done]. apply word_inj in E. subst s.
  by rewrite slot_sender_of in Hne.
Qed.

(** The thread of the message in hand gets a place. *)
Lemma covered_placed x x' G s pl pid tid :
  covered x G -> srv x' = srv x -> (forall i, held x i -> i = slot_of s) -> owes (srv x) s pid tid ->
  placed (Some pl) -> covered x' (upd (word s) (Some pl) G).
Proof.
  intros H Es Hh (Hi & Hp & Hs & _ & ra & Hr)%owes_slot Hpl i w. rewrite Es. intros Hw. right.
  destruct (decide (i = slot_of s)) as [-> | Hne].
  - rewrite Hr in Hw. injection Hw as <-. exists pid, tid, ra. split_and!; try done. rewrite <- Hs, lookup_upd. by rewrite decide_True.
  - destruct (H i w Hw) as [Hi' | (pid' & tid' & ra' & -> & Hi' & Hp' & Hpl')]; [by destruct Hne; apply Hh |].
    exists pid', tid', ra'. split_and!; try done. by rewrite placed_other.
Qed.

(** A thread gets its reply. *)
Lemma covered_replied x x' G s o :
  covered x G -> replies (srv x') = delete (slot_of s) (replies (srv x)) -> msg_opt x' = msg_opt x ->
  covered x' (upd (word s) o G).
Proof.
  intros H Es Em i w. rewrite Es. intros [Hne Hw]%lookup_delete_Some. unfold held. rewrite Em.
  destruct (H i w Hw) as [? | (pid & tid & ra & -> & Hi & Hp & Hpl)]; [by left | right].
  exists pid, tid, ra. split_and!; try done. by rewrite placed_other.
Qed.

Lemma covered_answered x x' G s :
  covered x G -> replies (srv x') = delete (slot_of s) (replies (srv x)) -> (forall i, held x i -> i = slot_of s) ->
  covered x' G.
Proof.
  intros H Es Hh i w. rewrite Es. intros [Hne Hw]%lookup_delete_Some. right.
  destruct (H i w Hw) as [Hi | ?]; [by destruct Hne; symmetry; apply Hh | done].
Qed.

(** A thread without a reply to come leaves its place. *)
Lemma covered_unplaced x x' G w o :
  covered x G -> srv x' = srv x -> msg_opt x' = msg_opt x -> ~ placed (G !! w) -> covered x' (upd w o G).
Proof.
  intros H Es Em Hn i v. rewrite Es. intros Hv. unfold held. rewrite Em.
  destruct (H i v Hv) as [? | (pid & tid & ra & -> & Hi & Hp & Hpl)]; [by left | right].
  exists pid, tid, ra. split_and!; try done. rewrite lookup_upd. by destruct (decide _) as [<- |].
Qed.

(** No message in hand needs a reply. *)
Lemma covered_idle x x' G :
  covered x G -> srv x' = srv x -> (forall env, msg_opt x = Some env -> Message_is_blocking (env_body env) = false) ->
  covered x' G.
Proof.
  intros H Es Hm i w. rewrite Es. intros Hw. right. destruct (H i w Hw) as [(env & E & Hb & _) | ?]; [| done].
  by rewrite (Hm env E) in Hb.
Qed.

(** *** Messages in the queue *)

Lemma inbox_ok_upd a ended G w o :
  inbox_ok a ended G -> (o = None \/ replies a !! slot_of (of_word w) <> None) -> inbox_ok a ended (upd w o G).
Proof.
  intros [] Ho. split; try done. intros l1 i p l2 w' c Hp Hr. destruct (io_recalc0 _ _ _ _ _ _ Hp Hr) as (H1 & H2 & H3).
  split_and!; [done.. |]. intros pl. rewrite lookup_upd. destruct (decide _) as [-> |]; [| apply H3].
  destruct Ho as [-> | Ho]; done.
Qed.

Lemma inbox_ok_replied a ended G s : inbox_ok a ended G -> inbox_ok (replied s a) ended G.
Proof.
  assert (Hd : forall i, replies a !! i = None -> delete (slot_of s) (replies a) !! i = None).
  { intros i Hi. destruct (decide (i = slot_of s)) as [-> |]; [apply lookup_delete_eq | by rewrite lookup_delete_ne]. }
  intros []. split; cbn [pending replies replied]; try done.
  - intros i p Hin. destruct (io_slots0 i p Hin). auto.
  - intros l1 i p l2 w' c Hp Hr. destruct (io_recalc0 _ _ _ _ _ _ Hp Hr) as (H1 & H2 & H3). auto.
Qed.
End Server.
