(* ===== verification/TicktimerSteps.v ===== *)
(** * The ticktimer server: every step keeps its invariant *)

From Stdlib Require Import ZArith Lia Bool.
From stdpp Require Import base numbers list option gmap.
From S2P Require Import Prelude.
From S2P Require Import Abi.
From S2P Require Import Server.
From S2P Require Import ServerSpec.
From S2P Require Import Port.
From S2P Require Import Ticktimer.
From S2P Require Import TicktimerFacts.
From S2P Require Import TicktimerInv.

#[local] Open Scope Z_scope.
#[local] Open Scope kernel_scope.

#[local] Abbreviation word := MessageSender_to_usize.
#[local] Abbreviation of_word := MessageSender_from_usize.

Section Server.
Context (own_sidx own_pid : Z) (version : MemoryMessage -> option MemoryMessage).
Context (Hsidx : 0 <= own_sidx < 256).

#[local] Abbreviation all_ok := (all_ok own_sidx own_pid).
#[local] Abbreviation owes := (owes own_sidx).

(** ** The timer in the server *)

Lemma requests_ok_perm l l' G : requests_ok l G -> l' ≡ₚ l -> requests_ok l' G.
Proof.
  intros [Hn H] Hp. split; [by rewrite Hp |]. intros r. rewrite <- H, <- !list_elem_of_In. by rewrite Hp.
Qed.

Lemma all_ok_timer x hand G t' :
  all_ok x hand G -> timer_ok t' -> same_clock (timer x) t' -> requests t' ≡ₚ requests (timer x) ->
  all_ok (set_timer t' x) hand G.
Proof.
  intros [] Ht (Htime & _) Hp. split; cbn; try done; [by rewrite Htime | by eapply requests_ok_perm].
Qed.

Lemma stop_run x :
  timer_ok (timer x) ->
  returns (tt_ stop_sleep x) (fun x' _ =>
    exists t', x' = set_timer t' x /\ timer_ok t' /\ same_clock (timer x) t' /\ timer_stopped t'
      /\ requests t' ≡ₚ requests (timer x)).
Proof.
  intros Hx. unfold tt_. returns_step. eapply returns_mono; [by apply stop_sleep_ok |].
  intros t' _ (Ht & Hs & Hc & Hp). by exists t'.
Qed.

Lemma stop_ok x hand G :
  all_ok x hand G ->
  returns (tt_ stop_sleep x) (fun x' _ =>
    exists t', x' = set_timer t' x /\ same_clock (timer x) t' /\ timer_stopped t' /\ all_ok x' hand G).
Proof.
  intros Hx. eapply returns_mono; [apply stop_run, Hx |].
  intros x' _ (t' & -> & Ht & Hc & Hs & Hp). exists t'. split_and!; try done. by apply all_ok_timer.
Qed.

Lemma start_run x :
  timer_ok (timer x) -> timer_stopped (timer x) ->
  returns (tt_ start_sleep x) (fun x' _ =>
    exists t', x' = set_timer t' x /\ timer_ok t' /\ same_clock (timer x) t' /\ requests t' = requests (timer x)
      /\ (requests t' <> [] -> ev_enable_alarm t' = true)).
Proof.
  intros Hx Hs. unfold tt_. returns_step. eapply returns_mono; [by apply start_sleep_ok |].
  intros t' _ (Ht & Hc & Hr & Ha). by exists t'.
Qed.

Lemma start_ok x hand G :
  all_ok x hand G -> timer_stopped (timer x) ->
  returns (tt_ start_sleep x) (fun x' _ =>
    exists t', x' = set_timer t' x /\ same_clock (timer x) t' /\ requests t' = requests (timer x)
      /\ (requests t' <> [] -> ev_enable_alarm t' = true) /\ all_ok x' hand G).
Proof.
  intros Hx Hs. eapply returns_mono; [apply start_run; [apply Hx | done] |].
  intros x' _ (t' & -> & Ht & Hc & Hr & Ha). exists t'. split_and!; try done. apply all_ok_timer; try done. by rewrite Hr.
Qed.

(** There are at most as many requests as slots. *)
Lemma requests_bounded x hand G : all_ok x hand G -> (length (requests (timer x)) <= QUEUE_LEN)%nat.
Proof.
  intros [_ _ [Hn Hreq] _ _ _ Howed _ _ _].
  assert (Ho : forall r, In r (requests (timer x)) -> exists pid tid, owes (srv x) (sender r) pid tid).
  { intros r [Hr _]%Hreq. specialize (Howed _ _ Hr). unfold request_place in Howed.
    rewrite of_word_word in Howed. by destruct (kind r). }
  assert (Hnd : NoDup (map (fun r => slot_of (sender r)) (requests (timer x)))).
  { apply NoDup_fmap_2_strong; [| done]. intros r r' Hr%list_elem_of_In Hr'%list_elem_of_In E.
    destruct (Ho r Hr) as (? & ? & Hr1), (Ho r' Hr') as (? & ? & Hr2).
    apply (request_unique (requests (timer x)) G); [done.. |]. by eapply owes_fun. }
  apply NoDup_ListNoDup in Hnd. apply (NoDup_incl_length (l' := seq 0 QUEUE_LEN)) in Hnd.
  - by rewrite length_map, length_seq in Hnd.
  - intros i (r & <- & Hr)%in_map_iff. apply in_seq. destruct (Ho r Hr) as (pid & tid & H).
    apply owes_slot in H; [| done]. lia.
Qed.

(** A request of a thread without a place; [x0] is a state that satisfies the
    invariant, and has the timer of [x]. *)
Lemma offline_ok x0 x hand G r :
  all_ok x0 hand G -> timer x = timer x0 -> timer_stopped (timer x0) -> G !! word (sender r) = None ->
  (kind r = Sleep -> data r = 0) -> 0 <= msec r < 4294967296 ->
  returns (tt_ (recalculate_sleep_offline (Some r)) x) (fun x' _ =>
    exists t' k, x' = set_timer t' x /\ same_clock (timer x0) t' /\ timer_stopped t' /\ timer_ok t'
      /\ requests_ok (requests t') (upd (word (sender r)) (Some (request_place (set_msec k r))) G)
      /\ time (timer x0) + msec r <= k <= time (timer x0) + msec r + Z.of_nat QUEUE_LEN).
Proof.
  intros Hx E Hs HG Hd Hr. pose proof (requests_bounded _ _ _ Hx) as Hlen.
  assert (Hl : (length (sleep_heap (timer x0)) <= QUEUE_LEN)%nat).
  { rewrite requests_stopped, length_map in Hlen by done. done. }
  pose proof (ok_time _ _ _ _ _ Hx) as Ht. unfold TIME_MAX, QUEUE_LEN in *. unfold tt_. returns_step. rewrite E.
  eapply returns_mono; [apply offline_new_ok; [apply Hx | done | lia..] |].
  intros t' _ (Hok & Hst & Hc & k & Hp & Hk). exists t', k. split_and!; try done; [| lia..].
  eapply requests_ok_perm; [| exact Hp]. by apply (requests_ok_add (requests (timer x0)) G (set_msec k r)); [apply Hx | |].
Qed.

Lemma tt_bind {A B} m (k : A -> XousTickTimer -> outcome Error XousTickTimer B) x :
  tt_ (bind m k) x = bind (tt_ m) (fun a => tt_ (k a)) x.
Proof.
  unfold tt_, zoom, bind. by destruct (m (timer x)).
Qed.

Lemma set_timer_id x : set_timer (timer x) x = x.
Proof. by destruct x. Qed.

(** ** The message in hand *)

Lemma hand_scalar x hand G msg sm :
  all_ok x hand G -> msg_opt x = Some msg -> env_body msg = BlockingScalar sm ->
  exists pid tid, owes (srv x) (env_sender msg) pid tid /\ ~ (pid ∈ gone x) /\ G !! word (env_sender msg) = None.
Proof.
  intros Hx Hm Hb. pose proof (ok_hand _ _ _ _ _ Hx) as H. unfold in_hand in H. rewrite Hm, Hb in H.
  destruct (H eq_refl) as (i & pid & w & Hi & Hp & Hs & Hg & HG & Hr & Hw). destruct w; try done. subst.
  exists pid, tid. split_and!; try done. by exists i, return_address.
Qed.

Lemma held_msg x msg i : msg_opt x = Some msg -> held x i -> i = slot_of (env_sender msg).
Proof. intros E (env & E' & _ & <-). congruence. Qed.

(** A message that needs no reply is forgotten. *)
Lemma all_ok_forget x hand G :
  all_ok x hand G -> (forall env, msg_opt x = Some env -> Message_is_blocking (env_body env) = false) ->
  all_ok (set_msg None x) hand G.
Proof. intros [] H. split; try done. by apply (covered_idle _ x). Qed.

Lemma all_ok_return_type x hand G v : all_ok x hand G -> all_ok (set_return_type v x) hand G.
Proof. intros []. by split. Qed.

Lemma all_ok_ready x hand G v : all_ok x hand G -> all_ok (set_ready v x) hand G.
Proof. intros []. by split. Qed.

Lemma put_scalar_ok x hand G f :
  all_ok x hand G ->
  returns (put_scalar f x) (fun x' _ => all_ok x' hand G /\ srv x' = srv x /\ timer x' = timer x).
Proof.
  intros Hx. unfold put_scalar. returns_step. destruct (msg_opt x) as [[s []] |] eqn:Em; try done. split; [| done].
  destruct Hx as [? ? ? ? ? ? ? ? Hh Hc]. split; try done; [unfold in_hand in *; by rewrite Em in Hh |].
  intros i w Hw. destruct (Hc i w Hw) as [(env & E & Hb & Hs) | ?]; [left | by right].
  rewrite Em in E. injection E as <-. by eexists.
Qed.

(** ** What a handler leaves

    [good x G x']: a handler that starts in [x] ends in [x'], in which the
    invariant holds; the threads that sleep still do, the queue is the same, and
    the alarm is armed, unless the handler has not used the timer. *)

Definition armed (t : XousTickTimer) : Prop := sleep_heap t <> [] -> current_response t <> None.

Definition keeps_sleep (G G' : Places) : Prop :=
  forall w d, G !! w = Some (P_sleep d) -> G' !! w = Some (P_sleep d).

Definition calm_timer (t t' : XousTickTimer) : Prop :=
  armed t' \/ (current_response t' = current_response t /\ sleep_heap t' = sleep_heap t).

Definition good (x : Ticktimer) (G : Places) (x' : Ticktimer) : Prop :=
  pending (srv x') = pending (srv x) /\ time (timer x) <= time (timer x') /\ calm_timer (timer x) (timer x')
  /\ exists G', all_ok x' None G' /\ keeps_sleep G G'.

Lemma keeps_sleep_refl G : keeps_sleep G G.
Proof. by intros w d. Qed.

Lemma good_same x G x' : all_ok x' None G -> srv x' = srv x -> timer x' = timer x -> good x G x'.
Proof.
  intros Hx Hs Ht. unfold good. rewrite Hs, Ht. split; [done |]. split; [lia |]. split; [by right |].
  exists G. split; [done | apply keeps_sleep_refl].
Qed.

Lemma good_id x G : all_ok x None G -> good x G x.
Proof. intros H. by apply good_same. Qed.

Lemma keeps_sleep_upd G w o : (forall d, G !! w <> Some (P_sleep d)) -> keeps_sleep G (upd w o G).
Proof.
  intros H w' d Hw. rewrite lookup_upd. destruct (decide _) as [-> |]; [by destruct (H d) | done].
Qed.

Lemma good_place x G x' w o :
  all_ok x' None (upd w o G) -> (forall d, G !! w <> Some (P_sleep d)) -> pending (srv x') = pending (srv x) ->
  time (timer x) <= time (timer x') -> calm_timer (timer x) (timer x') -> good x G x'.
Proof. intros Hx Hw Hp Ht Hc. split_and!; try done. exists (upd w o G). split; [done | by apply keeps_sleep_upd]. Qed.

Lemma armed_start t : timer_ok t -> (requests t <> [] -> ev_enable_alarm t = true) -> armed t.
Proof.
  intros Ht H Hh Hc. pose proof (to_armed _ Ht) as Ha. rewrite Hc in Ha. rewrite H in Ha; [done |].
  unfold requests. rewrite Hc. cbn. by destruct (sleep_heap t).
Qed.

(** ** The calls that wait for nothing *)

Lemma elapsed_call_ok x G msg :
  all_ok x None G -> returns (elapsed_call msg x) (fun x' _ => good x G x').
Proof.
  intros Hx. unfold elapsed_call. destruct (Message_scalar_message_mut _); [| by apply good_id].
  unfold elapsed_ms, tt_. repeat returns_step. rewrite set_timer_id.
  eapply returns_mono; [by apply put_scalar_ok |]. intros x' [] (Hx' & Hs & Ht). returns_step.
  apply good_same; [by apply all_ok_return_type | done..].
Qed.

Lemma version_call_ok x G msg :
  all_ok x None G -> msg_opt x = Some msg ->
  match env_body msg with MutableBorrow m | Move m => version m <> None | _ => False end ->
  returns (version_call version msg x) (fun x' _ => good x G x').
Proof.
  intros Hx Hm Hv. unfold version_call. destruct (env_body msg) as [m | | m | |] eqn:Eb; try done;
    (destruct (version m) as [m' |]; [| done]); cbn; (apply good_same; [| done..]);
    (destruct Hx as [? ? ? ? ? ? ? ? Hh Hc]; split; try done); try (unfold in_hand in *; rewrite Hm, Eb in Hh; exact Hh || done);
    (intros i w Hw; destruct (Hc i w Hw) as [(env & E & Hbl & Hs) | ?]; [| by right]);
    rewrite Hm in E; injection E as <-; rewrite Eb in Hbl; try done; left; by eexists.
Qed.

Lemma suspend_call_ok x G msg slept :
  all_ok x None G -> 0 <= slept -> time (timer x) + slept <= TIME_MAX ->
  returns (suspend_call slept msg x) (fun x' _ => good x G x').
Proof.
  intros Hx H0 Hs. unfold suspend_call. destruct (env_body msg); try by apply good_id.
  unfold suspend, save_registers, resume, tt_. repeat returns_step. cbn. unfold good, calm_timer. cbn.
  split_and!; [done | lia | by right |]. exists G. split; [| apply keeps_sleep_refl].
  destruct Hx as [[] [] ? ? ? ? ? ? ? ?]. split; cbn; try done. lia.
Qed.

(** ** A thread begins to wait *)

Lemma timeouts_ok_same n G w o :
  timeouts_ok n G -> (has_timeout o <-> has_timeout (G !! w)) -> timeouts_ok n (upd w o G).
Proof. intros H Ho. apply (timeouts_ok_upd n); [done.. |]. by rewrite Ho. Qed.

(** The parts of the invariant that are the same for every way to wait. *)
Lemma all_ok_placed x x' hand G s pl pid tid :
  all_ok x hand G -> owes (srv x) s pid tid -> ~ (pid ∈ gone x) -> G !! word s = None -> placed (Some pl) ->
  (forall i, held x i -> i = slot_of s) -> timer_ok (timer x') -> time (timer x') = time (timer x) -> srv x' = srv x -> gone x' = gone x -> msg_opt x' = None ->
  let G' := upd (word s) (Some pl) G in
  requests_ok (requests (timer x')) G' -> waiters_ok cond_of (notify_table x') G' ->
  waiters_ok lock_of (mutex_hash x') G' -> timeouts_ok (notifications_with_timeouts x') G' ->
  all_ok x' hand G'.
Proof.
  intros [] Ho He HG Hf Hh Ht Htime Hsrv Hgone Hmsg G' H1 H2 H3 H4. split; try done.
  - by rewrite Htime.
  - rewrite Hsrv, Hgone. apply (owed_ok_place _ _ _ _ _ _ _ _ pid tid); [done | by rewrite of_word_word | done |].
    by intros c ->.
  - rewrite Hsrv, Hgone. apply inbox_ok_upd; [done | right]. rewrite of_word_word.
    apply owes_slot in Ho as (_ & _ & _ & _ & ra & Hr); [| done]. by rewrite Hr.
  - unfold in_hand. by rewrite Hmsg.
  - by apply (covered_placed _ Hsidx x x' G s pl pid tid).
Qed.

(** A sleeping thread, with the time at which it is to be woken. *)
Lemma sleep_call_ok x G msg sm :
  all_ok x None G -> msg_opt x = Some msg -> env_body msg = BlockingScalar sm -> wf_word (sm_arg1 sm) = true ->
  returns (sleep_call msg x) (fun x' _ =>
    pending (srv x') = pending (srv x) /\ time (timer x') = time (timer x) /\ armed (timer x') /\
    exists k, time (timer x) + sm_arg1 sm <= k <= time (timer x) + sm_arg1 sm + Z.of_nat QUEUE_LEN
      /\ all_ok x' None (upd (word (env_sender msg)) (Some (P_sleep k)) G)).
Proof.
  intros Hx Hm Eb Hwf. unfold sleep_call. rewrite Eb.
  destruct (hand_scalar _ _ _ _ _ Hx Hm Eb) as (pid & tid & Ho & He & HG).
  pose proof (wf_word_range _ Hwf).
  cbn [Message_scalar_message_mut]. unfold forget_message, recalculate_sleep. do 2 returns_step. rewrite tt_bind. returns_step.
  eapply returns_mono; [apply stop_run, Hx |]. intros x1 _ (t1 & -> & Ht1 & Hc1 & Hs1 & Hp1).
  pose proof (all_ok_timer x None G t1 Hx Ht1 Hc1 Hp1) as Hx1. rewrite tt_bind. returns_step.
  eapply returns_mono;
    [by apply (offline_ok _ _ None G (mk_TimerRequest (sm_arg1 sm) (env_sender msg) Sleep 0) Hx1) |].
  intros x2 _ (t2 & k & -> & Hc2 & Hs2 & Hok2 & Hr2 & Hk). cbn [sender request_place kind set_msec msec] in Hr2, Hk.
  eapply returns_mono; [apply (start_ok _ None (upd (word (env_sender msg)) (Some (P_sleep k)) G)); [| done] |].
  - apply (all_ok_placed _ _ _ _ _ _ pid tid Hx1); try done; [by intros i; apply held_msg | apply Hc2 | | |].
    + apply waiters_ok_same; [apply Hx1 | by rewrite HG].
    + apply waiters_ok_same; [apply Hx1 | by rewrite HG].
    + apply timeouts_ok_same; [apply Hx1 | by rewrite HG].
  - intros x3 _ (t3 & -> & Hc3 & _ & Ha & Hx3). destruct Hc1 as (E1 & _), Hc2 as (E2 & _), Hc3 as (E3 & _). cbn in *.
    split_and!; [done | congruence | by apply armed_start; [apply Hx3 |] |].
    exists k. split; [| done]. by rewrite E1 in Hk.
Qed.

Lemma sleep_call_good x G msg :
  all_ok x None G -> msg_opt x = Some msg -> call_words (env_body msg) = true ->
  returns (sleep_call msg x) (fun x' _ => good x G x').
Proof.
  intros Hx Hm Hwf. destruct (env_body msg) as [| | | | sm] eqn:Eb;
    try by (unfold sleep_call; rewrite Eb; apply good_id).
  cbn in Hwf. zbool. destruct (hand_scalar _ _ _ _ _ Hx Hm Eb) as (pid & tid & _ & _ & HG).
  eapply returns_mono; [by apply (sleep_call_ok _ _ _ _ Hx Hm Eb) |].
  intros x' _ (Hp & Ht & Ha & k & _ & Hx'). eapply good_place; [done | by rewrite HG | done | lia | by left].
Qed.

Lemma lock_mutex_ok x G msg :
  all_ok x None G -> msg_opt x = Some msg -> returns (lock_mutex msg x) (fun x' _ => good x G x').
Proof.
  intros Hx Hm. unfold lock_mutex. destruct (env_body msg) as [| | | | sm] eqn:Eb; try by apply good_id.
  destruct (hand_scalar _ _ _ _ _ Hx Hm Eb) as (pid & tid & Ho & He & HG).
  cbn [Message_scalar_message_mut]. repeat returns_step. case_bool_decide.
  - eapply returns_mono; [by apply put_scalar_ok, all_ok_ready |]. intros x' [] (Hx' & ? & ?). by apply good_same.
  - unfold forget_message. repeat returns_step. cbn [id mutex_hash set_ready].
    apply (good_place _ _ _ (word (env_sender msg)) (Some (P_lock (sm_arg1 sm))));
      [| by rewrite HG | done | done | by right].
    apply (all_ok_placed _ _ _ _ _ _ pid tid Hx); try done; cbn.
    + by intros i; apply held_msg.
    + apply Hx.
    + apply requests_ok_skip; [apply Hx | by rewrite HG | done].
    + apply waiters_ok_same; [apply Hx | by rewrite HG].
    + apply waiters_ok_push; [apply Hx | by rewrite HG | done].
    + apply timeouts_ok_same; [apply Hx | by rewrite HG].
Qed.

Lemma timeouts_ok_insert n G w o :
  timeouts_ok n G -> has_timeout o -> timeouts_ok (n ∪ {[w]}) (upd w o G).
Proof.
  intros H Ho. apply (timeouts_ok_upd n); [done | |].
  - intros w' Hw'. rewrite elem_of_union, elem_of_singleton. split; [by intros [? | ?] | by left].
  - rewrite elem_of_union, elem_of_singleton. split; [done | by right].
Qed.

Lemma timeouts_ok_remove n G w o :
  timeouts_ok n G -> ~ has_timeout o -> timeouts_ok (n ∖ {[w]}) (upd w o G).
Proof.
  intros H Ho. apply (timeouts_ok_upd n); [done | |].
  - intros w' Hw'. rewrite elem_of_difference, elem_of_singleton. split; [by intros [? _] | by split].
  - rewrite elem_of_difference, elem_of_singleton. split; [by intros [_ ?] | done].
Qed.

Lemma wait_for_condition_ok x G msg :
  all_ok x None G -> msg_opt x = Some msg -> call_words (env_body msg) = true ->
  returns (wait_for_condition msg x) (fun x' _ => good x G x').
Proof.
  intros Hx Hm Hwf. unfold wait_for_condition. destruct (env_body msg) as [| | | | sm] eqn:Eb; try by apply good_id.
  destruct (hand_scalar _ _ _ _ _ Hx Hm Eb) as (pid & tid & Ho & He & HG). cbn in Hwf. zbool.
  pose proof (wf_word_range (sm_arg2 sm) ltac:(done)).
  cbn [Message_scalar_message_mut]. unfold forget_message. destruct (negb (sm_arg2 sm =? 0)); repeat returns_step.
  - eapply returns_mono; [apply stop_ok, Hx |]. intros x1 _ (t1 & -> & Hc1 & Hs1 & Hx1). repeat returns_step.
    eapply returns_mono;
      [by apply (offline_ok _ _ None G (mk_TimerRequest (sm_arg2 sm) (env_sender msg) Timeout (sm_arg1 sm)) Hx1) |].
    intros x2 _ (t2 & k & -> & Hc2 & Hs2 & Hok2 & Hr2 & _). cbn [sender request_place kind set_msec msec data] in Hr2.
    repeat returns_step. set (x3 := set_notify _ _).
    eapply returns_mono; [by apply start_run |]. intros x4 _ (t4 & -> & Hok4 & Hc4 & Hr4 & Ha4). returns_step.
    apply (good_place _ _ _ (word (env_sender msg)) (Some (P_wait (sm_arg1 sm) (Some k)))); [| by rewrite HG | done | |].
    + apply (all_ok_timer (set_msg None x3)); [| done | done | cbn; by rewrite Hr4].
      apply (all_ok_placed _ _ _ _ _ _ pid tid Hx1); try done; cbn.
      * by intros i; apply held_msg.
      * apply Hc2.
      * apply waiters_ok_push; [apply Hx1 | by rewrite HG | done].
      * apply waiters_ok_same; [apply Hx1 | by rewrite HG].
      * by apply timeouts_ok_insert; [apply Hx |].
    + destruct Hc1 as (E1 & _), Hc2 as (E2 & _), Hc4 as (E4 & _). cbn in *. lia.
    + left. by apply armed_start.
  - apply (good_place _ _ _ (word (env_sender msg)) (Some (P_wait (sm_arg1 sm) None)));
      [| by rewrite HG | done | done | by right].
    apply (all_ok_placed _ _ _ _ _ _ pid tid Hx); try done; cbn.
    + by intros i; apply held_msg.
    + apply Hx.
    + apply requests_ok_skip; [apply Hx | by rewrite HG | done].
    + apply waiters_ok_push; [apply Hx | by rewrite HG | done].
    + apply waiters_ok_same; [apply Hx | by rewrite HG].
    + apply timeouts_ok_same; [apply Hx | by rewrite HG].
Qed.

(** ** A thread gets its reply *)

Lemma in_hand_replied x x' G s pid tid o :
  in_hand own_sidx x G -> owes (srv x) s pid tid -> G !! word s <> None ->
  srv x' = replied s (srv x) -> gone x' = gone x -> msg_opt x' = msg_opt x ->
  in_hand own_sidx x' (upd (word s) o G).
Proof.
  intros H Ho HG Hsrv Hgone Hmsg. unfold in_hand in *. rewrite Hsrv, Hgone, Hmsg. destruct (msg_opt x) as [env |]; [| done].
  intros Hb. destruct (H Hb) as (i & p & w & Hi & Hp & Hs & Hg & HGe & Hr & Hw). exists i, p, w.
  split_and!; try done.
  - rewrite lookup_upd. destruct (decide _) as [E |]; [| done]. by rewrite E in HGe.
  - cbn. rewrite lookup_delete_ne; [done |]. intros E. apply HG.
    pose proof (owes_slot _ Hsidx _ _ _ _ Ho) as (_ & _ & Hs' & _ & ra & Hr'). rewrite E, Hr in Hr'.
    injection Hr' as ->. destruct (env_body env); try done. subst. by rewrite Hs', <- Hs.
Qed.

Lemma all_ok_replied x x' hand G s pid tid :
  all_ok x hand G -> owes (srv x) s pid tid -> G !! word s <> None ->
  timer_ok (timer x') -> time (timer x') = time (timer x) ->
  srv x' = replied s (srv x) -> gone x' = gone x -> msg_opt x' = msg_opt x ->
  let G' := upd (word s) None G in
  requests_ok (requests (timer x')) G' -> waiters_ok cond_of (notify_table x') G' ->
  waiters_ok lock_of (mutex_hash x') G' -> timeouts_ok (notifications_with_timeouts x') G' ->
  all_ok x' hand G'.
Proof.
  intros [] Ho HG Ht Htime Hsrv Hgone Hmsg G' H1 H2 H3 H4. split; try done.
  - by rewrite Htime.
  - rewrite Hsrv, Hgone. by apply (owed_ok_reply _ _ Hsidx _ _ _ _ _ pid tid).
  - rewrite Hsrv, Hgone. apply inbox_ok_replied, inbox_ok_upd; [done | by left].
  - by apply (in_hand_replied x x' G s pid tid).
  - apply (covered_replied _ Hsidx x); [done | by rewrite Hsrv | done].
Qed.

Lemma waiters_ok_ext f t t' G :
  waiters_ok f t G -> (forall pid c, waiters t' pid c = waiters t pid c) -> waiters_ok f t' G.
Proof. intros [Hn H] E. split; intros; rewrite E; auto. Qed.

Lemma waiters_set_id t pid c l pid' c' :
  waiters t pid c = l -> waiters (set_waiters t pid c l) pid' c' = waiters t pid' c'.
Proof. intros <-. rewrite waiters_set. by destruct (decide _) as [[-> ->] |]. Qed.

Lemma unlock_mutex_ok x G msg :
  all_ok x None G -> returns (unlock_mutex own_sidx msg x) (fun x' _ => good x G x').
Proof.
  intros Hx. unfold unlock_mutex. destruct (Message_scalar_message _) as [sm |]; [| by apply good_id].
  repeat returns_step. cbn [id]. set (pid := MessageSender_pid _).
  pose proof (ok_mutex _ _ _ _ _ Hx) as Hmx.
  destruct (waiters (mutex_hash x) pid (sm_arg1 sm)) as [| s rest] eqn:Ew; repeat returns_step.
  - eapply returns_mono; [apply (put_scalar_ok _ None G) |]; [| intros x' [] (Hx' & ? & ?); by apply good_same].
    apply all_ok_ready. destruct Hx. split; try done. cbn.
    eapply waiters_ok_ext; [done |]. intros. by apply waiters_set_id.
  - destruct (proj1 (proj2 Hmx pid (sm_arg1 sm) s)) as [Hp Hl]; [rewrite Ew; by left |].
    destruct (G !! word s) as [[] |] eqn:HG; try discriminate Hl. injection Hl as ->.
    destruct (ok_owed _ _ _ _ _ Hx _ _ HG) as (pid' & tid & Ho & He). rewrite of_word_word in Ho.
    rewrite (return_scalar_owed _ Hsidx _ _ _ pid' tid) by done. cbn zeta. rewrite bool_decide_false by done.
    repeat returns_step. eapply returns_mono; [apply (put_scalar_ok _ None (upd (word s) None G)) |].
    + apply (all_ok_replied x _ _ _ _ pid' tid); try done; cbn.
      * by rewrite HG.
      * apply Hx.
      * apply requests_ok_skip; [apply Hx | by rewrite HG | done].
      * apply waiters_ok_same; [apply Hx | by rewrite HG].
      * by apply waiters_ok_pop.
      * apply timeouts_ok_same; [apply Hx | by rewrite HG].
    + intros x' [] (Hx' & Hs' & Ht'). eapply good_place; [exact Hx' | by rewrite HG | by rewrite Hs' | by rewrite Ht' |].
      by right; rewrite Ht'.
Qed.

(** A mutex is freed for which nobody waits. *)
Lemma free_mutex_ok x G msg :
  all_ok x None G ->
  (forall sm, Message_scalar_message (env_body msg) = Some sm ->
     waiters (mutex_hash x) (MessageSender_pid (env_sender msg)) (sm_arg1 sm) = []) ->
  returns (free_mutex msg x) (fun x' _ => good x G x').
Proof.
  intros Hx Hno. unfold free_mutex. destruct (Message_scalar_message _) as [sm |]; [| by apply good_id].
  specialize (Hno sm eq_refl). repeat returns_step. cbn [id]. set (pid := MessageSender_pid _) in *.
  apply good_same; [| done | done]. apply all_ok_ready. destruct Hx. split; try done. cbn.
  eapply waiters_ok_ext; [done |]. intros pid' m. rewrite waiters_remove. by destruct (decide _) as [[-> ->] |].
Qed.
End Server.
