(* ===== verification/TicktimerTurns.v ===== *)
(** * The ticktimer server: conditions, interrupts and turns *)

From Stdlib Require Import ZArith Lia Bool.
From stdpp Require Import base numbers list option gmap.
From S2P Require Import Prelude.
From S2P Require Import Abi.
From S2P Require Import Server.
From S2P Require Import ServerSpec.
From S2P Require Import Port.
From S2P Require Import Ticktimer.
From S2P Require Import TicktimerFacts.
From S2P Require Import TicktimerInv.
From S2P Require Import TicktimerSteps.

#[local] Open Scope Z_scope.
#[local] Open Scope kernel_scope.

#[local] Abbreviation word := MessageSender_to_usize.
#[local] Abbreviation of_word := MessageSender_from_usize.

(** ** The request of one thread *)

Definition other (s : MessageSender) (r : TimerRequest) : bool := negb (bool_decide (sender r = s)).

Lemma filter_no_request l G s :
  requests_ok l G -> no_request (G !! word s) -> List.filter (other s) l = l.
Proof.
  intros [_ H] Hs. assert (Hl : forall r, In r l -> sender r <> s).
  { intros r [Hr _]%H E. rewrite E in Hr. exact (no_request_not _ _ Hs Hr). }
  clear H. induction l as [| r l IH]; cbn; [done |]. unfold other at 1. rewrite bool_decide_false by (apply Hl; by left).
  cbn. f_equal. apply IH. intros. apply Hl. by right.
Qed.

Lemma filter_one_request l G r : requests_ok l G -> In r l -> l ≡ₚ r :: List.filter (other (sender r)) l.
Proof.
  intros Hl Hr. pose proof Hl as [Hn _].
  assert (Hu : forall r', In r' l -> sender r' = sender r -> r' = r) by (intros; by eapply request_unique).
  clear Hl. induction l as [| q l IH]; [done |]. apply NoDup_cons in Hn as [Hq Hn]. rewrite list_elem_of_In in Hq.
  cbn. unfold other at 1. destruct (decide (sender q = sender r)) as [E |].
  - rewrite bool_decide_true by done. cbn. assert (q = r) as -> by (apply Hu; [by left | done]). f_equiv.
    clear IH Hr. assert (Hl : forall r', In r' l -> sender r' <> sender r).
    { intros r' Hr' E'. apply Hq. rewrite <- (Hu r'); [done | by right | done]. }
    clear -Hl. induction l as [| q l IH]; cbn; [done |]. unfold other at 1.
    rewrite bool_decide_false by (apply Hl; by left). cbn. f_equiv. apply IH. intros. apply Hl. by right.
  - rewrite bool_decide_false by done. cbn. destruct Hr as [-> | Hr]; [done |].
    rewrite (IH Hr Hn) at 1 by (intros; apply Hu; [by right | done]). constructor.
Qed.

Lemma filter_shorter (s : MessageSender) l :
  In s l -> (length (List.filter (fun v => negb (bool_decide (v = s))) l) < length l)%nat.
Proof.
  intros Hin. induction l as [| v l IH]; [done |]. cbn. pose proof (filter_length_le (fun v => negb (bool_decide (v = s))) l).
  case_bool_decide as E; cbn; [lia |]. destruct Hin as [-> | Hin]; [done |]. specialize (IH Hin). lia.
Qed.

Section Server.
Context (own_sidx own_pid : Z) (version : MemoryMessage -> option MemoryMessage).
Context (Hsidx : 0 <= own_sidx < 256) (Hpid : wf_pid own_pid = true).

#[local] Abbreviation all_ok := (all_ok own_sidx own_pid).
#[local] Abbreviation owes := (owes own_sidx).
#[local] Abbreviation good := (good own_sidx own_pid).

Definition fired_answer (o : option Place) : option bool :=
  match o with Some (P_fired _) => Some true | Some (P_wait _ (Some _)) => Some false | _ => None end.

#[export] Instance no_request_dec o : Decision (no_request o).
Proof. destruct o as [[| ? [] | |] |]; cbn; apply _. Defined.

(** The timeout of a thread that waits for a condition is removed. *)
Lemma retain_waiting x G s c :
  timer_ok (timer x) -> timer_stopped (timer x) -> requests_ok (requests (timer x)) G -> cond_of (G !! word s) = Some c ->
  returns (tt_ (retain_other s) x) (fun x' lens =>
    exists t', x' = set_timer t' x /\ timer_ok t' /\ timer_stopped t' /\ same_clock (timer x) t'
      /\ requests_ok (requests t') (upd (word s) None G)
      /\ fst lens = ((if decide (no_request (G !! word s)) then 0 else 1) + snd lens)%nat).
Proof.
  intros Ht Hs Hr Hc. unfold tt_. returns_step. eapply returns_mono; [by apply retain_other_ok |].
  intros t' lens (H1 & H2 & H3 & H4 & ->). change (requests t' = List.filter (other s) (requests (timer x))) in H4.
  exists t'. split_and!; try done.
  - rewrite H4. destruct (decide (no_request (G !! word s))) as [Hn | Hn].
    + rewrite (filter_no_request _ G) by done. by apply requests_ok_skip.
    + destruct (G !! word s) as [[| c' [d |] | |] |] eqn:HG; try (by destruct Hn); try discriminate Hc.
      assert (Hin : In (mk_TimerRequest d s Timeout c') (requests (timer x))) by (apply Hr; split; cbn; [exact HG | done]).
      by apply (requests_ok_del (requests (timer x)) _ _ (mk_TimerRequest d s Timeout c')); [| apply (filter_one_request _ G) |].
  - cbn. rewrite H4. destruct (decide (no_request (G !! word s))) as [Hn | Hn].
    + by rewrite (filter_no_request _ G).
    + destruct (G !! word s) as [[| c' [d |] | |] |] eqn:HG; try (by destruct Hn); try discriminate Hc.
      assert (Hin : In (mk_TimerRequest d s Timeout c') (requests (timer x))) by (apply Hr; split; cbn; [exact HG | done]).
      by rewrite (filter_one_request _ G _ Hr Hin) at 1.
Qed.

Lemma already_fired_ok x G s c :
  timer_ok (timer x) -> timer_stopped (timer x) -> requests_ok (requests (timer x)) G ->
  timeouts_ok (notifications_with_timeouts x) G -> cond_of (G !! word s) = Some c ->
  returns (already_fired s x) (fun x' o =>
    exists t' n', x' = set_timer t' (set_timeouts n' x) /\ timer_ok t' /\ timer_stopped t' /\ same_clock (timer x) t'
      /\ requests_ok (requests t') (upd (word s) None G) /\ timeouts_ok n' (upd (word s) None G)
      /\ o = fired_answer (G !! word s)).
Proof.
  intros Ht Hs Hr Hn Hc. unfold already_fired, remove_timeout. repeat returns_step.
  pose proof (timeouts_ok_remove _ G (word s) None Hn (fun H => H)) as Hn'.
  set (n' := notifications_with_timeouts x ∖ {[word s]}) in *.
  destruct (decide (word s ∈ notifications_with_timeouts x)) as [Hin | Hni].
  - rewrite bool_decide_true by done. returns_step.
    eapply returns_mono; [by apply (retain_waiting (set_timeouts n' x) G s c) |].
    intros x' [b a] (t' & -> & H1 & H2 & H3 & H4 & H5). cbn in H5. apply Hn in Hin.
    returns_step. returns_step.
    + destruct (decide _); subst b; [by rewrite Nat.eqb_refl |]. rewrite (Nat.add_comm a), Nat.eqb_refl. by rewrite orb_true_r.
    + returns_step. exists t', n'. split_and!; try done. subst b.
      destruct (G !! word s) as [[| c' [d |] | |] |]; try done; cbn [fired_answer].
      * rewrite decide_False by (intros []). f_equal. apply Nat.eqb_neq. lia.
      * rewrite decide_True by done. cbn. by rewrite Nat.eqb_refl.
  - rewrite bool_decide_false by done. returns_step. exists (timer x), n'. rewrite (Hn (word s)) in Hni.
    split_and!; try done.
    + apply requests_ok_skip; [done | | done]. destruct (G !! word s) as [[| c' [d |] | |] |]; try done; by destruct Hni.
    + destruct (G !! word s) as [[| c' [d |] | |] |]; done || by destruct Hni.
Qed.

(** ** Waking the threads that wait for a condition

    The handlers first take the threads out of the table and then go through
    them; the invariant holds of the table with the threads that are left. *)

Definition with_waiters (pid : option Z) (c : Z) (l : list MessageSender) (x : Ticktimer) : Ticktimer :=
  set_notify (set_waiters (notify_table x) pid c l) x.

(** The timeout of the thread at the front has fired: it needs no reply. *)
Lemma all_ok_skip x x' G pid c s l :
  all_ok (with_waiters pid c (s :: l) x) None G -> timer_ok (timer x') -> time (timer x') = time (timer x) ->
  srv x' = srv x -> gone x' = gone x -> msg_opt x' = msg_opt x -> mutex_hash x' = mutex_hash x ->
  notify_table x' = notify_table x -> fired_answer (G !! word s) = Some true ->
  let G' := upd (word s) None G in
  requests_ok (requests (timer x')) G' -> timeouts_ok (notifications_with_timeouts x') G' ->
  all_ok (with_waiters pid c l x') None G'.
Proof.
  intros Hx Ht Htime Hsrv Hgone Hmsg Hmx Hnt Hfired G' H1 H2.
  pose proof (ok_notify _ _ _ _ _ Hx) as Hn.
  assert (Hw : waiters (notify_table (with_waiters pid c (s :: l) x)) pid c = s :: l)
    by (cbn; rewrite waiters_set; by rewrite decide_True).
  destruct (proj1 (proj2 Hn pid c s)) as [Hp Hc]; [rewrite Hw; by left |].
  assert (Hsub : forall w pl, G' !! w = Some pl -> G !! w = Some pl).
  { intros w pl. unfold G'. rewrite lookup_upd. by destruct (decide _). }
  destruct Hx. split; cbn in *; try done.
  - by rewrite Htime.
  - eapply waiters_ok_ext; [by apply (waiters_ok_pop _ _ _ _ l pid c None Hn Hw) |].
    intros pid' c'. cbn. rewrite Hnt, !waiters_set. by destruct (decide _).
  - rewrite Hmx. apply waiters_ok_same; [done |]. by destruct (G !! word s) as [[] |].
  - rewrite Hsrv, Hgone. intros w pl Hw'. by apply ok_owed, Hsub.
  - rewrite Hsrv, Hgone. apply inbox_ok_upd; [done | by left].
  - unfold in_hand in *. cbn in *. rewrite Hmsg, Hgone, Hsrv. destruct (msg_opt x) as [env |]; [| done]. intros Hb.
    destruct (ok_hand Hb) as (i & p & w & ? & ? & ? & ? & HGw & ?). exists i, p, w. split_and!; try tauto.
    destruct (G' !! _) eqn:E; [| done]. apply Hsub in E. congruence.
  - apply (covered_unplaced _ x); [done.. |]. revert Hfired. destruct (G !! word s) as [[| c' [] | |] |]; by intros ? [].
Qed.

(** The thread at the front gets a reply. *)
Lemma all_ok_wake x x' G pid c s l p tid :
  all_ok (with_waiters pid c (s :: l) x) None G -> owes (srv x) s p tid ->
  timer_ok (timer x') -> time (timer x') = time (timer x) ->
  srv x' = replied s (srv x) -> gone x' = gone x -> msg_opt x' = msg_opt x -> mutex_hash x' = mutex_hash x ->
  notify_table x' = notify_table x ->
  let G' := upd (word s) None G in
  requests_ok (requests (timer x')) G' -> timeouts_ok (notifications_with_timeouts x') G' ->
  all_ok (with_waiters pid c l x') None G'.
Proof.
  intros Hx Ho Ht Htime Hsrv Hgone Hmsg Hmx Hnt G' H1 H2.
  pose proof (ok_notify _ _ _ _ _ Hx) as Hn.
  assert (Hw : waiters (notify_table (with_waiters pid c (s :: l) x)) pid c = s :: l)
    by (cbn; rewrite waiters_set; by rewrite decide_True).
  destruct (proj1 (proj2 Hn pid c s)) as [Hp Hc]; [rewrite Hw; by left |].
  apply (all_ok_replied _ _ Hsidx (with_waiters pid c (s :: l) x) _ _ _ _ p tid); try done.
  - by intros E; rewrite E in Hc.
  - eapply waiters_ok_ext; [by apply (waiters_ok_pop _ _ _ _ l pid c None Hn Hw) |].
    intros pid' c'. cbn. rewrite Hnt, !waiters_set. by destruct (decide _).
  - cbn. rewrite Hmx. apply waiters_ok_same; [apply Hx |]. by destruct (G !! word s) as [[] |].
Qed.

(** The process of the thread has ended: the code removes the mutexes of that
    process, none of which has a waiting thread. *)
Lemma all_ok_drop_mutexes x G p :
  all_ok x None G -> p ∈ gone x -> all_ok (set_mutex (delete (Some p) (mutex_hash x)) x) None G.
Proof.
  intros Hx Hp. pose proof (ok_mutex _ _ _ _ _ Hx) as Hm. destruct Hx. split; cbn; try done.
  eapply waiters_ok_ext; [done |]. intros pid c. rewrite waiters_delete. destruct (decide (pid = Some p)) as [-> |]; [| done].
  destruct (waiters (mutex_hash x) (Some p) c) as [| s l] eqn:E; [done | exfalso].
  destruct (proj1 (proj2 Hm (Some p) c s)) as [Hs Hl]; [rewrite E; by left |].
  destruct (G !! word s) as [[] |] eqn:HG; try discriminate Hl.
  destruct (ok_owed _ _ HG) as (pid & tid & Ho & He). rewrite of_word_word in Ho.
  apply owes_slot in Ho as (_ & _ & _ & E' & _); [| done]. congruence.
Qed.

(** What going through the threads leaves. *)
Definition woken (pid : option Z) (c : Z) (rest : list MessageSender) (x : Ticktimer) (G : Places) (x' : Ticktimer) : Prop :=
  timer_stopped (timer x') /\ time (timer x') = time (timer x) /\ pending (srv x') = pending (srv x)
  /\ notify_table x' = notify_table x
  /\ exists G', all_ok (with_waiters pid c rest x') None G' /\ keeps_sleep G G'.

Lemma woken_trans pid c rest x G x1 w x' :
  timer_stopped (timer x1) -> time (timer x1) = time (timer x) -> pending (srv x1) = pending (srv x) ->
  notify_table x1 = notify_table x -> (forall d, G !! w <> Some (P_sleep d)) ->
  woken pid c rest x1 (upd w None G) x' -> woken pid c rest x G x'.
Proof.
  intros H1 H2 H3 H4 Hw (H5 & H6 & H7 & H8 & G' & HG' & Hk). unfold woken. split_and!; [done | congruence.. |].
  exists G'. split; [done |]. intros w' d Hd. apply Hk. by apply keeps_sleep_upd.
Qed.

(** The thread at the front, with its place, and the reply it is owed unless its
    timeout has fired. *)
Lemma front_waits x G pid c s l :
  all_ok (with_waiters pid c (s :: l) x) None G ->
  cond_of (G !! word s) = Some c /\ MessageSender_pid s = pid
  /\ (fired_answer (G !! word s) = Some true \/ exists p tid, owes (srv x) s p tid /\ pid = Some p).
Proof.
  intros Hx. destruct (proj1 (proj2 (ok_notify _ _ _ _ _ Hx) pid c s)) as [Hp Hc].
  { cbn. rewrite waiters_set, decide_True by done. by left. }
  split_and!; try done. destruct (G !! word s) as [[| c' d | |] |] eqn:HG; try discriminate Hc; [right | by left].
  destruct (ok_owed _ _ _ _ _ Hx _ _ HG) as (p & tid & Ho). rewrite of_word_word in Ho. exists p, tid. split; [done |].
  apply owes_slot in Ho as (_ & _ & _ & E & _); [congruence | done].
Qed.

Lemma notify_entries_ok pid c rest es : forall x G n,
  all_ok (with_waiters pid c (es ++ rest) x) None G -> timer_stopped (timer x) ->
  returns (notify_entries own_sidx pid es n x) (fun x' _ => woken pid c rest x G x').
Proof.
  induction es as [| s es IH]; intros x G n Hx Hs; cbn [notify_entries].
  { returns_step. split_and!; try done. exists G. split; [done | apply keeps_sleep_refl]. }
  cbn [app] in Hx. pose proof (front_waits _ _ _ _ _ _ Hx) as (Hc & Hp & Ho).
  assert (Hns : forall d, G !! word s <> Some (P_sleep d)) by (intros d E; by rewrite E in Hc).
  returns_step. eapply returns_mono; [by apply (already_fired_ok x G s c); try apply Hx |].
  intros x1 o (t1 & n1 & -> & H1 & H2 & H3 & H4 & H5 & ->). destruct (decide _) as [E | E].
  { eapply returns_mono; [apply (IH _ (upd (word s) None G)); [| done] |].
    - by eapply all_ok_skip; first [exact Hx | apply H3 | done].
    - intros x' n' Hw. eapply woken_trans; [.. | exact Hw]; try done. apply H3. }
  destruct Ho as [? | (p & tid & Ho & ->)]; [done |]. returns_step.
  unfold attempt. rewrite (return_scalar_owed _ Hsidx _ _ _ p tid) by done. cbn zeta.
  set (x1 := set_timer t1 (set_timeouts n1 x)). set (x2 := set_srv (replied s (srv x1)) x1).
  case_bool_decide as Hgone; cbv beta iota; repeat returns_step.
  - eapply returns_mono; [apply (IH _ (upd (word s) None G)); [| done] |].
    + apply (all_ok_drop_mutexes (with_waiters (Some p) c (es ++ rest) x2)); [| done].
      by eapply all_ok_wake; first [exact Hx | exact Ho | apply H3 | done].
    + intros x' n' Hw. eapply woken_trans; [.. | exact Hw]; try done. apply H3.
  - eapply returns_mono; [apply (IH _ (upd (word s) None G)); [| done] |].
    + by eapply all_ok_wake; first [exact Hx | exact Ho | apply H3 | done].
    + intros x' n' Hw. eapply woken_trans; [.. | exact Hw]; try done. apply H3.
Qed.

Lemma all_ok_table x G t :
  all_ok x None G -> (forall pid c, waiters t pid c = waiters (notify_table x) pid c) -> all_ok (set_notify t x) None G.
Proof. intros [] Ht. split; cbn; try done. by eapply waiters_ok_ext. Qed.

(** The timer is started again at the end of a handler. *)
Lemma finish_ok x0 x G :
  all_ok x None G -> timer_stopped (timer x) -> pending (srv x) = pending (srv x0) -> time (timer x) = time (timer x0) ->
  forall G0, keeps_sleep G0 G ->
  returns (tt_ start_sleep x) (fun x' _ => good x0 G0 x' /\ armed (timer x')).
Proof.
  intros Hx Hs Hp Ht G0 Hk. eapply returns_mono; [by apply (start_ok own_sidx own_pid x None G) |].
  intros x' _ (t' & -> & Hc & Hr & Ha & Hx'). destruct Hc as (Hc & _). cbn in *.
  assert (Harm : armed t') by (apply armed_start; [apply Hx' | done]). split; [| done].
  split_and!; cbn; [done | lia | by left |]. by exists G.
Qed.

Lemma good_put x0 G0 x f :
  good x0 G0 x -> returns (put_scalar f x) (fun x' _ => good x0 G0 x').
Proof.
  intros (H1 & H2 & H3 & G & HG & Hk). eapply returns_mono; [by apply (put_scalar_ok own_sidx own_pid _ None G) |].
  intros x' [] (Hx' & Hs & Ht). unfold TicktimerSteps.good. rewrite Hs, Ht. split_and!; try done. by exists G.
Qed.

(** The threads to wake are taken out of the table. *)
Lemma take_waiters x G pid c es rest :
  all_ok x None G -> waiters (notify_table x) pid c = es ++ rest ->
  let x' := set_notify (set_waiters (notify_table x) pid c rest) x in
  all_ok (with_waiters pid c (es ++ rest) x') None G.
Proof.
  intros Hx Hw x'. change (with_waiters pid c (es ++ rest) x')
    with (set_notify (set_waiters (notify_table x') pid c (es ++ rest)) x).
  apply all_ok_table; [done |]. intros pid' c'. cbn. rewrite !waiters_set. by destruct (decide _) as [[-> ->] |].
Qed.

Lemma notify_condition_ok x G msg :
  all_ok x None G -> returns (notify_condition own_sidx msg x) (fun x' _ => good x G x').
Proof.
  intros Hx. unfold notify_condition. destruct (Message_scalar_message _) as [sm |]; [| by apply good_id].
  returns_step. returns_step. cbv zeta. set (pid := MessageSender_pid _). set (c := sm_arg1 sm).
  set (l := waiters (notify_table x) pid c). set (k := Nat.min _ _). returns_step.
  eapply returns_mono; [apply stop_ok, Hx |]. intros x1 _ (t1 & -> & Hc1 & Hs1 & Hx1). repeat returns_step.
  eapply returns_mono;
    [apply (notify_entries_ok pid c (drop k l));
       [apply (take_waiters (set_timer t1 x) G pid c (take k l) (drop k l) Hx1) | done] |].
  { cbn. by rewrite take_drop. }
  intros x2 n (Hs2 & Ht2 & Hp2 & Hn2 & G2 & Hx2 & Hk2). returns_step. destruct Hc1 as (Hc1 & _).
  eapply returns_mono; [apply (finish_ok x x2 G2); [| done | done | cbn in *; congruence | exact Hk2] |].
  - replace x2 with (set_notify (notify_table x2) (with_waiters pid c (drop k l) x2)) by (by destruct x2).
    apply all_ok_table; [done |]. intros pid' c'. cbn. rewrite Hn2. cbn. rewrite !waiters_set. by destruct (decide _).
  - intros x3 [] [Hg _]. by apply good_put.
Qed.

(** *** Freeing a condition *)

Lemma free_entries_ok pid c es : forall x G b,
  all_ok (with_waiters pid c es x) None G -> timer_stopped (timer x) ->
  Forall (fun s => ~ (word s ∈ notifications_with_timeouts x)) es ->
  returns (free_entries own_sidx es b x) (fun x' b' => b' = b /\ woken pid c [] x G x').
Proof.
  induction es as [| s es IH]; intros x G b Hx Hs Hall; cbn [free_entries].
  { returns_step. split; [done |]. split_and!; try done. exists G. split; [done | apply keeps_sleep_refl]. }
  pose proof (front_waits _ _ _ _ _ _ Hx) as (Hc & Hp & Ho).
  assert (Hns : forall d, G !! word s <> Some (P_sleep d)) by (intros d E; by rewrite E in Hc).
  inversion Hall as [| ? ? Hni Hall']; subst. pose proof (ok_timeouts _ _ _ _ _ Hx) as Hto. cbn in Hto.
  returns_step. eapply returns_mono; [by apply (already_fired_ok x G s c); try apply Hx |].
  intros x1 o (t1 & n1 & -> & H1 & H2 & H3 & H4 & H5 & ->). rewrite (Hto (word s)) in Hni.
  assert (fired_answer (G !! word s) = None) as ->.
  { destruct (G !! word s) as [[| c' [d |] | |] |]; done || by destruct Hni. }
  destruct Ho as [E | (p & tid & Ho & E)]; [by destruct (G !! word s) as [[| c' [d |] | |] |]; try destruct Hni |].
  returns_step. unfold ok. rewrite (return_scalar_owed _ Hsidx _ _ _ p tid) by done. cbn zeta.
  set (x1 := set_timer t1 (set_timeouts n1 x)). set (x2 := set_srv (replied s (srv x1)) x1).
  assert (Hall2 : Forall (fun s => ~ (word s ∈ n1)) es).
  { eapply List.Forall_impl; [| exact Hall']. intros s' Hs' Hin. apply Hs', Hto. apply H5 in Hin.
    rewrite lookup_upd in Hin. by destruct (decide _). }
  case_bool_decide as Hgone; cbv beta iota; repeat returns_step.
  all: eapply returns_mono; [apply (IH _ (upd (word s) None G)); [| done | done] |];
    [by eapply all_ok_wake; first [exact Hx | exact Ho | apply H3 | done] |].
  all: intros x' n' [-> Hw]; split; [done |]; eapply woken_trans; [.. | exact Hw]; try done; apply H3.
Qed.

(** Nobody waits for the condition with a timeout. *)
Definition no_timeouts (x : Ticktimer) (pid : option Z) (c : Z) : Prop :=
  Forall (fun s => ~ (word s ∈ notifications_with_timeouts x)) (waiters (notify_table x) pid c).

Lemma free_condition_ok x G msg :
  all_ok x None G ->
  (forall sm, Message_scalar_message (env_body msg) = Some sm ->
     no_timeouts x (MessageSender_pid (env_sender msg)) (sm_arg1 sm)) ->
  returns (free_condition own_sidx msg x) (fun x' _ => good x G x').
Proof.
  intros Hx Hno. unfold free_condition. destruct (Message_scalar_message _) as [sm |]; [| by apply good_id].
  specialize (Hno sm eq_refl). set (pid := MessageSender_pid _) in *. set (c := sm_arg1 sm) in *.
  returns_step. eapply (returns_mono _ (fun x' _ => x' = x \/ x' = set_return_type 0 x)).
  { destruct (Message_is_blocking _); [by right | by left]. }
  intros x0 [] H0. assert (Hx0 : all_ok x0 None G) by (destruct H0 as [-> | ->]; [done | by apply all_ok_return_type]).
  assert (E0 : srv x0 = srv x /\ timer x0 = timer x /\ notify_table x0 = notify_table x
               /\ notifications_with_timeouts x0 = notifications_with_timeouts x) by (by destruct H0 as [-> | ->]).
  destruct E0 as (Es & Et & En & Eto). clear H0. returns_step. returns_step. cbv zeta. returns_step.
  eapply returns_mono; [apply stop_ok, Hx0 |]. intros x1 _ (t1 & -> & Hc1 & Hs1 & Hx1). repeat returns_step.
  eapply returns_mono;
    [apply (free_entries_ok pid c (waiters (notify_table x0) pid c) _ G); [| done |] |].
  - rewrite <- (app_nil_r (waiters (notify_table x0) pid c)) at 1.
    apply (take_waiters (set_timer t1 x0) G pid c (waiters (notify_table x0) pid c) [] Hx1). cbn. by rewrite app_nil_r.
  - cbn. rewrite En, Eto. exact Hno.
  - intros x2 b (-> & Hs2 & Ht2 & Hp2 & Hn2 & G2 & Hx2 & Hk2). repeat returns_step. destruct Hc1 as (Hc1 & _).
    set (x3 := set_notify _ x2).
    eapply returns_mono; [apply (finish_ok x x3 G2); [| done | | | exact Hk2] |]; [| cbn in *; congruence.. | by intros ? ? []].
    replace x3 with (set_notify (notify_table x3) (with_waiters pid c [] x2)) by (by destruct x2).
    apply all_ok_table; [done |]. intros pid' c'. cbn. rewrite waiters_remove, waiters_set. by destruct (decide _).
Qed.

(** ** The message of the interrupt handler *)

Lemma upd_none G w : G !! w = None -> upd w None G = G.
Proof. intros H. apply map_eq. intros w'. rewrite lookup_upd. by destruct (decide _) as [-> |]. Qed.

(** The thread of the message in hand, if its timeout had fired, has no place any
    more. *)
Lemma all_ok_settled x x' G w c :
  all_ok x (Some (w, c)) G -> timer_ok (timer x') -> time (timer x') = time (timer x) ->
  srv x' = srv x -> gone x' = gone x -> msg_opt x' = msg_opt x ->
  let G' := upd w None G in
  ~ placed (G !! w) ->
  requests_ok (requests (timer x')) G' -> waiters_ok cond_of (notify_table x') G' ->
  waiters_ok lock_of (mutex_hash x') G' -> timeouts_ok (notifications_with_timeouts x') G' ->
  all_ok x' None G'.
Proof.
  intros [] Ht Htime Hsrv Hgone Hmsg G' Hn H1 H2 H3 H4. split; try done.
  - by rewrite Htime.
  - rewrite Hsrv, Hgone. intros w' pl. unfold G'. rewrite lookup_upd. destruct (decide _) as [| Hne]; [done |].
    intros Hw. specialize (ok_owed w' pl Hw). destruct pl; try done. destruct ok_owed as [[= <- <-] | ?]; [done | by right].
  - rewrite Hsrv, Hgone. apply inbox_ok_upd; [done | by left].
  - unfold in_hand in *. rewrite Hmsg, Hgone, Hsrv. destruct (msg_opt x) as [env |]; [| done]. intros Hb.
    destruct (ok_hand Hb) as (i & p & w' & ? & ? & ? & ? & HGw & ?). exists i, p, w'. split_and!; try tauto.
    unfold G'. rewrite lookup_upd. by destruct (decide _).
  - by apply (covered_unplaced _ x).
Qed.

Lemma recalculate_call_ok x G msg w c k :
  all_ok x (Some (w, c)) G -> MessageSender_pid (env_sender msg) = Some own_pid ->
  env_body msg = Scalar (mk_ScalarMessage RecalculateSleep_id w k c 0) ->
  (forall pl, G !! w = Some pl -> pl = P_fired c) ->
  returns (recalculate_call own_pid msg x) (fun x' _ => good x G x' /\ armed (timer x')).
Proof.
  intros Hx Hp Eb HG. unfold recalculate_call. rewrite Hp, Eb. cbn [get_or_0 default]. rewrite Z.eqb_refl.
  cbn [negb Message_scalar_message sm_arg1 sm_arg3]. returns_step.
  eapply returns_mono; [apply stop_ok, Hx |]. intros x1 _ (t1 & -> & Hc1 & Hs1 & Hx1).
  set (s := of_word w). assert (Hws : word s = w) by done.
  assert (Hns : forall d, G !! w <> Some (P_sleep d)) by (intros d E; by specialize (HG _ E)).
  returns_step. unfold remove_timeout. repeat returns_step. rewrite Hws.
  pose proof (timeouts_ok_remove _ G w None (ok_timeouts _ _ _ _ _ Hx1) (fun H => H)) as Hn'.
  cbn [notifications_with_timeouts set_timer] in *. set (n' := notifications_with_timeouts x ∖ {[w]}) in *.
  eapply (returns_mono _ (fun x2 _ => all_ok x2 None (upd w None G) /\ timer_stopped (timer x2)
                                      /\ srv x2 = srv x /\ time (timer x2) = time (timer x))).
  - destruct (G !! w) as [pl |] eqn:Ew.
    + assert (pl = P_fired c) as -> by (by apply HG).
      rewrite bool_decide_true by (apply (ok_timeouts _ _ _ _ _ Hx); by rewrite Ew). returns_step.
      eapply returns_mono; [by apply (retain_waiting _ G s c); [apply Hx1 | | apply Hx1 | rewrite Hws, Ew] |].
      intros x2 [b a] (t2 & -> & H1 & H2 & H3 & H4 & H5). cbn in H5. rewrite decide_True in H5 by (by rewrite Ew).
      subst b. returns_step. returns_step; [by rewrite Nat.eqb_refl |]. repeat returns_step.
      * apply negb_true_iff, Nat.eqb_neq. apply not_eq_sym, Nat.lt_neq, filter_shorter.
        apply (ok_notify _ _ _ _ _ Hx). by rewrite Hws, Ew.
      * destruct Hc1 as (Hc1 & _), H3 as (Hc2 & _). split_and!; try done; [| cbn in *; congruence].
        apply (all_ok_settled _ _ _ _ _ Hx1); try done; [rewrite Ew; by intros [] | |].
        -- apply (waiters_ok_filter cond_of _ G s c); [apply Hx1 | by rewrite Hws, Ew | done].
        -- apply waiters_ok_same; [apply Hx1 | by rewrite Ew].
    + rewrite bool_decide_false by (intros E%(ok_timeouts _ _ _ _ _ Hx); by rewrite Ew in E). returns_step.
      destruct Hc1 as (Hc1 & _). split_and!; try done.
      apply (all_ok_settled _ _ _ _ _ Hx1); try done; rewrite ?(upd_none G w Ew), ?Ew in *; cbn; try apply Hx1; done || tauto.
  - intros x2 [] (Hx2 & Hs2 & Hsrv & Htime). rewrite (bind_ROk _ _ x2 x2 tt) by (by destruct x2).
    apply (finish_ok x x2 _ Hx2 Hs2); [by rewrite Hsrv | done | by apply keeps_sleep_upd].
Qed.
End Server.
