(* ===== verification/TicktimerSafe.v ===== *)
(** * The ticktimer server: safety *)

From Stdlib Require Import ZArith Lia Bool.
From stdpp Require Import base numbers list option gmap.
From S2P Require Import Prelude.
From S2P Require Import Abi.
From S2P Require Import Server.
From S2P Require Import ServerSpec.
From S2P Require Import Port.
From S2P Require Import Ticktimer.
From S2P Require Import TicktimerFacts.
From S2P Require Import TicktimerInv.
From S2P Require Import TicktimerSteps.
From S2P Require Import TicktimerTurns.

#[local] Open Scope Z_scope.
#[local] Open Scope kernel_scope.

#[local] Abbreviation word := MessageSender_to_usize.
#[local] Abbreviation of_word := MessageSender_from_usize.

Section Server.
Context (own_sidx own_pid : Z) (version : MemoryMessage -> option MemoryMessage).
Context (Hsidx : 0 <= own_sidx < 256) (Hpid : wf_pid own_pid = true).

#[local] Abbreviation all_ok := (all_ok own_sidx own_pid).
#[local] Abbreviation owes := (owes own_sidx).
#[local] Abbreviation good := (good own_sidx own_pid).
#[local] Abbreviation sender_of := (sender_of own_sidx).
#[local] Abbreviation is_recalc := (is_recalc own_pid).

(** ** The reply to the message in hand *)

(** The kernel's reply to a sender without a place. *)
Lemma all_ok_answered x x' G i pid w :
  all_ok x None G -> (i < QUEUE_LEN)%nat -> wf_pid pid = true -> replies (srv x) !! i = Some w ->
  G !! word (sender_of i pid) = None -> (forall p tid ra, w = W_scalar p tid ra -> p = pid) ->
  (forall j, held x j -> j = i) -> timer x' = timer x -> notify_table x' = notify_table x -> mutex_hash x' = mutex_hash x ->
  notifications_with_timeouts x' = notifications_with_timeouts x ->
  srv x' = replied (sender_of i pid) (srv x) -> gone x' = gone x -> msg_opt x' = None ->
  all_ok x' None G.
Proof.
  intros [] Hi Hp Hr HG Hw Hh E1 E2 E3 E4 E5 E6 E7. split; rewrite ?E1, ?E2, ?E3, ?E4, ?E5, ?E6; try done.
  - assert (Ho : forall w' p tid, G !! w' <> None -> owes (srv x) (of_word w') p tid ->
                 owes (replied (sender_of i pid) (srv x)) (of_word w') p tid).
    { intros w' p tid Hw' H. pose proof (owes_slot _ Hsidx _ _ _ _ H) as (Hi' & Hp' & Hs & _ & ra & Hra).
      exists (slot_of (of_word w')), ra. split_and!; try done. cbn. rewrite slot_sender_of by done.
      rewrite lookup_delete_ne; [done |]. intros E. rewrite <- E, Hr in Hra. injection Hra as ->.
      rewrite (Hw _ _ _ eq_refl), <- E in Hs. apply Hw'. by rewrite <- HG, <- Hs. }
    intros w' pl Hw'. specialize (ok_owed w' pl Hw'). assert (G !! w' <> None) by congruence.
    destruct pl; cbn [pending replied]; try done.
    + destruct ok_owed as (p & tid & H'). exists p, tid. auto.
    + destruct ok_owed as (p & tid & H'). exists p, tid. auto.
    + destruct ok_owed as (p & tid & H' & ?). exists p, tid. auto.
  - by apply inbox_ok_replied.
  - unfold in_hand. by rewrite E7.
  - apply (covered_answered _ x _ _ (sender_of i pid)); [done | by rewrite E5 |]. by rewrite slot_sender_of.
Qed.

(** What a reply leaves alone. *)
Definition same_tables (x x' : Ticktimer) : Prop :=
  timer x' = timer x /\ notify_table x' = notify_table x /\ mutex_hash x' = mutex_hash x
  /\ notifications_with_timeouts x' = notifications_with_timeouts x /\ pending (srv x') = pending (srv x)
  /\ gone x' = gone x.

Lemma reply_ok x G :
  all_ok x None G ->
  returns (unwrap_result (reply_legacy own_sidx) x) (fun x' _ => all_ok x' None G /\ msg_opt x' = None /\ same_tables x x').
Proof.
  intros Hx. returns_step. unfold reply_legacy. repeat returns_step. cbn [msg_opt set_return_type].
  pose proof (ok_hand _ _ _ _ _ Hx) as Hh. unfold in_hand in Hh.
  destruct (msg_opt x) as [env |] eqn:Em;
    [| returns_step; split; [apply all_ok_forget; [by apply all_ok_return_type | cbn; rewrite ?Em; done] | done]].
  destruct (Message_is_blocking (env_body env)) eqn:Hb; cbn [negb];
    [| returns_step; split; [apply all_ok_forget; [by apply all_ok_return_type | cbn; rewrite ?Em; by intros ? [= <-]] | done]].
  destruct (Hh eq_refl) as (i & pid & w & Hi & Hp & Hs & Hg & HG & Hr & Hw).
  assert (Hheld : forall j, held x j -> j = i).
  { intros j Hj. rewrite (held_msg x env j Em Hj), Hs. by apply slot_sender_of. }
  returns_step. rewrite Hs in HG |- *.
  rewrite (take_waiting_reply _ Hsidx _ _ _ w) by done. returns_step. unfold answer_client.
  destruct w; cbn [reply_result]; try (by destruct (env_body env)).
  - assert (pid0 = pid) as -> by (by destruct (env_body env)). repeat returns_step. cbn [id gone set_srv set_msg set_return_type].
    rewrite bool_decide_false by done. returns_step. split; [| done].
    by apply (all_ok_answered x _ G i pid _ Hx Hi Hp Hr HG).
  - assert (pid0 = pid) as -> by (by destruct (env_body env)). repeat returns_step. cbn [id gone set_srv set_msg set_return_type].
    rewrite bool_decide_false by done. returns_step. split; [| done].
    apply (all_ok_answered x _ G i pid _ Hx Hi Hp Hr HG); try done. by intros ? ? ? [= ->].
Qed.

(** ** The next message *)

Lemma is_recalc_fun p w c w' c' : is_recalc p w c -> is_recalc p w' c' -> w = w' /\ c = c'.
Proof. intros [_ [k E]] [_ [k' E']]. rewrite E in E'. by injection E' as -> _ ->. Qed.

Definition recalc_of (p : pend) : option (Z * Z) :=
  match p_msg p with
  | Scalar (mk_ScalarMessage id w _ c 0) => if (p_pid p =? own_pid) && (id =? RecalculateSleep_id) then Some (w, c) else None
  | _ => None
  end.

Lemma recalc_of_spec p w c : recalc_of p = Some (w, c) <-> is_recalc p w c.
Proof.
  unfold recalc_of, TicktimerInv.is_recalc. split.
  - destruct (p_msg p) as [| | | [id w' k c' []] |]; try done. case_match eqn:E; [| done]. intros [= -> ->]. zbool. subst.
    split; [done |]. by exists k.
  - intros [E [k ->]]. by rewrite E, !Z.eqb_refl.
Qed.

(** The replies that the kernel owes once a message has been received. *)
Lemma set_reply_lookup i w (r : gmap nat waiting) j :
  set_reply i w r !! j = if decide (j = i) then (match w with Some w => Some w | None => r !! i end) else r !! j.
Proof.
  destruct w as [w |]; cbn; destruct (decide (j = i)) as [-> |]; try done; [by rewrite lookup_insert_eq | by rewrite lookup_insert_ne].
Qed.

Lemma head_in i p (l rest : list (nat * pend)) : l = (i, p) :: rest -> In (i, p) l.
Proof. intros ->. by left. Qed.

Lemma delivered_id p : Message_id (delivered p) = Message_id (p_msg p).
Proof. unfold delivered. destruct (p_msg p); try done. by destruct (p_terminated p). Qed.

Lemma delivered_words p : call_words (p_msg p) = true -> call_words (delivered p) = true.
Proof. unfold delivered. destruct (p_msg p); try done. by destruct (p_terminated p). Qed.

Section Receive.
Context (x : Ticktimer) (G : Places) (i : nat) (p : pend) (rest : list (nat * pend)).
Context (Hx : all_ok x None G) (Hl : pending (srv x) = (i, p) :: rest).

Definition received_server : aserver := mk_aserver rest (set_reply i (owed p) (replies (srv x))).

Lemma head_slot : (i < QUEUE_LEN)%nat /\ replies (srv x) !! i = None /\ wf_pid (p_pid p) = true.
Proof.
  destruct (ok_inbox _ _ _ _ _ Hx). destruct (io_slots i p) as [? ?]; [by eapply head_in |].
  destruct (io_wf i p) as [Hw _]; [by eapply head_in |]. unfold wf_pend in Hw. zbool. done.
Qed.

Lemma received_owes s pid tid : owes (srv x) s pid tid -> owes received_server s pid tid.
Proof.
  intros (j & ra & Hj & Hp & -> & Hr). exists j, ra. split_and!; try done. cbn. rewrite set_reply_lookup.
  destruct (decide _) as [-> |]; [| done]. destruct head_slot as (_ & E & _). congruence.
Qed.

Lemma received_owed : owed_ok own_sidx own_pid received_server (gone x) (recalc_of p) G.
Proof.
  intros w pl Hw. pose proof (ok_owed _ _ _ _ _ Hx w pl Hw) as Ho. destruct pl.
  - destruct Ho as (pid & tid & Ho). exists pid, tid. by apply received_owes.
  - destruct Ho as (pid & tid & Ho). exists pid, tid. by apply received_owes.
  - destruct Ho as [? | (j & q & Hin & Hq)]; [done |]. rewrite Hl in Hin. destruct Hin as [[= -> ->] | Hin].
    + left. by apply recalc_of_spec.
    + right. by exists j, q.
  - destruct Ho as (pid & tid & Ho & ?). exists pid, tid. split; [by apply received_owes | done].
Qed.

Lemma received_inbox : inbox_ok own_sidx own_pid received_server (gone x) G.
Proof.
  destruct (ok_inbox _ _ _ _ _ Hx). rewrite Hl in *. cbn in io_nodup. apply NoDup_cons in io_nodup as [Hni Hnd].
  assert (Hin : forall j q, In (j, q) rest -> In (j, q) ((i, p) :: rest)) by (intros; by right).
  split; cbn [received_server pending replies]; eauto.
  - intros j q Hj. destruct (io_slots j q (Hin _ _ Hj)) as [? ?]. split; [done |]. rewrite set_reply_lookup.
    destruct (decide _) as [-> |]; [| done]. exfalso. apply Hni. apply list_elem_of_In, in_map_iff. by exists (i, q).
  - intros l1 j q l2 w c Hq Hr. destruct (io_recalc ((i, p) :: l1) j q l2 w c) as (H1 & H2 & H3); [by rewrite Hq | done |].
    cbn in H2. apply not_elem_of_cons in H2 as [H2 H2']. split_and!; try done. rewrite set_reply_lookup. by rewrite decide_False.
Qed.

Lemma received_place : Message_is_blocking (delivered p) = true -> G !! word (sender_of i (p_pid p)) = None.
Proof.
  intros Hb. destruct head_slot as (Hi & Hr & Hp). destruct (G !! _) as [pl |] eqn:HG; [| done]. exfalso.
  pose proof (ok_owed _ _ _ _ _ Hx _ _ HG) as Ho. rewrite of_word_word in Ho.
  assert (Hno : forall pid tid, ~ owes (srv x) (sender_of i (p_pid p)) pid tid).
  { intros pid tid (_ & _ & _ & _ & ra & E)%owes_slot; [| done]. rewrite slot_sender_of in E by done. congruence. }
  destruct pl; try (by destruct Ho as (? & ? & ?%Hno)); try (by destruct Ho as (? & ? & ?%Hno & _)).
  destruct Ho as [? | (j & q & Hin & Hq)]; [done |]. rewrite Hl in Hin. destruct Hin as [[= -> ->] | Hin].
  - destruct Hq as [_ [k E]]. unfold delivered in Hb. by rewrite E in Hb.
  - apply list_elem_of_In, list_elem_of_split in Hin as (l1 & l2 & ->).
    destruct (io_recalc _ _ _ _ _ (ok_inbox _ _ _ _ _ Hx) ((i, p) :: l1) j q l2 _ _ Hl Hq) as (_ & H & _).
    apply H. rewrite of_word_word, slot_sender_of by done. by left.
Qed.

Lemma received_hand x' :
  srv x' = received_server -> gone x' = gone x -> msg_opt x' = Some (envelope own_sidx i p) -> in_hand own_sidx x' G.
Proof.
  intros Hs Hg Hm. unfold in_hand. rewrite Hs, Hg, Hm. cbn [env_body env_sender envelope]. intros Hb.
  destruct head_slot as (Hi & Hr & Hp). pose proof (received_place Hb).
  destruct (ok_inbox _ _ _ _ _ Hx). pose proof (head_in _ _ _ _ Hl) as Hin.
  assert (~ (p_pid p ∈ gone x)) by (intros E; specialize (io_gone i p Hin E); congruence).
  assert (Hlk : forall o, owed p = Some o -> replies received_server !! i = Some o)
    by (intros o Ho; cbn; by rewrite set_reply_lookup, decide_True, Ho by done).
  unfold owed, delivered in *. destruct (p_msg p); try done; [| | destruct (p_terminated p); [done |]];
    (eexists i, (p_pid p), _; split_and!; try done; [by apply Hlk | done]).
Qed.

(** The message that was in hand before needed no reply. *)
Lemma received_covered x' :
  msg_opt x = None -> srv x' = received_server -> msg_opt x' = Some (envelope own_sidx i p) -> covered own_sidx x' G.
Proof.
  intros Hm Hs Hm' j w. rewrite Hs. cbn [received_server replies]. rewrite set_reply_lookup.
  destruct head_slot as (Hi & Hr & Hp). destruct (decide _) as [-> | Hne].
  - intros Hw. left. exists (envelope own_sidx i p). split; [done |].
    split; [| change (slot_of (sender_of i (p_pid p)) = i); by apply slot_sender_of].
    change (Message_is_blocking (delivered p) = true).
    rewrite Hr in Hw. unfold owed, delivered in *. destruct (p_msg p); try done. by destruct (p_terminated p).
  - intros Hw. right. destruct (ok_covered _ _ _ _ _ Hx j w Hw) as [(env & E & _) | ?]; [congruence | done].
Qed.

Lemma received_ok x' :
  msg_opt x = None ->
  srv x' = received_server -> gone x' = gone x -> msg_opt x' = Some (envelope own_sidx i p) ->
  timer x' = timer x -> notify_table x' = notify_table x -> mutex_hash x' = mutex_hash x ->
  notifications_with_timeouts x' = notifications_with_timeouts x ->
  all_ok x' (recalc_of p) G.
Proof.
  intros Em E1 E2 E3 E4 E5 E6 E7. pose proof received_owed. pose proof received_inbox. destruct Hx.
  split; rewrite ?E1, ?E2, ?E4, ?E5, ?E6, ?E7; try done; [by apply received_hand | by apply received_covered].
Qed.
End Receive.

(** ** A turn *)

(** What the handlers of three messages need: the version is written to memory that
    the client lends for writing, nobody waits for a mutex that is freed, and nobody
    waits with a timeout for a condition that is freed. *)
Definition message_pre (x : Ticktimer) (p : pend) : Prop :=
  match Opcode_from_usize (Message_id (p_msg p)) with
  | GetVersion => match p_msg p with MutableBorrow m | Move m => version m <> None | _ => False end
  | FreeMutex =>
      forall sm, Message_scalar_message (p_msg p) = Some sm -> waiters (mutex_hash x) (Some (p_pid p)) (sm_arg1 sm) = []
  | FreeCondition =>
      forall sm, Message_scalar_message (p_msg p) = Some sm -> no_timeouts x (Some (p_pid p)) (sm_arg1 sm)
  | _ => True
  end.

Definition turn_pre (slept : Z) (x : Ticktimer) : Prop :=
  0 <= slept /\ time (timer x) + slept <= TIME_MAX
  /\ match pending (srv x) with [] => True | (_, p) :: _ => message_pre x p end.

Lemma delivered_scalar p sm :
  Message_scalar_message (delivered p) = Some sm -> Message_scalar_message (p_msg p) = Some sm.
Proof. unfold delivered. destruct (p_msg p); try done. by destruct (p_terminated p). Qed.

Lemma handle_ok slept x x1 G i p rest :
  all_ok x None G -> pending (srv x) = (i, p) :: rest -> turn_pre slept x ->
  all_ok x1 (recalc_of p) G -> msg_opt x1 = Some (envelope own_sidx i p) ->
  timer x1 = timer x -> notify_table x1 = notify_table x -> mutex_hash x1 = mutex_hash x ->
  notifications_with_timeouts x1 = notifications_with_timeouts x ->
  let msg := envelope own_sidx i p in
  returns (handle_opcode own_sidx own_pid version slept (Opcode_from_usize (Message_id (env_body msg))) msg x1)
    (fun x' _ => good x1 G x' /\ (recalc_of p <> None -> armed (timer x'))).
Proof.
  intros Hx Hl (Hs0 & Hs1 & Hpre) Hx1 Hm Et En Emx Eto msg. rewrite Hl in Hpre.
  destruct (head_slot _ _ _ _ _ Hx Hl) as (Hi & _ & Hp).
  pose proof (head_in _ _ _ _ Hl) as Hin. pose proof (ok_inbox _ _ _ _ _ Hx) as Hin'.
  destruct (io_wf _ _ _ _ _ Hin' i p Hin) as [_ Hw]. apply delivered_words in Hw.
  assert (Hpid1 : MessageSender_pid (env_sender msg) = Some (p_pid p)).
  { change (env_sender msg) with (sender_of i (p_pid p)). exact (pid_sender_of own_sidx Hsidx i (p_pid p) Hi Hp). }
  cbn [msg env_body envelope]. rewrite delivered_id. destruct (recalc_of p) as [[w c] |] eqn:Er.
  - apply recalc_of_spec in Er as Hr. pose proof Hr as [Hown [k E]]. rewrite E.
    change (Opcode_from_usize (Message_id (Scalar _))) with RecalculateSleep. cbn [handle_opcode].
    eapply returns_mono; [apply (recalculate_call_ok _ _ Hsidx x1 G msg w c k Hx1) |]; [| | | by intros x' [] []].
    + by rewrite Hpid1, Hown.
    + cbn. unfold delivered. by rewrite E.
    + by destruct (io_recalc _ _ _ _ _ Hin' [] i p rest w c Hl Hr) as (_ & _ & ?).
  - eapply (returns_mono _ (fun x' _ => good x1 G x')); [| by intros x' []].
    unfold message_pre in Hpre. destruct (Opcode_from_usize (Message_id (p_msg p))) eqn:Eo; cbn [handle_opcode].
    + by apply elapsed_call_ok.
    + by apply sleep_call_good.
    + unfold recalculate_call. rewrite Hpid1. cbn. destruct (Z.eqb_spec (p_pid p) own_pid) as [E |]; [| by apply good_id].
      exfalso. destruct (io_own _ _ _ _ _ Hin' i p Hin E) as (j & pid & c & _ & _ & Hr).
      * unfold Opcode_from_usize in Eo. unfold RecalculateSleep_id. repeat (case_match; try done).
      * apply recalc_of_spec in Hr. congruence.
    + apply suspend_call_ok; [done.. | by rewrite Et].
    + by apply good_id.
    + apply version_call_ok; [done.. |]. cbn. unfold delivered. by destruct (p_msg p).
    + by apply lock_mutex_ok.
    + by apply unlock_mutex_ok.
    + by apply wait_for_condition_ok.
    + by apply notify_condition_ok.
    + apply free_mutex_ok; [done.. |]. intros sm Hsm%delivered_scalar. rewrite Hpid1, Emx. by apply Hpre.
    + apply free_condition_ok; [done.. |]. intros sm Hsm%delivered_scalar. rewrite Hpid1.
      unfold no_timeouts. rewrite En, Eto. by apply Hpre.
    + by apply good_id.
Qed.

(** Requests do not wait without an alarm, unless a message of the interrupt
    handler, which leads to the next alarm, is in the queue. *)
Definition alarm_live (x : Ticktimer) : Prop :=
  armed (timer x) \/ exists i p w c, In (i, p) (pending (srv x)) /\ is_recalc p w c.

Lemma turn_ok slept x G :
  all_ok x None G -> alarm_live x -> turn_pre slept x ->
  returns (turn own_sidx own_pid version slept x) (fun x' _ =>
    pending (srv x') = tail (pending (srv x)) /\ alarm_live x' /\ exists G', all_ok x' None G' /\ keeps_sleep G G').
Proof.
  intros Hx Hlive Hpre. unfold turn. returns_step. eapply returns_mono; [by apply reply_ok |].
  intros x0 [] (Hx0 & Hm0 & Et & En & Emx & Eto & Ep & Eg).
  assert (Hlive0 : alarm_live x0) by (unfold alarm_live; by rewrite Et, Ep).
  assert (Hpre0 : turn_pre slept x0).
  { unfold turn_pre, message_pre, no_timeouts in *. by rewrite Et, Ep, En, Emx, Eto. }
  rewrite <- Ep. clear x Hx Hlive Hpre Et En Emx Eto Ep Eg. unfold receive. repeat returns_step. unfold a_receive.
  destruct (pending (srv x0)) as [| [i p] rest] eqn:Hl; repeat returns_step.
  { split_and!; [by rewrite Hl | done |]. exists G. split; [done | apply keeps_sleep_refl]. }
  set (x1 := set_msg _ _).
  cbv beta iota. returns_step. returns_step. returns_step. eapply (returns_mono _ (fun x' e => x' = x1 /\ e = envelope own_sidx i p)); [done |]. intros ? ? [-> ->].
  assert (Hx1 : all_ok x1 (recalc_of p) G) by (by apply (received_ok x0 G i p rest)).
  eapply returns_mono; [by apply (handle_ok slept x0 x1 G i p rest) |].
  intros x2 [] ((Hp2 & _ & Hc2 & Hg) & Ha). split_and!; [done | | done].
  destruct (recalc_of p) as [[w c] |] eqn:Er; [left; by apply Ha |].
  destruct Hc2 as [? | [Ec Eh]]; [by left |]. destruct Hlive0 as [Ha0 | (j & q & w & c & Hin & Hq)].
  - left. unfold armed. by rewrite Ec, Eh.
  - right. exists j, q, w, c. rewrite Hp2. split; [| done]. rewrite Hl in Hin. destruct Hin as [[= -> ->] | ?]; [| done].
    apply recalc_of_spec in Hq. congruence.
Qed.

(** ** A message is queued *)

Lemma inbox_ok_send a ended G i p :
  inbox_ok own_sidx own_pid a ended G -> free_ticket a i -> wf_pend p = true -> call_words (p_msg p) = true ->
  (p_pid p ∈ ended -> Message_is_blocking (delivered p) = false) ->
  (p_pid p = own_pid -> Message_id (p_msg p) = RecalculateSleep_id ->
   exists j pid c, (j < QUEUE_LEN)%nat /\ wf_pid pid = true /\ is_recalc p (word (sender_of j pid)) c) ->
  (forall w c, is_recalc p w c ->
   replies a !! slot_of (of_word w) = None /\ ~ (slot_of (of_word w) ∈ (pending a).*1)
   /\ forall pl, G !! w = Some pl -> pl = P_fired c) ->
  inbox_ok own_sidx own_pid (a_send i p a) ended G.
Proof.
  intros [] (Hi & Hni & Hr) Hw Hc Hg Ho Hrec.
  assert (Hin : forall j q, In (j, q) (pending a ++ [(i, p)]) -> In (j, q) (pending a) \/ (j = i /\ q = p)).
  { intros j q [? | [[= <- <-] | []]]%in_app_iff; [by left | by right]. }
  split; cbn [a_send pending replies].
  - rewrite fmap_app. apply NoDup_app. split_and!; [done | | apply NoDup_singleton].
    intros j Hj ->%list_elem_of_singleton. done.
  - intros j q [? | [-> ->]]%Hin; [by eapply io_slots | done].
  - intros j q [? | [-> ->]]%Hin; [by eapply io_wf | done].
  - intros j q [? | [-> ->]]%Hin; [by eapply io_gone | done].
  - intros j q [? | [-> ->]]%Hin; [by eapply io_own | done].
  - intros l1 j q l2 w c El Hq. destruct l2 as [| e l2 _] using rev_ind.
    + apply app_inj_tail in El as [<- [= <- <-]]. by apply Hrec.
    + rewrite app_comm_cons, app_assoc in El. apply app_inj_tail in El as [El _]. by eapply io_recalc.
Qed.

(** ** The interrupt *)

(** The alarm is enabled and its time has come; the slot for the message of the
    handler is free once the handler has replied, or there is none. *)
Definition irq_pre (slot : option nat) (x : Ticktimer) : Prop :=
  ev_enable_alarm (timer x) = true /\ msleep_target (timer x) <= time (timer x)
  /\ forall r, current_response (timer x) = Some r ->
     let a := replied (sender r) (srv x) in
     match slot with Some i => free_ticket a i | None => forall i, ~ free_ticket a i end.

(** The place of a thread whose request is due. *)
Definition due_place (r : TimerRequest) : option Place :=
  match kind r with Sleep => None | Timeout => Some (P_fired (data r)) end.

Definition recalc_message (r : TimerRequest) : pend :=
  pend_of own_pid 1
    (Scalar (mk_ScalarMessage RecalculateSleep_id (word (sender r)) (RequestKind_to_usize (kind r)) (data r) 0)) None.

Lemma recalc_message_is r : is_recalc (recalc_message r) (word (sender r)) (data r).
Proof. split; [done |]. by exists (RequestKind_to_usize (kind r)). Qed.

Lemma irq_state x r i pid tid :
  current_response (timer x) = Some r -> owes (srv x) (sender r) pid tid ->
  exists x', alarm_irq own_sidx own_pid (Some i) x = ROk x' tt
    /\ srv x' = a_send i (recalc_message r) (replied (sender r) (srv x)) /\ gone x' = gone x /\ msg_opt x' = msg_opt x
    /\ notify_table x' = notify_table x /\ mutex_hash x' = mutex_hash x
    /\ notifications_with_timeouts x' = notifications_with_timeouts x
    /\ time (timer x') = time (timer x) /\ sleep_heap (timer x') = sleep_heap (timer x)
    /\ current_response (timer x') = None /\ ev_enable_alarm (timer x') = false
    /\ answers x' = answers x ++ (if bool_decide (pid ∈ gone x) then []
        else [mk_Answer (time (timer x)) (slot_of (sender r)) pid tid (R_Scalar1 (RequestKind_to_usize (kind r)))]).
Proof.
  intros Hc Ho. unfold alarm_irq, tt_, zoom, gets, modify, unwrap, bind. cbn [set_timer timer set_current]. rewrite Hc.
  unfold ok. rewrite (return_scalar_owed _ Hsidx _ _ _ pid tid) by done. cbn zeta. cbn [gone set_timer].
  case_bool_decide; cbv beta iota; cbn [try_send_message modify]; eexists; (split; [reflexivity |]); cbn; split_and!; try done.
  by rewrite app_nil_r.
Qed.

Section Irq.
Context (x : Ticktimer) (G : Places) (r : TimerRequest) (i : nat) (pid tid : Z).
Context (Hx : all_ok x None G) (Hc : current_response (timer x) = Some r) (Ho : owes (srv x) (sender r) pid tid).
Context (Hi : free_ticket (replied (sender r) (srv x)) i).

#[local] Abbreviation w := (word (sender r)).
#[local] Abbreviation G' := (upd w (due_place r) G).

Lemma irq_place : G !! w = Some (request_place r).
Proof. apply (ok_requests _ _ _ _ _ Hx). unfold requests. rewrite Hc. by left. Qed.

Lemma irq_owed : owed_ok own_sidx own_pid (a_send i (recalc_message r) (replied (sender r) (srv x))) (gone x) None G'.
Proof.
  intros w' pl. rewrite lookup_upd. destruct (decide _) as [-> |].
  - unfold due_place. destruct (kind r); [done |]. intros [= <-]. right. exists i, (recalc_message r).
    split; [cbn; rewrite in_app_iff; right; by left | apply recalc_message_is].
  - intros Hw.
    pose proof (owed_ok_reply _ _ Hsidx _ _ _ _ _ _ _ (ok_owed _ _ _ _ _ Hx) Ho w' pl) as H.
    rewrite lookup_upd, decide_False in H by done. specialize (H Hw). destruct pl; try done.
    destruct H as [? | (j & q & Hin & Hq)]; [done |]. right. exists j, q. split; [cbn; rewrite in_app_iff; by left | done].
Qed.

Lemma irq_inbox : inbox_ok own_sidx own_pid (a_send i (recalc_message r) (replied (sender r) (srv x))) (gone x) G'.
Proof.
  pose proof (owes_slot _ Hsidx _ _ _ _ Ho) as (Hs & Hp & Hsd & _ & ra & Hra).
  apply inbox_ok_send.
  - apply inbox_ok_replied. destruct (ok_inbox _ _ _ _ _ Hx). split; try done.
    intros l1 j q l2 w' c El Hq. destruct (io_recalc _ _ _ _ _ _ El Hq) as (H1 & H2 & H3). split_and!; try done.
    intros pl. rewrite lookup_upd. destruct (decide _) as [-> |]; [| apply H3]. rewrite of_word_word in H1. congruence.
  - done.
  - unfold wf_pend, recalc_message. cbn. by rewrite Hpid.
  - done.
  - done.
  - intros _ _. exists (slot_of (sender r)), pid, (data r). split_and!; try done. rewrite <- Hsd. apply recalc_message_is.
  - intros w' c Hr. destruct (is_recalc_fun _ _ _ _ _ Hr (recalc_message_is r)) as [-> ->].
    rewrite of_word_word. split_and!.
    + cbn. apply lookup_delete_eq.
    + cbn. intros ((j & q) & E & Hin)%list_elem_of_fmap. cbn in E. subst j. apply list_elem_of_In in Hin.
      destruct (io_slots _ _ _ _ _ (ok_inbox _ _ _ _ _ Hx) _ _ Hin) as [_ ?]. congruence.
    + intros pl. rewrite lookup_upd, decide_True by done. unfold due_place. destruct (kind r); [done |]. by intros [= <-].
Qed.

Lemma irq_timer t' :
  sleep_heap t' = sleep_heap (timer x) -> current_response t' = None -> ev_enable_alarm t' = false -> timer_ok t'.
Proof.
  intros E1 E2 E3. destruct (ok_timer _ _ _ _ _ Hx) as [H1 H2 H3 H4]. split; rewrite ?E1, ?E2; try done.
  unfold requests in *. rewrite E2, E1. rewrite Hc in H3. by inversion H3.
Qed.

Lemma irq_all x' :
  srv x' = a_send i (recalc_message r) (replied (sender r) (srv x)) -> gone x' = gone x -> msg_opt x' = msg_opt x ->
  notify_table x' = notify_table x -> mutex_hash x' = mutex_hash x ->
  notifications_with_timeouts x' = notifications_with_timeouts x ->
  time (timer x') = time (timer x) -> sleep_heap (timer x') = sleep_heap (timer x) ->
  current_response (timer x') = None -> ev_enable_alarm (timer x') = false ->
  all_ok x' None G'.
Proof.
  intros E1 E2 E3 E4 E5 E6 E7 E8 E9 E10. pose proof irq_place as HG.
  pose proof irq_owed. pose proof irq_inbox. split; rewrite ?E1, ?E2, ?E4, ?E5, ?E6, ?E7; try done; try apply Hx.
  - by apply irq_timer.
  - assert (E : requests (timer x) = r :: requests (timer x')) by (unfold requests; by rewrite Hc, E8, E9).
    apply (requests_ok_del (requests (timer x)) _ _ r); [apply Hx | by rewrite E |]. unfold due_place. by destruct (kind r).
  - apply waiters_ok_same; [apply Hx |]. rewrite HG. unfold due_place, request_place. by destruct (kind r).
  - apply waiters_ok_same; [apply Hx |]. rewrite HG. unfold due_place, request_place. by destruct (kind r).
  - apply timeouts_ok_same; [apply Hx |]. rewrite HG. unfold due_place, request_place. by destruct (kind r).
  - pose proof (in_hand_replied _ Hsidx x (set_srv (replied (sender r) (srv x)) x) G _ _ _ (due_place r)
                  (ok_hand _ _ _ _ _ Hx) Ho) as Hh.
    unfold in_hand in *. rewrite E1, E2, E3. apply Hh; try done. by rewrite HG.
  - apply (covered_replied _ Hsidx x); [apply Hx | by rewrite E1 | done].
Qed.
End Irq.

(** The slot of the request is free after the reply, so there is one for the message. *)
Lemma replied_free x G s pid tid :
  all_ok x None G -> owes (srv x) s pid tid -> free_ticket (replied s (srv x)) (slot_of s).
Proof.
  intros Hx Ho. pose proof (owes_slot _ Hsidx _ _ _ _ Ho) as (Hi & _ & _ & _ & ra & Hr).
  split_and!; [done | | apply lookup_delete_eq]. cbn. intros ((j & q) & E & Hin)%list_elem_of_fmap. cbn in E. subst j.
  apply list_elem_of_In in Hin. destruct (io_slots _ _ _ _ _ (ok_inbox _ _ _ _ _ Hx) _ _ Hin) as [_ ?]. congruence.
Qed.

(** What the interrupt handler does: the request that is due first is answered. *)
Lemma irq_ok slot x G :
  all_ok x None G -> irq_pre slot x ->
  returns (alarm_irq own_sidx own_pid slot x) (fun x' _ =>
    alarm_live x' /\ exists r pid tid,
      requests (timer x) = r :: requests (timer x') /\ msec r <= time (timer x)
      /\ Forall (fun r' => msec r < msec r') (requests (timer x'))
      /\ owes (srv x) (sender r) pid tid
      /\ answers x' = answers x ++ (if bool_decide (pid ∈ gone x) then []
          else [mk_Answer (time (timer x)) (slot_of (sender r)) pid tid (R_Scalar1 (RequestKind_to_usize (kind r)))])
      /\ all_ok x' None (upd (word (sender r)) (due_place r) G)).
Proof.
  intros Hx (Ha & Ht & Hi). pose proof (ok_timer _ _ _ _ _ Hx) as Hok. pose proof (to_armed _ Hok) as Har.
  destruct (current_response (timer x)) as [r |] eqn:Hc; [| congruence]. destruct Har as (_ & Etgt & Hmin).
  assert (HG : G !! word (sender r) = Some (request_place r)) by (by apply (irq_place x)).
  pose proof (ok_owed _ _ _ _ _ Hx _ _ HG) as Ho. rewrite of_word_word in Ho.
  assert (exists pid tid, owes (srv x) (sender r) pid tid) as (pid & tid & Ho')
    by (unfold request_place in Ho; by destruct (kind r)).
  specialize (Hi r eq_refl). cbv zeta in Hi. destruct slot as [i |]; [| by destruct (Hi _ (replied_free _ _ _ _ _ Hx Ho'))].
  destruct (irq_state x r i pid tid Hc Ho') as (x' & -> & E1 & E2 & E3 & E4 & E5 & E6 & E7 & E8 & E9 & E10 & E11).
  returns_step. split.
  { right. exists i, (recalc_message r), (word (sender r)), (data r). rewrite E1. cbn.
    split; [rewrite in_app_iff; right; by left | apply recalc_message_is]. }
  exists r, pid, tid. split_and!; try done; [| lia | |].
  - unfold requests. by rewrite Hc, E8, E9.
  - unfold requests. rewrite E8, E9. cbn. rewrite List.Forall_map. pose proof (to_keys _ Hok) as Hk.
    rewrite List.Forall_forall in Hmin, Hk |- *. intros e He. rewrite <- (Hk e He). by apply Hmin.
  - by apply (irq_all x G r i pid tid).
Qed.

(** ** The other events *)

Lemma all_ok_time x G ms :
  all_ok x None G -> 0 <= ms -> time (timer x) + ms <= TIME_MAX ->
  all_ok (set_timer (set_time (time (timer x) + ms) (timer x)) x) None G.
Proof. intros [[] [] ? ? ? ? ? ? ? ?] ? ?. split; cbn; try done. lia. Qed.

Definition client_pre (i : nat) (pid : Z) (m : Message) (addr : option Z) (x : Ticktimer) : Prop :=
  free_ticket (srv x) i /\ wf_send pid m addr = true /\ call_words m = true
  /\ ~ (pid ∈ gone x) /\ pid <> own_pid.

Lemma client_ok i pid tid m addr x G :
  all_ok x None G -> client_pre i pid m addr x ->
  all_ok (set_srv (a_send i (pend_of pid tid m addr) (srv x)) x) None G.
Proof.
  intros Hx (Hi & Hw & Hc & Hg & Hne). destruct Hx. split; cbn; try done.
  - intros w pl Hw'. specialize (ok_owed w pl Hw'). destruct pl; try done.
    destruct ok_owed as [? | (j & q & Hin & Hq)]; [done |]. right. exists j, q. split; [| done].
    cbn. rewrite in_app_iff. by left.
  - apply inbox_ok_send; try done.
    + by apply pend_of_wf.
    + intros w c [E _]. by destruct Hne.
Qed.

(** A process ends: it is not the client of the message in hand, none of its threads
    waits for a mutex, and it has not lent memory to the server. *)
Definition exit_pre (pid : Z) (x : Ticktimer) : Prop :=
  pid <> own_pid /\ (forall m, waiters (mutex_hash x) (Some pid) m = [])
  /\ Forall (fun ip => p_pid (snd ip) = pid -> lends (p_msg (snd ip)) = false) (pending (srv x))
  /\ match msg_opt x with
     | Some env => Message_is_blocking (env_body env) = true -> MessageSender_pid (env_sender env) <> Some pid
     | None => True
     end.

Lemma terminate_wf pid p : wf_pend (terminate_pend pid p) = wf_pend p.
Proof. unfold wf_pend, terminate_pend. destruct (p_msg p) eqn:E; try done; destruct (p_pid p =? pid); cbn; by rewrite ?E. Qed.

Lemma terminate_recalc pid p w c : is_recalc (terminate_pend pid p) w c <-> is_recalc p w c.
Proof. unfold TicktimerInv.is_recalc. by destruct (terminate_pend_same pid p) as [-> ->]. Qed.

Lemma terminate_blocking pid p :
  Message_is_blocking (delivered p) = false -> Message_is_blocking (delivered (terminate_pend pid p)) = false.
Proof.
  unfold terminate_pend, delivered. destruct (p_msg p) eqn:E; cbn; rewrite ?E; try done;
    (destruct (p_pid p =? pid); cbn; rewrite ?E; done).
Qed.

Lemma exit_inbox pid a ended G :
  inbox_ok own_sidx own_pid a ended G ->
  Forall (fun ip => p_pid (snd ip) = pid -> lends (p_msg (snd ip)) = false) (pending a) ->
  inbox_ok own_sidx own_pid (a_discard pid a) (ended ∪ {[pid]}) G.
Proof.
  intros [] Hl.
  assert (Hin : forall i q, In (i, q) (pending (a_discard pid a)) -> exists p, In (i, p) (pending a) /\ q = terminate_pend pid p).
  { intros i q ([j p] & [= <- <-] & Hin)%in_map_iff. by exists p. }
  assert (Hfst : (pending (a_discard pid a)).*1 = (pending a).*1).
  { cbn. rewrite <- list_fmap_compose. apply list_fmap_ext. by intros ? []. }
  split.
  - by rewrite Hfst.
  - intros i q (p & Hp & ->)%Hin. by eapply io_slots.
  - intros i q (p & Hp & ->)%Hin. destruct (io_wf i p Hp) as [Hw Hc].
    split; [by rewrite terminate_wf | by destruct (terminate_pend_same pid p) as [_ ->]].
  - intros i q (p & Hp & ->)%Hin. destruct (terminate_pend_same pid p) as [-> _].
    intros [He | He%elem_of_singleton]%elem_of_union; [by eapply terminate_blocking, io_gone |].
    rewrite List.Forall_forall in Hl. specialize (Hl _ Hp He). cbn in Hl. unfold terminate_pend, delivered.
    destruct (p_msg p) eqn:E; cbn; rewrite ?E; try done. rewrite He, Z.eqb_refl. done.
  - intros i q (p & Hp & ->)%Hin. destruct (terminate_pend_same pid p) as [-> ->]. intros E1 E2.
    destruct (io_own i p Hp E1 E2) as (j & p' & c & ? & ? & ?). exists j, p', c. by rewrite terminate_recalc.
  - intros l1 i q l2 w c El Hq. cbn in El. apply fmap_app_inv in El as (k1 & k2 & -> & El & Ek).
    symmetry in El. apply fmap_cons_inv in El as ([j p] & k3 & [= -> ->] & -> & ->).
    apply terminate_recalc in Hq. destruct (io_recalc k1 j p k3 w c Ek Hq) as (H1 & H2 & H3). split_and!; try done.
    rewrite <- list_fmap_compose. by erewrite list_fmap_ext; [| by intros ? []].
Qed.

Lemma exit_ok pid x G :
  all_ok x None G -> exit_pre pid x ->
  all_ok (set_gone (gone x ∪ {[pid]}) (set_srv (a_discard pid (srv x)) x)) None G.
Proof.
  intros Hx (Hne & Hm & Hl & Hh). pose proof (ok_mutex _ _ _ _ _ Hx) as Hmx. destruct Hx. split; cbn; try done.
  - intros w pl Hw. specialize (ok_owed w pl Hw). destruct pl; try done.
    + destruct ok_owed as [? | (j & q & Hin & Hq)]; [done |]. right. exists j, (terminate_pend pid q).
      split; [| by apply terminate_recalc]. cbn. apply in_map_iff. by exists (j, q).
    + destruct ok_owed as (p & tid & Ho & He). exists p, tid. split; [done |].
      intros [? | ->%elem_of_singleton]%elem_of_union; [done |].
      pose proof (owes_slot _ Hsidx _ _ _ _ Ho) as (_ & _ & _ & E & _).
      assert (Hin : In (of_word w) (waiters (mutex_hash x) (Some pid) mutex)).
      { apply Hmx. split; [done |]. change (word (of_word w)) with w. by rewrite Hw. }
      by rewrite Hm in Hin.
  - by apply exit_inbox.
  - unfold in_hand in *. cbn. destruct (msg_opt x) as [env |]; [| done]. intros Hb.
    destruct (ok_hand Hb) as (i & p & w & Hi & Hp & Hs & Hg & ?). exists i, p, w. split_and!; try tauto.
    intros [? | ->%elem_of_singleton]%elem_of_union; [done |]. apply (Hh Hb). rewrite Hs. by apply pid_sender_of.
Qed.

(** ** Runs of the server *)

Definition step_pre (e : Event) (x : Ticktimer) : Prop :=
  match e with
  | E_time ms => 0 <= ms /\ time (timer x) + ms <= TIME_MAX
  | E_client i pid _ m addr => client_pre i pid m addr x
  | E_irq slot => irq_pre slot x
  | E_turn slept => turn_pre slept x
  | E_exit pid => exit_pre pid x
  end.

#[local] Abbreviation step := (step own_sidx own_pid version).

Inductive reachable : Ticktimer -> Prop :=
| reachable_init : reachable Ticktimer_init
| reachable_step e x x' : reachable x -> step_pre e x -> step e x = ROk x' tt -> reachable x'.

Lemma live_more x x' : timer x' = timer x -> incl (pending (srv x)) (pending (srv x')) -> alarm_live x -> alarm_live x'.
Proof.
  intros Et Hp [Ha | (i & p & w & c & Hin & Hr)]; [left; by rewrite Et | right]. exists i, p, w, c. eauto.
Qed.

Lemma step_ok e x G :
  all_ok x None G -> alarm_live x -> step_pre e x ->
  returns (step e x) (fun x' _ =>
    alarm_live x' /\ exists G', all_ok x' None G' /\ ((forall slot, e <> E_irq slot) -> keeps_sleep G G')).
Proof.
  intros Hx Hlive Hpre. destruct e; cbn [step Ticktimer.step step_pre] in *.
  - destruct Hpre. unfold tt_. repeat returns_step. split; [done |]. exists G.
    split; [by apply all_ok_time | intros; apply keeps_sleep_refl].
  - repeat returns_step. split; [eapply live_more; [| | exact Hlive]; [done |]; cbn; apply incl_appl, incl_refl |]. exists G.
    split; [by apply client_ok | intros; apply keeps_sleep_refl].
  - eapply returns_mono; [by apply irq_ok |]. intros x' [] (Hl & r & pid & tid & _ & _ & _ & _ & _ & Hx').
    split; [done |]. eexists. split; [exact Hx' |]. intros H. by destruct (H slot).
  - eapply returns_mono; [by apply turn_ok |]. intros x' [] (_ & Hl & G' & Hx' & Hk). split; [done |]. by exists G'.
  - repeat returns_step. split; [| exists G; split; [by apply exit_ok | intros; apply keeps_sleep_refl]].
    destruct Hlive as [Ha | (i & p & w & c & Hin & Hr)]; [by left | right].
    exists i, (terminate_pend pid p), w, c. split; [| by apply terminate_recalc]. cbn. apply in_map_iff. by exists (i, p).
Qed.

Lemma init_table f : f None = None -> waiters_ok f ∅ ∅.
Proof.
  intros Hf. assert (E : forall pid c, waiters ∅ pid c = []) by (intros; unfold waiters; by rewrite lookup_empty).
  split; [intros; rewrite E; constructor |]. intros pid c s. rewrite E, lookup_empty, Hf. split; [done | by intros []].
Qed.

Lemma init_ok : all_ok Ticktimer_init None ∅.
Proof.
  split.
  - split; cbn; try done; constructor.
  - cbn. unfold TIME_MAX. lia.
  - split; [constructor |]. intros r. cbn. split; [done |]. intros [E _]. by rewrite lookup_empty in E.
  - by apply init_table.
  - by apply init_table.
  - intros w. rewrite lookup_empty. cbn. by rewrite elem_of_empty.
  - intros w pl. by rewrite lookup_empty.
  - split; try done; [constructor |]. intros l1 i p l2 w c E. by destruct l1.
  - done.
  - intros i w. cbn. by rewrite lookup_empty.
Qed.

Lemma reachable_ok x : reachable x -> alarm_live x /\ exists G, all_ok x None G.
Proof.
  induction 1 as [| e x x' Hr [Hl [G IH]] Hpre E].
  - split; [left; intros H; by destruct H |]. exists ∅. apply init_ok.
  - pose proof (step_ok e x G IH Hl Hpre) as H. rewrite E in H. destruct H as [? (G' & ? & _)]. eauto.
Qed.

(** A thread waits: its request is in the heap or in the alarm, or its sender is in
    the table of a condition or in the table of a mutex. *)
Definition waits (x : Ticktimer) (s : MessageSender) : Prop :=
  (exists r, In r (requests (timer x)) /\ sender r = s)
  \/ (exists c, In s (waiters (notify_table x) (MessageSender_pid s) c))
  \/ exists m, In s (waiters (mutex_hash x) (MessageSender_pid s) m).

(** A reply that the kernel owes: the one for the message in hand, or the one of a
    thread that waits. *)
Definition nobody_forgotten (x : Ticktimer) : Prop :=
  forall i w, replies (srv x) !! i = Some w ->
    held x i \/ exists pid tid ra, w = W_scalar pid tid ra /\ waits x (sender_of i pid).

(** The other way round: a thread in a table, or with a request whose time has not
    come, is owed a reply. *)
Definition nobody_invented (x : Ticktimer) : Prop :=
  (forall r, In r (requests (timer x)) -> exists pid tid, owes (srv x) (sender r) pid tid)
  /\ forall p m s, In s (waiters (mutex_hash x) p m) -> exists pid tid, owes (srv x) s pid tid.

Lemma all_ok_forgotten x hand G : all_ok x hand G -> nobody_forgotten x.
Proof.
  intros Hx i w Hw. destruct (ok_covered _ _ _ _ _ Hx i w Hw) as [? | (pid & tid & ra & -> & Hi & Hp & Hpl)]; [by left | right].
  exists pid, tid, ra. split; [done |]. set (s := sender_of i pid) in *. unfold waits, placed in *.
  destruct (G !! word s) as [[d | c d | | m] |] eqn:E; try done.
  - left. exists (mk_TimerRequest d s Sleep 0). split; [| done]. by apply (ok_requests _ _ _ _ _ Hx).
  - right. left. exists c. apply (ok_notify _ _ _ _ _ Hx). by rewrite E.
  - right. right. exists m. apply (ok_mutex _ _ _ _ _ Hx). by rewrite E.
Qed.

Lemma all_ok_invented x hand G : all_ok x hand G -> nobody_invented x.
Proof.
  intros Hx. split.
  - intros r [Hr _]%(ok_requests _ _ _ _ _ Hx). pose proof (ok_owed _ _ _ _ _ Hx _ _ Hr) as Ho.
    rewrite of_word_word in Ho. unfold request_place in Ho. by destruct (kind r).
  - intros p m s [_ Hs]%(ok_mutex _ _ _ _ _ Hx). destruct (G !! word s) as [[] |] eqn:E; try done.
    pose proof (ok_owed _ _ _ _ _ Hx _ _ E) as (pid & tid & Ho & _). rewrite of_word_word in Ho. eauto.
Qed.


(** C29. A sleeping thread is not woken early and not forgotten: whatever happens,
    either its request stays as it is, or the alarm interrupts at or after its
    time, before the time of every other request, and the kernel gives its reply
    to it, if its process has not ended. *)
Theorem sleeper_not_early e x x' r :
  reachable x -> step_pre e x -> step e x = ROk x' tt -> In r (requests (timer x)) -> kind r = Sleep ->
  In r (requests (timer x'))
  \/ (exists slot, e = E_irq slot) /\ msec r <= time (timer x)
     /\ Forall (fun r' => msec r < msec r') (requests (timer x'))
     /\ exists pid tid, owes (srv x) (sender r) pid tid
        /\ answers x' = answers x ++ (if bool_decide (pid ∈ gone x) then []
             else [mk_Answer (time (timer x)) (slot_of (sender r)) pid tid (R_Scalar1 0)]).
Proof.
  intros [Hl [G Hx]]%reachable_ok Hpre E Hin Hk. pose proof (step_ok e x G Hx Hl Hpre) as H. rewrite E in H.
  destruct H as (_ & G' & Hx' & Hkeep).
  assert (Hdec : (exists slot, e = E_irq slot) \/ (forall slot, e <> E_irq slot))
    by (destruct e; eauto; right; intros; discriminate).
  destruct Hdec as [[slot ->] | Hne].
  - pose proof (irq_ok slot x G Hx Hpre) as Hi. cbn [step Ticktimer.step] in E. rewrite E in Hi.
    destruct Hi as (_ & q & pid & tid & Eq & Hq & Hmin & Ho & Ha & _). rewrite Eq in Hin. destruct Hin as [-> | Hin]; [| by left].
    right. split_and!; eauto. exists pid, tid. split; [done |]. by rewrite Ha, Hk.
  - left. apply (ok_requests _ _ _ _ _ Hx') . apply (ok_requests _ _ _ _ _ Hx) in Hin as [Hr Hd].
    split; [| done]. unfold request_place in *. rewrite Hk in *. by apply Hkeep.
Qed.

(** C30. The time of a sleeping thread: a turn that receives a request to sleep for
    some milliseconds leaves the thread a request whose time is at least that far
    away, and at most 128 milliseconds later; the alarm is set, to this time or to
    an earlier one. *)
Theorem sleep_deadline slept x i p rest sm :
  reachable x -> turn_pre slept x -> pending (srv x) = (i, p) :: rest ->
  p_msg p = BlockingScalar sm -> sm_id sm = 1 -> p_terminated p = false ->
  returns (step (E_turn slept) x) (fun x' _ => exists k,
    In (mk_TimerRequest k (sender_of i (p_pid p)) Sleep 0) (requests (timer x'))
    /\ time (timer x) + sm_arg1 sm <= k <= time (timer x) + sm_arg1 sm + 128
    /\ ev_enable_alarm (timer x') = true /\ msleep_target (timer x') <= k).
Proof.
  intros [Hl [G Hx]]%reachable_ok Hpre Hp Hm Hid Ht. cbn [step Ticktimer.step]. unfold turn. returns_step.
  eapply returns_mono; [by apply reply_ok |]. intros x0 [] (Hx0 & Hm0 & Et & _ & _ & _ & Ep & _).
  rewrite Hp in Ep. rewrite <- Et. clear x Hx Hp Hpre Hl Et. unfold receive. repeat returns_step. unfold a_receive. rewrite Ep.
  repeat returns_step. set (x1 := set_msg _ _). cbv beta iota. returns_step. returns_step. returns_step.
  eapply (returns_mono _ (fun x' e => x' = x1 /\ e = envelope own_sidx i p)); [done |]. intros ? ? [-> ->].
  assert (Ed : delivered p = BlockingScalar sm) by (unfold delivered; by rewrite Hm, Ht).
  assert (Hx1 : all_ok x1 None G).
  { pose proof (received_ok x0 G i p rest Hx0 Ep x1) as H. unfold recalc_of in H. rewrite Hm in H. by apply H. }
  cbn [env_body envelope]. rewrite Ed. cbn [Message_id]. rewrite Hid. change (Opcode_from_usize 1) with SleepMs. cbn [handle_opcode].
  pose proof (ok_inbox _ _ _ _ _ Hx0) as Hin. destruct (io_wf _ _ _ _ _ Hin i p (head_in _ _ _ _ Ep)) as [_ Hw].
  rewrite Hm in Hw. cbn in Hw. zbool.
  eapply returns_mono; [by apply (sleep_call_ok _ _ Hsidx x1 G (envelope own_sidx i p) sm Hx1) |].
  intros x2 [] (_ & _ & Ha & k & Hk & Hx2). exists k.
  assert (Hr : In (mk_TimerRequest k (sender_of i (p_pid p)) Sleep 0) (requests (timer x2))).
  { apply (ok_requests _ _ _ _ _ Hx2). split; [| done]. rewrite lookup_upd. by rewrite decide_True. }
  split; [done |]. split; [exact Hk |].
  pose proof (to_armed _ (ok_timer _ _ _ _ _ Hx2)) as Harm. unfold requests in Hr.
  destruct (current_response (timer x2)) as [r |] eqn:Ec.
  - destruct Harm as (? & -> & Hmin). split; [done |]. destruct Hr as [-> | Hr]; [done |].
    apply in_map_iff in Hr as (e & E & He). pose proof (to_keys _ (ok_timer _ _ _ _ _ Hx2)) as Hkeys.
    rewrite List.Forall_forall in Hmin, Hkeys. specialize (Hmin _ He). rewrite (Hkeys _ He), E in Hmin. cbn in Hmin. lia.
  - exfalso. apply Ha; [| done]. intros E. by rewrite E in Hr.
Qed.
End Server.

(** ** Examples

    The server has index 5 and process 3; a thread of process 7 asks to sleep for a
    second. *)

Definition example_step : Event -> Ticktimer -> outcome Error Ticktimer unit := step 5 3 (fun m => Some m).
Definition example_steps : list Event -> Ticktimer -> outcome Error Ticktimer unit := steps 5 3 (fun m => Some m).

Definition example_sleep : Event := E_client 0 7 2 (BlockingScalar (mk_ScalarMessage 1 1000 0 0 0)) None.

Definition state_after (es : list Event) : Ticktimer :=
  match example_steps es Ticktimer_init with ROk x _ => x | _ => Ticktimer_init end.

Lemma free_ticket_init i : (i < QUEUE_LEN)%nat -> free_ticket (srv Ticktimer_init) i.
Proof. intros Hi. split_and!; [done | apply not_elem_of_nil | apply lookup_empty]. Qed.

Lemma example_queued : reachable 5 3 (fun m => Some m) (state_after [example_sleep]).
Proof.
  eapply (reachable_step _ _ _ example_sleep); [apply reachable_init | | reflexivity].
  split_and!; [apply free_ticket_init; unfold QUEUE_LEN; lia | reflexivity | reflexivity | apply not_elem_of_empty | done].
Qed.

Lemma example_turn_pre : turn_pre (fun m => Some m) 0 (state_after [example_sleep]).
Proof. split_and!; [done | vm_compute; discriminate | exact I]. Qed.

Lemma example_asleep : reachable 5 3 (fun m => Some m) (state_after [example_sleep; E_turn 0]).
Proof.
  eapply (reachable_step _ _ _ (E_turn 0)); [exact example_queued | exact example_turn_pre | vm_compute; reflexivity].
Qed.

Lemma example_late : reachable 5 3 (fun m => Some m) (state_after [example_sleep; E_turn 0; E_time 1500]).
Proof.
  eapply (reachable_step _ _ _ (E_time 1500)); [exact example_asleep | | vm_compute; reflexivity].
  split; [done | vm_compute; discriminate].
Qed.

Lemma example_irq_pre : irq_pre (Some 0%nat) (state_after [example_sleep; E_turn 0; E_time 1500]).
Proof.
  split_and!; [vm_compute; reflexivity | vm_compute; discriminate |]. intros r [= <-]. cbv zeta.
  split_and!; [unfold QUEUE_LEN; lia | |]; vm_compute; [by intros ?%elem_of_nil | reflexivity].
Qed.


Lemma sleep_deadline_witness :
  returns (example_step (E_turn 0) (state_after [example_sleep])) (fun x' _ => exists k,
    In (mk_TimerRequest k (sender_of 5 0 7) Sleep 0) (requests (timer x'))
    /\ 1000 <= k <= 1128 /\ ev_enable_alarm (timer x') = true /\ msleep_target (timer x') <= k).
Proof.
  eapply (sleep_deadline 5 3 (fun m => Some m) ltac:(lia) eq_refl 0 (state_after [example_sleep]) 0
            (pend_of 7 2 (BlockingScalar (mk_ScalarMessage 1 1000 0 0 0)) None) [] (mk_ScalarMessage 1 1000 0 0 0));
    [exact example_queued | exact example_turn_pre | reflexivity..].
Defined.

Lemma sleeper_not_early_witness :
  let x := state_after [example_sleep; E_turn 0; E_time 1500] in
  let x' := state_after [example_sleep; E_turn 0; E_time 1500; E_irq (Some 0%nat)] in
  let r := mk_TimerRequest 1000 (sender_of 5 0 7) Sleep 0 in
  In r (requests (timer x'))
  \/ (exists slot, E_irq (Some 0%nat) = E_irq slot) /\ msec r <= time (timer x)
     /\ Forall (fun r' => msec r < msec r') (requests (timer x'))
     /\ exists pid tid, owes 5 (srv x) (sender r) pid tid
        /\ answers x' = answers x ++ (if bool_decide (pid ∈ gone x) then []
             else [mk_Answer (time (timer x)) (slot_of (sender r)) pid tid (R_Scalar1 0)]).
Proof.
  apply (sleeper_not_early 5 3 (fun m => Some m));
    [lia | reflexivity | exact example_late | exact example_irq_pre | vm_compute; reflexivity | vm_compute; by left | reflexivity].
Defined.

(** ** What stops the server *)

Definition request (slot : nat) (tid id arg1 arg2 : Z) : Event :=
  E_client slot 7 tid (BlockingScalar (mk_ScalarMessage id arg1 arg2 0 0)) None.

Definition notice (slot : nat) (id arg1 arg2 : Z) : Event :=
  E_client slot 7 4 (Scalar (mk_ScalarMessage id arg1 arg2 0 0)) None.

(** Freeing a condition can stop the server.  A thread waits for a condition with
    a timeout; another one sleeps a little longer; a third request to sleep and the
    request to free the condition are in the queue when the timeout fires.  The
    third request arms the alarm for the sleeping thread, which is due as well, so
    the last reply is not the one to the thread that waited: the handler of the
    request to free the condition asserts that it is. *)
Lemma free_condition_panics :
  exists x, example_steps [request 0 1 8 4096 10; E_turn 0; request 1 2 1 11 0; E_turn 0; request 2 3 1 50 0;
                           notice 3 11 4096 0; E_time 20; E_irq (Some 4%nat); E_turn 0; E_irq (Some 5%nat)] Ticktimer_init
            = ROk x tt
    /\ length (pending (srv x)) = 3%nat /\ length (answers x) = 2%nat /\ example_step (E_turn 0) x = RPanic.
Proof. eexists. split; [vm_compute; reflexivity |]. vm_compute. done. Qed.
