(* ===== verification/Names.v ===== *)
(** * The name server

    Servers register under a name and get a server identifier, which only they and
    the name server know; clients ask for a connection to a name, and the name
    server has the kernel connect them (src/services/xous-names and
    src/api/xous-api-names).  A server can limit the number of its connections, and
    a client can wait for a server that is not registered yet.

    The messages go through a port ([Port.v]).  The connections are made by the
    kernel; the interface [Broker] has the one system call for them, and
    [NamesKernel.v] shows that the kernel implements it.  While the call waits for a
    server that does not exist the other processes run: [schedule] has what they do
    to the kernel, an entry for each attempt.  Records in messages are serialized by
    a library, which is the argument [codec]; the random identifiers are the argument
    [ids], and the order of the entries of a hash map is the argument [iter]. *)

From Stdlib Require Import ZArith Lia Bool.
From stdpp Require Import base numbers list option gmap.
From S2P Require Import Prelude.
From S2P Require Import Abi.
From S2P Require Import Server.
From S2P Require Import ServerSpec.
From S2P Require Import ImageWriter.
From S2P Require Import Port.

#[local] Open Scope Z_scope.
#[local] Open Scope kernel_scope.

(** ** Names *)

(** [core::str::from_utf8]: whether the bytes are UTF-8 *)
Definition byte_in (lo hi b : Z) : bool := (lo <=? b) && (b <=? hi).

Fixpoint from_utf8 (l : list Z) : bool :=
  match l with
  | [] => true
  | b :: l1 =>
      if b <? 128 then from_utf8 l1
      else match l1 with
      | [] => false
      | c1 :: l2 =>
          if byte_in 194 223 b then byte_in 128 191 c1 && from_utf8 l2
          else match l2 with
          | [] => false
          | c2 :: l3 =>
              if byte_in 224 239 b then
                byte_in (if b =? 224 then 160 else 128) (if b =? 237 then 159 else 191) c1
                && byte_in 128 191 c2 && from_utf8 l3
              else match l3 with
              | [] => false
              | c3 :: l4 =>
                  byte_in 240 244 b
                  && byte_in (if b =? 240 then 144 else 128) (if b =? 244 then 143 else 191) c1
                  && byte_in 128 191 c2 && byte_in 128 191 c3 && from_utf8 l4
              end
          end
      end
  end.

Definition NAME_LEN : nat := 64.

Record XousServerName : Type := mk_XousServerName {
  name_value : list Z;
  name_length : nat
}.

(** [value[..length]], by which names are compared and hashed *)
Definition name_bytes (n : XousServerName) : list Z := take (name_length n) (name_value n).

(** [XousServerName::from_str]; [None] when its assertion fails *)
Definition XousServerName_from_str (src : list Z) : option XousServerName :=
  let value := take NAME_LEN src ++ replicate (NAME_LEN - length src) 0 in
  let len := Nat.min NAME_LEN (length src) in
  let len := if from_utf8 (take len value) then len else 0%nat in
  if (len <? NAME_LEN)%nat then Some (mk_XousServerName value len) else None.

(** ** The table of names *)

Record Connection : Type := mk_Connection {
  sid : SID;
  current_conns : Z;
  max_conns : option Z;
  allow_authenticate : bool;
  auth_conns : Z;
  token : option SID
}.

Definition set_conns (n : Z) (c : Connection) : Connection :=
  mk_Connection (sid c) n (max_conns c) (allow_authenticate c) (auth_conns c) (token c).
Definition set_token (t : SID) (c : Connection) : Connection :=
  mk_Connection (sid c) (current_conns c) (max_conns c) (allow_authenticate c) (auth_conns c) (Some t).

Abbreviation CheckedHashMap := (gmap (list Z) Connection).

Definition table_insert (name : list Z) (s : SID) (max : option Z) (tok : SID) (t : CheckedHashMap) : CheckedHashMap :=
  <[name := mk_Connection s 0 max false 0 (Some tok)]> t.

Definition table_connect (name : list Z) (t : CheckedHashMap) : CheckedHashMap * (option SID * option SID) :=
  match t !! name with
  | None => (t, (None, None))
  | Some entry =>
      match max_conns entry with
      | Some max =>
          if max =? 1 then
            if current_conns entry <? 1
            then (<[name := set_conns 1 entry]> t, (Some (sid entry), token entry))
            else (t, (None, None))
          else if current_conns entry <? max
          then (<[name := set_conns (add32 (current_conns entry) 1) entry]> t, (Some (sid entry), token entry))
          else (t, (None, None))
      | None => (<[name := set_conns (add32 (current_conns entry) 1) entry]> t, (Some (sid entry), token entry))
      end
  end.

(** Whether [tok] is the token of the entry, which is then reset. *)
Definition token_matches (name : list Z) (tok : SID) (t : CheckedHashMap) : bool :=
  match t !! name with Some entry => bool_decide (token entry = Some tok) | None => false end.

Definition table_reset (name : list Z) (new_token : SID) (t : CheckedHashMap) : CheckedHashMap :=
  alter (fun entry => set_token new_token (set_conns 0 entry)) name t.

Section Iter.
Context (iter : CheckedHashMap -> list (list Z * Connection)).

(** The first entry with this identifier, in the order of the map. *)
Definition find_sid (s : SID) (t : CheckedHashMap) : option (list Z) :=
  fst <$> find (fun e => bool_decide (sid (snd e) = s)) (iter t).

Definition table_remove (s : SID) (t : CheckedHashMap) : CheckedHashMap * option (list Z) :=
  match find_sid s t with
  | Some name => (delete name t, Some name)
  | None => (t, None)
  end.

Definition table_disconnect (s : SID) (t : CheckedHashMap) : CheckedHashMap :=
  match find_sid s t with
  | Some name => alter (fun e => if 0 <? current_conns e then set_conns (current_conns e - 1) e else e) name t
  | None => t
  end.

Definition trusted_init_done (t : CheckedHashMap) : bool :=
  forallb (fun e => match max_conns (snd e) with Some max => max =? current_conns (snd e) | None => true end) (iter t).
End Iter.

(** ** Messages *)

(** A message with the bytes of its memory.  The memory of a message belongs to the
    server until it replies, so they stay as they are while the message waits. *)
Record Request : Type := mk_Request {
  req_env : MessageEnvelope;
  req_bytes : list Z
}.

Inductive ConnectError : Type :=
| InvalidMemoryBuffer | KernelConnectFailure | InvalidString | InvalidMessageType | CE_ServerNotFound.

Definition ConnectError_to_u32 (e : ConnectError) : Z :=
  match e with
  | InvalidMemoryBuffer => 1 | KernelConnectFailure => 2 | InvalidString => 3 | InvalidMessageType => 4
  | CE_ServerNotFound => 5
  end.

Inductive ConnectSuccess : Type :=
| Connected (cid : Z) (disc : option SID)
| Wait.

Definition Message_memory_message_mut (m : Message) : option MemoryMessage :=
  match m with
  | MutableBorrow mem | Move mem => Some mem
  | BlockingScalar _ | Scalar _ | Borrow _ => None
  end.

(** [name_from_msg]; [None] when it panics *)
Definition name_from_msg (r : Request) : option (ConnectError + XousServerName) :=
  match Message_memory_message (env_body (req_env r)) with
  | None => Some (inl InvalidMessageType)
  | Some msg =>
      let valid_bytes := match mm_valid msg with Some v => v | None => range_size (mm_buf msg) end in
      if range_size (mm_buf msg) <? valid_bytes then Some (inl InvalidMemoryBuffer)
      else
        let str_slice := take (Z.to_nat valid_bytes) (req_bytes r) in
        if from_utf8 str_slice then inr <$> XousServerName_from_str str_slice
        else Some (inl InvalidString)
  end.

(** The memory as words: [s[0] = w0; s[1] = w1; ...], which panics past the end. *)
Definition store_words (ws : list Z) (bytes : list Z) : option (list Z) :=
  if (length ws <=? length bytes / 4)%nat
  then Some (flat_map le4 ws ++ drop (4 * length ws) bytes) else None.

(** Replace the memory of a message, and its offset and valid words. *)
Definition set_request_memory (bytes : list Z) (offset valid : option Z) (r : Request) : Request :=
  let set m := mk_MemoryMessage (mm_id m) (mm_buf m) offset valid in
  let s := env_sender (req_env r) in
  match env_body (req_env r) with
  | MutableBorrow m => mk_Request (mk_MessageEnvelope s (MutableBorrow (set m))) bytes
  | Move m => mk_Request (mk_MessageEnvelope s (Move (set m))) bytes
  | _ => r
  end.

(** The records that are serialized in messages. *)
Record Registration : Type := mk_Registration { reg_name : list Z; conn_limit : option Z }.
Record Disconnect : Type := mk_Disconnect { disc_name : list Z; disc_token : SID }.

Inductive Return : Type :=
| Return_AuthenticateRequest (name : list Z) (challenge : SID)
| Return_Failure
| Return_SID (s : SID)
| Return_CID (cid : Z) (token : option SID)
| Return_Success.

(** The serialization: reading a record from a message, which can fail, and writing
    one over its memory, with the position after it. *)
Record Codec : Type := mk_Codec {
  to_registration : Request -> option Registration;
  to_string : Request -> option (list Z);
  to_disconnect : Request -> option Disconnect;
  replace_memory : Return -> Request -> option (list Z * Z)
}.

(** ** The kernel's part *)

Class Broker (K : Type) : Type := {
  broker_connect : Z -> SID -> K -> outcome Error K Z
}.

(** The variables of [main], with the kernel behind them. *)
Record NameServer (K : Type) : Type := mk_NameServer {
  name_table : CheckedHashMap;
  waiting_connections : list Request;
  next_id : nat;
  port : Port;
  kernel : K;
  schedule : list (K -> K);
  finished : bool
}.

Arguments mk_NameServer {K}.
Arguments name_table {K}.
Arguments waiting_connections {K}.
Arguments next_id {K}.
Arguments port {K}.
Arguments kernel {K}.
Arguments schedule {K}.
Arguments finished {K}.

Section NameServer.
Context {K : Type} {HB : Broker K}.
Context (own_sidx : Z) (iter : CheckedHashMap -> list (list Z * Connection)) (ids : nat -> SID) (codec : Codec).

Implicit Type x : NameServer K.

Definition set_table t x :=
  mk_NameServer t (waiting_connections x) (next_id x) (port x) (kernel x) (schedule x) (finished x).
Definition set_waiting l x :=
  mk_NameServer (name_table x) l (next_id x) (port x) (kernel x) (schedule x) (finished x).
Definition set_next_id n x :=
  mk_NameServer (name_table x) (waiting_connections x) n (port x) (kernel x) (schedule x) (finished x).
Definition set_port p x :=
  mk_NameServer (name_table x) (waiting_connections x) (next_id x) p (kernel x) (schedule x) (finished x).
Definition set_kernel k x :=
  mk_NameServer (name_table x) (waiting_connections x) (next_id x) (port x) k (schedule x) (finished x).
Definition set_schedule l x :=
  mk_NameServer (name_table x) (waiting_connections x) (next_id x) (port x) (kernel x) l (finished x).
Definition set_finished b x :=
  mk_NameServer (name_table x) (waiting_connections x) (next_id x) (port x) (kernel x) (schedule x) b.

#[local] Notation "'nop' A" := (NameServer K -> outcome Error (NameServer K) A) (at level 10, A at level 9).

Definition with_port {A} (m : Port -> outcome Error Port A) : nop A := zoom port set_port m.

Definition new_server_id : nop SID :=
  n <- gets next_id;; modify (set_next_id (S n)) ;;; ret (ids n).

(** [xous::connect_for_process]: the kernel makes the caller try again while there is
    no server with this identifier. *)
Fixpoint connect_attempts (others : list (K -> K)) (pid : Z) (s : SID) : nop (Error + Z) :=
  match others with
  | [] => fun _ => RStuck
  | run_others :: others =>
      modify (set_schedule others) ;;;
      modify (fun x => set_kernel (run_others (kernel x)) x) ;;;
      result <- attempt (zoom kernel set_kernel (broker_connect pid s));;
      match result with
      | inl ServerNotFound => connect_attempts others pid s
      | r => ret r
      end
  end.

Definition connect_for_process (pid : Z) (s : SID) : nop (Error + Z) :=
  others <- gets schedule;; connect_attempts others pid s.

(** [drop] of an envelope returns lent memory, and frees memory that was moved. *)
Definition drop_message (r : Request) : nop unit :=
  match env_body (req_env r) with
  | Borrow m | MutableBorrow m =>
      unwrap_result (with_port (port_return_memory own_sidx (env_sender (req_env r)) m (req_bytes r)))
  | Move _ | Scalar _ | BlockingScalar _ => ret tt
  end.

Definition return_scalar_unwrap (r : Request) (v : Z) : nop unit :=
  unwrap_result (with_port (port_return_scalar own_sidx (env_sender (req_env r)) v)).

(** ** Connecting *)

Definition CheckedHashMap_connect (name : list Z) : nop (option SID * option SID) :=
  t <- gets name_table;;
  modify (set_table (fst (table_connect name t))) ;;;
  ret (snd (table_connect name t)).

Definition blocking_connect (r : Request) : nop (ConnectError + ConnectSuccess) :=
  name <- unwrap (name_from_msg r);;
  match name with
  | inl e => ret (inl e)
  | inr name =>
      sender_pid <- unwrap (MessageSender_pid (env_sender (req_env r)));;
      ' (server_sid, tok) <- CheckedHashMap_connect (name_bytes name);;
      match server_sid with
      | None => ret (inr Wait)
      | Some server_sid =>
          result <- connect_for_process sender_pid server_sid;;
          match result with
          | inr connection_id => ret (inr (Connected connection_id tok))
          | inl _ =>
              modify (fun x => set_table (table_disconnect iter server_sid (name_table x)) x) ;;;
              ret (inl KernelConnectFailure)
          end
      end
  end.

(** Write the words of the response over the memory, and drop the message. *)
Definition respond_words (ws : list Z) (r : Request) : nop unit :=
  unwrap (Message_memory_message_mut (env_body (req_env r))) ;;;
  bytes <- unwrap (store_words ws (req_bytes r));;
  drop_message (set_request_memory bytes None None r).

Definition respond_connect_error (r : Request) (e : ConnectError) : nop unit :=
  respond_words [1; ConnectError_to_u32 e] r.

Definition respond_connect_success (r : Request) (cid : Z) (disc : option SID) : nop unit :=
  respond_words (0 :: cid :: match disc with Some d => [sid0 d; sid1 d; sid2 d; sid3 d] | None => [0; 0; 0; 0] end) r.

(** The loop over the waiting requests, from the last one; [n] is [i + 1]. *)
Fixpoint connect_waiting (n : nat) (name : list Z) : nop unit :=
  match n with
  | O => ret tt
  | S i =>
      waiting <- gets waiting_connections;;
      msg <- unwrap (waiting !! i);;
      found <- unwrap (name_from_msg msg);;
      (if bool_decide ((name_bytes <$> (match found with inr n => Some n | inl _ => None end)) = Some name) then
         modify (set_waiting (delete i waiting)) ;;;
         result <- blocking_connect msg;;
         match result with
         | inl e => respond_connect_error msg e
         | inr (Connected cid disc) => respond_connect_success msg cid disc
         | inr Wait => panic
         end
       else ret tt) ;;;
      connect_waiting i name
  end.

(** ** The handlers *)

(** [buffer.replace(response).expect(..)], and the message is dropped. *)
Definition reply_record (response : Return) (r : Request) : nop unit :=
  ' (bytes, used) <- unwrap (replace_memory codec response r);;
  let valid := match Message_memory_message (env_body (req_env r)) with Some m => mm_valid m | None => None end in
  drop_message (set_request_memory bytes (NonZero_new used) valid r).

Definition handle_register (r : Request) : nop unit :=
  unwrap (Message_memory_message_mut (env_body (req_env r))) ;;;
  registration <- unwrap (to_registration codec r);;
  name <- unwrap (XousServerName_from_str (reg_name registration));;
  let name := name_bytes name in
  t <- gets name_table;;
  match t !! name with
  | None =>
      new_sid <- new_server_id;;
      tok <- new_server_id;;
      modify (set_table (table_insert name new_sid (conn_limit registration) tok t)) ;;;
      reply_record (Return_SID new_sid) r ;;;
      waiting <- gets waiting_connections;;
      connect_waiting (length waiting) name
  | Some _ => reply_record Return_Failure r
  end.

Definition handle_unregister (r : Request) : nop unit :=
  match env_body (req_env r) with
  | BlockingScalar s =>
      let gid := SID_from_u32 (u32 (sm_arg1 s)) (u32 (sm_arg2 s)) (u32 (sm_arg3 s)) (u32 (sm_arg4 s)) in
      t <- gets name_table;;
      let '(t', removed) := table_remove iter gid t in
      modify (set_table t') ;;;
      return_scalar_unwrap r (match removed with Some _ => 1 | None => 0 end)
  | _ => drop_message r
  end.

Definition TryConnect_id : Z := 7.

Definition handle_connect (r : Request) : nop unit :=
  if negb (Message_is_blocking (env_body (req_env r))) then drop_message r
  else if negb (Message_has_memory (env_body (req_env r))) then return_scalar_unwrap r 0
  else
    result <- blocking_connect r;;
    match result with
    | inl e => respond_connect_error r e
    | inr (Connected cid disc) => respond_connect_success r cid disc
    | inr Wait =>
        if Message_id (env_body (req_env r)) =? TryConnect_id then respond_connect_error r CE_ServerNotFound
        else modify (fun x => set_waiting (waiting_connections x ++ [r]) x)
    end.

Definition handle_lookup (r : Request) : nop unit :=
  unwrap (Message_memory_message_mut (env_body (req_env r))) ;;;
  name_string <- unwrap (to_string codec r);;
  name <- unwrap (XousServerName_from_str name_string);;
  ' (server_sid, tok) <- CheckedHashMap_connect (name_bytes name);;
  match server_sid with
  | Some server_sid =>
      sender_pid <- unwrap (MessageSender_pid (env_sender (req_env r)));;
      result <- connect_for_process sender_pid server_sid;;
      match result with
      | inr connection_id => reply_record (Return_CID connection_id tok) r
      | inl _ => panic
      end
  | None =>
      challenge <- new_server_id;;
      reply_record (Return_AuthenticateRequest name_string challenge) r
  end.

Definition handle_authenticated_lookup (r : Request) : nop unit := panic.

Definition handle_trusted_init_done (r : Request) : nop unit :=
  t <- gets name_table;;
  return_scalar_unwrap r (if trusted_init_done iter t then 1 else 0) ;;;
  drop_message r.

Definition handle_disconnect (r : Request) : nop unit :=
  unwrap (Message_memory_message_mut (env_body (req_env r))) ;;;
  disconnect <- unwrap (to_disconnect codec r);;
  name <- unwrap (XousServerName_from_str (disc_name disconnect));;
  t <- gets name_table;;
  if token_matches (name_bytes name) (disc_token disconnect) t then
    new_token <- new_server_id;;
    modify (set_table (table_reset (name_bytes name) new_token t)) ;;;
    reply_record Return_Success r
  else reply_record Return_Failure r.

Inductive NameOpcode : Type :=
| Op_Register | Op_Lookup | Op_AuthenticatedLookup | Op_Unregister | Op_Disconnect | Op_TrustedInitDone
| Op_BlockingConnect | Op_TryConnect.

Definition NameOpcode_from_usize (id : Z) : option NameOpcode :=
  match id with
  | 0 => Some Op_Register | 1 => Some Op_Lookup | 2 => Some Op_AuthenticatedLookup | 3 => Some Op_Unregister
  | 4 => Some Op_Disconnect | 5 => Some Op_TrustedInitDone | 6 => Some Op_BlockingConnect | 7 => Some Op_TryConnect
  | _ => None
  end.

Definition handle_request (r : Request) : nop unit :=
  match NameOpcode_from_usize (Message_id (env_body (req_env r))) with
  | Some Op_Register => handle_register r
  | Some Op_Unregister => handle_unregister r
  | Some Op_BlockingConnect | Some Op_TryConnect => handle_connect r
  | Some Op_Lookup => handle_lookup r
  | Some Op_AuthenticatedLookup => handle_authenticated_lookup r
  | Some Op_TrustedInitDone => handle_trusted_init_done r
  | Some Op_Disconnect => handle_disconnect r
  | None => drop_message r ;;; modify (set_finished true)
  end.

(** A turn of the main loop; [bytes] is the memory of the message, if it has one. *)
Definition names_turn (bytes : list Z) : nop unit :=
  msg <- with_port (port_receive own_sidx);;
  match msg with
  | None => ret tt
  | Some env => handle_request (mk_Request env bytes)
  end.

(** ** What happens to the server *)

Inductive NameEvent : Type :=
| N_client (slot : nat) (pid tid : Z) (m : Message) (addr : option Z)
| N_turn (bytes : list Z) (others : list (K -> K))
| N_others (f : K -> K)
| N_exit (pid : Z).

Definition names_step (e : NameEvent) : nop unit :=
  match e with
  | N_client i pid tid m addr => modify (fun x => set_port (port_send i pid tid m addr (port x)) x)
  | N_turn bytes others => modify (set_schedule others) ;;; names_turn bytes
  | N_others f => modify (fun x => set_kernel (f (kernel x)) x)
  | N_exit pid => modify (fun x => set_port (port_exit pid (port x)) x)
  end.

Definition NameServer_init (k : K) : NameServer K := mk_NameServer ∅ [] 0 empty_port k [] false.
End NameServer.

(** ** A client: [request_connection_blocking] *)

Definition BlockingConnect_id : Z := 6.

(** The page [ConnectRequest], and the message that lends it. *)
Definition connect_page (name : list Z) : list Z :=
  take NAME_LEN name ++ replicate (NAME_LEN - length name) 0
  ++ le4 (Z.of_nat (Nat.min NAME_LEN (length name))) ++ replicate (4096 - 4 - 64) 0.

Definition connect_message (addr : Z) (name : list Z) : Message :=
  MutableBorrow (mk_MemoryMessage BlockingConnect_id (mk_MemoryRange addr 4096) None
                   (NonZero_new (Z.of_nat (Nat.min NAME_LEN (length name))))).

(** What the client makes of the page when it has it back. *)
Definition connect_response (bytes : list Z) : result Z :=
  match chunks_exact4 (take 8 bytes) with
  | [r; cid] => if r =? 0 then Ok cid else Err InternalError
  | _ => Err InternalError
  end.
