(* ===== verification/NamesFacts.v ===== *)
(** * Facts about the name server

    What the kernel promises to the name server, the table of names, and what each
    handler does. *)

From Stdlib Require Import ZArith Lia Bool.
From stdpp Require Import base numbers list option gmap.
From S2P Require Import Prelude.
From S2P Require Import Abi.
From S2P Require Import Server.
From S2P Require Import ServerSpec.
From S2P Require Import ImageWriter.
From S2P Require Import Port.
From S2P Require Import Names.

#[local] Open Scope Z_scope.
#[local] Open Scope kernel_scope.

(** A step of a run that returns, also past [unwrap] of a value. *)
Ltac name_step :=
  match goal with
  | |- returns (unwrap (Some ?a) ?s) ?Q => change (Q s a); cbv beta
  | _ => returns_step
  end.

(** ** What the kernel promises *)

Class BrokerLaws (K : Type) {HB : Broker K} : Type := {
  (** The PIDs that the kernel gives to processes. *)
  is_client : Z -> Prop;
  (** The kernel is well formed. *)
  broker_ok : K -> Prop;
  (** There is a server with the identifier. *)
  has_server : K -> SID -> Prop;
  (** The process has room for a connection. *)
  has_room : K -> Z -> Prop;
  (** The connection of the process leads to the server. *)
  resolves : K -> Z -> Z -> SID -> Prop;
  broker_law (k : K) (pid : Z) (s : SID) :
    broker_ok k -> is_client pid ->
    match broker_connect pid s k with
    | ROk k' cid =>
        broker_ok k' /\ (forall s', has_server k s' -> has_server k' s') /\ resolves k' pid cid s /\ in_width 32 cid
        /\ forall pid' c s', (pid', c) <> (pid, cid) -> resolves k pid' c s' -> resolves k' pid' c s'
    | RErr k' e =>
        broker_ok k' /\ (forall s', has_server k s' -> has_server k' s')
        /\ (forall pid' c s', resolves k' pid' c s' <-> resolves k pid' c s')
        /\ (forall pid', has_room k pid' -> has_room k' pid')
        /\ (e = ServerNotFound /\ ~ has_server k s \/ e <> ServerNotFound /\ ~ has_room k pid)
    | _ => False
    end
}.

(** ** Names *)

Lemma name_bytes_from_str src n :
  XousServerName_from_str src = Some n ->
  name_bytes n = if (length src <? NAME_LEN)%nat then (if from_utf8 src then src else []) else [].
Proof.
  unfold XousServerName_from_str, name_bytes. destruct (Nat.ltb_spec (length src) NAME_LEN) as [Hl | Hl].
  - rewrite (take_ge src), Nat.min_r, take_app_length by lia. destruct (from_utf8 src).
    + rewrite (proj2 (Nat.ltb_lt _ _)) by done. intros [= <-]. cbn. by rewrite take_app_length.
    + intros [= <-]. done.
  - rewrite Nat.min_l by lia. destruct (from_utf8 _); [by rewrite Nat.ltb_irrefl | intros [= <-]; done].
Qed.

Lemma from_str_short src :
  (length src < NAME_LEN)%nat -> from_utf8 src = true ->
  exists n, XousServerName_from_str src = Some n /\ name_bytes n = src.
Proof.
  intros Hl Hu. destruct (XousServerName_from_str src) as [n |] eqn:E.
  - exists n. split; [done |]. rewrite (name_bytes_from_str _ _ E), (proj2 (Nat.ltb_lt _ _)) by done. by rewrite Hu.
  - exfalso. unfold XousServerName_from_str in E. rewrite (take_ge src), Nat.min_r, take_app_length, Hu in E by lia.
    rewrite (proj2 (Nat.ltb_lt _ _)) in E by done. done.
Qed.

(** A name of 64 bytes or more, whose first 64 bytes are text, is refused. *)
Lemma from_str_long src :
  (NAME_LEN <= length src)%nat -> from_utf8 (take NAME_LEN src) = true -> XousServerName_from_str src = None.
Proof.
  intros Hl Hu. unfold XousServerName_from_str. rewrite Nat.min_l by lia.
  replace (NAME_LEN - length src)%nat with 0%nat by lia. cbn [replicate]. rewrite app_nil_r, take_take, Nat.min_id, Hu.
  by rewrite Nat.ltb_irrefl.
Qed.

Lemma name_bytes_short src n :
  XousServerName_from_str src = Some n -> (length (name_bytes n) < NAME_LEN)%nat.
Proof.
  intros E. rewrite (name_bytes_from_str _ _ E). destruct (Nat.ltb_spec (length src) NAME_LEN); [destruct (from_utf8 src) |];
    cbn; unfold NAME_LEN in *; lia.
Qed.

(** ** Words in memory *)

Lemma le4_length w : length (le4 w) = 4%nat.
Proof. done. Qed.

Lemma flat_map_le4_length ws : length (flat_map le4 ws) = (4 * length ws)%nat.
Proof. induction ws; [done |]. cbn [flat_map]. rewrite length_app, IHws, le4_length. cbn. lia. Qed.

Lemma store_words_Some ws bytes :
  (4 * length ws <= length bytes)%nat ->
  exists bytes', store_words ws bytes = Some bytes' /\ length bytes' = length bytes
    /\ take (4 * length ws) bytes' = flat_map le4 ws.
Proof.
  intros Hl. unfold store_words. rewrite (proj2 (Nat.leb_le _ _)).
  - eexists. split; [done |]. split.
    + rewrite length_app, flat_map_le4_length, length_drop. lia.
    + by rewrite <- (flat_map_le4_length ws), take_app_length.
  - apply Nat.div_le_lower_bound; lia.
Qed.

(** ** The table *)

(** No more connections than the limit; the counter of an entry without a limit
    wraps around. *)
Definition entry_ok (c : Connection) : Prop :=
  match max_conns c with
  | Some m => 0 <= current_conns c <= m /\ in_width 32 m
  | None => in_width 32 (current_conns c)
  end.

Definition is_full (c : Connection) : bool :=
  match max_conns c with Some m => m <=? current_conns c | None => false end.

(** The entry after a connection, and after one that has failed. *)
Definition one_more (c : Connection) : Connection := set_conns (add32 (current_conns c) 1) c.

Definition one_failed (c : Connection) : Connection :=
  set_conns (if current_conns c =? usize_MAX then 0 else current_conns c) c.

Lemma add32_one a : 0 <= a < usize_MAX -> add32 a 1 = a + 1.
Proof. intros H. unfold add32, u32, wrap, modulus, usize_MAX in *. rewrite Z.mod_small; lia. Qed.

Lemma entry_ok_range c : entry_ok c -> 0 <= current_conns c <= usize_MAX.
Proof. unfold entry_ok, in_width, modulus, usize_MAX. destruct (max_conns c); lia. Qed.

Lemma one_more_ok c : entry_ok c -> is_full c = false -> entry_ok (one_more c) /\ current_conns (one_more c) = add32 (current_conns c) 1.
Proof.
  unfold entry_ok, is_full, in_width. cbn. destruct (max_conns c) as [m |]; intros H Hf; (split; [| done]).
  - zbool. rewrite add32_one; [lia |]. unfold usize_MAX, modulus in *. lia.
  - unfold add32, u32, wrap. apply Z.mod_pos_bound. done.
Qed.

Lemma one_failed_ok c : entry_ok c -> entry_ok (one_failed c).
Proof.
  unfold entry_ok, in_width, one_failed. cbn. destruct (max_conns c) as [m |]; destruct (Z.eqb_spec (current_conns c) usize_MAX);
    unfold modulus, usize_MAX in *; lia.
Qed.

(** A limited entry is the same after a connection that has failed. *)
Lemma one_failed_limited c m : entry_ok c -> is_full c = false -> max_conns c = Some m -> one_failed c = c.
Proof.
  unfold entry_ok, is_full, one_failed, in_width. intros H Hf E. rewrite E in *. zbool.
  destruct (Z.eqb_spec (current_conns c) usize_MAX); [| by destruct c]. unfold modulus, usize_MAX in *. lia.
Qed.

Lemma table_connect_run name t :
  (forall c, t !! name = Some c -> entry_ok c) ->
  table_connect name t
  = match t !! name with
    | Some c => if is_full c then (t, (None, None)) else (<[name := one_more c]> t, (Some (sid c), token c))
    | None => (t, (None, None))
    end.
Proof.
  intros H. unfold table_connect, is_full, one_more. destruct (t !! name) as [c |] eqn:E; [| done].
  specialize (H c eq_refl). unfold entry_ok in H. destruct (max_conns c) as [m |]; [| done].
  destruct (Z.eqb_spec m 1) as [-> |].
  - destruct (Z.ltb_spec (current_conns c) 1), (Z.leb_spec 1 (current_conns c)); try lia; try done.
    assert (current_conns c = 0) as -> by lia. done.
  - destruct (Z.ltb_spec (current_conns c) m), (Z.leb_spec m (current_conns c)); try lia; done.
Qed.

Section Table.
Context (iter : CheckedHashMap -> list (list Z * Connection)) (Hiter : forall t, iter t ≡ₚ map_to_list t).
Context (ids : nat -> SID).

(** The identifiers are those handed out, each in one entry at most. *)
Record name_table_ok (n : nat) (t : CheckedHashMap) : Prop := {
  to_sid name c : t !! name = Some c -> exists i, (i < n)%nat /\ sid c = ids i;
  to_once name c name' c' : t !! name = Some c -> t !! name' = Some c' -> sid c = sid c' -> name = name';
  to_entry name c : t !! name = Some c -> entry_ok c
}.

Lemma find_sid_Some s t name : find_sid iter s t = Some name -> exists c, t !! name = Some c /\ sid c = s.
Proof.
  unfold find_sid. intros ([name' c] & E & Hn)%fmap_Some. cbn in Hn. subst name'. apply find_some in E as [Hin Hs%bool_decide_eq_true].
  exists c. split; [| done]. apply elem_of_map_to_list. rewrite <- Hiter. by apply list_elem_of_In.
Qed.

Lemma find_sid_None s t name c : find_sid iter s t = None -> t !! name = Some c -> sid c <> s.
Proof.
  unfold find_sid. intros E%fmap_None Hc Hs. apply elem_of_map_to_list in Hc. rewrite <- Hiter, list_elem_of_In in Hc.
  pose proof (find_none _ _ E _ Hc) as H. cbn in H. by rewrite bool_decide_true in H.
Qed.

Lemma find_sid_once n t name c : name_table_ok n t -> t !! name = Some c -> find_sid iter (sid c) t = Some name.
Proof.
  intros Hok Hc. destruct (find_sid iter (sid c) t) as [name' |] eqn:E.
  - apply find_sid_Some in E as (c' & Hc' & Hs). f_equal. by eapply to_once.
  - by destruct (find_sid_None _ _ _ _ E Hc).
Qed.

(** An entry changes, but not its identifier. *)
Lemma name_table_ok_change n t name c c' :
  name_table_ok n t -> t !! name = Some c -> sid c' = sid c -> entry_ok c' -> name_table_ok n (<[name := c']> t).
Proof.
  intros [] Hc Hs He.
  assert (Hsid : forall nm d, <[name := c']> t !! nm = Some d -> exists d0, t !! nm = Some d0 /\ sid d = sid d0).
  { intros nm d [[<- <-] | [_ ?]]%lookup_insert_Some; eauto. }
  split.
  - intros nm d (d0 & Hd & E)%Hsid. rewrite E. by eapply to_sid0.
  - intros nm d nm' d' (d0 & Hd & E)%Hsid (d0' & Hd' & E')%Hsid. rewrite E, E'. by eapply to_once0.
  - intros nm d [[<- <-] | [_ ?]]%lookup_insert_Some; [done | by eapply to_entry0].
Qed.

Lemma name_table_ok_more n n' t : (n <= n')%nat -> name_table_ok n t -> name_table_ok n' t.
Proof. intros Hle []. split; try done. intros nm c Hc. destruct (to_sid0 nm c Hc) as (i & ? & ?). exists i. split; [lia | done]. Qed.

Lemma name_table_ok_delete n t name : name_table_ok n t -> name_table_ok n (delete name t).
Proof.
  intros []. split.
  - intros nm c [_ Hc]%lookup_delete_Some. by eapply to_sid0.
  - intros nm c nm' c' [_ Hc]%lookup_delete_Some [_ Hc']%lookup_delete_Some. by eapply to_once0.
  - intros nm c [_ Hc]%lookup_delete_Some. by eapply to_entry0.
Qed.

(** A new entry. *)
Lemma name_table_ok_insert n t name max tok :
  (forall i j, ids i = ids j -> i = j) -> name_table_ok n t -> (forall m, max = Some m -> in_width 32 m) ->
  name_table_ok (S n) (table_insert name (ids n) max tok t).
Proof.
  intros Hids [] Hm. unfold table_insert. split.
  - intros nm c [[<- <-] | [_ Hc]]%lookup_insert_Some; [exists n; cbn; split; [lia | done] |].
    destruct (to_sid0 nm c Hc) as (i & ? & ?). exists i. split; [lia | done].
  - assert (Hfresh : forall nm c, t !! nm = Some c -> sid c <> ids n).
    { intros nm c Hc E. destruct (to_sid0 nm c Hc) as (i & ? & Ei). rewrite Ei in E. apply Hids in E. lia. }
    intros nm c nm' c' [[<- <-] | [_ Hc]]%lookup_insert_Some [[<- <-] | [_ Hc']]%lookup_insert_Some; cbn; intros E; try done.
    + by destruct (Hfresh _ _ Hc').
    + by destruct (Hfresh _ _ Hc).
    + by eapply to_once0.
  - intros nm c [[<- <-] | [_ Hc]]%lookup_insert_Some; [| by eapply to_entry0]. unfold entry_ok. cbn.
    destruct max as [m |]; [| done]. specialize (Hm m eq_refl). unfold in_width in *. lia.
Qed.

(** A connection that has failed in the kernel is taken back. *)
Lemma table_disconnect_run n t name c :
  name_table_ok n t -> t !! name = Some c -> is_full c = false ->
  table_disconnect iter (sid c) (<[name := one_more c]> t) = <[name := one_failed c]> t.
Proof.
  intros Hok Hc Hf. destruct (one_more_ok c (to_entry _ _ Hok _ _ Hc) Hf) as [Hm Hcur].
  assert (Hok' : name_table_ok n (<[name := one_more c]> t)) by (by eapply name_table_ok_change).
  unfold table_disconnect. change (sid c) with (sid (one_more c)).
  erewrite find_sid_once; [| exact Hok' | apply lookup_insert_eq]. rewrite alter_insert_eq. f_equal.
  pose proof (entry_ok_range c (to_entry _ _ Hok _ _ Hc)) as Hr. rewrite Hcur. unfold one_more, one_failed.
  destruct (Z.eqb_spec (current_conns c) usize_MAX) as [E | E].
  - rewrite E. done.
  - rewrite add32_one by lia. destruct (Z.ltb_spec 0 (current_conns c + 1)); [| lia]. unfold set_conns. cbn. f_equal. lia.
Qed.
End Table.

(** ** The server *)

Definition req_slot (r : Request) : nat := slot_of (env_sender (req_env r)).

Section NameServer.
Context {K : Type} {HB : Broker K} {HL : BrokerLaws K}.
Context (own_sidx : Z) (Hsidx : 0 <= own_sidx < 256).
Context (iter : CheckedHashMap -> list (list Z * Connection)) (Hiter : forall t, iter t ≡ₚ map_to_list t).
Context (ids : nat -> SID) (Hids : forall i j, ids i = ids j -> i = j) (codec : Codec).

Implicit Type x : NameServer K.

(** *** Connections *)

(** The kernel is well formed; if [room], the process has room, and if [made], there
    is a server [s]. *)
Record kernel_inv (room : bool) (pid : Z) (s : SID) (made : bool) (k : K) : Prop := {
  ki_ok : broker_ok k;
  ki_room : room = true -> has_room k pid;
  ki_made : made = true -> has_server k s
}.

(** At least [n] times, when the name server tries to connect, there is a server [s]:
    it was made before, or the others make it. *)
Inductive enough (room : bool) (pid : Z) (s : SID) : bool -> nat -> list (K -> K) -> Prop :=
| enough_nil made : enough room pid s made 0 []
| enough_made f made n l :
    (forall k, kernel_inv room pid s made k -> kernel_inv room pid s true (f k)) ->
    enough room pid s true n l -> enough room pid s made (S n) (f :: l)
| enough_skip f made made' n l :
    (forall k, kernel_inv room pid s made k -> kernel_inv room pid s made' (f k)) ->
    enough room pid s made' n l -> enough room pid s made n (f :: l).

Definition ready (room : bool) (pid : Z) (s : SID) (n : nat) (k : K) (l : list (K -> K)) : Prop :=
  exists made, kernel_inv room pid s made k /\ enough room pid s made n l.

Lemma enough_less room pid s made n l : enough room pid s made (S n) l -> enough room pid s made n l.
Proof.
  remember (S n) as n' eqn:E. intros H. revert n E.
  induction H as [made | f made n' l Hf H IH | f made made' n' l Hf H IH]; intros n E; [done | |].
  - injection E as ->. by eapply enough_skip.
  - eapply enough_skip; [done | by apply IH].
Qed.

(** An action of other processes that breaks no connection to the server [s]. *)
Definition keeps (s : SID) (f : K -> K) : Prop := forall k pid cid, resolves k pid cid s -> resolves (f k) pid cid s.

(** From the kernel [k] with the schedule [l] to [k'] with [l'] no connection to [s]
    is lost, unless one of the others in [l] breaks it. *)
Definition later (s : SID) (l : list (K -> K)) (k : K) (l' : list (K -> K)) (k' : K) : Prop :=
  Forall (keeps s) l -> Forall (keeps s) l' /\ forall pid cid, resolves k pid cid s -> resolves k' pid cid s.

Lemma later_refl s l k : later s l k l k.
Proof. done. Qed.

Lemma later_trans s l1 k1 l2 k2 l3 k3 : later s l1 k1 l2 k2 -> later s l2 k2 l3 k3 -> later s l1 k1 l3 k3.
Proof. intros H1 H2 H. destruct (H1 H) as [H' ?]. destruct (H2 H'). eauto. Qed.

(** The others run once, and then the kernel is asked. *)
Lemma later_step s f l k k' :
  (forall pid cid, resolves (f k) pid cid s -> resolves k' pid cid s) -> later s (f :: l) k l k'.
Proof. intros H [Hf Hl]%Forall_cons. split; [done |]. intros pid cid Hr. by apply H, Hf. Qed.

(** The connection is made or refused, and the rest of the schedule is enough for
    the others. *)
Definition connected room pid s n l x x' (r : Error + Z) : Prop :=
  exists k' l', x' = set_schedule l' (set_kernel k' x) /\ broker_ok k' /\ (room = false -> ready false pid s n k' l')
    /\ later s l (kernel x) l' k'
    /\ match r with
       | inr cid => resolves k' pid cid s /\ in_width 32 cid
       | inl e => room = false /\ e <> ServerNotFound
       end.

Lemma connect_once pid s x :
  attempt (zoom kernel set_kernel (broker_connect pid s)) x
  = match broker_connect pid s (kernel x) with
    | ROk k' cid => ROk (set_kernel k' x) (inr cid)
    | RErr k' e => ROk (set_kernel k' x) (inl e)
    | RPanic => RPanic
    | RStuck => RStuck
    end.
Proof. unfold attempt, zoom. by destruct (broker_connect pid s (kernel x)). Qed.

(** One attempt: the schedule goes on, or the server does not exist. *)
Lemma connect_attempt room pid s made n f l x :
  is_client pid -> kernel_inv room pid s made (f (kernel x)) -> enough room pid s made n l ->
  (forall k', made = false -> kernel_inv room pid s false k' -> later s (f :: l) (kernel x) l k' ->
     returns (connect_attempts l pid s (set_kernel k' (set_schedule l x))) (connected room pid s n (f :: l) x)) ->
  returns (connect_attempts (f :: l) pid s x) (connected room pid s n (f :: l) x).
Proof.
  intros Hp [Hok Hroom Hmade] Hl Hgo. cbn [connect_attempts]. repeat returns_step. rewrite connect_once.
  cbn [set_schedule set_kernel kernel].
  pose proof (broker_law (f (kernel x)) pid s Hok Hp) as Hlaw.
  destruct (broker_connect pid s (f (kernel x))) as [k' cid | k' e | |]; [| | done..].
  - repeat returns_step. destruct Hlaw as (Hok' & Hsv & Hr & Hw & Hkeep). exists k', l. split_and!; try done.
    + intros ->. exists made. split; [| done]. split; [done | done |]. intros E. by apply Hsv, Hmade.
    + apply later_step. intros pid' c Hc. destruct (decide ((pid', c) = (pid, cid))) as [[= -> ->] | Hne]; [done | by apply Hkeep].
  - returns_step. destruct Hlaw as (Hok' & Hsv & Hkeep & Hroom' & Hcase).
    assert (Hlater : later s (f :: l) (kernel x) l k') by (apply later_step; intros pid' c; apply Hkeep). destruct (decide (e = ServerNotFound)) as [-> | Hne].
    + destruct made; [destruct Hcase as [[_ Hno] | [? _]]; [by destruct Hno; apply Hmade | done] |].
      apply (Hgo k' eq_refl); [split; [done | eauto | done] | done].
    + destruct Hcase as [[? _] | [_ Hno]]; [done |].
      assert (room = false) as -> by (destruct room; [by destruct Hno; apply Hroom | done]).
      assert (Hend : returns (ret (E := Error) (inl e) (set_kernel k' (set_schedule l x))) (connected false pid s n (f :: l) x)).
      { returns_step. exists k', l. split_and!; try done. intros _. exists made. split; [| done]. split; [done | done |].
        intros E. by apply Hsv, Hmade. }
      destruct e; try done; exact Hend.
Qed.

Lemma connect_attempts_ok room pid s made n l x :
  is_client pid -> enough room pid s made (S n) l -> kernel_inv room pid s made (kernel x) ->
  returns (connect_attempts l pid s x) (connected room pid s n l x).
Proof.
  intros Hp. remember (S n) as n' eqn:En. intros H. revert n En x.
  induction H as [made | f made n' l Hf H IH | f made made' n' l Hf H IH]; intros n En x Hk; [done | |].
  - injection En as ->. apply (connect_attempt room pid s true); try done. by apply Hf.
  - subst n'. apply (connect_attempt room pid s made'); [done | by apply Hf | by apply enough_less |].
    intros k' -> Hk' Hlater. eapply returns_mono; [apply (IH n eq_refl); exact Hk' |].
    intros x' r (k2 & l2 & -> & Hk2 & Hr2 & Hl2 & H2). exists k2, l2. split_and!; try done. by eapply later_trans.
Qed.

(** *** The invariant *)

(** A request that waits: the kernel owes its sender the page that it has lent, and
    its name is text. *)
Definition waiting_ok (p : Port) (r : Request) : Prop :=
  held own_sidx is_client p (req_env r)
  /\ exists m n, env_body (req_env r) = MutableBorrow m /\ (24 <= length (req_bytes r))%nat
                 /\ name_from_msg r = Some (inr n).

Record names_ok x : Prop := {
  no_port : port_ok is_client (port x);
  no_waiting : Forall (waiting_ok (port x)) (waiting_connections x);
  no_slots : NoDup (req_slot <$> waiting_connections x);
  no_table : name_table_ok ids (next_id x) (name_table x);
  no_kernel : broker_ok (kernel x)
}.

(** The request that the server handles. *)
Definition in_hand x (r : Request) : Prop :=
  held own_sidx is_client (port x) (req_env r)
  /\ (Message_is_blocking (env_body (req_env r)) = true -> ~ (req_slot r ∈ req_slot <$> waiting_connections x)).

Lemma names_ok_table x t n :
  names_ok x -> name_table_ok ids n t -> names_ok (set_next_id n (set_table t x)).
Proof. intros []. by split. Qed.

Lemma names_ok_kernel x k l : names_ok x -> broker_ok k -> names_ok (set_schedule l (set_kernel k x)).
Proof. intros []. by split. Qed.

Lemma names_ok_answered x i a :
  names_ok x -> ~ (i ∈ req_slot <$> waiting_connections x) -> names_ok (set_port (answered i a (port x)) x).
Proof.
  intros [] Hi. split; try done; cbn; [by apply answered_ok |].
  rewrite List.Forall_forall in *. intros r Hr. destruct (no_waiting0 r Hr) as [Hh Hm]. split; [| done].
  apply answered_held; [done | done |]. intros E. apply Hi. rewrite <- E. apply list_elem_of_fmap. exists r.
  by rewrite list_elem_of_In.
Qed.

(** *** Replies *)

(** What the client of a request gets back. *)
Definition given_back (r : Request) (m : MemoryMessage) (pid tid : Z) : PortAnswer :=
  mk_PortAnswer (req_slot r) pid tid (R_MemoryReturned (mm_offset m) (mm_valid m)) (req_bytes r).

Lemma drop_lent r m x :
  held own_sidx is_client (port x) (req_env r) -> (env_body (req_env r) = MutableBorrow m \/ env_body (req_env r) = Borrow m) ->
  exists pid tid, MessageSender_pid (env_sender (req_env r)) = Some pid
    /\ drop_message own_sidx r x = ROk (set_port (answered (req_slot r) (given_back r m pid tid) (port x)) x) tt.
Proof.
  intros Hh Hb. destruct (return_memory_held own_sidx Hsidx is_client (port x) (req_env r) m (req_bytes r) Hh Hb) as (pid & tid & Hp & E).
  exists pid, tid. split; [done |].
  assert (drop_message own_sidx r x
          = unwrap_result (with_port (port_return_memory own_sidx (env_sender (req_env r)) m (req_bytes r))) x) as ->
    by (unfold drop_message; by destruct Hb as [-> | ->]).
  unfold unwrap_result, with_port, zoom. rewrite E. done.
Qed.

(** Only the port has changed, and clients may have been given answers. *)
Definition answers_more x x' : Prop :=
  exists p l, x' = set_port p x /\ port_answers p = port_answers (port x) ++ l.

Lemma answers_more_refl x : answers_more x x.
Proof. exists (port x), []. split; [by destruct x | by rewrite app_nil_r]. Qed.

Lemma drop_ok r x :
  names_ok x -> in_hand x r ->
  returns (drop_message own_sidx r x) (fun x' _ => names_ok x' /\ answers_more x x').
Proof.
  intros Hx [Hh Hs]. destruct (env_body (req_env r)) as [m | m | m | m | m] eqn:Hb;
    try (destruct (drop_lent r m x Hh) as (pid & tid & _ & ->); [by auto |]; returns_step;
         split; [apply names_ok_answered; [done | by apply Hs] | by eexists _, _]).
  all: unfold drop_message; rewrite Hb; returns_step; (split; [done |]); apply answers_more_refl.
Qed.

Lemma return_scalar_ok r v x :
  names_ok x -> in_hand x r -> (exists s, env_body (req_env r) = BlockingScalar s) ->
  returns (return_scalar_unwrap own_sidx r v x) (fun x' _ => names_ok x' /\ answers_more x x').
Proof.
  intros Hx [Hh Hs] Hb. destruct (return_scalar_held own_sidx Hsidx is_client (port x) (req_env r) v Hh Hb) as (pid & tid & Hp & E).
  unfold return_scalar_unwrap. returns_step. unfold with_port, zoom. rewrite E. returns_step.
  split; [| by eexists _, _]. apply names_ok_answered; [done |]. destruct Hb as [s Hb]. apply Hs. by rewrite Hb.
Qed.

(** A response of some words over the memory of the request. *)
Definition word_answer (ws : list Z) (r : Request) (pid tid : Z) (a : PortAnswer) : Prop :=
  exists bytes, store_words ws (req_bytes r) = Some bytes
    /\ a = mk_PortAnswer (req_slot r) pid tid (R_MemoryReturned None None) bytes.

Lemma respond_words_run ws r m x :
  held own_sidx is_client (port x) (req_env r) -> env_body (req_env r) = MutableBorrow m ->
  (4 * length ws <= length (req_bytes r))%nat ->
  exists pid tid a, MessageSender_pid (env_sender (req_env r)) = Some pid /\ word_answer ws r pid tid a
    /\ respond_words own_sidx ws r x = ROk (set_port (answered (req_slot r) a (port x)) x) tt.
Proof.
  intros Hh Hb Hl. destruct (store_words_Some ws (req_bytes r) Hl) as (bytes & Hs & _).
  set (r' := set_request_memory bytes None None r).
  assert (Hr' : r' = mk_Request (mk_MessageEnvelope (env_sender (req_env r))
            (MutableBorrow (mk_MemoryMessage (mm_id m) (mm_buf m) None None))) bytes).
  { unfold r', set_request_memory. by rewrite Hb. }
  destruct (drop_lent r' (mk_MemoryMessage (mm_id m) (mm_buf m) None None) x) as (pid & tid & Hp & E).
  - rewrite Hr'. cbn. destruct (req_env r) as [s b]. cbn in *. subst b. by eapply held_body.
  - left. by rewrite Hr'.
  - rewrite Hr' in Hp. exists pid, tid. eexists. split; [done |]. split; [by exists bytes |].
    unfold respond_words, bind, unwrap. rewrite Hb. cbn [Message_memory_message_mut]. rewrite Hs. fold r'. rewrite E, Hr'. done.
Qed.

(** *** Brokering a connection *)

Lemma ready_pid pid pid' s n k l : ready false pid s n k l -> ready false pid' s n k l.
Proof.
  assert (Hk : forall made k, kernel_inv false pid s made k <-> kernel_inv false pid' s made k).
  { intros made k'. split; intros []; by split. }
  intros (made & Hi & He). exists made. split; [by apply Hk |]. clear Hi.
  induction He as [made | f made n l Hf H IH | f made made' n l Hf H IH]; [constructor | apply enough_made | eapply enough_skip];
    try done; intros k'; rewrite <- !Hk; auto.
Qed.

(** Both outcomes of a connection to an entry that is not full. *)
Definition entry_connected name pid c n x x' (r : ConnectError + ConnectSuccess) : Prop :=
  exists k' l', broker_ok k' /\ ready false pid (sid c) n k' l' /\ later (sid c) (schedule x) (kernel x) l' k'
    /\ ((exists cid, r = inr (Connected cid (token c)) /\ resolves k' pid cid (sid c) /\ in_width 32 cid
           /\ x' = set_schedule l' (set_kernel k' (set_table (<[name := one_more c]> (name_table x)) x)))
        \/ r = inl KernelConnectFailure
           /\ x' = set_schedule l' (set_kernel k' (set_table (<[name := one_failed c]> (name_table x)) x))).

Definition brokered name pid n x x' (r : ConnectError + ConnectSuccess) : Prop :=
  match name_table x !! name with
  | Some c => if is_full c then x' = x /\ r = inr Wait else entry_connected name pid c n x x' r
  | None => x' = x /\ r = inr Wait
  end.

Lemma set_table_same x : set_table (name_table x) x = x.
Proof. by destruct x. Qed.

Lemma table_connect_nop name x :
  name_table_ok ids (next_id x) (name_table x) ->
  CheckedHashMap_connect name x
  = match name_table x !! name with
    | Some c => if is_full c then ROk x (None, None)
                else ROk (set_table (<[name := one_more c]> (name_table x)) x) (Some (sid c), token c)
    | None => ROk x (None, None)
    end.
Proof.
  intros Hok. unfold CheckedHashMap_connect, bind, gets, modify, ret.
  rewrite table_connect_run by (intros c Hc; by eapply to_entry). destruct (name_table x !! name) as [c |];
    [destruct (is_full c) |]; cbn [fst snd]; by rewrite ?set_table_same.
Qed.

Lemma blocking_connect_ok r nm pid n x :
  names_ok x -> MessageSender_pid (env_sender (req_env r)) = Some pid -> is_client pid ->
  name_from_msg r = Some (inr nm) ->
  (forall c, name_table x !! name_bytes nm = Some c -> is_full c = false ->
     ready false pid (sid c) (S n) (kernel x) (schedule x)) ->
  returns (blocking_connect iter r x) (brokered (name_bytes nm) pid n x).
Proof.
  intros Hx Hpid Hw Hn He. unfold blocking_connect. rewrite Hn. repeat name_step. rewrite Hpid. repeat name_step.
  rewrite table_connect_nop by apply Hx. unfold brokered.
  destruct (name_table x !! name_bytes nm) as [c |] eqn:Hc; [| by repeat name_step].
  destruct (is_full c) eqn:Hf; [by repeat name_step |]. repeat name_step. unfold connect_for_process. repeat name_step.
  destruct (He c eq_refl Hf) as (made & Hi & Hen).
  eapply returns_mono; [by apply (connect_attempts_ok false pid (sid c) made n) |].
  intros x' res (k' & l' & -> & Hk & Hl & Hlater & Hr). specialize (Hl eq_refl). destruct res as [e | cid]; repeat name_step; exists k', l'; (split_and!; [done.. |]).
  - right. split; [done |]. cbn. erewrite (table_disconnect_run iter Hiter ids); [done | apply Hx | done | done].
  - left. exists cid. destruct Hr. done.
Qed.

(** The invariant after a connection. *)
Lemma entry_connected_ok name pid c n x x' r :
  names_ok x -> name_table x !! name = Some c -> is_full c = false -> entry_connected name pid c n x x' r -> names_ok x'.
Proof.
  intros Hx Hc Hf (k' & l' & Hk & _ & _ & [(cid & _ & _ & _ & ->) | [_ ->]]); apply names_ok_kernel; try done.
  - apply (names_ok_table x _ (next_id x)); [done |]. eapply name_table_ok_change; [apply Hx | done | done |].
    apply one_more_ok; [by eapply to_entry; [apply Hx |] | done].
  - apply (names_ok_table x _ (next_id x)); [done |]. eapply name_table_ok_change; [apply Hx | done | done |].
    apply one_failed_ok. by eapply to_entry; [apply Hx |].
Qed.

Lemma entry_connected_same name pid c n x x' r :
  entry_connected name pid c n x x' r ->
  port x' = port x /\ waiting_connections x' = waiting_connections x /\ next_id x' = next_id x /\ finished x' = finished x.
Proof. intros (k' & l' & _ & _ & _ & [(cid & _ & _ & _ & ->) | [_ ->]]); done. Qed.

(** *** Requests that wait for a name *)

Definition waits_for (name : list Z) (r : Request) : bool :=
  match name_from_msg r with Some (inr n) => bool_decide (name_bytes n = name) | _ => false end.

Definition success_words (cid : Z) (tok : option SID) : list Z :=
  0 :: cid :: match tok with Some d => [sid0 d; sid1 d; sid2 d; sid3 d] | None => [0; 0; 0; 0] end.

(** The answer to a request that waited: a refusal of the kernel, or a connection
    [cid] with the token of the entry; [P] says what the connection leads to. *)
Definition waiter_answer (P : Z -> Z -> Prop) (tok : option SID) (r : Request) (a : PortAnswer) : Prop :=
  exists pid tid, MessageSender_pid (env_sender (req_env r)) = Some pid
    /\ (word_answer [1; 2] r pid tid a
        \/ exists cid, in_width 32 cid /\ P pid cid /\ word_answer (success_words cid tok) r pid tid a).

Lemma waiter_answer_mono (P Q : Z -> Z -> Prop) tok r a :
  (forall pid cid, P pid cid -> Q pid cid) -> waiter_answer P tok r a -> waiter_answer Q tok r a.
Proof. intros H (pid & tid & Hp & [Ha | (cid & Hw & Hc & Ha)]); exists pid, tid; split; eauto. right. exists cid. auto. Qed.

(** The entry has room for [n] connections. *)
Definition has_places (n : nat) (c : Connection) : Prop :=
  forall m, max_conns c = Some m -> current_conns c + Z.of_nat n <= m.

Lemma has_places_full n c : has_places (S n) c -> is_full c = false.
Proof. unfold has_places, is_full. destruct (max_conns c) as [m |]; [| done]. intros H. specialize (H m eq_refl). apply Z.leb_gt. lia. Qed.

Lemma has_places_more n c : entry_ok c -> has_places (S n) c -> has_places n (one_more c).
Proof.
  intros He H m Hm. cbn in *. specialize (H m Hm). unfold entry_ok, in_width in He. rewrite Hm in He.
  rewrite add32_one; unfold modulus, usize_MAX in *; lia.
Qed.

Lemma has_places_failed n c : entry_ok c -> has_places (S n) c -> has_places n (one_failed c).
Proof.
  intros He H m Hm. rewrite (one_failed_limited c m) by (done || by eapply has_places_full). specialize (H m Hm). lia.
Qed.

(** The response to a connection that was made or refused. *)
Definition answer_connect (r : Request) (res : ConnectError + ConnectSuccess)
    : NameServer K -> outcome Error (NameServer K) unit :=
  match res with
  | inl e => respond_connect_error own_sidx r e
  | inr (Connected cid disc) => respond_connect_success own_sidx r cid disc
  | inr Wait => panic
  end.

Lemma answer_connect_ok name pid c n r x x' res :
  MessageSender_pid (env_sender (req_env r)) = Some pid -> waiting_ok (port x) r -> names_ok x -> ~ (req_slot r ∈ req_slot <$> waiting_connections x) ->
  name_table x !! name = Some c -> is_full c = false -> entry_connected name pid c n x x' res ->
  returns (answer_connect r res x') (fun x2 _ =>
    names_ok x2 /\ exists a, waiter_answer (fun pid cid => resolves (kernel x') pid cid (sid c)) (token c) r a /\ x2 = set_port (answered (req_slot r) a (port x)) x').
Proof.
  intros Hpid [Hh (m & nm & Hb & Hl & _)] Hx Hs Hc Hf He.
  pose proof (entry_connected_ok _ _ _ _ _ _ _ Hx Hc Hf He) as Hx'.
  pose proof (entry_connected_same _ _ _ _ _ _ _ He) as (Ep & Ew & _). rewrite <- Ep in Hh. rewrite <- Ew in Hs.
  assert (Hgo : forall ws, (4 * length ws <= 24)%nat ->
    (forall pid' tid a, MessageSender_pid (env_sender (req_env r)) = Some pid' -> word_answer ws r pid' tid a ->
       waiter_answer (fun pid cid => resolves (kernel x') pid cid (sid c)) (token c) r a) ->
    returns (respond_words own_sidx ws r x') (fun x2 _ =>
      names_ok x2 /\ exists a, waiter_answer (fun pid cid => resolves (kernel x') pid cid (sid c)) (token c) r a /\ x2 = set_port (answered (req_slot r) a (port x)) x')).
  { intros ws Hws Ha. destruct (respond_words_run ws r m x' Hh Hb) as (pid' & tid & a & Hp & Hw & ->); [lia |].
    name_step. split; [by apply names_ok_answered |]. exists a. rewrite Ep. eauto. }
  destruct He as (k' & l' & _ & _ & _ & [(cid & -> & Hr & Hcid & ->) | [-> ->]]); cbn [answer_connect].
  - apply Hgo; [by destruct (token c) |]. intros pid' tid a Hp Ha. exists pid', tid. split; [done |]. right. exists cid.
    assert (pid' = pid) as -> by congruence. done.
  - apply Hgo; [cbn; lia |]. intros pid' tid a Hp Ha. exists pid', tid. split; [done |]. by left.
Qed.

(** What serving the first [n] waiting requests has done, for an entry with the
    identifier [s] and the token [tok]. *)
Record served (name : list Z) (s : SID) (tok : option SID) (n : nat) x x' : Prop := {
  sv_ok : names_ok x';
  sv_waiting : waiting_connections x'
    = List.filter (fun r => negb (waits_for name r)) (take n (waiting_connections x)) ++ drop n (waiting_connections x);
  sv_answers : exists l, port_answers (port x') = port_answers (port x) ++ l
    /\ Forall2 (waiter_answer (fun pid cid => Forall (keeps s) (schedule x) -> resolves (kernel x') pid cid s) tok)
         (rev (List.filter (waits_for name) (take n (waiting_connections x)))) l;
  sv_later : later s (schedule x) (kernel x) (schedule x') (kernel x');
  sv_entry c : name_table x !! name = Some c ->
    exists c', name_table x' !! name = Some c' /\ sid c' = sid c /\ max_conns c' = max_conns c /\ token c' = token c;
  sv_others nm : nm <> name -> name_table x' !! nm = name_table x !! nm;
  sv_same : next_id x' = next_id x /\ finished x' = finished x /\ port_ended (port x') = port_ended (port x)
}.

Definition waiters_of (name : list Z) (n : nat) x : nat := length (List.filter (waits_for name) (take n (waiting_connections x))).

(** The request [i] waits for another name. *)
Lemma served_skip name s tok i r x x' :
  waiting_connections x !! i = Some r -> waits_for name r = false -> served name s tok i x x' -> served name s tok (S i) x x'.
Proof.
  intros Hi Hw []. split; try done; rewrite (take_S_r _ _ _ Hi), List.filter_app; cbn [List.filter]; rewrite Hw.
  - rewrite sv_waiting0, <- app_assoc. cbn. by rewrite (drop_S _ _ _ Hi).
  - by rewrite app_nil_r.
Qed.

Lemma take_delete {A} (l : list A) i : (i < length l)%nat -> take i (delete i l) = take i l.
Proof. intros Hi. rewrite delete_take_drop, take_app_le, take_take, Nat.min_id; [done |]. rewrite length_take. lia. Qed.

(** The request [i] is answered, and the ones before it are served. *)
Lemma served_answer name i r a c c' k l x x' :
  waiting_connections x !! i = Some r -> waits_for name r = true ->
  waiter_answer (fun pid cid => resolves k pid cid (sid c)) (token c) r a ->
  later (sid c) (schedule x) (kernel x) l k -> name_table x !! name = Some c -> sid c' = sid c -> max_conns c' = max_conns c -> token c' = token c ->
  served name (sid c) (token c) i (set_port (answered (req_slot r) a (port x)) (set_schedule l (set_kernel k
    (set_table (<[name := c']> (name_table x)) (set_waiting (delete i (waiting_connections x)) x))))) x' ->
  served name (sid c) (token c) (S i) x x'.
Proof.
  intros Hi Hw Ha Hlater Hc E1 E2 E3 []. cbn in *. pose proof (lookup_lt_Some _ _ _ Hi) as Hlt.
  assert (Et : take i (delete i (waiting_connections x)) = take i (waiting_connections x)).
  { rewrite delete_take_drop, take_app_le, take_take, Nat.min_id; [done |]. rewrite length_take. lia. }
  assert (Ed : drop i (delete i (waiting_connections x)) = drop (S i) (waiting_connections x)).
  { rewrite delete_take_drop. rewrite drop_app_ge, length_take_le, Nat.sub_diag; [done | lia |]. rewrite length_take. lia. }
  rewrite Et, Ed in *. split; try done; rewrite ?(take_S_r _ _ _ Hi), ?List.filter_app; cbn [List.filter]; rewrite ?Hw; cbn [negb].
  - by rewrite app_nil_r.
  - destruct sv_answers0 as (l2 & -> & H2). exists (a :: l2). rewrite <- app_assoc. split; [done |].
    rewrite rev_app_distr. cbn. constructor.
    + eapply waiter_answer_mono; [| exact Ha]. intros pid cid Hr Hk. apply sv_later0; [by apply Hlater | done].
    + eapply Forall2_impl; [exact H2 |]. intros r' a'. apply waiter_answer_mono. intros pid cid H Hk. by apply H, Hlater.
  - by eapply later_trans.
  - intros c0 Hc0. rewrite Hc in Hc0. injection Hc0 as <-. destruct (sv_entry0 c') as (c2 & ? & ? & ? & ?); [apply lookup_insert_eq |].
    exists c2. split_and!; congruence.
  - intros nm Hnm. rewrite (sv_others0 nm Hnm). by apply lookup_insert_ne.
Qed.

Lemma names_ok_take x i r :
  names_ok x -> waiting_connections x !! i = Some r ->
  names_ok (set_waiting (delete i (waiting_connections x)) x) /\ waiting_ok (port x) r
  /\ ~ (req_slot r ∈ req_slot <$> delete i (waiting_connections x)).
Proof.
  intros [] Hi. assert (Hp : waiting_connections x ≡ₚ r :: delete i (waiting_connections x)) by (by apply delete_Permutation).
  pose proof no_slots0 as Hn. rewrite Hp in Hn, no_waiting0. apply NoDup_cons in Hn as [Hr Hn].
  apply Forall_cons in no_waiting0 as [Hw Hf]. split_and!; [by split | done | done].
Qed.

Lemma connect_waiting_ok name c pid n x :
  names_ok x -> (n <= length (waiting_connections x))%nat -> name_table x !! name = Some c ->
  has_places (waiters_of name n x) c -> ready false pid (sid c) (waiters_of name n x) (kernel x) (schedule x) ->
  returns (connect_waiting own_sidx iter n name x) (fun x' _ => served name (sid c) (token c) n x x').
Proof.
  revert c pid x. induction n as [| i IH]; intros c pid x Hx Hn Hc Hp He.
  { cbn [connect_waiting]. name_step. split; try done; cbn.
    - exists []. by rewrite app_nil_r.
    - eauto. }
  destruct (lookup_lt_is_Some_2 (waiting_connections x) i) as [r Hi]; [lia |].
  destruct (names_ok_take x i r Hx Hi) as (Hx1 & Hr & Hs). pose proof Hr as [Hh (m & nm & Hb & Hl & Hname)].
  assert (Hcnt : waiters_of name (S i) x = ((if waits_for name r then 1 else 0) + waiters_of name i x)%nat).
  { unfold waiters_of. rewrite (take_S_r _ _ _ Hi), List.filter_app, length_app. cbn [List.filter].
    destruct (waits_for name r); cbn; lia. }
  cbn [connect_waiting]. repeat name_step. rewrite Hi. repeat name_step. rewrite Hname. repeat name_step.
  assert (Hw : waits_for name r = bool_decide (name_bytes nm = name)) by (unfold waits_for; by rewrite Hname).
  cbn [fmap option_fmap option_map]. rewrite (bool_decide_ext _ (name_bytes nm = name)) by (split; congruence).
  destruct (bool_decide (name_bytes nm = name)) eqn:E; rewrite Hw in Hcnt; cbn in Hcnt; rewrite Hcnt in *.
  - apply bool_decide_eq_true in E. subst name. repeat name_step.
    destruct (held_pid own_sidx Hsidx is_client _ _ Hh) as (pid' & Hpid & _ & Hwf).
    eapply returns_mono; [apply (blocking_connect_ok r nm pid' (waiters_of (name_bytes nm) i x)); [done | done | done | done |] |].
    { intros c' Hc' _. cbn in Hc'. rewrite Hc in Hc'. injection Hc' as <-. by eapply ready_pid. }
    intros x2 res Hbr. unfold brokered in Hbr. cbn [name_table set_waiting] in Hbr. rewrite Hc in Hbr.
    pose proof (has_places_full _ _ Hp) as Hf. rewrite Hf in Hbr.
    pose proof (to_entry _ _ _ (no_table _ Hx) _ _ Hc) as Hent.
    eapply returns_mono; [apply (answer_connect_ok (name_bytes nm) pid' c _ r
      (set_waiting (delete i (waiting_connections x)) x) x2 res Hpid Hr Hx1 Hs Hc Hf Hbr) |].
    intros x3 [] (Hx3 & a & Ha & Ex3).
    assert (Ecnt : waiters_of (name_bytes nm) i x = waiters_of (name_bytes nm) i x3).
    { unfold waiters_of. rewrite Ex3. cbn [waiting_connections set_port].
      destruct (entry_connected_same _ _ _ _ _ _ _ Hbr) as (_ & -> & _). cbn [waiting_connections set_waiting].
      rewrite take_delete; [done | lia]. }
    assert (exists c2 k' l', sid c2 = sid c /\ max_conns c2 = max_conns c /\ token c2 = token c
              /\ has_places (waiters_of (name_bytes nm) i x) c2
              /\ ready false pid' (sid c2) (waiters_of (name_bytes nm) i x) k' l'
              /\ kernel x2 = k' /\ later (sid c) (schedule x) (kernel x) l' k'
              /\ x3 = set_port (answered (req_slot r) a (port x)) (set_schedule l' (set_kernel k'
                        (set_table (<[name_bytes nm := c2]> (name_table x)) (set_waiting (delete i (waiting_connections x)) x)))))
      as (c2 & k' & l' & E1 & E2 & E3 & Hp2 & He2 & Ek2 & Hlater & Ex).
    { destruct Hbr as (k' & l' & _ & Hen & Hlater & [(cid & _ & _ & _ & Ex2) | [_ Ex2]]); subst x2.
      - exists (one_more c), k', l'. split_and!; try done. by apply has_places_more.
      - exists (one_failed c), k', l'. split_and!; try done. by apply has_places_failed. }
    rewrite Ecnt in Hp2, He2. eapply returns_mono; [apply (IH c2 pid' x3) |].
    + done.
    + rewrite Ex. cbn. rewrite length_delete by eauto. lia.
    + rewrite Ex. apply lookup_insert_eq.
    + done.
    + by rewrite Ex in He2 |- *.
    + intros x4 [] H4. rewrite Ex, E1, E3 in H4. rewrite Ek2 in Ha. by eapply served_answer.
  - name_step. eapply returns_mono; [eapply (IH c pid); [done | lia | done | done | done] |]. intros x4 [] H4. by eapply served_skip.
Qed.
End NameServer.
