(* ===== verification/NamesSafe.v ===== *)
(** * The name server: safety

    Every request of a client that keeps to the protocol is handled without a panic,
    and the invariant of the server survives: names lead to one server each, limits
    hold, and every request that waits is owed a reply. *)

From Stdlib Require Import ZArith Lia Bool.
From stdpp Require Import base numbers list option gmap.
From S2P Require Import Prelude.
From S2P Require Import Abi.
From S2P Require Import Server.
From S2P Require Import ServerSpec.
From S2P Require Import ImageWriter.
From S2P Require Import Port.
From S2P Require Import Names.
From S2P Require Import NamesFacts.

#[local] Open Scope Z_scope.
#[local] Open Scope kernel_scope.

Section NameServer.
Context {K : Type} {HB : Broker K} {HL : BrokerLaws K}.
Context (own_sidx : Z) (Hsidx : 0 <= own_sidx < 256).
Context (iter : CheckedHashMap -> list (list Z * Connection)) (Hiter : forall t, iter t ≡ₚ map_to_list t).
Context (ids : nat -> SID) (Hids : forall i j, ids i = ids j -> i = j) (codec : Codec).

Implicit Type x : NameServer K.

#[local] Abbreviation names_ok := (names_ok own_sidx ids).
#[local] Abbreviation in_hand := (in_hand own_sidx).

(** ** Replies *)

Definition is_mutable (r : Request) : Prop := exists m, Message_memory_message_mut (env_body (req_env r)) = Some m.

(** Every answer fits into the memory of the request. *)
Definition fits (r : Request) : Prop := forall response, exists bytes used, replace_memory codec response r = Some (bytes, used).

Lemma in_hand_same x x' r :
  in_hand x r -> port x' = port x -> waiting_connections x' = waiting_connections x -> in_hand x' r.
Proof. unfold NamesFacts.in_hand. by intros ? -> ->. Qed.

(** The answer with a record over the memory of the request. *)
Definition record_answer (response : Return) (r : Request) (a : PortAnswer) : Prop :=
  exists pid tid bytes used valid, MessageSender_pid (env_sender (req_env r)) = Some pid
    /\ replace_memory codec response r = Some (bytes, used)
    /\ a = mk_PortAnswer (req_slot r) pid tid (R_MemoryReturned (NonZero_new used) valid) bytes.

(** Memory that was lent comes back with one answer; memory that was moved does not. *)
Definition answers_record (response : Return) (r : Request) (l : list PortAnswer) : Prop :=
  forall m, env_body (req_env r) = MutableBorrow m -> exists a, l = [a] /\ record_answer response r a.

Definition record_replied (response : Return) (r : Request) x x' : Prop :=
  exists p l, x' = set_port p x /\ port_answers p = port_answers (port x) ++ l /\ answers_record response r l.

Lemma reply_record_ok response r x :
  names_ok x -> in_hand x r -> is_mutable r -> fits r ->
  returns (reply_record own_sidx codec response r x) (fun x' _ => names_ok x' /\ record_replied response r x x').
Proof.
  intros Hx [Hh Hs] [m Hm] Hf. destruct (Hf response) as (bytes & used & E). unfold reply_record. name_step. rewrite E.
  repeat name_step. destruct r as [[s b] bs]. unfold set_request_memory. cbn in *.
  destruct b as [b | b | b | b | b]; try done.
  - set (v := mm_valid b). set (b' := mk_MemoryMessage _ _ _ _).
    destruct (drop_lent own_sidx Hsidx (mk_Request (mk_MessageEnvelope s (MutableBorrow b')) bytes) b' x) as (pid & tid & Hp & ->);
      [by eapply held_body | by left |].
    name_step. split; [apply names_ok_answered; first [done | by apply Hs] |]. eexists _, _. split; [done |]. split; [done |].
    intros ? _. eexists. split; [done |]. by exists pid, tid, bytes, used, v.
  - unfold drop_message. cbn. split; [done |]. exists (port x), []. split; [by destruct x |].
    split; [by rewrite app_nil_r |]. done.
Qed.

(** ** The handlers *)

Lemma handle_register_ok r reg nm pid x :
  names_ok x -> in_hand x r -> is_mutable r -> fits r ->
  to_registration codec r = Some reg -> XousServerName_from_str (reg_name reg) = Some nm ->
  (forall m, conn_limit reg = Some m -> in_width 32 m) ->
  (name_table x !! name_bytes nm = None ->
   let n := waiters_of (name_bytes nm) (length (waiting_connections x)) x in
   (forall m, conn_limit reg = Some m -> Z.of_nat n <= m) /\ ready false pid (ids (next_id x)) n (kernel x) (schedule x)) ->
  returns (handle_register own_sidx iter ids codec r x) (fun x' _ =>
    names_ok x' /\ finished x' = finished x
    /\ match name_table x !! name_bytes nm with
       | Some _ => record_replied Return_Failure r x x'
       | None => exists p l, port_answers p = port_answers (port x) ++ l
           /\ answers_record (Return_SID (ids (next_id x))) r l /\
           let c := mk_Connection (ids (next_id x)) 0 (conn_limit reg) false 0 (Some (ids (S (next_id x)))) in
           served own_sidx ids (name_bytes nm) (sid c) (token c) (length (waiting_connections x))
             (set_port p (set_next_id (S (S (next_id x))) (set_table (<[name_bytes nm := c]> (name_table x)) x))) x'
       end).
Proof.
  intros Hx Hh [m Hm] Hf Hreg Hnm Hlim Hpre. unfold handle_register. name_step. rewrite Hm. repeat name_step. rewrite Hreg.
  repeat name_step. rewrite Hnm. repeat name_step. destruct (name_table x !! name_bytes nm) as [c |] eqn:Hc.
  - eapply returns_mono; [apply reply_record_ok; [done | done | by exists m | done] |]. intros x' [] (Hx' & p & l & -> & El).
    split_and!; [done | done |]. by exists p, l.
  - unfold new_server_id. repeat name_step. cbn [next_id set_next_id].
    set (x1 := set_table _ _).
    assert (Hx1 : names_ok x1).
    { apply (names_ok_table own_sidx ids x _ (S (S (next_id x)))); [done |].
      eapply name_table_ok_more; [| eapply name_table_ok_insert; [done | apply Hx | done]]. lia. }
    eapply returns_mono; [apply reply_record_ok; [exact Hx1 | by eapply in_hand_same | by exists m | done] |].
    intros x2 [] (Hx2 & p & la & Ex2 & El & Ha). repeat name_step. rewrite Ex2 at 1. cbn [waiting_connections set_port].
    destruct (Hpre eq_refl) as [Hpl Hen].
    eapply returns_mono; [eapply (connect_waiting_ok own_sidx Hsidx iter Hiter ids (name_bytes nm) _ pid); [exact Hx2 | | | |] |].
    + by rewrite Ex2.
    + rewrite Ex2. apply lookup_insert_eq.
    + intros lim Hl. cbn in Hl |- *. rewrite Ex2. by apply Hpl.
    + by rewrite Ex2.
    + intros x3 [] H3. split_and!; [apply H3 | |].
      * destruct (sv_same _ _ _ _ _ _ _ _ H3) as (_ & -> & _). by rewrite Ex2.
      * exists p, la. split; [exact El |]. split; [exact Ha |]. rewrite Ex2 in H3. exact H3.
Qed.

Lemma table_remove_ok n s t : name_table_ok ids n t -> name_table_ok ids n (fst (table_remove iter s t)).
Proof. intros H. unfold table_remove. destruct (find_sid iter s t); [by apply name_table_ok_delete | done]. Qed.

Lemma handle_unregister_ok r x :
  names_ok x -> in_hand x r ->
  returns (handle_unregister own_sidx iter r x) (fun x' _ => names_ok x' /\ finished x' = finished x).
Proof.
  intros Hx Hh. unfold handle_unregister. destruct (env_body (req_env r)) as [m | m | m | m | s] eqn:Hb;
    try (eapply returns_mono; [by apply drop_ok |]; intros x' [] (Hx' & p & l & -> & _); done).
  repeat name_step. pose proof (table_remove_ok (next_id x) (SID_from_u32 (u32 (sm_arg1 s)) (u32 (sm_arg2 s)) (u32 (sm_arg3 s)) (u32 (sm_arg4 s)))
    (name_table x) (no_table _ _ _ Hx)) as Ht.
  destruct (table_remove _ _ _) as [t' removed]. cbn in Ht. repeat name_step.
  eapply returns_mono; [eapply return_scalar_ok; [done | by apply (names_ok_table own_sidx ids x t' (next_id x)) | by eapply in_hand_same | by eexists] |].
  intros x' [] (Hx' & p & l & -> & _). done.
Qed.

(** ** Connecting *)

(** The request is answered with these words. *)
Definition answers_words ws (r : Request) pid x x' : Prop :=
  exists tid a, word_answer ws r pid tid a /\ x' = set_port (answered (req_slot r) a (port x)) x.

(** The table after the kernel has refused a connection to the entry [c]: no other
    name is touched, and an entry that is left counts no connection more. *)
Definition refused (name : list Z) (c : Connection) (t t' : CheckedHashMap) : Prop :=
  (forall nm, nm <> name -> t' !! nm = t !! nm)
  /\ forall c', t' !! name = Some c' -> sid c' = sid c /\ current_conns c' <= current_conns c.

(** All that a connection request can do: its name is no text, the name is not
    registered or its server is full, the kernel connects, or the kernel refuses, in
    which case [R] relates the tables. *)
Definition connect_result (R : list Z -> Connection -> CheckedHashMap -> CheckedHashMap -> Prop) (r : Request) pid x x' : Prop :=
  match name_from_msg r with
  | Some (inl e) => answers_words [1; ConnectError_to_u32 e] r pid x x'
  | Some (inr nm) =>
      let unavailable :=
        if Message_id (env_body (req_env r)) =? TryConnect_id
        then answers_words [1; ConnectError_to_u32 CE_ServerNotFound] r pid x x'
        else x' = set_waiting (waiting_connections x ++ [r]) x in
      match name_table x !! name_bytes nm with
      | None => unavailable
      | Some c =>
          if is_full c then unavailable
          else exists k' l', broker_ok k' /\
            let y t := set_schedule l' (set_kernel k' (set_table t x)) in
            (exists cid, resolves k' pid cid (sid c) /\ in_width 32 cid
               /\ answers_words (success_words cid (token c)) r pid (y (<[name_bytes nm := one_more c]> (name_table x))) x')
            \/ exists t', R (name_bytes nm) c (name_table x) t'
               /\ answers_words [1; ConnectError_to_u32 KernelConnectFailure] r pid (y t') x'
      end
  | None => False
  end.

Definition connect_outcome : Request -> Z -> NameServer K -> NameServer K -> Prop := connect_result refused.

(** The connection that was counted is taken back. *)
Definition taken_back (name : list Z) (c : Connection) (t t' : CheckedHashMap) : Prop := t' = <[name := one_failed c]> t.

Lemma taken_back_refused name c t t' : taken_back name c t t' -> refused name c t t'.
Proof.
  intros ->. split; [intros nm Hne; by apply lookup_insert_ne |]. intros c'. rewrite lookup_insert_eq. intros [= <-].
  split; [done |]. cbn. destruct (Z.eqb_spec (current_conns c) usize_MAX) as [-> |]; unfold usize_MAX; lia.
Qed.

Lemma connect_result_outcome r pid x x' : connect_result taken_back r pid x x' -> connect_outcome r pid x x'.
Proof.
  unfold connect_outcome, connect_result. destruct (name_from_msg r) as [[e | nm] |]; try done.
  destruct (name_table x !! name_bytes nm) as [c |]; [| done]. destruct (is_full c); [done |].
  intros (k' & l' & Hk & [? | (t' & Ht & Ha)]); exists k', l'; (split; [done |]); [by left | right].
  exists t'. split; [by apply taken_back_refused | done].
Qed.

Lemma respond_words_ok ws r m pid x :
  held own_sidx is_client (port x) (req_env r) -> env_body (req_env r) = MutableBorrow m ->
  MessageSender_pid (env_sender (req_env r)) = Some pid -> (4 * length ws <= length (req_bytes r))%nat ->
  returns (respond_words own_sidx ws r x) (fun x' _ => answers_words ws r pid x x').
Proof.
  intros Hh Hb Hp Hl. destruct (respond_words_run own_sidx Hsidx ws r m x Hh Hb Hl) as (pid' & tid & a & Hp' & Ha & ->).
  rewrite Hp in Hp'. injection Hp' as <-. name_step. by exists tid, a.
Qed.

Lemma handle_connect_run r m pid x :
  names_ok x -> held own_sidx is_client (port x) (req_env r) -> env_body (req_env r) = MutableBorrow m ->
  MessageSender_pid (env_sender (req_env r)) = Some pid -> is_client pid ->
  (24 <= length (req_bytes r))%nat -> name_from_msg r <> None ->
  (forall nm c, name_from_msg r = Some (inr nm) -> name_table x !! name_bytes nm = Some c -> is_full c = false ->
     ready false pid (sid c) 1 (kernel x) (schedule x)) ->
  returns (handle_connect own_sidx iter r x) (fun x' _ => connect_result taken_back r pid x x').
Proof.
  intros Hx Hh Hb Hp Hw Hl Hn He. unfold handle_connect. rewrite Hb. cbn [Message_is_blocking Message_has_memory negb].
  rewrite <- Hb. unfold connect_result.
  destruct (name_from_msg r) as [[e | nm] |] eqn:Hname; [| | done].
  { unfold blocking_connect. rewrite Hname. repeat name_step. apply (respond_words_ok _ _ m); try done. cbn; lia. }
  assert (Hun : returns ((if Message_id (env_body (req_env r)) =? TryConnect_id then respond_connect_error own_sidx r CE_ServerNotFound
       else modify (fun x => set_waiting (waiting_connections x ++ [r]) x)) x) (fun x' _ =>
       if Message_id (env_body (req_env r)) =? TryConnect_id
        then answers_words [1; ConnectError_to_u32 CE_ServerNotFound] r pid x x'
        else x' = set_waiting (waiting_connections x ++ [r]) x)).
  { destruct (_ =? TryConnect_id); [apply (respond_words_ok _ _ m); try done; cbn; lia | by name_step]. }
  name_step. eapply returns_mono; [apply (blocking_connect_ok own_sidx iter Hiter ids r nm pid 0 x Hx Hp Hw Hname); by eauto |].
  intros x1 res Hbr. unfold brokered in Hbr.
  destruct (name_table x !! name_bytes nm) as [c |] eqn:Hc; [| destruct Hbr as [-> ->]; exact Hun].
  destruct (is_full c) eqn:Hf; [destruct Hbr as [-> ->]; exact Hun |].
  destruct Hbr as (k' & l' & Hk & _ & _ & [(cid & -> & Hr & Hcid & ->) | [-> ->]]); cbv beta iota.
  - eapply returns_mono; [apply (respond_words_ok (success_words cid (token c)) r m pid); try done; destruct (token c); cbn; lia |].
    intros x2 [] H2. exists k', l'. split; [done |]. left. by exists cid.
  - eapply returns_mono; [apply (respond_words_ok [1; 2] r m pid); try done; cbn; lia |].
    intros x2 [] H2. exists k', l'. split; [done |]. right. by eexists.
Qed.

(** The invariant after an answer. *)
Lemma answers_words_ok ws r pid x x' :
  names_ok x -> ~ (req_slot r ∈ req_slot <$> waiting_connections x) -> answers_words ws r pid x x' ->
  names_ok x' /\ finished x' = finished x.
Proof. intros Hx Hs (tid & a & _ & ->). split; [by apply names_ok_answered | done]. Qed.

Lemma connect_result_ok r m pid x x' :
  names_ok x -> in_hand x r -> env_body (req_env r) = MutableBorrow m -> (24 <= length (req_bytes r))%nat ->
  connect_result taken_back r pid x x' -> names_ok x' /\ finished x' = finished x.
Proof.
  intros Hx [Hh Hs] Hb Hl. rewrite Hb in Hs. specialize (Hs eq_refl). unfold connect_result.
  destruct (name_from_msg r) as [[e | nm] |] eqn:Hn; [by apply answers_words_ok | | done].
  assert (Hun : (if Message_id (env_body (req_env r)) =? TryConnect_id
        then answers_words [1; ConnectError_to_u32 CE_ServerNotFound] r pid x x'
        else x' = set_waiting (waiting_connections x ++ [r]) x) -> names_ok x' /\ finished x' = finished x).
  { destruct (_ =? TryConnect_id); [by apply answers_words_ok |]. intros ->. destruct Hx. split; [| done]. split; try done; cbn.
    - apply Forall_app. split; [done |]. constructor; [| done]. split; [done |]. by exists m, nm.
    - rewrite fmap_app. apply NoDup_app. split_and!; [done | | apply NoDup_singleton].
      intros i Hi ->%list_elem_of_singleton. done. }
  destruct (name_table x !! name_bytes nm) as [c |] eqn:Hc; [| exact Hun].
  destruct (is_full c) eqn:Hf; [exact Hun |]. clear Hun.
  pose proof (to_entry _ _ _ (no_table _ _ _ Hx) _ _ Hc) as Hent.
  intros (k' & l' & Hk & [(cid & _ & _ & Ha) | (t' & -> & Ha)]); (apply answers_words_ok in Ha; [exact Ha | | done]);
    (apply names_ok_kernel; [| done]); apply (names_ok_table own_sidx ids x _ (next_id x)); try done;
    (eapply name_table_ok_change; [apply Hx | done | done |]); [by apply one_more_ok | by apply one_failed_ok].
Qed.

(** ** The other requests *)

Lemma alter_found (f : Connection -> Connection) (name : list Z) (t : CheckedHashMap) c :
  t !! name = Some c -> alter f name t = <[name := f c]> t.
Proof.
  intros Hc. apply map_eq. intros nm. destruct (decide (name = nm)) as [<- |].
  - by rewrite lookup_alter_eq, lookup_insert_eq, Hc.
  - by rewrite lookup_alter_ne, lookup_insert_ne.
Qed.

(** What a lookup answers: a connection that leads to the registered server, or a
    challenge, when the name is not registered or its server is full. *)
Definition lookup_outcome (r : Request) (src name : list Z) pid x x' : Prop :=
  exists l, port_answers (port x') = port_answers (port x) ++ l
    /\ match name_table x !! name with
       | Some c =>
           if is_full c then answers_record (Return_AuthenticateRequest src (ids (next_id x))) r l
           else exists cid, resolves (kernel x') pid cid (sid c) /\ answers_record (Return_CID cid (token c)) r l
                  /\ name_table x' = <[name := one_more c]> (name_table x)
       | None => answers_record (Return_AuthenticateRequest src (ids (next_id x))) r l
       end.

Lemma handle_lookup_run r src nm pid x :
  names_ok x -> in_hand x r -> is_mutable r -> fits r -> to_string codec r = Some src ->
  XousServerName_from_str src = Some nm -> MessageSender_pid (env_sender (req_env r)) = Some pid -> is_client pid ->
  (forall c, name_table x !! name_bytes nm = Some c -> is_full c = false ->
     ready true pid (sid c) 1 (kernel x) (schedule x)) ->
  returns (handle_lookup own_sidx ids codec r x) (fun x' _ =>
    (names_ok x' /\ finished x' = finished x) /\ lookup_outcome r src (name_bytes nm) pid x x').
Proof.
  intros Hx Hh [m Hm] Hf Hs Hnm Hp Hw Hen. unfold handle_lookup. name_step. rewrite Hm. repeat name_step. rewrite Hs.
  repeat name_step. rewrite Hnm. repeat name_step. rewrite (table_connect_nop ids) by apply Hx. unfold lookup_outcome.
  assert (Hno : returns ((challenge <- new_server_id ids;; reply_record own_sidx codec (Return_AuthenticateRequest src challenge) r) x)
    (fun x' _ => (names_ok x' /\ finished x' = finished x) /\ exists l, port_answers (port x') = port_answers (port x) ++ l
       /\ answers_record (Return_AuthenticateRequest src (ids (next_id x))) r l)).
  { unfold new_server_id. repeat name_step.
    eapply returns_mono; [apply reply_record_ok; [| by eapply in_hand_same | by exists m | done] |].
    - rewrite <- (set_table_same x). apply (names_ok_table own_sidx ids x _ (S (next_id x))); [done |].
      eapply name_table_ok_more; [| apply Hx]. lia.
    - intros x' [] (Hx' & p & l & -> & El & Ha). split; [done |]. by exists l. }
  destruct (name_table x !! name_bytes nm) as [c |] eqn:Hc; [| exact Hno].
  destruct (is_full c) eqn:Hfull; [exact Hno |]. repeat name_step. rewrite Hp. repeat name_step.
  destruct (Hen c eq_refl Hfull) as (made & Hi & Hl). pose proof (to_entry _ _ _ (no_table _ _ _ Hx) _ _ Hc) as Hent.
  unfold connect_for_process. repeat name_step.
  eapply returns_mono; [by apply (connect_attempts_ok true pid (sid c) made 0) |].
  intros x1 res (k' & l' & -> & Hk & _ & _ & Hres). destruct res as [e | cid]; [by destruct Hres |].
  eapply returns_mono; [apply reply_record_ok; [| by eapply in_hand_same | by exists m | done] |].
  - apply names_ok_kernel; [| done]. apply (names_ok_table own_sidx ids x _ (next_id x)); [done |].
    eapply name_table_ok_change; [apply Hx | done | done |]. by apply one_more_ok.
  - intros x' [] (Hx' & p & l & -> & El & Ha). split; [done |]. exists l. split; [exact El |]. exists cid. by destruct Hres.
Qed.

Lemma handle_trusted_ok r s x :
  names_ok x -> in_hand x r -> env_body (req_env r) = BlockingScalar s ->
  returns (handle_trusted_init_done own_sidx iter r x) (fun x' _ => names_ok x' /\ finished x' = finished x).
Proof.
  intros Hx Hh Hb. unfold handle_trusted_init_done. repeat name_step.
  eapply returns_mono; [eapply return_scalar_ok; [done | done | done | by exists s] |]. intros x' [] (Hx' & p & l & -> & _).
  unfold drop_message. rewrite Hb. by name_step.
Qed.

Lemma handle_disconnect_ok r d nm x :
  names_ok x -> in_hand x r -> is_mutable r -> fits r -> to_disconnect codec r = Some d ->
  XousServerName_from_str (disc_name d) = Some nm ->
  returns (handle_disconnect own_sidx ids codec r x) (fun x' _ => names_ok x' /\ finished x' = finished x).
Proof.
  intros Hx Hh [m Hm] Hf Hd Hnm. unfold handle_disconnect. name_step. rewrite Hm. repeat name_step. rewrite Hd. repeat name_step.
  rewrite Hnm. repeat name_step. destruct (token_matches _ _ _) eqn:Ht.
  - unfold new_server_id. repeat name_step.
    eapply returns_mono; [apply reply_record_ok; [| by eapply in_hand_same | by exists m | done] |].
    + apply (names_ok_table own_sidx ids x (table_reset (name_bytes nm) (ids (next_id x)) (name_table x)) (S (next_id x)));
        [done |]. unfold token_matches in Ht. unfold table_reset.
      destruct (name_table x !! name_bytes nm) as [c |] eqn:Hc; [| done].
      eapply name_table_ok_more; [apply Nat.le_succ_diag_r |]. rewrite (alter_found _ _ _ _ Hc).
      eapply name_table_ok_change; [apply Hx | done | done |].
      pose proof (to_entry _ _ _ (no_table _ _ _ Hx) _ _ Hc) as Hent. unfold entry_ok in *. cbn.
      destruct (max_conns c); unfold in_width, modulus in *; lia.
    + intros x' [] (Hx' & p & l & -> & _). done.
  - eapply returns_mono; [apply reply_record_ok; [done | done | by exists m | done] |]. intros x' [] (Hx' & p & l & -> & _). done.
Qed.

(** ** The protocol

    What a request has to look like, when a server that a connection is made to has
    to exist, and that a limit leaves room for the requests that wait already.  The
    server panics otherwise, or waits for ever. *)
Definition request_pre (r : Request) x : Prop :=
  match NameOpcode_from_usize (Message_id (env_body (req_env r))) with
  | Some Op_Register =>
      is_mutable r /\ fits r /\ exists reg nm pid,
        to_registration codec r = Some reg /\ XousServerName_from_str (reg_name reg) = Some nm
        /\ (forall m, conn_limit reg = Some m -> in_width 32 m)
        /\ (name_table x !! name_bytes nm = None ->
            let n := waiters_of (name_bytes nm) (length (waiting_connections x)) x in
            (forall m, conn_limit reg = Some m -> Z.of_nat n <= m) /\ ready false pid (ids (next_id x)) n (kernel x) (schedule x))
  | Some Op_Unregister => True
  | Some Op_BlockingConnect | Some Op_TryConnect =>
      match env_body (req_env r) with
      | MutableBorrow _ =>
          (24 <= length (req_bytes r))%nat /\ name_from_msg r <> None
          /\ forall nm c pid, name_from_msg r = Some (inr nm) -> name_table x !! name_bytes nm = Some c -> is_full c = false ->
               ready false pid (sid c) 1 (kernel x) (schedule x)
      | Borrow _ => False
      | _ => True
      end
  | Some Op_Lookup =>
      is_mutable r /\ fits r /\ exists src nm,
        to_string codec r = Some src /\ XousServerName_from_str src = Some nm
        /\ forall c pid, name_table x !! name_bytes nm = Some c -> is_full c = false ->
             MessageSender_pid (env_sender (req_env r)) = Some pid ->
             ready true pid (sid c) 1 (kernel x) (schedule x)
  | Some Op_AuthenticatedLookup => False
  | Some Op_TrustedInitDone => exists s, env_body (req_env r) = BlockingScalar s
  | Some Op_Disconnect =>
      is_mutable r /\ fits r /\ exists d nm, to_disconnect codec r = Some d /\ XousServerName_from_str (disc_name d) = Some nm
  | None => False
  end.

Lemma request_ok r x :
  names_ok x -> in_hand x r -> request_pre r x ->
  returns (handle_request own_sidx iter ids codec r x) (fun x' _ => names_ok x' /\ finished x' = finished x).
Proof.
  intros Hx Hh Hpre. destruct (held_pid own_sidx Hsidx is_client _ _ (proj1 Hh)) as (pid & Hp & _ & Hw).
  unfold handle_request, request_pre in *.
  assert (Hcon : match env_body (req_env r) with
      | MutableBorrow _ =>
          (24 <= length (req_bytes r))%nat /\ name_from_msg r <> None
          /\ forall nm c pid, name_from_msg r = Some (inr nm) -> name_table x !! name_bytes nm = Some c -> is_full c = false ->
               ready false pid (sid c) 1 (kernel x) (schedule x)
      | Borrow _ => False
      | _ => True
      end -> returns (handle_connect own_sidx iter r x) (fun x' _ => names_ok x' /\ finished x' = finished x)).
  { destruct (env_body (req_env r)) as [m | m | m | m | m] eqn:Hb; intros Hc; [| done | | |].
    - destruct Hc as (Hl & Hn & He). eapply returns_mono; [apply (handle_connect_run r m pid); try done; [apply Hh | by eauto] |].
      intros x' [] Ho. by eapply connect_result_ok.
    - unfold handle_connect. rewrite Hb. eapply returns_mono; [by apply drop_ok |]. intros x' [] (? & p & l & -> & _). done.
    - unfold handle_connect. rewrite Hb. eapply returns_mono; [by apply drop_ok |]. intros x' [] (? & p & l & -> & _). done.
    - unfold handle_connect. rewrite Hb. eapply returns_mono; [eapply return_scalar_ok; [done | done | done | by eexists] |].
      intros x' [] (? & p & l & -> & _). done. }
  destruct (NameOpcode_from_usize _) as [[] |]; try (exfalso; exact Hpre).
  - destruct Hpre as (Hm & Hf & reg & nm & pid' & H1 & H2 & H3 & H4).
    eapply returns_mono; [by apply (handle_register_ok r reg nm pid') |]. intros x' [] (? & ? & _). done.
  - destruct Hpre as (Hm & Hf & src & nm & H1 & H2 & H3). eapply returns_mono; [by apply (handle_lookup_run r src nm pid); eauto |]. intros x' [] (? & _). done.
  - by apply handle_unregister_ok.
  - destruct Hpre as (Hm & Hf & d & nm & H1 & H2). by apply (handle_disconnect_ok r d nm).
  - destruct Hpre as [s Hb]. by apply (handle_trusted_ok r s).
  - by apply Hcon.
  - by apply Hcon.
Qed.

(** ** Every step *)

(** What can happen to the server: clients that have not ended send well-formed
    messages, a turn handles a request that keeps to the protocol, other processes
    keep the kernel well formed, and a process that ends neither waits for a name nor
    has lent memory to the server. *)
Definition names_pre (e : NameEvent (K := K)) x : Prop :=
  match e with
  | N_client i pid _ m addr =>
      free_ticket (port_queue (port x)) i /\ wf_send pid m addr = true /\ is_client pid /\ ~ (pid ∈ port_ended (port x))
  | N_turn bytes others =>
      finished x = false
      /\ forall env p, port_receive own_sidx (port x) = ROk p (Some env) ->
           request_pre (mk_Request env bytes) (set_port p (set_schedule others x))
  | N_others f => broker_ok (f (kernel x))
  | N_exit pid =>
      Forall (fun iq => p_pid (snd iq) = pid -> lends (p_msg (snd iq)) = false) (pending (port_queue (port x)))
      /\ Forall (fun r => MessageSender_pid (env_sender (req_env r)) <> Some pid) (waiting_connections x)
  end.

#[local] Abbreviation step := (names_step own_sidx iter ids codec).

Inductive names_reachable : NameServer K -> Prop :=
| names_reachable_init k : broker_ok k -> names_reachable (NameServer_init k)
| names_reachable_step e x x' : names_reachable x -> names_pre e x -> step e x = ROk x' tt -> names_reachable x'.

Lemma names_ok_port x p :
  names_ok x -> port_ok is_client p -> (forall r, In r (waiting_connections x) -> held own_sidx is_client (port x) (req_env r) -> held own_sidx is_client p (req_env r)) ->
  names_ok (set_port p x).
Proof.
  intros [] Hp Hh. split; try done. cbn. rewrite List.Forall_forall in *. intros r Hr. destruct (no_waiting r Hr) as [? ?]. split; auto.
Qed.

Lemma waiting_blocking x r : names_ok x -> In r (waiting_connections x) -> Message_is_blocking (env_body (req_env r)) = true.
Proof.
  intros [] Hr. rewrite List.Forall_forall in no_waiting. destruct (no_waiting r Hr) as (_ & m & n & -> & _). done.
Qed.

(** The message is received, and the server has it in hand. *)
Lemma receive_in_hand x p env bytes :
  names_ok x -> port_receive own_sidx (port x) = ROk p (Some env) ->
  names_ok (set_port p x) /\ in_hand (set_port p x) (mk_Request env bytes).
Proof.
  intros Hx E. destruct (port_receive_ok own_sidx Hsidx is_client _ _ _ (no_port _ _ _ Hx) E) as (Hp & Hh & _ & _ & _ & Hk). split.
  - apply names_ok_port; [done | done |]. intros r Hr Hr'. by apply Hk; [| eapply waiting_blocking].
  - split; [done |]. intros _ (r & Es & Hr%list_elem_of_In)%list_elem_of_fmap. cbn in Hr.
    pose proof (no_waiting _ _ _ Hx) as Hw. rewrite List.Forall_forall in Hw. destruct (Hw r Hr) as [Hr' _].
    destruct (Hk _ Hr' (waiting_blocking _ _ Hx Hr)) as [_ Hne]. by apply Hne.
Qed.

Lemma names_step_ok e x :
  names_ok x -> names_pre e x -> returns (step e x) (fun x' _ => names_ok x' /\ finished x' = finished x).
Proof.
  intros Hx Hpre. destruct e as [i pid tid m addr | bytes others | f | pid]; cbn [names_step names_pre] in *.
  - destruct Hpre as (Hi & Hw & Hcl & Hg). name_step. split; [| done]. apply names_ok_port; [done | |].
    + apply port_send_ok; [apply Hx | done | by apply pend_of_wf | done | done].
    + intros r _ ?. by apply port_send_held.
  - destruct Hpre as [_ Hpre]. repeat name_step. unfold names_turn, with_port. name_step. unfold zoom.
    assert (Hx1 : names_ok (set_schedule others x)) by (destruct Hx; by split).
    assert (exists p o, port_receive own_sidx (port x) = ROk p o /\ (o = None -> p = port x)) as (p & o & E & Ep).
    { unfold port_receive, bind, gets. destruct (a_receive (port_queue (port x))) as [a [[i q] |]]; by repeat eexists. }
    cbn [port set_schedule]. rewrite E. name_step. destruct o as [env |].
    + destruct (receive_in_hand (set_schedule others x) p env bytes Hx1 E) as [Hx2 Hh].
      eapply returns_mono; [apply request_ok; [exact Hx2 | exact Hh | by apply Hpre] |]. intros x' [] ?. done.
    + name_step. rewrite Ep by done. split; [| done]. by destruct Hx1.
  - name_step. split; [| done]. destruct Hx. by split.
  - destruct Hpre as [Hl Hw]. name_step. split; [| done]. apply names_ok_port; [done | |].
    + by apply port_exit_ok; [apply Hx |].
    + intros r Hr Hh. rewrite List.Forall_forall in Hw. apply port_exit_held; [done | done | by apply Hw].
Qed.

Lemma names_reachable_ok x : names_reachable x -> names_ok x.
Proof.
  induction 1 as [k Hk | e x x' _ IH Hpre E].
  - split; [apply empty_port_ok | done | apply NoDup_nil_2 | | done]. split; cbn; intros *; by rewrite lookup_empty.
  - pose proof (names_step_ok e x IH Hpre) as H. rewrite E in H. apply H.
Qed.

Lemma envelope_pid i q :
  (i < QUEUE_LEN)%nat -> wf_pid (p_pid q) = true -> MessageSender_pid (env_sender (envelope own_sidx i q)) = Some (p_pid q).
Proof. exact (pid_sender_of own_sidx Hsidx i (p_pid q)). Qed.

(** A turn with the message at the head of the queue. *)
Lemma receive_head x i q rest :
  pending (port_queue (port x)) = (i, q) :: rest ->
  exists p, port_receive own_sidx (port x) = ROk p (Some (envelope own_sidx i q))
    /\ port_answers p = port_answers (port x) /\ port_ended p = port_ended (port x).
Proof.
  intros E. exists (set_port_queue (fst (a_receive (port_queue (port x)))) (port x)). split; [| done].
  unfold port_receive, bind, gets, a_receive. rewrite E. reflexivity.
Qed.

Lemma turn_request x p env bytes others :
  port_receive own_sidx (port x) = ROk p (Some env) ->
  step (N_turn bytes others) x
  = handle_request own_sidx iter ids codec (mk_Request env bytes) (set_port p (set_schedule others x)).
Proof.
  intros E. unfold names_step. rewrite (bind_ROk _ _ _ (set_schedule others x) tt) by reflexivity. unfold names_turn.
  rewrite (bind_ROk _ _ _ (set_port p (set_schedule others x)) (Some env)); [reflexivity |].
  unfold with_port, zoom. change (port (set_schedule others x)) with (port x). rewrite E. reflexivity.
Qed.

Lemma connect_request_run i q m rest bytes others x :
  names_ok x -> pending (port_queue (port x)) = (i, q) :: rest -> p_msg q = MutableBorrow m ->
  mm_id m = BlockingConnect_id \/ mm_id m = TryConnect_id -> names_pre (N_turn bytes others) x ->
  returns (step (N_turn bytes others) x) (fun x' _ =>
    exists p, port_receive own_sidx (port x) = ROk p (Some (envelope own_sidx i q))
      /\ connect_outcome (mk_Request (envelope own_sidx i q) bytes) (p_pid q) (set_port p (set_schedule others x)) x').
Proof.
  intros Hx Hq Hm Hid [_ Hpre]. destruct (receive_head x i q rest Hq) as (p & E & _).
  rewrite (turn_request x p (envelope own_sidx i q) bytes others E). specialize (Hpre _ _ E).
  assert (Hx1 : names_ok (set_schedule others x)) by (destruct Hx; by split).
  destruct (receive_in_hand (set_schedule others x) p (envelope own_sidx i q) bytes Hx1 E) as [Hx2 [Hh _]].
  assert (Hb : env_body (envelope own_sidx i q) = MutableBorrow m) by (cbn; unfold delivered; by rewrite Hm).
  assert (Hin : In (i, q) (pending (port_queue (port x)))) by (rewrite Hq; by left).
  destruct (po_slots _ _ (no_port _ _ _ Hx) i q Hin) as [Hi _]. pose proof (po_wf _ _ (no_port _ _ _ Hx) i q Hin) as Hw.
  assert (Hpid : wf_pid (p_pid q) = true) by (unfold wf_pend in Hw; by apply andb_prop in Hw as [[? _]%andb_prop _]).
  unfold request_pre, handle_request in *. cbn [req_env] in *. rewrite Hb in *. cbn [Message_id] in *.
  assert (Hop : NameOpcode_from_usize (mm_id m) = Some Op_BlockingConnect \/ NameOpcode_from_usize (mm_id m) = Some Op_TryConnect)
    by (destruct Hid as [-> | ->]; [by left | by right]).
  assert (Hgo : (24 <= length bytes)%nat /\ name_from_msg (mk_Request (envelope own_sidx i q) bytes) <> None
          /\ (forall nm c pid, name_from_msg (mk_Request (envelope own_sidx i q) bytes) = Some (inr nm) ->
               name_table x !! name_bytes nm = Some c -> is_full c = false -> ready false pid (sid c) 1 (kernel x) others))
    by (destruct Hop as [Ho | Ho]; by rewrite Ho in Hpre).
  destruct Hgo as (Hl & Hn & He).
  assert (Hrun : returns (handle_connect own_sidx iter (mk_Request (envelope own_sidx i q) bytes) (set_port p (set_schedule others x)))
    (fun x' _ => connect_result taken_back (mk_Request (envelope own_sidx i q) bytes) (p_pid q) (set_port p (set_schedule others x)) x')).
  { apply (handle_connect_run _ m); try done; [exact (envelope_pid i q Hi Hpid) | by apply (po_client _ _ (no_port _ _ _ Hx) i) | by eauto]. }
  destruct Hop as [-> | ->]; (eapply returns_mono; [exact Hrun |]); intros x' [] ?%connect_result_outcome; by exists p.
Qed.

(** A turn that receives a registration. *)
Lemma register_run i q rest bytes others reg nm x :
  let r := mk_Request (envelope own_sidx i q) bytes in
  let s := ids (next_id x) in
  names_ok x -> pending (port_queue (port x)) = (i, q) :: rest -> Message_id (p_msg q) = 0 ->
  to_registration codec r = Some reg -> XousServerName_from_str (reg_name reg) = Some nm ->
  name_table x !! name_bytes nm = None -> names_pre (N_turn bytes others) x ->
  returns (step (N_turn bytes others) x) (fun x' _ =>
    (exists c, name_table x' !! name_bytes nm = Some c /\ sid c = s /\ max_conns c = conn_limit reg)
    /\ (forall name, name <> name_bytes nm -> name_table x' !! name = name_table x !! name)
    /\ waiting_connections x' = List.filter (fun w => negb (waits_for (name_bytes nm) w)) (waiting_connections x)
    /\ exists first l, port_answers (port x') = port_answers (port x) ++ first ++ l
       /\ answers_record (Return_SID s) r first
       /\ Forall2 (waiter_answer (fun pid cid => Forall (keeps s) others -> resolves (kernel x') pid cid s) (Some (ids (S (next_id x)))))
            (rev (List.filter (waits_for (name_bytes nm)) (waiting_connections x))) l).
Proof.
  intros r s Hx Hq Hid Hreg Hnm Hc [_ Hpre]. destruct (receive_head x i q rest Hq) as (p & E & Ea & _).
  rewrite (turn_request x p (envelope own_sidx i q) bytes others E). specialize (Hpre _ _ E).
  assert (Hx1 : names_ok (set_schedule others x)) by (destruct Hx; by split).
  destruct (receive_in_hand (set_schedule others x) p (envelope own_sidx i q) bytes Hx1 E) as [Hx2 Hh].
  assert (Hb : Message_id (env_body (envelope own_sidx i q)) = 0).
  { rewrite <- Hid. cbn. unfold delivered. destruct (p_msg q); try done. by destruct (p_terminated q). }
  unfold request_pre, handle_request in *. cbn [req_env] in *. rewrite Hb in *. cbn [NameOpcode_from_usize] in *.
  destruct Hpre as (Hm & Hf & reg' & nm' & pid & Hreg' & Hnm' & Hlim & Hen). fold r in Hreg'. rewrite Hreg in Hreg'.
  injection Hreg' as <-. rewrite Hnm in Hnm'. injection Hnm' as <-.
  eapply returns_mono; [by apply (handle_register_ok _ reg nm pid) |]. intros x' [] (_ & _ & Hs). cbn [name_table set_port set_schedule] in Hs.
  rewrite Hc in Hs. destruct Hs as (p2 & la & El & Hla & []). cbn in *. split_and!.
  - destruct (sv_entry _ (lookup_insert_eq _ _ _)) as (c & ? & ? & ? & _). by exists c.
  - intros name Hne. rewrite sv_others by done. by apply lookup_insert_ne.
  - by rewrite sv_waiting, firstn_all, drop_all, app_nil_r.
  - destruct sv_answers as (l & -> & Hl). exists la, l. rewrite firstn_all in Hl. split_and!; [| done | done].
    by rewrite El, Ea, app_assoc.
Qed.

(** A turn that receives a lookup. *)
Lemma name_lookup_run i q m rest bytes others src nm x :
  let r := mk_Request (envelope own_sidx i q) bytes in
  names_ok x -> pending (port_queue (port x)) = (i, q) :: rest -> p_msg q = MutableBorrow m -> mm_id m = 1 ->
  to_string codec r = Some src -> XousServerName_from_str src = Some nm -> names_pre (N_turn bytes others) x ->
  returns (step (N_turn bytes others) x) (fun x' _ => lookup_outcome r src (name_bytes nm) (p_pid q) x x').
Proof.
  intros r Hx Hq Hm Hid Hsrc Hnm [_ Hpre]. destruct (receive_head x i q rest Hq) as (p & E & Ea & _).
  rewrite (turn_request x p (envelope own_sidx i q) bytes others E). specialize (Hpre _ _ E).
  assert (Hx1 : names_ok (set_schedule others x)) by (destruct Hx; by split).
  destruct (receive_in_hand (set_schedule others x) p (envelope own_sidx i q) bytes Hx1 E) as [Hx2 Hh].
  assert (Hb : Message_id (env_body (envelope own_sidx i q)) = 1) by (rewrite <- Hid; cbn; unfold delivered; by rewrite Hm).
  destruct (held_pid own_sidx Hsidx is_client _ _ (proj1 Hh)) as (pid & Hp & _ & Hw).
  assert (Hin : In (i, q) (pending (port_queue (port x)))) by (rewrite Hq; by left).
  destruct (po_slots _ _ (no_port _ _ _ Hx) i q Hin) as [Hi _]. pose proof (po_wf _ _ (no_port _ _ _ Hx) i q Hin) as Hwq.
  assert (Hpid : wf_pid (p_pid q) = true) by (unfold wf_pend in Hwq; by apply andb_prop in Hwq as [[? _]%andb_prop _]).
  assert (pid = p_pid q) as -> by (by injection (eq_trans (eq_sym Hp) (envelope_pid i q Hi Hpid))).
  unfold request_pre, handle_request in *. cbn [req_env] in *. rewrite Hb in *. cbn [NameOpcode_from_usize] in *.
  destruct Hpre as (Hmut & Hf & src' & nm' & Hsrc' & Hnm' & Hen). fold r in Hsrc'. rewrite Hsrc in Hsrc'.
  injection Hsrc' as <-. rewrite Hnm in Hnm'. injection Hnm' as <-.
  eapply returns_mono; [by apply (handle_lookup_run _ src nm (p_pid q)); eauto |]. intros x' [] (_ & l & El & Hl).
  exists l. split; [by rewrite El; cbn; rewrite Ea | exact Hl].
Qed.

(** ** The theorems *)

(** C9. The name server is safe.  From its start, under every sequence of messages,
    turns, actions of other processes and ends of processes that keep to the
    protocol, every step returns without a panic or an endless wait.  Every registered
    name has an identifier of its own, no entry has more connections than its limit,
    and the kernel owes a reply to each client that waits for a name. *)
Theorem names_safe e x :
  names_reachable x -> names_pre e x ->
  returns (step e x) (fun x' _ => names_ok x' /\ finished x' = finished x).
Proof. intros Hx Hpre. apply names_step_ok; [by apply names_reachable_ok | done]. Qed.


End NameServer.

(** ** An example

    A kernel that has only servers and connections. *)
Definition ToyKernel : Type := list SID * list (Z * SID).

#[export] Instance toy_broker : Broker ToyKernel := {|
  broker_connect pid s k :=
    if bool_decide (s ∈ fst k) then
      if (length (snd k) <? 32)%nat then ROk (fst k, snd k ++ [(pid, s)]) (Z.of_nat (length (snd k)) + 2)
      else RErr k OutOfMemory
    else RErr k ServerNotFound
|}.

#[export] Program Instance toy_laws : BrokerLaws ToyKernel := {|
  is_client pid := wf_pid pid = true;
  broker_ok k := (length (snd k) <= 32)%nat;
  has_server k s := s ∈ fst k;
  has_room k pid := (length (snd k) < 32)%nat;
  resolves k pid cid s := 2 <= cid /\ snd k !! Z.to_nat (cid - 2) = Some (pid, s)
|}.
Next Obligation.
  intros [l cs] pid s Hk Hp. unfold broker_connect, toy_broker. cbn [fst snd] in *.
  case_bool_decide as Hs; [| split_and!; try done; by left].
  destruct (Nat.ltb_spec (length cs) 32) as [Hl | Hl]; cbn [fst snd]; [| split_and!; try done; right; split; [done | lia]].
  split_and!.
  - rewrite length_app. cbn. lia.
  - done.
  - lia.
  - replace (Z.to_nat (Z.of_nat (length cs) + 2 - 2)) with (length cs) by lia. rewrite lookup_app_r, Nat.sub_diag by lia. done.
  - unfold in_width, modulus. lia.
  - intros pid' c s' _ [? Hc]. split; [done |]. by apply lookup_app_l_Some.
Qed.

Definition toy_iter (t : CheckedHashMap) : list (list Z * Connection) := map_to_list t.
Definition toy_ids (n : nat) : SID := mk_SID (Z.of_nat n) 0 0 0.

(** Records are the name that they hold; answers leave the memory as it is. *)
Definition toy_codec : Codec :=
  mk_Codec (fun r => Some (mk_Registration (req_bytes r) None)) (fun r => Some (req_bytes r))
    (fun r => Some (mk_Disconnect (req_bytes r) (mk_SID 1 0 0 0))) (fun _ r => Some (req_bytes r, 1)).

Lemma toy_ids_inj i j : toy_ids i = toy_ids j -> i = j.
Proof. intros [= H]. lia. Qed.

#[local] Abbreviation toy_step := (names_step 1 toy_iter toy_ids toy_codec).
#[local] Abbreviation toy_reachable := (names_reachable 1 toy_iter toy_ids toy_codec).

Definition toy_name : list Z := [97; 98].

(** A client asks for a name and waits; then a server registers the name. *)
Definition toy_events : list (NameEvent (K := ToyKernel)) :=
  [ N_client 0 2 1 (connect_message 8192 toy_name) (Some 12288);
    N_turn (connect_page toy_name) [];
    N_client 1 3 1 (MutableBorrow (mk_MemoryMessage 0 (mk_MemoryRange 16384 4096) None None)) (Some 12288) ].

Definition toy_run (n : nat) : NameServer ToyKernel :=
  foldl (fun x e => match toy_step e x with ROk x' _ => x' | _ => x end) (NameServer_init ([], [])) (take n toy_events).

(** The new server exists when the name server connects the client. *)
Definition toy_others : list (ToyKernel -> ToyKernel) := [fun k => (toy_ids 0 :: fst k, snd k)].

Lemma toy_reachable_1 : toy_reachable (toy_run 1).
Proof.
  eapply (names_reachable_step _ _ _ _ (N_client 0 2 1 (connect_message 8192 toy_name) (Some 12288)) (NameServer_init ([], []))).
  - apply names_reachable_init. cbn. lia.
  - cbn. unfold free_ticket, QUEUE_LEN. split_and!; try done; [lia | set_solver].
  - reflexivity.
Qed.

Lemma toy_pre_1 : names_pre 1 toy_ids toy_codec (N_turn (connect_page toy_name) []) (toy_run 1).
Proof.
  split; [done |]. intros env p [= <- <-]. unfold request_pre. cbn [Message_id req_env env_body].
  split_and!; [apply Nat.leb_le; by vm_compute | by vm_compute |].
  intros nm c pid _ Hc. cbn in Hc. by rewrite lookup_empty in Hc.
Qed.

Lemma toy_reachable_2 : toy_reachable (toy_run 2).
Proof.
  eapply (names_reachable_step _ _ _ _ (N_turn (connect_page toy_name) []) (toy_run 1)).
  - exact toy_reachable_1.
  - exact toy_pre_1.
  - by vm_compute.
Qed.

Lemma toy_reachable_3 : toy_reachable (toy_run 3).
Proof.
  eapply (names_reachable_step _ _ _ _
    (N_client 1 3 1 (MutableBorrow (mk_MemoryMessage 0 (mk_MemoryRange 16384 4096) None None)) (Some 12288)) (toy_run 2)).
  - exact toy_reachable_2.
  - vm_compute toy_run. cbn. unfold free_ticket, QUEUE_LEN. split_and!; try done; [lia | set_solver].
  - by vm_compute.
Qed.

Lemma toy_pre_3 : names_pre 1 toy_ids toy_codec (N_turn toy_name toy_others) (toy_run 3).
Proof.
  split; [by vm_compute |]. intros env p E. assert (Hb : Message_id (env_body env) = 0 /\ is_mutable (mk_Request env toy_name)).
  { vm_compute in E. injection E as <- <-. split; [done | by eexists]. }
  destruct Hb as [Hb Hm]. unfold request_pre. cbn [req_env]. rewrite Hb. cbn [NameOpcode_from_usize]. split; [done |].
  split; [intros response; by repeat eexists |]. eexists _, _, 2. split; [done |]. split; [by vm_compute |].
  split; [done |]. intros _. split; [done |]. vm_compute waiters_of. exists false. split; [split; try done |].
  - apply Nat.leb_le. by vm_compute.
  - apply enough_made; [| constructor]. intros k [Hk _ _]. split; [done | done |]. intros _. vm_compute. left.
Qed.

Lemma names_safe_witness :
  returns (toy_step (N_turn toy_name toy_others) (toy_run 3)) (fun x' _ => names_ok 1 toy_ids x' /\ finished x' = finished (toy_run 3)).
Proof.
  apply (names_safe 1); [lia | reflexivity | exact toy_ids_inj | exact toy_reachable_3 | exact toy_pre_3].
Defined.


Definition toy_register : pend :=
  pend_of 3 1 (MutableBorrow (mk_MemoryMessage 0 (mk_MemoryRange 16384 4096) None None)) (Some 12288).

