(* ===== verification/NamesClient.v ===== *)
(** * The name server and its clients

    The page that a client lends for a connection and what it reads there afterwards,
    and the requests that stop the server. *)

From Stdlib Require Import ZArith Lia Bool.
From stdpp Require Import base numbers list option gmap.
From S2P Require Import Prelude.
From S2P Require Import Abi.
From S2P Require Import Server.
From S2P Require Import ServerSpec.
From S2P Require Import ImageWriter.
From S2P Require Import ImageFacts.
From S2P Require Import BootArgs.
From S2P Require Import BootArgsFacts.
From S2P Require Import Port.
From S2P Require Import Names.
From S2P Require Import NamesFacts.
From S2P Require Import NamesSafe.

#[local] Open Scope Z_scope.
#[local] Open Scope kernel_scope.

(** ** The page of a request *)

(** The request as the server has it. *)
Definition connect_request (s : MessageSender) (addr : Z) (name : list Z) : Request :=
  mk_Request (mk_MessageEnvelope s (connect_message addr name)) (connect_page name).

Lemma connect_page_name name : (length name <= NAME_LEN)%nat -> take (length name) (connect_page name) = name.
Proof. intros Hl. unfold connect_page. rewrite (take_ge name NAME_LEN) by lia. apply take_app_length. Qed.

Lemma connect_page_length name : length (connect_page name) = 4096%nat.
Proof.
  unfold connect_page. rewrite !length_app, length_take, !length_replicate, le4_length. unfold NAME_LEN. lia.
Qed.

Lemma NonZero_new_pos v : 0 < v -> NonZero_new v = Some v.
Proof. intros H. unfold NonZero_new. by destruct (Z.eqb_spec v 0); [lia |]. Qed.

Lemma name_from_connect s addr name :
  name <> [] -> (length name <= NAME_LEN)%nat -> from_utf8 name = true ->
  name_from_msg (connect_request s addr name) = inr <$> XousServerName_from_str name.
Proof.
  intros Hne Hl Hu. assert (0 < length name)%nat by (destruct name; [done | cbn; lia]).
  unfold name_from_msg, connect_request, connect_message. cbn [req_env env_body Message_memory_message mm_valid mm_buf range_size req_bytes].
  rewrite Nat.min_r, NonZero_new_pos by lia. destruct (Z.ltb_spec 4096 (Z.of_nat (length name))); [unfold NAME_LEN in *; lia |].
  by rewrite Nat2Z.id, connect_page_name, Hu.
Qed.

(** The words of a response, as the client reads them. *)
Lemma read_words w0 w1 ws bytes bytes' :
  in_width 32 w0 -> in_width 32 w1 -> (4 * length (w0 :: w1 :: ws) <= length bytes)%nat ->
  store_words (w0 :: w1 :: ws) bytes = Some bytes' -> chunks_exact4 (take 8 bytes') = [w0; w1].
Proof.
  intros H0 H1 Hl E. destruct (store_words_Some _ _ Hl) as (b & Eb & _ & Ht). rewrite E in Eb. injection Eb as <-.
  assert (take 8 bytes' = le4 w0 ++ le4 w1) as ->.
  { apply (f_equal (take 8)) in Ht. rewrite take_take, Nat.min_l in Ht by (cbn; lia). rewrite Ht. reflexivity. }
  change (words_of_bytes (le4 w0 ++ le4 w1) = [w0; w1]). rewrite words_of_le4 by done.
  rewrite <- (app_nil_r (le4 w1)), words_of_le4 by done. reflexivity.
Qed.

Lemma response_success cid tok page bytes :
  in_width 32 cid -> (24 <= length page)%nat -> store_words (success_words cid tok) page = Some bytes -> connect_response bytes = Ok cid.
Proof.
  intros Hc Hl Hs. unfold connect_response, success_words in *.
  eapply read_words in Hs; [by rewrite Hs | done | done |]. destruct tok; cbn; lia.
Qed.

Lemma response_error e page bytes :
  (24 <= length page)%nat -> store_words [1; ConnectError_to_u32 e] page = Some bytes -> connect_response bytes = Err InternalError.
Proof.
  intros Hl Hs. unfold connect_response.
  eapply read_words in Hs; [by rewrite Hs | done | by destruct e |]. cbn. lia.
Qed.

Lemma connect_page_room name : (24 <= length (connect_page name))%nat.
Proof. rewrite connect_page_length. lia. Qed.

(** A client and the server understand each other.  When the client asks for a
    name of 1 to 63 bytes of text, the server reads this name from its page; when the
    server answers with a connection, the client gets its number, and when it answers
    with an error, the client gets an error. *)
Lemma connect_roundtrip s addr name :
  name <> [] -> (length name < NAME_LEN)%nat -> from_utf8 name = true ->
  (exists n, name_from_msg (connect_request s addr name) = Some (inr n) /\ name_bytes n = name)
  /\ (forall cid tok bytes, in_width 32 cid -> store_words (success_words cid tok) (connect_page name) = Some bytes ->
        connect_response bytes = Ok cid)
  /\ (forall e bytes, store_words [1; ConnectError_to_u32 e] (connect_page name) = Some bytes ->
        connect_response bytes = Err InternalError).
Proof.
  intros Hne Hl Hu. split_and!.
  - destruct (from_str_short name Hl Hu) as (n & En & Hn). exists n. rewrite name_from_connect, En by (done || lia). done.
  - intros cid tok bytes Hc. by apply response_success, connect_page_room.
  - intros e bytes. by apply response_error, connect_page_room.
Qed.

(** ** What the client gets *)

Section Client.
Context {K : Type} {HB : Broker K} {HL : BrokerLaws K}.
Context (own_sidx : Z) (Hsidx : 0 <= own_sidx < 256).
Context (iter : CheckedHashMap -> list (list Z * Connection)) (Hiter : forall t, iter t ≡ₚ map_to_list t).
Context (ids : nat -> SID) (Hids : forall i j, ids i = ids j -> i = j) (codec : Codec).

Implicit Type x : NameServer K.

(** An answer that the client takes for a connection comes from the registered entry. *)
Lemma outcome_connection s addr name pid x x' a cid :
  name <> [] -> (length name < NAME_LEN)%nat -> from_utf8 name = true ->
  connect_outcome (connect_request s addr name) pid x x' ->
  port_answers (port x') = port_answers (port x) ++ [a] -> connect_response (pa_bytes a) = Ok cid ->
  pa_pid a = pid /\ exists c, name_table x !! name = Some c /\ resolves (kernel x') pid cid (sid c).
Proof.
  intros Hne Hl Hu Ho Ha Hr. destruct (from_str_short name Hl Hu) as (n & En & Hn).
  unfold connect_outcome, connect_result in Ho. rewrite name_from_connect, En in Ho by (done || lia). cbn [fmap option_fmap option_map] in Ho.
  rewrite Hn in Ho. cbn [req_env env_body connect_request connect_message Message_id mm_id] in Ho.
  change (BlockingConnect_id =? TryConnect_id) with false in Ho. cbv iota zeta in Ho.
  assert (Hlast : forall ws y, port y = port x -> answers_words ws (connect_request s addr name) pid y x' ->
    pa_pid a = pid /\ store_words ws (connect_page name) = Some (pa_bytes a) /\ kernel x' = kernel y).
  { intros ws y Ey (tid & b & (bytes & Hs & ->) & ->). cbn in Ha. rewrite Ey in Ha. apply app_inv_head in Ha as [= <-]. done. }
  assert (Hwait : x' <> set_waiting (waiting_connections x ++ [connect_request s addr name]) x).
  { intros ->. cbn in Ha. apply (f_equal length) in Ha. rewrite length_app in Ha. cbn in Ha. lia. }
  destruct (name_table x !! name) as [c |]; [| done]. destruct (is_full c); [done |].
  destruct Ho as (k' & l' & _ & [(cid' & Hres & Hw & Hans) | (t' & _ & Hans)]); (apply Hlast in Hans as (Hpid & Hs & Ek); [| done]).
  - apply response_success in Hs; [| done | apply connect_page_room]. rewrite Hr in Hs. injection Hs as <-. split; [done |]. exists c. by rewrite Ek.
  - apply response_error in Hs; [congruence | apply connect_page_room].
Qed.

(** So the client is connected to the server that the name is registered for. *)
Lemma connection_resolves i q rest addr name others x :
  names_ok own_sidx ids x -> pending (port_queue (port x)) = (i, q) :: rest -> p_msg q = connect_message addr name ->
  name <> [] -> (length name < NAME_LEN)%nat -> from_utf8 name = true ->
  names_pre own_sidx ids codec (N_turn (connect_page name) others) x ->
  returns (names_step own_sidx iter ids codec (N_turn (connect_page name) others) x) (fun x' _ =>
    forall a cid, port_answers (port x') = port_answers (port x) ++ [a] -> connect_response (pa_bytes a) = Ok cid ->
      pa_pid a = p_pid q /\ exists c, name_table x !! name = Some c /\ resolves (kernel x') (p_pid q) cid (sid c)).
Proof.
  intros Hx Hq Hm Hne Hl Hu Hpre.
  eapply returns_mono; [eapply (connect_request_run own_sidx Hsidx iter Hiter ids codec i q _ rest);
                         [done | done | exact Hm | by left | done] |].
  intros x' [] (p & E & Ho) a cid Ha Hr. destruct (receive_head own_sidx x i q rest Hq) as (p' & E' & Ea & _).
  rewrite E in E'. injection E' as <-.
  assert (Ee : envelope own_sidx i q = mk_MessageEnvelope (env_sender (envelope own_sidx i q)) (connect_message addr name))
    by (unfold envelope, delivered; by rewrite Hm).
  rewrite Ee in Ho. eapply (outcome_connection _ addr name _ (set_port p (set_schedule others x))); try done.
  cbn. by rewrite Ea.
Qed.
(** A client that waited: a connection that it reads from the answer is the one that
    the name server was given by the kernel. *)
Lemma waiter_connection (P : Z -> Z -> Prop) tok r a cid :
  (24 <= length (req_bytes r))%nat -> waiter_answer P tok r a -> connect_response (pa_bytes a) = Ok cid -> P (pa_pid a) cid.
Proof.
  intros Hl (pid & tid & _ & [(bytes & Hs & ->) | (cid' & Hc & HP & bytes & Hs & ->)]) Hr; cbn in *.
  - apply (response_error KernelConnectFailure) in Hs; [congruence | done].
  - apply response_success in Hs; [| done | done]. rewrite Hr in Hs. by injection Hs as ->.
Qed.
End Client.

(** ** Requests that stop the server *)

Section Stops.
Context {K : Type} {HB : Broker K}.
Context (own_sidx : Z) (iter : CheckedHashMap -> list (list Z * Connection)) (ids : nat -> SID) (codec : Codec).

Implicit Type x : NameServer K.

#[local] Abbreviation step := (names_step own_sidx iter ids codec).

(** A turn that receives a request for a connection. *)
Lemma turn_connect x i q rest addr name bytes others :
  pending (port_queue (port x)) = (i, q) :: rest -> p_msg q = connect_message addr name ->
  exists p, let s := env_sender (envelope own_sidx i q) in
    step (N_turn bytes others) x
    = handle_connect own_sidx iter (mk_Request (mk_MessageEnvelope s (connect_message addr name)) bytes)
        (set_port p (set_schedule others x)).
Proof.
  intros Hq Hm. destruct (receive_head own_sidx x i q rest Hq) as (p & E & _).
  assert (Ee : envelope own_sidx i q = mk_MessageEnvelope (env_sender (envelope own_sidx i q)) (connect_message addr name))
    by (unfold envelope, delivered; by rewrite Hm).
  exists p. rewrite (turn_request own_sidx iter ids codec x p _ bytes others E), Ee.
  reflexivity.
Qed.

(** C37. A name that the library accepts can stop the name server.  The library sends the
    empty name with no length, and the server takes the whole page for the name; a
    name of 64 bytes or more is cut to 64, one byte more than the server takes.  For
    the empty name, and for a name whose first 64 bytes are text (which a cut inside a
    character is not), the server panics, whatever its state. *)
Theorem bad_name_panics x i q rest addr name others :
  pending (port_queue (port x)) = (i, q) :: rest -> p_msg q = connect_message addr name ->
  name = [] \/ (NAME_LEN <= length name)%nat /\ from_utf8 (take NAME_LEN name) = true ->
  step (N_turn (connect_page name) others) x = RPanic.
Proof.
  intros Hq Hm Hname. destruct (turn_connect x i q rest addr name (connect_page name) others Hq Hm) as (p & ->).
  set (s := env_sender (envelope own_sidx i q)).
  assert (Hn : name_from_msg (connect_request s addr name) = None).
  { destruct Hname as [-> | [Hl Hu]]; [by vm_compute |].
    unfold name_from_msg, connect_request, connect_message.
    cbn [req_env env_body Message_memory_message mm_valid mm_buf range_size req_bytes].
    rewrite Nat.min_l, NonZero_new_pos by (unfold NAME_LEN in *; lia).
    destruct (Z.ltb_spec 4096 (Z.of_nat NAME_LEN)) as [Hlt |]; [unfold NAME_LEN in Hlt; lia |].
    assert (Et : take (Z.to_nat (Z.of_nat NAME_LEN)) (connect_page name) = take NAME_LEN name).
    { rewrite Nat2Z.id. unfold connect_page. rewrite take_app_le, take_take, Nat.min_id; [done |]. rewrite length_take. lia. }
    rewrite Et, Hu, from_str_long; [done | rewrite length_take; lia | by rewrite take_take, Nat.min_id]. }
  unfold handle_connect. cbn [req_env env_body connect_message Message_is_blocking Message_has_memory negb].
  change (MutableBorrow _) with (connect_message addr name). fold (connect_request s addr name).
  unfold blocking_connect, bind. by rewrite Hn.
Qed.

Lemma bind_unwrap {A B} (a : A) (k : A -> NameServer K -> outcome Error (NameServer K) B) x :
  bind (unwrap (Some a)) k x = k a x.
Proof. reflexivity. Qed.

(** The kernel has no server [s], and none of the others makes it. *)
Lemma connect_attempts_stuck (P : K -> Prop) pid s others x :
  (forall k, P k -> exists k', broker_connect pid s k = RErr k' ServerNotFound /\ P k') ->
  Forall (fun f => forall k, P k -> P (f k)) others -> P (kernel x) ->
  connect_attempts others pid s x = RStuck.
Proof.
  intros HP Hf. revert x. induction Hf as [| f others Hf _ IH]; intros x Hx; [done |].
  destruct (HP _ (Hf _ Hx)) as (k' & E & Hk'). cbn [connect_attempts].
  rewrite (bind_ROk _ _ _ (set_schedule others x) tt) by reflexivity.
  rewrite (bind_ROk _ _ _ (set_kernel (f (kernel x)) (set_schedule others x)) tt) by reflexivity.
  rewrite (bind_ROk _ _ _ (set_kernel k' (set_schedule others x)) (inl ServerNotFound)); [by apply IH |].
  rewrite connect_once. cbn [kernel set_kernel]. by rewrite E.
Qed.

(** C38. The name server waits for a server that does not exist.  When a name is
    registered and its entry is not full, but no server with its identifier has been
    made, a request for the name never returns, however often the name server is given
    the processor: no other client is served until that server exists. *)
Theorem missing_server_blocks (P : K -> Prop) x i q rest addr name c others :
  pending (port_queue (port x)) = (i, q) :: rest -> p_msg q = connect_message addr name ->
  (i < QUEUE_LEN)%nat -> wf_pid (p_pid q) = true -> 0 <= own_sidx < 256 ->
  name <> [] -> (length name < NAME_LEN)%nat -> from_utf8 name = true ->
  name_table x !! name = Some c -> entry_ok c -> is_full c = false ->
  (forall k, P k -> exists k', broker_connect (p_pid q) (sid c) k = RErr k' ServerNotFound /\ P k') ->
  Forall (fun f => forall k, P k -> P (f k)) others -> P (kernel x) ->
  step (N_turn (connect_page name) others) x = RStuck.
Proof.
  intros Hq Hm Hi Hw Hs Hne Hl Hu Hc Hent Hfull HP Hf Hx.
  destruct (turn_connect x i q rest addr name (connect_page name) others Hq Hm) as (p & ->).
  unfold handle_connect. cbn [req_env env_body connect_message Message_is_blocking Message_has_memory negb].
  change (MutableBorrow _) with (connect_message addr name). fold (connect_request (env_sender (envelope own_sidx i q)) addr name).
  assert (Hb : blocking_connect iter (connect_request (env_sender (envelope own_sidx i q)) addr name)
                 (set_port p (set_schedule others x)) = RStuck); [| unfold bind at 1; by rewrite Hb].
  destruct (from_str_short name Hl Hu) as (n & En & Hn). unfold blocking_connect.
  rewrite name_from_connect, En by (done || lia). cbn [fmap option_fmap option_map]. rewrite bind_unwrap.
  cbn [req_env env_sender connect_request]. rewrite (envelope_pid own_sidx Hs i q Hi Hw), bind_unwrap.
  unfold CheckedHashMap_connect. rewrite Hn.
  assert (Et : table_connect name (name_table x) = (<[name := one_more c]> (name_table x), (Some (sid c), token c))).
  { rewrite table_connect_run; rewrite Hc; [by rewrite Hfull | by intros c' [= <-]]. }
  rewrite (bind_ROk _ _ _ (set_table (<[name := one_more c]> (name_table x)) (set_port p (set_schedule others x)))
             (Some (sid c), token c)).
  - unfold bind at 1. unfold connect_for_process, bind at 1, gets. cbn [schedule set_table set_port set_schedule].
    by rewrite (connect_attempts_stuck P).
  - unfold bind, gets, modify, ret. cbn [name_table set_port set_schedule]. by rewrite Et.
Qed.
End Stops.

Definition long_name : list Z := replicate 64 97.

(** A client of the library asks for a name of 64 letters. *)
Definition asks_for (name : list Z) (t : CheckedHashMap) : NameServer ToyKernel :=
  mk_NameServer t [] 2 (port_send 0 2 1 (connect_message 8192 name) (Some 12288) empty_port) ([], []) [] false.

Lemma bad_name_panics_witness :
  names_step 1 toy_iter toy_ids toy_codec (N_turn (connect_page long_name) []) (asks_for long_name ∅) = RPanic.
Proof.
  eapply (bad_name_panics 1 toy_iter toy_ids toy_codec (asks_for long_name ∅)); [reflexivity | reflexivity |].
  right. split; [by apply Nat.leb_le | reflexivity].
Defined.

Definition toy_entry : Connection := mk_Connection (mk_SID 5 0 0 0) 0 None false 0 (Some (mk_SID 6 0 0 0)).

Lemma missing_server_blocks_witness :
  names_step 1 toy_iter toy_ids toy_codec (N_turn (connect_page toy_name) (replicate 10 id)) (asks_for toy_name {[toy_name := toy_entry]})
  = RStuck.
Proof.
  eapply (missing_server_blocks 1 toy_iter toy_ids toy_codec (fun k => k = ([], [])) (asks_for toy_name {[toy_name := toy_entry]}));
    try reflexivity; try done.
  - unfold QUEUE_LEN. lia.
  - unfold NAME_LEN. cbn. lia.
  - intros k ->. by eexists.
  - apply Forall_replicate. done.
Defined.

(** ** Limits and requests that wait *)

(** A server that accepts one connection. *)
Definition limited_codec : Codec :=
  mk_Codec (fun r => Some (mk_Registration (req_bytes r) (Some 1))) (fun r => Some (req_bytes r))
    (fun r => Some (mk_Disconnect (req_bytes r) (mk_SID 1 0 0 0))) (fun _ r => Some (req_bytes r, 1)).

(** Two clients wait for the name, and then the server registers. *)
Definition limited_events : list (NameEvent (K := ToyKernel)) :=
  [ N_client 0 2 1 (connect_message 8192 toy_name) (Some 12288);
    N_turn (connect_page toy_name) [];
    N_client 1 4 1 (connect_message 16384 toy_name) (Some 12288);
    N_turn (connect_page toy_name) [];
    N_client 2 3 1 (MutableBorrow (mk_MemoryMessage 0 (mk_MemoryRange 20480 4096) None None)) (Some 12288) ].

Definition limited_run : NameServer ToyKernel :=
  foldl (fun x e => match names_step 1 toy_iter toy_ids limited_codec e x with ROk x' _ => x' | _ => x end)
    (NameServer_init ([], [])) limited_events.

(** A limit below the number of clients that wait stops the name server: two
    clients wait for a name, the server that registers it accepts one connection, and
    although the kernel would connect both, the name server panics on the second. *)
Lemma limited_register_panics :
  length (waiting_connections limited_run) = 2%nat
  /\ names_step 1 toy_iter toy_ids limited_codec (N_turn toy_name (toy_others ++ [id])) limited_run = RPanic.
Proof. split; by vm_compute. Qed.
