(* ===== verification/NamesKernel.v ===== *)
(** * The kernel keeps its promise to the name server

    The system call that connects another process to a server satisfies the laws of
    [BrokerLaws]: the connection of the client leads to the server, no other
    connection changes, and the address space of the name server is active again. *)

From Stdlib Require Import ZArith Lia Bool.
From stdpp Require Import base numbers list option gmap.
From S2P Require Import Prelude.
From S2P Require Import Abi.
From S2P Require Import Server.
From S2P Require Import ServerSpec.
From S2P Require Import Machine.
From S2P Require Import Memory.
From S2P Require Import ArchProcess.
From S2P Require Import Scheduler.
From S2P Require Import SchedulerFacts.
From S2P Require Import Services.
From S2P Require Import ServicesFacts.
From S2P Require Import Port.
From S2P Require Import Names.
From S2P Require Import NamesFacts.
From S2P Require Import NamesSafe.
From S2P Require Import NamesClient.

#[local] Open Scope Z_scope.
#[local] Open Scope kernel_scope.

Section Kernel.
Context {M : Type} {HM : MemOps M}.

Implicit Type k : Kernel M.

(** ** A well-formed kernel *)

(** The process [pid] exists. *)
Definition found k (pid : Z) (p : Process) : Prop :=
  processes k !! pid_index pid = Some p /\ MemoryMapping_get_pid (mapping p) = Some pid /\ Process_free p = false.

(** The page of a process is in its address space, and its connections are within
    the table of servers. *)
Record client_page k (pid : Z) (p : Process) (impl : ProcessImpl) : Prop := {
  cp_found : found k pid p;
  cp_pid : proc_pid p = pid;
  cp_asid : satp_asid (mapping p) = pid;
  cp_table : pt_table (machine k) !! Z.to_nat (pid - 1) = Some true;
  cp_impl : impls (machine k) !! pid = Some impl;
  cp_inner : inner_pid (inner impl) = pid;
  cp_map : map_ok (length (servers k)) (connection_map (inner impl));
  cp_length : (length (connection_map (inner impl)) <= 32)%nat
}.

Record broker_kernel k : Prop := {
  bk_processes : length (processes k) = MAX_PROCESS_COUNT;
  bk_servers : (length (servers k) <= 253)%nat;
  bk_pages pid p : found k pid p -> exists impl, client_page k pid p impl;
  bk_current : exists p, found k (pt_current (machine k)) p /\ satp (machine k) = mapping p
}.

Definition process_pid (pid : Z) : Prop := 1 <= pid <= Z.of_nat MAX_PROCESS_COUNT.

(** ** Connecting another process *)

Lemma get_process_run pid k :
  broker_kernel k -> process_pid pid ->
  (exists p, get_process pid k = ROk k p /\ found k pid p)
  \/ get_process pid k = RErr k ProcessNotFound /\ forall p, ~ found k pid p.
Proof.
  intros Hk Hp. destruct (lookup_lt_is_Some_2 (processes k) (pid_index pid)) as [p E].
  { rewrite (bk_processes _ Hk). unfold process_pid, pid_index in *. lia. }
  unfold get_process, bind, gets, unwrap. rewrite E. destruct (decide _) as [Hm | Hm]; [destruct (Process_free p) eqn:Hf |].
  - right. split; [done |]. intros p' (E' & _ & Hf'). congruence.
  - left. by exists p.
  - right. split; [done |]. intros p' (E' & Hm' & _). congruence.
Qed.

Lemma get_process_found pid p k : found k pid p -> get_process pid k = ROk k p.
Proof. intros (E & Hm & Hf). unfold get_process, bind, gets, unwrap. by rewrite E, decide_True, Hf. Qed.

(** The kernel in the address space of the process. *)
Definition in_space k (pid : Z) (p : Process) : Kernel M :=
  set_machine (set_satp (mapping p) (set_pt_current pid (machine k))) k.

Lemma broker_activate_run k k' pid p impl :
  client_page k pid p impl -> pt_table (machine k') = pt_table (machine k) ->
  Process_activate p k' = ROk (in_space k' pid p) tt.
Proof.
  intros [] E. unfold Process_activate, bind, arch, zoom, set_current_pid. rewrite cp_pid0, E, cp_table0.
  unfold MemoryMapping_activate, modify, Process_current, hardware_pid, ret. cbn. rewrite cp_asid0, Z.eqb_refl. done.
Qed.

Lemma in_space_page k pid p impl : client_page k pid p impl -> active_page (in_space k pid p) impl.
Proof. intros []. split; cbn; [by unfold hardware_pid; cbn; rewrite cp_asid0 | done | done]. Qed.

(** The connection [c] of a process is set. *)
Definition conn_made k (pid : Z) (impl : ProcessImpl) (c : nat) (v : option Z) : Kernel M :=
  set_machine (set_impls (<[pid := set_inner (set_connection_map (<[c := v]> (connection_map (inner impl))) (inner impl)) impl]>
    (impls (machine k))) (machine k)) k.

(** Back in the address space of the caller. *)
Lemma back_run k k2 : 
  broker_kernel k -> processes k2 = processes k -> pt_table (machine k2) = pt_table (machine k) ->
  exists p, get_process (pt_current (machine k)) k2 = ROk k2 p
    /\ Process_activate p k2 = ROk (in_space k2 (pt_current (machine k)) p) tt /\ mapping p = satp (machine k).
Proof.
  intros Hk Ep Et. destruct (bk_current _ Hk) as (p & Hf & Es). destruct (bk_pages _ Hk _ _ Hf) as [impl Hc].
  exists p. split_and!; [| by eapply broker_activate_run | done]. apply get_process_found. destruct Hf as (? & ? & ?).
  split_and!; [by rewrite Ep | done | done].
Qed.

Lemma connect_process_run pid s k :
  broker_kernel k -> process_pid pid ->
  (exists p impl, client_page k pid p impl
     /\ let cm := connection_map (inner impl) in
        (exists c, connect_process_to_server pid s k = ROk k (Z.of_nat c + 2) /\ connects (servers k) cm c s)
        \/ (exists c i, connect_process_to_server pid s k = ROk (conn_made k pid impl c (Some (Z.of_nat i + 2))) (Z.of_nat c + 2)
              /\ cm !! c = Some None /\ serves (servers k) i s)
        \/ connect_process_to_server pid s k = RErr k OutOfMemory /\ (forall c, cm !! c <> Some None)
        \/ connect_process_to_server pid s k = RErr k ServerNotFound /\ forall i, ~ serves (servers k) i s)
  \/ connect_process_to_server pid s k = RErr k ProcessNotFound /\ forall p, ~ found k pid p.
Proof.
  intros Hk Hp. destruct (get_process_run pid k Hk Hp) as [(p & Eg & Hf) | [Eg Hno]].
  2: { right. split; [| done]. unfold connect_process_to_server, bind, arch, zoom, current_pid, gets.
       rewrite set_machine_same. by rewrite Eg. }
  left. destruct (bk_pages _ Hk _ _ Hf) as [impl Hc]. exists p, impl. split; [done |]. intros cm.
  assert (Hrun : connect_process_to_server pid s k
    = match attempt (connect_to_server s) (in_space k pid p) with
      | ROk k2 r =>
          match (process <- get_process (pt_current (machine k));; Process_activate process) k2 with
          | ROk k3 _ => match r with inl e => RErr k3 e | inr cid => ROk k3 cid end
          | RErr k3 e => RErr k3 e | RPanic => RPanic | RStuck => RStuck
          end
      | RErr k2 e => RErr k2 e | RPanic => RPanic | RStuck => RStuck
      end).
  { unfold connect_process_to_server. rewrite (bind_ROk _ _ _ k (pt_current (machine k)))
      by (unfold arch, zoom, current_pid, gets; by rewrite set_machine_same).
    rewrite (bind_ROk _ _ _ k p Eg). rewrite (bind_ROk _ _ _ (in_space k pid p) tt) by (by eapply broker_activate_run).
    unfold bind at 1. destruct (attempt _ _) as [k2 r | | |]; [| done..]. unfold bind.
    destruct (get_process _ k2) as [k3 q | | |]; [| done..]. destruct (Process_activate q k3) as [k4 [] | | |]; [| done..].
    by destruct r. }
  assert (Hback : forall r, (process <- get_process (pt_current (machine k));; Process_activate process) (in_space k pid p) = ROk k tt
     /\ forall c v, (process <- get_process (pt_current (machine k));; Process_activate process)
          (set_connection (in_space k pid p) impl c v) = ROk (conn_made k pid impl c v) (r : unit)).
  { intros []. split.
    - destruct (back_run k (in_space k pid p) Hk eq_refl eq_refl) as (q & E1 & E2 & Es). rewrite (bind_ROk _ _ _ _ _ E1), E2.
      unfold in_space. rewrite Es. destruct k as [[]]. done.
    - intros c v. destruct (back_run k (set_connection (in_space k pid p) impl c v) Hk eq_refl eq_refl) as (q & E1 & E2 & Es).
      rewrite (bind_ROk _ _ _ _ _ E1), E2. unfold in_space, set_connection, conn_made, hardware_pid. rewrite Es. cbn.
      rewrite (cp_asid _ _ _ _ Hc). destruct k as [[]]. done. }
  destruct (Hback tt) as [Hb1 Hb2]. rewrite Hrun. unfold attempt.
  destruct (connect_cases s (in_space k pid p) impl (in_space_page _ _ _ _ Hc) (bk_servers _ Hk))
    as [(c & -> & Hcon) | [_ [(c & i & -> & Hcm & Hs) | [[-> Hfull] | [-> Hs]]]]].
  - left. exists c. by rewrite Hb1.
  - right. left. exists c, i. by rewrite Hb2.
  - right. right. left. by rewrite Hb1.
  - right. right. right. by rewrite Hb1.
Qed.

(** ** The laws *)

#[export] Instance kernel_broker : Broker (Kernel M) := {| broker_connect := connect_process_to_server |}.

(** The connection [cid] of the process leads to a server [s]. *)
Definition kernel_resolves k (pid cid : Z) (s : SID) : Prop :=
  2 <= cid /\ exists p impl, client_page k pid p impl
    /\ connects (servers k) (connection_map (inner impl)) (Z.to_nat (cid - 2)) s.

Definition kernel_room k (pid : Z) : Prop :=
  exists p impl c, client_page k pid p impl /\ connection_map (inner impl) !! c = Some None.

Lemma client_page_fun k pid p impl p' impl' : client_page k pid p impl -> client_page k pid p' impl' -> p' = p /\ impl' = impl.
Proof. intros [(H1 & _)] [(H2 & _)]. split; congruence. Qed.

(** The page of every process after a connection of [pid] was set. *)
Lemma conn_made_page k pid p impl c v pid' p' impl' :
  client_page k pid p impl -> client_page k pid' p' impl' ->
  (forall x, v = Some x -> 1 <= x < Z.of_nat (length (servers k)) + 2) ->
  client_page (conn_made k pid impl c v) pid' p'
    (if decide (pid' = pid) then set_inner (set_connection_map (<[c := v]> (connection_map (inner impl))) (inner impl)) impl else impl').
Proof.
  intros H H' Hv. destruct (decide (pid' = pid)) as [-> | Hne].
  - destruct (client_page_fun _ _ _ _ _ _ H H') as [-> ->]. destruct H. split; try done; cbn.
    + by rewrite lookup_insert_eq.
    + intros j x Hj. apply list_lookup_insert_Some in Hj as [(_ & -> & _) | [_ Hj]]; eauto.
    + by rewrite length_insert.
  - destruct H'. split; try done. cbn. by rewrite lookup_insert_ne.
Qed.

Lemma conn_made_ok k pid p impl c v :
  broker_kernel k -> client_page k pid p impl ->
  (forall x, v = Some x -> 1 <= x < Z.of_nat (length (servers k)) + 2) -> broker_kernel (conn_made k pid impl c v).
Proof.
  intros [] H Hv. split; try done. intros pid' p' Hf. destruct (bk_pages0 pid' p' Hf) as [impl' H'].
  eexists. by eapply conn_made_page.
Qed.

(** A new connection leads to its server, and the others are as they were. *)
Lemma conn_made_resolves k pid p impl c i s :
  client_page k pid p impl -> connection_map (inner impl) !! c = Some None -> serves (servers k) i s ->
  let k' := conn_made k pid impl c (Some (Z.of_nat i + 2)) in
  kernel_resolves k' pid (Z.of_nat c + 2) s
  /\ forall pid' c' s', (pid', c') <> (pid, Z.of_nat c + 2) -> kernel_resolves k pid' c' s' -> kernel_resolves k' pid' c' s'.
Proof.
  intros H Hc Hs k'. pose proof Hs as (sv & Hi & _). pose proof (lookup_lt_Some _ _ _ Hi) as Hlt.
  assert (Hv : forall x, Some (Z.of_nat i + 2) = Some x -> 1 <= x < Z.of_nat (length (servers k)) + 2) by (intros x [= <-]; lia).
  split.
  - split; [lia |]. exists p. eexists. split; [by eapply (conn_made_page k pid p impl c _ pid) |]. rewrite decide_True by done.
    cbn. replace (Z.to_nat (Z.of_nat c + 2 - 2)) with c by lia. exists (Z.of_nat i + 2).
    split_and!; [| lia | by replace (Z.to_nat (Z.of_nat i + 2 - 2)) with i by lia].
    apply list_lookup_insert_eq. by eapply lookup_lt_Some.
  - intros pid' c' s' Hne (Hc' & p' & impl' & H' & Hcon). split; [done |]. exists p'. eexists.
    split; [by eapply (conn_made_page k pid p impl c _ pid') |]. destruct (decide (pid' = pid)) as [-> |]; [| done].
    destruct (client_page_fun _ _ _ _ _ _ H H') as [-> ->]. destruct Hcon as (v & Hcv & ? & ?). exists v. cbn.
    split_and!; [| done | done]. rewrite list_lookup_insert_ne; [done |]. intros E. apply Hne. f_equal. lia.
Qed.

#[export] Program Instance kernel_broker_laws : BrokerLaws (Kernel M) := {|
  is_client := process_pid;
  broker_ok := broker_kernel;
  has_server k s := exists i, serves (servers k) i s;
  has_room := kernel_room;
  resolves := kernel_resolves
|}.
Next Obligation.
  intros k pid s Hk Hp. cbn [broker_connect kernel_broker].
  destruct (connect_process_run pid s k Hk Hp) as [(p & impl & Hpage & Hcase) | [-> Hno]].
  2: { split_and!; try done. right. split; [done |]. intros (p & impl & c & Hpg & _). exact (Hno p (cp_found _ _ _ _ Hpg)). }
  assert (Hw : forall c e, connection_map (inner impl) !! c = Some e -> in_width 32 (Z.of_nat c + 2)).
  { intros c e He%lookup_lt_Some. pose proof (cp_length _ _ _ _ Hpage). unfold in_width, modulus. lia. }
  destruct Hcase as [(c & -> & Hcon) | [(c & i & -> & Hcm & Hs) | [[-> Hfull] | [-> Hs]]]].
  - split_and!; [done | done | | | done].
    + split; [lia |]. exists p, impl. by replace (Z.to_nat (Z.of_nat c + 2 - 2)) with c by lia.
    + destruct Hcon as (v & Hv & _). by eapply Hw.
  - destruct (conn_made_resolves k pid p impl c i s Hpage Hcm Hs) as [Hr Ho]. split_and!; [| done | done | by eapply Hw | done].
    destruct Hs as (sv & Hi & _). apply lookup_lt_Some in Hi. eapply conn_made_ok; [done | done |]. intros x [= <-]. lia.
  - split_and!; try done. right. split; [done |]. intros (p' & impl' & c & Hpg & Hc).
    destruct (client_page_fun _ _ _ _ _ _ Hpage Hpg) as [-> ->]. by destruct (Hfull c).
  - split_and!; try done. left. split; [done |]. intros [i Hi]. by destruct (Hs i).
Qed.
End Kernel.

(** ** From a name to a server *)

Section Names.
Context {M : Type} {HM : MemOps M}.
Context (own_sidx : Z) (Hsidx : 0 <= own_sidx < 256).
Context (iter : CheckedHashMap -> list (list Z * Connection)) (Hiter : forall t, iter t ≡ₚ map_to_list t).
Context (ids : nat -> SID) (Hids : forall i j, ids i = ids j -> i = j) (codec : Codec).

Implicit Type x : NameServer (Kernel M).

(** In the address space of the client the kernel finds under this connection number
    a server with the identifier. *)
Definition leads_to (k : Kernel M) (pid cid : Z) (s : SID) : Prop :=
  exists p idx, found k pid p
    /\ sidx_from_cid cid (in_space k pid p) = ROk (in_space k pid p) (Some (Z.of_nat idx)) /\ serves (servers k) idx s.

Lemma resolves_target (k : Kernel M) pid cid s : kernel_resolves k pid cid s -> leads_to k pid cid s.
Proof.
  intros (Hc & p & impl & Hpg & Hcon).
  destruct (connects_target (servers k) _ _ _ (cp_map _ _ _ _ Hpg) Hcon) as (i & E & Hs). exists p, i.
  rewrite (sidx_from_cid_run _ _ _ (in_space_page _ _ _ _ Hpg)).
  split_and!; [by eapply cp_found | | done]. do 2 f_equal. rewrite <- E. cbn. f_equal. lia.
Qed.

#[local] Abbreviation step := (names_step own_sidx iter ids codec).
#[local] Abbreviation reachable := (names_reachable own_sidx iter ids codec).
#[local] Abbreviation pre := (names_pre own_sidx ids codec).

(** C8. From a name to a server.  A client asks for a name of 1 to 63 bytes of text
    through the library; the name server runs on the kernel and receives the request
    under the conditions of [names_pre].  When it answers in this turn with a
    connection, the name is registered, the answer goes to the process of the client,
    and in its address space the kernel finds under this number a server with the
    identifier that the name is registered for. *)
Theorem name_leads_to_server i q rest addr name others x :
  reachable x -> pending (port_queue (port x)) = (i, q) :: rest ->
  p_msg q = connect_message addr name -> name <> [] -> (length name < NAME_LEN)%nat -> from_utf8 name = true ->
  pre (N_turn (connect_page name) others) x ->
  returns (step (N_turn (connect_page name) others) x) (fun x' _ =>
    forall a cid, port_answers (port x') = port_answers (port x) ++ [a] -> connect_response (pa_bytes a) = Ok cid ->
      pa_pid a = p_pid q /\ exists c, name_table x !! name = Some c /\ leads_to (kernel x') (p_pid q) cid (sid c)).
Proof.
  intros Hx Hq Hm Hne Hl Hu Hpre. apply names_reachable_ok in Hx; [| done..].
  eapply returns_mono; [by eapply connection_resolves |]. intros x' [] H a cid Ha Hr.
  destruct (H a cid Ha Hr) as (Hp & c & Hc & Hres). split; [done |]. exists c. split; [done |]. by apply resolves_target.
Qed.

(** The answer of a client that waited, and what it reads there. *)
Definition woken (k : Kernel M) (s : SID) (r : Request) (a : PortAnswer) : Prop :=
  pa_slot a = req_slot r /\ MessageSender_pid (env_sender (req_env r)) = Some (pa_pid a)
  /\ forall cid, connect_response (pa_bytes a) = Ok cid -> leads_to k (pa_pid a) cid s.

Lemma waiter_woken k s tok r a :
  (24 <= length (req_bytes r))%nat -> waiter_answer (fun pid cid => kernel_resolves k pid cid s) tok r a -> woken k s r a.
Proof.
  intros Hl Ha. split_and!.
  - by destruct Ha as (pid & tid & _ & [(bytes & _ & ->) | (cid & _ & _ & bytes & _ & ->)]).
  - destruct Ha as (pid & tid & Hp & Ha). rewrite Hp.
    by destruct Ha as [(bytes & _ & ->) | (cid & _ & _ & bytes & _ & ->)].
  - intros cid Hr. apply resolves_target. exact (waiter_connection _ tok r a cid Hl Ha Hr).
Qed.

(** C27. From a name to a server, for clients that wait.  A server registers a name that
    is not registered, under the conditions of [names_pre]: the limit covers the
    clients that wait for the name, and the server gets made.  No process breaks a
    connection to the new server during the turn.  Then every client that waits for
    the name gets an answer in its own slot and its own process, the last one first,
    and when it reads a connection number there, the kernel finds under this number,
    in the address space of the client, a server with the identifier that was given to
    the name. *)
Theorem waiting_name_leads_to_server i q rest bytes others reg nm x :
  let s := ids (next_id x) in
  reachable x -> pending (port_queue (port x)) = (i, q) :: rest -> Message_id (p_msg q) = 0 ->
  to_registration codec (mk_Request (envelope own_sidx i q) bytes) = Some reg ->
  XousServerName_from_str (reg_name reg) = Some nm -> name_table x !! name_bytes nm = None ->
  pre (N_turn bytes others) x -> Forall (keeps s) others ->
  returns (step (N_turn bytes others) x) (fun x' _ =>
    (exists c, name_table x' !! name_bytes nm = Some c /\ sid c = s)
    /\ exists first l, port_answers (port x') = port_answers (port x) ++ first ++ l
       /\ Forall2 (woken (kernel x') s) (rev (List.filter (waits_for (name_bytes nm)) (waiting_connections x))) l).
Proof.
  intros s Hx Hq Hid Hreg Hnm Hc Hpre Hk. apply names_reachable_ok in Hx; [| done..].
  eapply returns_mono; [by eapply (register_run own_sidx Hsidx iter Hiter ids Hids codec i q rest bytes others reg nm) |].
  intros x' [] ((c & Hc' & Es & _) & _ & _ & first & l & El & _ & Hl). split; [by exists c |]. exists first, l. split; [done |].
  assert (Hroom : forall r, r ∈ rev (List.filter (waits_for (name_bytes nm)) (waiting_connections x)) -> (24 <= length (req_bytes r))%nat).
  { intros r [Hr _]%list_elem_of_In%in_rev%List.filter_In. pose proof (no_waiting _ _ _ Hx) as Hw.
    rewrite List.Forall_forall in Hw. by destruct (Hw r Hr) as (_ & m & n & _ & ? & _). }
  clear El. revert Hroom. induction Hl as [| r a rs as' Ha _ IH]; intros Hroom; constructor.
  - apply (waiter_woken _ _ (Some (ids (S (next_id x))))); [apply Hroom; left |].
    eapply waiter_answer_mono; [| exact Ha]. intros pid cid H. by apply H.
  - apply IH. intros r' Hr'. apply Hroom. by right.
Qed.

(** C28. From a name to a server, for lookups.  A client looks a name up and has room for
    a connection ([names_pre]).  It gets one answer, in its own process.  When the name
    is registered and its server is not full, the answer is the record with a
    connection number and the token of the name, and the kernel finds under this
    number, in the address space of the client, a server with the identifier that the
    name is registered for; otherwise it is a challenge with a new identifier. *)
Theorem lookup_leads_to_server i q m rest bytes others src nm x :
  let r := mk_Request (envelope own_sidx i q) bytes in
  reachable x -> pending (port_queue (port x)) = (i, q) :: rest -> p_msg q = MutableBorrow m -> mm_id m = 1 ->
  to_string codec r = Some src -> XousServerName_from_str src = Some nm -> pre (N_turn bytes others) x ->
  returns (step (N_turn bytes others) x) (fun x' _ =>
    exists a, port_answers (port x') = port_answers (port x) ++ [a]
      /\ match name_table x !! name_bytes nm with
         | Some c =>
             if is_full c then record_answer codec (Return_AuthenticateRequest src (ids (next_id x))) r a
             else exists cid, record_answer codec (Return_CID cid (token c)) r a /\ leads_to (kernel x') (p_pid q) cid (sid c)
         | None => record_answer codec (Return_AuthenticateRequest src (ids (next_id x))) r a
         end).
Proof.
  intros r Hx Hq Hm Hid Hsrc Hnm Hpre. apply names_reachable_ok in Hx; [| done..].
  eapply returns_mono; [by eapply (name_lookup_run own_sidx Hsidx iter ids codec i q m rest bytes others src nm) |].
  intros x' [] (l & El & Hl). fold r in Hl. rewrite El.
  assert (Hb : env_body (req_env r) = MutableBorrow m) by (cbn; unfold delivered; by rewrite Hm).
  destruct (name_table x !! name_bytes nm) as [c |]; [destruct (is_full c) |].
  - destruct (Hl m Hb) as (a & -> & Ha). by exists a.
  - destruct Hl as (cid & Hres & Hl & _). destruct (Hl m Hb) as (a & -> & Ha). exists a. split; [done |]. exists cid.
    split; [done |]. by apply resolves_target.
  - destruct (Hl m Hb) as (a & -> & Ha). by exists a.
Qed.
End Names.

(** ** An example *)

Definition server_ids (n : nat) : SID := mk_SID 1 2 3 (Z.of_nat n + 4).

Lemma server_ids_inj i j : server_ids i = server_ids j -> i = j.
Proof. intros [= H]. lia. Qed.

Lemma example_found pid p :
  found example_kernel pid p -> (pid = 1 \/ pid = 2 \/ pid = 3) /\ exists impl, client_page example_kernel pid p impl.
Proof.
  assert (Hcm : forall n, map_ok (length (servers example_kernel)) (connection_map (inner (example_impl n)))).
  { intros n c v Hv. by apply (lookup_replicate_1 32) in Hv as [? _]. }
  intros (E & Hm & Hf). destruct (pid_index pid) as [| [| [| n]]] eqn:Ei; cbn in E.
  4: { apply (lookup_replicate_1 61) in E as [-> _]. done. }
  all: injection E as <-; vm_compute in Hm; injection Hm as <-; (split; [lia |]).
  - exists (example_impl 1). by split; try apply Hcm; try apply Nat.leb_le.
  - exists (example_impl 2). by split; try apply Hcm; try apply Nat.leb_le.
  - exists (example_impl 3). by split; try apply Hcm; try apply Nat.leb_le.
Qed.

Lemma example_broker : broker_kernel example_kernel.
Proof.
  split.
  - reflexivity.
  - apply Nat.leb_le. reflexivity.
  - intros pid p Hf. by apply example_found.
  - exists (example_process 1 2 (Running 8)). split; [| reflexivity]. split_and!; reflexivity.
Qed.

(** A server registers a name; it exists already.  Then a client asks for it. *)
Definition kernel_events : list (NameEvent (K := Kernel Memory)) :=
  [ N_client 0 3 1 (MutableBorrow (mk_MemoryMessage 0 (mk_MemoryRange 16384 4096) None None)) (Some 12288);
    N_turn toy_name [];
    N_client 0 2 1 (connect_message 8192 toy_name) (Some 12288) ].

#[local] Abbreviation kernel_step := (names_step 1 toy_iter server_ids toy_codec).
#[local] Abbreviation kernel_reachable := (names_reachable 1 toy_iter server_ids toy_codec).

Definition kernel_run (n : nat) : NameServer (Kernel Memory) :=
  foldl (fun x e => match kernel_step e x with ROk x' _ => x' | _ => x end) (NameServer_init example_kernel) (take n kernel_events).

Lemma kernel_reachable_1 : kernel_reachable (kernel_run 1).
Proof.
  eapply (names_reachable_step _ _ _ _
    (N_client 0 3 1 (MutableBorrow (mk_MemoryMessage 0 (mk_MemoryRange 16384 4096) None None)) (Some 12288)) (NameServer_init example_kernel)).
  - apply names_reachable_init. exact example_broker.
  - cbn. unfold free_ticket, QUEUE_LEN, process_pid, MAX_PROCESS_COUNT. split_and!; try done; [lia | set_solver].
  - reflexivity.
Qed.

Lemma kernel_reachable_2 : kernel_reachable (kernel_run 2).
Proof.
  eapply (names_reachable_step _ _ _ _ (N_turn toy_name []) (kernel_run 1)); [exact kernel_reachable_1 | | reflexivity].
  split; [done |]. intros env p [= <- <-]. unfold request_pre. cbn [Message_id req_env env_body].
  split; [by eexists |]. split; [intros response; by repeat eexists |]. eexists _, _, 2. split; [done |].
  split; [reflexivity |]. split; [done |]. intros _. split; [done |]. exists false. split; [| constructor].
  split; [exact example_broker | done | done].
Qed.

Lemma kernel_reachable_3 : kernel_reachable (kernel_run 3).
Proof.
  eapply (names_reachable_step _ _ _ _ (N_client 0 2 1 (connect_message 8192 toy_name) (Some 12288)) (kernel_run 2));
    [exact kernel_reachable_2 | | reflexivity].
  cbn. unfold free_ticket, QUEUE_LEN, process_pid, MAX_PROCESS_COUNT. split_and!; try done; [lia | set_solver].
Qed.

(** The other processes leave the kernel as it is. *)
Lemma kernel_pre_3 : names_pre 1 server_ids toy_codec (N_turn (connect_page toy_name) [id]) (kernel_run 3).
Proof.
  split; [reflexivity |]. intros env p E.
  assert (Hb : exists s, env = mk_MessageEnvelope s (connect_message 8192 toy_name)).
  { vm_compute in E. injection E as <- <-. by eexists. }
  destruct Hb as [s ->]. clear E. unfold request_pre. cbn [req_env env_body connect_message Message_id mm_id].
  change (NameOpcode_from_usize BlockingConnect_id) with (Some Op_BlockingConnect). cbv iota.
  split_and!; [apply Nat.leb_le; by vm_compute | by vm_compute |].
  intros nm c pid Hn Hc _. exists true.
  assert (c = mk_Connection (mk_SID 1 2 3 4) 0 None false 0 (Some (mk_SID 1 2 3 5))) as ->.
  { vm_compute in Hn. injection Hn as <-. vm_compute in Hc. by injection Hc. }
  assert (Hs : has_server example_kernel (mk_SID 1 2 3 4)) by (exists 0%nat; by eexists).
  split.
  - split; [exact example_broker | done | done].
  - apply enough_made; [done | constructor].
Qed.

Definition kernel_client : pend := pend_of 2 1 (connect_message 8192 toy_name) (Some 12288).

Lemma name_leads_to_server_witness :
  returns (kernel_step (N_turn (connect_page toy_name) [id]) (kernel_run 3)) (fun x' _ =>
    forall a cid, port_answers (port x') = port_answers (port (kernel_run 3)) ++ [a] -> connect_response (pa_bytes a) = Ok cid ->
      pa_pid a = p_pid kernel_client
      /\ exists c, name_table (kernel_run 3) !! toy_name = Some c /\ leads_to (kernel x') (p_pid kernel_client) cid (sid c)).
Proof.
  refine (name_leads_to_server 1 _ toy_iter _ server_ids server_ids_inj toy_codec 0 kernel_client [] 8192 toy_name [id] (kernel_run 3)
            kernel_reachable_3 _ _ _ _ _ kernel_pre_3).
  - lia.
  - reflexivity.
  - by vm_compute.
  - reflexivity.
  - done.
  - unfold NAME_LEN. cbn. lia.
  - reflexivity.
Defined.

(** The other way round: the client asks first, and waits until the server registers. *)
Definition register_message : Message := MutableBorrow (mk_MemoryMessage 0 (mk_MemoryRange 16384 4096) None None).

Definition waiting_events : list (NameEvent (K := Kernel Memory)) :=
  [ N_client 0 2 1 (connect_message 8192 toy_name) (Some 12288);
    N_turn (connect_page toy_name) [];
    N_client 1 3 1 register_message (Some 12288) ].

Definition waiting_run (n : nat) : NameServer (Kernel Memory) :=
  foldl (fun x e => match kernel_step e x with ROk x' _ => x' | _ => x end) (NameServer_init example_kernel) (take n waiting_events).

Lemma waiting_reachable_2 : kernel_reachable (waiting_run 2).
Proof.
  assert (H1 : kernel_reachable (waiting_run 1)).
  { eapply (names_reachable_step _ _ _ _ (N_client 0 2 1 (connect_message 8192 toy_name) (Some 12288)) (NameServer_init example_kernel)).
    - apply names_reachable_init. exact example_broker.
    - cbn. unfold free_ticket, QUEUE_LEN, process_pid, MAX_PROCESS_COUNT. split_and!; try done; [lia | set_solver].
    - reflexivity. }
  eapply (names_reachable_step _ _ _ _ (N_turn (connect_page toy_name) []) (waiting_run 1)); [exact H1 | | reflexivity].
  split; [done |]. intros env p [= <- <-]. unfold request_pre. cbn [Message_id req_env env_body].
  split_and!; [apply Nat.leb_le; by vm_compute | by vm_compute |]. intros nm c pid _ Hc. cbn in Hc. by rewrite lookup_empty in Hc.
Qed.

Lemma waiting_reachable_3 : kernel_reachable (waiting_run 3).
Proof.
  eapply (names_reachable_step _ _ _ _ (N_client 1 3 1 register_message (Some 12288)) (waiting_run 2));
    [exact waiting_reachable_2 | | reflexivity].
  cbn. unfold free_ticket, QUEUE_LEN, process_pid, MAX_PROCESS_COUNT. split_and!; try done; [lia | set_solver].
Qed.

Lemma waiting_pre_3 : names_pre 1 server_ids toy_codec (N_turn toy_name [id]) (waiting_run 3).
Proof.
  split; [reflexivity |]. intros env p E.
  assert (Hb : Message_id (env_body env) = 0 /\ is_mutable (mk_Request env toy_name)).
  { vm_compute in E. injection E as <- <-. split; [done | by eexists]. }
  destruct Hb as [Hb Hm]. clear E. unfold request_pre. cbn [req_env]. rewrite Hb. cbn [NameOpcode_from_usize]. split; [done |].
  split; [intros response; by repeat eexists |]. eexists _, _, 2. split; [done |]. split; [by vm_compute |].
  split; [done |]. intros _. split; [done |]. change (waiters_of _ _ _) with 1%nat. exists true.
  assert (Hs : has_server example_kernel (mk_SID 1 2 3 4)) by (exists 0%nat; by eexists). split.
  - split; [exact example_broker | done | done].
  - apply enough_made; [done | constructor].
Qed.

Definition toy_server_name : XousServerName :=
  match XousServerName_from_str toy_name with Some n => n | None => mk_XousServerName [] 0 end.

Definition waiting_server : pend := pend_of 3 1 register_message (Some 12288).

Lemma waiting_name_leads_to_server_witness :
  returns (kernel_step (N_turn toy_name [id]) (waiting_run 3)) (fun x' _ =>
    (exists c, name_table x' !! toy_name = Some c /\ sid c = mk_SID 1 2 3 4)
    /\ exists first l, port_answers (port x') = port_answers (port (waiting_run 3)) ++ first ++ l
       /\ Forall2 (woken (kernel x') (mk_SID 1 2 3 4)) (rev (List.filter (waits_for toy_name) (waiting_connections (waiting_run 3)))) l).
Proof.
  eapply (waiting_name_leads_to_server 1 ltac:(lia) toy_iter ltac:(reflexivity) server_ids server_ids_inj toy_codec 1 waiting_server []
            toy_name [id] (mk_Registration toy_name None) toy_server_name (waiting_run 3));
    [exact waiting_reachable_3 | by vm_compute | reflexivity | reflexivity | by vm_compute | by vm_compute | exact waiting_pre_3 |].
  apply Forall_cons. split; [by intros k pid cid | by apply Forall_nil].
Defined.

(** A client looks the name up. *)
Definition lookup_message : Message := MutableBorrow (mk_MemoryMessage 1 (mk_MemoryRange 8192 4096) None None).

Definition lookup_state : NameServer (Kernel Memory) :=
  match kernel_step (N_client 0 2 1 lookup_message (Some 12288)) (kernel_run 2) with ROk x' _ => x' | _ => kernel_run 2 end.

Lemma lookup_reachable : kernel_reachable lookup_state.
Proof.
  eapply (names_reachable_step _ _ _ _ (N_client 0 2 1 lookup_message (Some 12288)) (kernel_run 2));
    [exact kernel_reachable_2 | | reflexivity].
  cbn. unfold free_ticket, QUEUE_LEN, process_pid, MAX_PROCESS_COUNT. split_and!; try done; [lia | set_solver].
Qed.

Lemma lookup_pre : names_pre 1 server_ids toy_codec (N_turn toy_name [id]) lookup_state.
Proof.
  split; [reflexivity |]. intros env p E.
  assert (Hb : Message_id (env_body env) = 1 /\ is_mutable (mk_Request env toy_name)
               /\ MessageSender_pid (env_sender env) = Some 2).
  { vm_compute in E. injection E as <- <-. split; [done | split; [by eexists | by vm_compute]]. }
  destruct Hb as (Hb & Hm & Hp). clear E. unfold request_pre. cbn [req_env]. rewrite Hb. cbn [NameOpcode_from_usize]. split; [done |].
  split; [intros response; by repeat eexists |]. eexists _, _. split; [done |]. split; [by vm_compute |].
  intros c pid Hc _ Hpid. assert (pid = 2) as -> by congruence. exists true.
  assert (c = mk_Connection (mk_SID 1 2 3 4) 0 None false 0 (Some (mk_SID 1 2 3 5))) as -> by (vm_compute in Hc; by injection Hc).
  assert (Hs : has_server example_kernel (mk_SID 1 2 3 4)) by (exists 0%nat; by eexists).
  assert (Hr : has_room example_kernel 2).
  { assert (Hf : found example_kernel 2 (example_process 2 2 (Ready 4))) by (split_and!; reflexivity).
    destruct (example_found 2 _ Hf) as (_ & impl & Hpg). eexists _, impl, 0%nat. split; [exact Hpg |].
    pose proof (cp_impl _ _ _ _ Hpg) as Hi. vm_compute in Hi. by injection Hi as <-. }
  split; [split; [exact example_broker | done | done] |]. apply enough_made; [done | constructor].
Qed.

Definition lookup_client : pend := pend_of 2 1 lookup_message (Some 12288).

Lemma lookup_leads_to_server_witness :
  returns (kernel_step (N_turn toy_name [id]) lookup_state) (fun x' _ =>
    exists a, port_answers (port x') = port_answers (port lookup_state) ++ [a]
      /\ exists cid, record_answer toy_codec (Return_CID cid (Some (mk_SID 1 2 3 5))) (mk_Request (envelope 1 0 lookup_client) toy_name) a
           /\ leads_to (kernel x') 2 cid (mk_SID 1 2 3 4)).
Proof.
  eapply (lookup_leads_to_server 1 ltac:(lia) toy_iter ltac:(reflexivity) server_ids server_ids_inj toy_codec 0 lookup_client
            (mk_MemoryMessage 1 (mk_MemoryRange 8192 4096) None None) [] toy_name [id] toy_name toy_server_name lookup_state);
    [exact lookup_reachable | by vm_compute | reflexivity | reflexivity | reflexivity | by vm_compute | exact lookup_pre].
Defined.
